(** * TrainingRunner: a shallow embedding of
    orttraining/models/runner/training_runner.cc

    The orchestrator is modelled with explicit state passing.  Unsigned
    64-bit counters ([size_t]) are integers of [Z] with the wrap-around of
    [++] written out; [int] values are integers of [Z]; the string-keyed
    property map of a checkpoint is a [gmap string string].  The
    collaborators whose code lives outside this translation unit (loss
    scaler, data loader, pipeline schedule, execution session, checkpoint
    files) are interfaces: type classes whose operations the runner calls. *)

From stdpp Require Import gmap strings list.
From Stdlib Require Import ZArith Lia Ascii String.

Local Open Scope Z_scope.

(** ** Machine integers *)

Definition SIZE_MAX : Z := 2 ^ 64 - 1.

(** [size_t] arithmetic is modulo 2^64. *)
Definition wrap64 (z : Z) : Z := z mod 2 ^ 64.

(** An [int] converted to [size_t], as the usual arithmetic conversions do
    for the right operand of [size_t % int]: a negative [i] becomes
    [2^64 + i], any other value is kept. *)
Definition size_t_of_int (i : Z) : Z := if i <? 0 then i + 2 ^ 64 else i.

(** [static_cast<int>(n)] of a [size_t]: the low 32 bits, read as signed. *)
Definition int_of_size_t (n : Z) : Z := (n + 2 ^ 31) mod 2 ^ 32 - 2 ^ 31.

Definition is_size_t (z : Z) : Prop := 0 <= z <= SIZE_MAX.

(** ** Status, exceptions and undefined behaviour *)

(** [onnxruntime::common::Status]: OK, or an error with its message. *)
Inductive Status : Type :=
| OK
| Error (msg : string).

Definition IsOK (st : Status) : bool :=
  match st with OK => true | Error _ => false end.

(** How a call ends: it completes with a value; it returns a non-OK
    [Status] (ORT_RETURN_IF and friends); it throws (ORT_ENFORCE,
    ORT_THROW_IF_ERROR); the process is ended by [std::terminate], because
    an exception has left a thread of the worker pool; its behaviour is
    undefined (a division by zero, an index out of range, a null
    dereference); or the model ran out of fuel for the one unbounded
    loop. *)
Inductive Outcome (A : Type) : Type :=
| Ret (a : A)
| Returned (msg : string)
| Thrown (msg : string)
| Terminated (msg : string)
| Undefined
| OutOfFuel.
Arguments Ret {A} a.
Arguments Returned {A} msg.
Arguments Thrown {A} msg.
Arguments Terminated {A} msg.
Arguments Undefined {A}.
Arguments OutOfFuel {A}.

(** Re-type an outcome that is known not to carry a value. *)
Definition propagate {A B : Type} (o : Outcome A) : Outcome B :=
  match o with
  | Ret _ => Undefined
  | Returned m => Returned m
  | Thrown m => Thrown m
  | Terminated m => Terminated m
  | Undefined => Undefined
  | OutOfFuel => OutOfFuel
  end.

(** A computation over a mutable state [S]: the state at the point where
    the call ended is always available. *)
Definition M (S A : Type) : Type := S -> Outcome A * S.

Definition ret {S A : Type} (a : A) : M S A := fun s => (Ret a, s).

Definition bind {S A B : Type} (m : M S A) (k : A -> M S B) : M S B :=
  fun s =>
    match m s with
    | (Ret a, s') => k a s'
    | (o, s') => (propagate o, s')
    end.

Definition fail {S A : Type} (o : Outcome A) : M S A := fun s => (o, s).
Definition get {S : Type} : M S S := fun s => (Ret s, s).
Definition modify {S : Type} (f : S -> S) : M S unit := fun s => (Ret tt, f s).

Notation "'let*' x := m 'in' k" := (bind m (fun x => k))
  (at level 10, x pattern, m at level 100, k at level 200).
Notation "m ;;; k" := (bind m (fun _ => k))
  (at level 100, k at level 200, right associativity).

(** [ORT_RETURN_IF_ERROR(st)]. *)
Definition ORT_RETURN_IF_ERROR {S : Type} (st : Status) : M S unit :=
  match st with OK => ret tt | Error m => fail (Returned m) end.

(** [ORT_RETURN_IF(cond, msg)]. *)
Definition ORT_RETURN_IF {S : Type} (cond : bool) (msg : string) : M S unit :=
  if cond then fail (Returned msg) else ret tt.

(** [ORT_THROW_IF_ERROR(st)]. *)
Definition ORT_THROW_IF_ERROR {S : Type} (st : Status) : M S unit :=
  match st with OK => ret tt | Error m => fail (Thrown m) end.

(** [a % b] on [size_t]: undefined when [b] is zero. *)
Definition size_t_mod {S : Type} (a b : Z) : M S Z :=
  if b =? 0 then fail Undefined else ret (a mod b).

(** [v.empty()] for a string and for a vector. *)
Definition str_empty (s : string) : bool :=
  match s with EmptyString => true | String _ _ => false end.

Definition vec_empty {A : Type} (l : list A) : bool :=
  match l with [] => true | _ :: _ => false end.

(** [std::find(first, last, name) != last]. *)
Definition contains (l : list string) (name : string) : bool :=
  existsb (String.eqb name) l.

(** ** [std::to_string] and [FromString] on [size_t] *)

Definition digit_char (d : Z) : ascii := ascii_of_nat (48 + Z.to_nat d).

(** Decimal digits of [n], most significant first, in front of [acc]. *)
Fixpoint to_string_digits (fuel : nat) (n : Z) (acc : string) : string :=
  match fuel with
  | O => acc
  | S fuel' =>
      let acc' := String (digit_char (n mod 10)) acc in
      if n / 10 =? 0 then acc' else to_string_digits fuel' (n / 10) acc'
  end.

(** [std::to_string(val)] for an unsigned 64-bit [val]: at most 20 digits,
    no sign, no leading zero. *)
Definition to_string (val : Z) : string := to_string_digits 20 val EmptyString.

Definition digit_val (c : ascii) : option Z :=
  let n := Z.of_nat (nat_of_ascii c) in
  if (48 <=? n) && (n <=? 57) then Some (n - 48) else None.

(** [std::isspace] in the classic locale. *)
Definition is_space (c : ascii) : bool :=
  let n := Z.of_nat (nat_of_ascii c) in
  (n =? 32) || ((9 <=? n) && (n <=? 13)).

Fixpoint skip_ws (s : string) : string :=
  match s with
  | String c s' => if is_space c then skip_ws s' else s
  | EmptyString => EmptyString
  end.

(** The digits at the front of [s]: their number, their value after [acc],
    and what follows them. *)
Fixpoint read_digits (s : string) (count : nat) (acc : Z) : nat * Z * string :=
  match s with
  | String c s' =>
      match digit_val c with
      | Some d => read_digits s' (S count) (acc * 10 + d)
      | None => (count, acc, s)
      end
  | EmptyString => (count, acc, EmptyString)
  end.

(** [i >> t] for [size_t t] on a fresh [std::istringstream i{s}]: leading
    white space is skipped, an optional sign and decimal digits are read;
    the extraction fails without a digit or when the value does not fit. A
    leading minus negates within the unsigned type, as [strtoull] does.
    The result is the value and the unread rest of the stream. *)
Definition extract_size_t (s : string) : option (Z * string) :=
  let s1 := skip_ws s in
  let '(negative, s2) :=
    match s1 with
    | String "-"%char s' => (true, s')
    | String "+"%char s' => (false, s')
    | _ => (false, s1)
    end in
  let '(count, v, rest) := read_digits s2 O 0 in
  match count with
  | O => None
  | S _ =>
      if v <=? SIZE_MAX
      then Some (if negative then wrap64 (- v) else v, rest)
      else None
  end.

(** [FromString(s, t)]: [ORT_RETURN_IF_NOT(i >> t && i.eof())].  The end of
    the stream has been hit exactly when nothing follows the digits. *)
Definition FromString (s : string) : option Z :=
  match extract_size_t s with
  | Some (v, EmptyString) => Some v
  | _ => None
  end.

(** ** Values, enumerations and configuration *)

(** A [float] is carried as its IEEE-754 binary32 bit pattern: the runner
    only moves such values around. *)
Definition float32 : Type := Z.
Definition float_1_0 : float32 := 1065353216. (* 0x3F800000, 1.0f *)
Definition float_0_0 : float32 := 0.          (* 0.0f *)

(** [OrtValue] / [MLValue], as far as the runner builds or inspects one. *)
Inductive OrtValue : Type :=
| FloatTensor (dims : list Z) (data : list float32)
| Int64Scalar (v : Z)
| BoolTensor (data : list bool)
| OtherValue (id : Z).

(** [TrainingUtil::CreateCpuMLValue({1}, std::vector<float>{v}, ...)]. *)
Definition CreateCpuMLValue_1 (v : float32) : OrtValue := FloatTensor [1] [v].
(** [TrainingUtil::CreateCpuMLScalar(id, ...)]. *)
Definition CreateCpuMLScalar (id : Z) : OrtValue := Int64Scalar id.

Inductive SessionMode : Type :=
| ModelUpdateStep
| GradientAccumulateStep
| EvaluateStep.

Definition is_EvaluateStep (mode : SessionMode) : bool :=
  match mode with EvaluateStep => true | _ => false end.

Inductive OptimizerOutputKey : Type :=
| GradientAccumulation
| GradientAllIsFinite
| DeltaAllIsFinite.

#[global] Instance OptimizerOutputKey_eq_dec : EqDecision OptimizerOutputKey.
Proof. solve_decision. Defined.

#[global] Instance OptimizerOutputKey_countable : Countable OptimizerOutputKey.
Proof.
  refine (inj_countable'
            (fun k => match k with
                      | GradientAccumulation => 0%nat
                      | GradientAllIsFinite => 1%nat
                      | DeltaAllIsFinite => 2%nat
                      end)
            (fun n => match n with
                      | 0%nat => GradientAccumulation
                      | 1%nat => GradientAllIsFinite
                      | _ => DeltaAllIsFinite
                      end) _).
  intros []; reflexivity.
Defined.

(** The eight pipeline events fed to a stage, in the order the runner
    feeds them. *)
Inductive EventKind : Type :=
| ForwardWaited
| ForwardWaitedAfterRecv
| ForwardRecordedBeforeSend
| ForwardRecorded
| BackwardWaited
| BackwardWaitedAfterRecv
| BackwardRecordedBeforeSend
| BackwardRecorded.

(** The fields of [TrainingRunner::Parameters] that the modelled functions
    read.  A callback ([std::function]) is present or absent; calling it is
    an event of the log. *)
Module Parameters.
Record t : Type := {
    model_path : string;
    weights_to_train : list string;
    weights_not_to_train : list string;
    training_optimizer_name : string;
    deepspeed_zero_stage : Z;
    use_nccl : bool;
    num_train_steps : Z;
    gradient_accumulation_steps : Z;
    pipeline_parallel_size : Z;
    batch_size : Z;
    eval_batch_size : Z;
    fetch_names : list string;
    use_mixed_precision : bool;
    use_adasum : bool;
    is_perf_test : bool;
    display_loss_steps : Z;
    error_function : bool;
    post_evaluation_callback : bool;
    shuffle_data : bool;
    do_eval : bool;
    evaluation_period : Z;
    skip_evaluation : bool;
    checkpoint_period : Z;
    world_rank : Z;
    lr_feed_name : string;
    perf_output_dir : string
  }.
End Parameters.

(** [pipeline_context_]. *)
Module PipelineContext.
Record t : Type := {
    pipeline_stage_id : Z;
    num_pipeline_batches : Z;
    feed_names : list string;
    fetch_names : list string;
    forward_waited_event_name : string;
    forward_waited_event_after_recv_name : string;
    forward_recorded_event_before_send_name : string;
    forward_recorded_event_name : string;
    backward_waited_event_name : string;
    backward_waited_event_after_recv_name : string;
    backward_recorded_event_before_send_name : string;
    backward_recorded_event_name : string;
    forward_wait_output_name : string;
    forward_record_output_name : string;
    backward_wait_output_name : string;
    backward_record_output_name : string
  }.

  (** A default-constructed context: every name empty. *)
Definition empty : t :=
    Build_t 0 0 [] [] EmptyString EmptyString EmptyString EmptyString
            EmptyString EmptyString EmptyString EmptyString
            EmptyString EmptyString EmptyString EmptyString.
End PipelineContext.

(** One slot of the worker pool: the buffers a dispatched run reads and
    writes. *)
Module WorkerState.
Record t : Type := {
    feed_names : list string;
    feeds : list OrtValue;
    fetch_names : list string;
    fetches : list OrtValue
  }.
Definition empty : t := Build_t [] [] [] [].
End WorkerState.

(** Modelled from the spec: the worker pool (its class is declared in
    pipeline.h).  [workers] holds, per slot, whether a thread is
    outstanding (joinable); exactly [pipeline_parallel_size] slots exist.
    [uncaught] holds, per slot, the message of an exception that has left
    the thread of the slot.  Such an exception ends the process
    ([std::terminate]) at some time of the thread's choosing; the model
    reports it where the slot is joined, the last point that the caller
    can still reach. *)
Module WorkerPool.
Record t : Type := {
    workers : list bool;
    worker_states : list WorkerState.t;
    uncaught : gmap nat string
  }.
Definition make (num_workers : Z) : t :=
    Build_t (replicate (Z.to_nat num_workers) false)
            (replicate (Z.to_nat num_workers) WorkerState.empty)
            ∅.
End WorkerPool.

(** ** What the runner does, as seen from outside *)

(** Which [session.Run] a dispatch belongs to. *)
Inductive RunTag : Type :=
| TrainingRun (step : Z)
| EvaluationRun (step : Z) (batch_idx : Z).

Inductive Buffer : Type :=
| buf_feed_names
| buf_feeds
| buf_fetch_names
| buf_fetches.

Inductive Event : Type :=
| EvJoin (worker_id : Z)
    (* pipeline_worker_pool_.Join(worker_id) *)
| EvAssign (worker_id : Z) (b : Buffer)
    (* pipeline_worker_pool_.worker_states[worker_id].<b> = ... *)
| EvLaunch (worker_id : Z) (tag : RunTag)
    (* pipeline_worker_pool_.workers[worker_id] = std::thread(...) *)
| EvSessionRun (tag : RunTag) (only_execute_path_to_fetches : bool)
               (feed_names : list string) (fetch_names : list string)
    (* session.Run(run_options, feed_names, feeds, fetch_names, &fetches) *)
| EvErrorFunction (tag : RunTag)
    (* params_.error_function(...) *)
| EvPostEvaluationCallback (tag : RunTag)
    (* params_.post_evaluation_callback(...) *)
| EvSkippingShard (index : Z)
    (* printf("Skipping shard at index %d, which failed to load.\n", ...) *)
| EvSaveCheckpoint (weight_update_step : Z).
    (* SaveCheckpoint(new_checkpoint_path) *)

(** ** Collaborators *)

(** The loss scaler (class LossScaler, declared in loss_scaler.h). *)
Class LossScalerI : Type := {
  LossScaler : Type;
  GetLossScaleInputName : LossScaler -> string;
  GetLossScale : LossScaler -> float32;
  UpdateLossScale : LossScaler -> bool -> LossScaler;
  SaveToString : LossScaler -> string;
  LoadFromString : LossScaler -> string -> Status * LossScaler
}.

(** Data sets and data loaders (DataSet and the interface IDataLoader,
    declared in data_loader.h).  [CurrentDataSet] is [None] for the null
    pointer of a shard that failed to load. *)
Class DataLoaderI : Type := {
  DataSet : Type;
  TotalBatch : DataSet -> Z -> Z;
  GetKthBatch : DataSet -> Z -> Z -> list OrtValue;
  RandomShuffle : DataSet -> DataSet;
  IDataLoader : Type;
  InitializeDataSetIndex : IDataLoader -> Z -> Status * IDataLoader;
  NumShards : IDataLoader -> Z;
  CurrentDataSet : IDataLoader -> option DataSet;
  CurrentDataSetIndex : IDataLoader -> Z;
  MoveToNextDataSet : IDataLoader -> IDataLoader;
  DataSetTensorNames : IDataLoader -> list string
}.

(** The execution session and the other services the loop calls.
    [session_Run] answers one [Run] call, told apart by its tag;
    [LearningRateScheduler_Create] is the scheduler made for a run ([None]
    for a null pointer), as its [GetLearningRate]; [eval_num_batches] is
    the float computation [size_t(ceil((float)e / (float)b))];
    [checkpoint_files] stands for the registry and file-system calls around
    a checkpoint save (AddCheckpoint, CreateFolder, GetStateTensors,
    SaveModelCheckpoint), [perf_metrics_files] for CreateFolder and
    SavePerfMetrics: each gives the first non-OK status, if any. *)
Class SessionI : Type := {
  session_Run : RunTag -> bool -> list string -> list OrtValue -> list string ->
                Status * list OrtValue;
  LearningRateScheduler_Create : Parameters.t -> option (Z -> float32);
  eval_num_batches : Z -> Z -> Z;
  checkpoint_files : Z -> gmap string string -> Status;
  perf_metrics_files : Z -> Z -> Z -> Status
}.

(** ** The runner *)

Section Runner.
Context `{LS : LossScalerI} `{DL : DataLoaderI} `{SE : SessionI}.

(** The members of [TrainingRunner] that the modelled functions use.
    [pipeline_schedule_] is the schedule object, as the function from an
    event kind, a stage and a slot to the event id its getters return.
    [checkpoint_registry_] tells whether the pointer is non-null.
    [current_batch] is the function-local [static] of [Evaluate]; [log]
    records, oldest first, what the runner has done. *)
Record TrainingRunner : Type := {
  step_ : Z;
  round_ : Z;
  weight_update_step_count_ : Z;
  training_data_set_index_ : Z;
  params_ : Parameters.t;
  loss_scaler_ : option LossScaler;
  opt_graph_outputs_ : gmap OptimizerOutputKey string;
  pipeline_context_ : PipelineContext.t;
  pipeline_schedule_ : EventKind -> Z -> Z -> Z;
  pipeline_worker_pool_ : WorkerPool.t;
  checkpoint_registry_ : bool;
  current_batch : Z;
  log : list Event
}.

Definition set_step_ (v : Z) (r : TrainingRunner) : TrainingRunner :=
  Build_TrainingRunner v (round_ r) (weight_update_step_count_ r)
    (training_data_set_index_ r) (params_ r) (loss_scaler_ r)
    (opt_graph_outputs_ r) (pipeline_context_ r) (pipeline_schedule_ r)
    (pipeline_worker_pool_ r) (checkpoint_registry_ r) (current_batch r) (log r).

Definition set_round_ (v : Z) (r : TrainingRunner) : TrainingRunner :=
  Build_TrainingRunner (step_ r) v (weight_update_step_count_ r)
    (training_data_set_index_ r) (params_ r) (loss_scaler_ r)
    (opt_graph_outputs_ r) (pipeline_context_ r) (pipeline_schedule_ r)
    (pipeline_worker_pool_ r) (checkpoint_registry_ r) (current_batch r) (log r).

Definition set_weight_update_step_count_ (v : Z) (r : TrainingRunner)
  : TrainingRunner :=
  Build_TrainingRunner (step_ r) (round_ r) v
    (training_data_set_index_ r) (params_ r) (loss_scaler_ r)
    (opt_graph_outputs_ r) (pipeline_context_ r) (pipeline_schedule_ r)
    (pipeline_worker_pool_ r) (checkpoint_registry_ r) (current_batch r) (log r).

Definition set_training_data_set_index_ (v : Z) (r : TrainingRunner)
  : TrainingRunner :=
  Build_TrainingRunner (step_ r) (round_ r) (weight_update_step_count_ r)
    v (params_ r) (loss_scaler_ r)
    (opt_graph_outputs_ r) (pipeline_context_ r) (pipeline_schedule_ r)
    (pipeline_worker_pool_ r) (checkpoint_registry_ r) (current_batch r) (log r).

Definition set_loss_scaler_ (v : option LossScaler) (r : TrainingRunner)
  : TrainingRunner :=
  Build_TrainingRunner (step_ r) (round_ r) (weight_update_step_count_ r)
    (training_data_set_index_ r) (params_ r) v
    (opt_graph_outputs_ r) (pipeline_context_ r) (pipeline_schedule_ r)
    (pipeline_worker_pool_ r) (checkpoint_registry_ r) (current_batch r) (log r).

Definition set_opt_graph_outputs_ (v : gmap OptimizerOutputKey string)
  (r : TrainingRunner) : TrainingRunner :=
  Build_TrainingRunner (step_ r) (round_ r) (weight_update_step_count_ r)
    (training_data_set_index_ r) (params_ r) (loss_scaler_ r)
    v (pipeline_context_ r) (pipeline_schedule_ r)
    (pipeline_worker_pool_ r) (checkpoint_registry_ r) (current_batch r) (log r).

Definition set_pipeline_worker_pool_ (v : WorkerPool.t) (r : TrainingRunner)
  : TrainingRunner :=
  Build_TrainingRunner (step_ r) (round_ r) (weight_update_step_count_ r)
    (training_data_set_index_ r) (params_ r) (loss_scaler_ r)
    (opt_graph_outputs_ r) (pipeline_context_ r) (pipeline_schedule_ r)
    v (checkpoint_registry_ r) (current_batch r) (log r).

Definition set_current_batch (v : Z) (r : TrainingRunner) : TrainingRunner :=
  Build_TrainingRunner (step_ r) (round_ r) (weight_update_step_count_ r)
    (training_data_set_index_ r) (params_ r) (loss_scaler_ r)
    (opt_graph_outputs_ r) (pipeline_context_ r) (pipeline_schedule_ r)
    (pipeline_worker_pool_ r) (checkpoint_registry_ r) v (log r).

Definition set_log (v : list Event) (r : TrainingRunner) : TrainingRunner :=
  Build_TrainingRunner (step_ r) (round_ r) (weight_update_step_count_ r)
    (training_data_set_index_ r) (params_ r) (loss_scaler_ r)
    (opt_graph_outputs_ r) (pipeline_context_ r) (pipeline_schedule_ r)
    (pipeline_worker_pool_ r) (checkpoint_registry_ r) (current_batch r) v.

(** Record one event. *)
Definition emit (e : Event) : M TrainingRunner unit :=
  modify (fun r => set_log (log r ++ [e]) r).

(** *** The constructor (lines 54-74) *)

(** Modelled from the spec: the constructor of the worker pool, which takes
    the number of slots as a [size_t] and allocates the slots.  A negative
    [pipeline_parallel_size] converts to at least [2^64 - 2^31] slots, more
    than a vector can hold: the allocation throws. *)
Definition WorkerPool_ctor (pipeline_parallel_size : Z) : Outcome WorkerPool.t :=
  if pipeline_parallel_size <? 0
  then Thrown "cannot create std::vector larger than max_size()"
  else Ret (WorkerPool.make pipeline_parallel_size).

(** The pool is built by a member initialiser, before the checks of the
    body.  In the last check the [int] [gradient_accumulation_steps] is
    converted to [size_t], the type of [num_train_steps]. *)
Definition TrainingRunner_ctor (params : Parameters.t) : Outcome TrainingRunner :=
  match WorkerPool_ctor (Parameters.pipeline_parallel_size params) with
  | Ret pool =>
  if str_empty (Parameters.model_path params)
  then Thrown "!params_.model_path.empty()"
  else if negb (vec_empty (Parameters.weights_to_train params))
          && negb (vec_empty (Parameters.weights_not_to_train params))
  then Thrown "params.weights_not_to_train.empty()"
  else if str_empty (Parameters.training_optimizer_name params)
  then Thrown "!params_.training_optimizer_name.empty()"
  else if negb (Parameters.deepspeed_zero_stage params =? 0)
          && negb (Parameters.use_nccl params)
  then Thrown "DeepSpeed ZeRO partitioning is only supported with NCCL distributed training."
  else if size_t_of_int (Parameters.gradient_accumulation_steps params) =? 0
  then Undefined
  else if negb (Parameters.num_train_steps params
                  mod size_t_of_int (Parameters.gradient_accumulation_steps params)
                =? 0)
  then Thrown "Number of training steps must be a multiple of number of gradient accumulation step."
  else Ret {| step_ := 0;
              round_ := 0;
              weight_update_step_count_ := 0;
              training_data_set_index_ := 0;
              params_ := params;
              loss_scaler_ := None;
              opt_graph_outputs_ := ∅;
              pipeline_context_ := PipelineContext.empty;
              pipeline_schedule_ := fun _ _ _ => 0;
              pipeline_worker_pool_ := pool;
              checkpoint_registry_ := false;
              current_batch := 0;
              log := [] |}
  | o => propagate o
  end.

(** *** Checkpoint properties (lines 1284-1342) *)

Definition k_step : string := "step".
Definition k_round : string := "round".
Definition k_weight_update_step : string := "weight_update_step".
Definition k_training_data_set_index : string := "training_data_set_index".
Definition k_loss_scaler_state : string := "loss_scaler_state".

(** The lambda [save_property]: [properties[name] = std::to_string(val)]. *)
Definition save_property (name : string) (val : Z)
  (properties : gmap string string) : gmap string string :=
  <[name := to_string val]> properties.

Definition SaveCheckpointProperties (r : TrainingRunner)
  (properties : gmap string string) : Status * gmap string string :=
  let properties := save_property k_step (step_ r) properties in
  let properties := save_property k_round (round_ r) properties in
  let properties :=
    save_property k_weight_update_step (weight_update_step_count_ r) properties in
  let properties :=
    save_property k_training_data_set_index (training_data_set_index_ r)
      properties in
  let properties :=
    match loss_scaler_ r with
    | Some ls => <[k_loss_scaler_state := SaveToString ls]> properties
    | None => properties
    end in
  (OK, properties).

(** The lambda [load_property]: the key must be there and its value must
    parse. *)
Definition load_property (properties : gmap string string) (name : string)
  : Outcome Z :=
  match properties !! name with
  | None => Returned "prop_it != properties.end()"
  | Some s =>
      match FromString s with
      | Some v => Ret v
      | None => Returned "i >> t && i.eof()"
      end
  end.

(** [LoadCheckpointProperties]: the runner after a load that returned OK;
    after a failed load the model says nothing about the members. *)
Definition LoadCheckpointProperties (properties : gmap string string)
  (r : TrainingRunner) : Outcome TrainingRunner :=
  match load_property properties k_step with
  | Ret v_step =>
    match load_property properties k_round with
    | Ret v_round =>
      match load_property properties k_weight_update_step with
      | Ret v_wus =>
        match load_property properties k_training_data_set_index with
        | Ret v_index =>
          let r := set_training_data_set_index_ v_index
                     (set_weight_update_step_count_ v_wus
                        (set_round_ v_round (set_step_ v_step r))) in
          match loss_scaler_ r with
          | Some ls =>
              match properties !! k_loss_scaler_state with
              | None => Returned "prop_it != properties.end()"
              | Some s =>
                  match LoadFromString ls s with
                  | (OK, ls') => Ret (set_loss_scaler_ (Some ls') r)
                  | (Error m, _) => Returned m
                  end
              end
          | None => Ret r
          end
        | o => propagate o
        end
      | o => propagate o
      end
    | o => propagate o
    end
  | o => propagate o
  end.

(** *** PrepareFeedNamesAndFeeds (lines 350-539) *)

(** The two output parameters [feed_names] and [feeds]; the caller sees
    what has been pushed even when the function returns an error. *)
Definition FeedBuf : Type := (list string * list OrtValue)%type.

Definition push_feed_name (name : string) : M FeedBuf unit :=
  modify (fun b => (b.1 ++ [name], b.2)).

Definition push_feed (v : OrtValue) : M FeedBuf unit :=
  modify (fun b => (b.1, b.2 ++ [v])).

(** [a % b] on [int]: the remainder of the truncated division; undefined
    for a zero divisor and for [INT_MIN % -1]. *)
Definition int_rem {S : Type} (a b : Z) : M S Z :=
  if (b =? 0) || ((a =? - 2 ^ 31) && (b =? -1)) then fail Undefined
  else ret (Z.rem a b).

(** The test guarding every feed taken from outside the pipeline events. *)
Definition feed_allowed (r : TrainingRunner) (name : string) : bool :=
  (Parameters.pipeline_parallel_size (params_ r) =? 1)
  || contains (PipelineContext.feed_names (pipeline_context_ r)) name.

(** The loop over [data_feed_names]; [i] is the index of the head of
    [names]. *)
Fixpoint data_feeds_loop (r : TrainingRunner) (names : list string) (i : nat)
  (data_feeds : list OrtValue) : M FeedBuf unit :=
  match names with
  | [] => ret tt
  | name :: names' =>
      (if feed_allowed r name
       then push_feed_name name ;;;
            match data_feeds !! i with
            | Some v => push_feed v
            | None => fail Undefined
            end
       else ret tt) ;;;
      data_feeds_loop r names' (S i) data_feeds
  end.

(** One of the eight event feeds: nothing for an empty name; otherwise the
    id is [-1] in evaluation and the schedule's id for the slot
    [static_cast<int>(step_) % num_pipeline_batches] in training. *)
Definition event_feed (r : TrainingRunner) (mode : SessionMode)
  (name : string) (kind : EventKind) : M FeedBuf unit :=
  if str_empty name then ret tt
  else
    ORT_RETURN_IF (Parameters.pipeline_parallel_size (params_ r) <=? 1)
      "Internal event name should be empty if there is no pipeline." ;;;
    push_feed_name name ;;;
    let* id :=
      (if is_EvaluateStep mode then ret (-1)
       else
         let* slot :=
           int_rem (int_of_size_t (step_ r))
             (PipelineContext.num_pipeline_batches (pipeline_context_ r)) in
         ret (pipeline_schedule_ r kind
                (PipelineContext.pipeline_stage_id (pipeline_context_ r)) slot))
    in
    push_feed (CreateCpuMLScalar id).

(** The feed from loss scaling. *)
Definition loss_scale_feed (r : TrainingRunner) (mode : SessionMode)
  : M FeedBuf unit :=
  match loss_scaler_ r with
  | Some ls =>
      let name := GetLossScaleInputName ls in
      if feed_allowed r name
      then
        push_feed_name name ;;;
        let loss_scale :=
          if is_EvaluateStep mode then float_1_0 else GetLossScale ls in
        push_feed (CreateCpuMLValue_1 loss_scale)
      else ret tt
  | None => ret tt
  end.

(** The feed from the learning-rate schedule. *)
Definition learning_rate_feed (r : TrainingRunner)
  (lr_scheduler : option (Z -> float32)) : M FeedBuf unit :=
  let name := Parameters.lr_feed_name (params_ r) in
  if feed_allowed r name
  then
    push_feed_name name ;;;
    let learning_rate :=
      match lr_scheduler with
      | Some GetLearningRate => GetLearningRate (wrap64 (step_ r + 1))
      | None => float_0_0
      end in
    push_feed (CreateCpuMLValue_1 learning_rate)
  else ret tt.

(** The eight event feeds, in source order. *)
Definition event_feeds (r : TrainingRunner) (mode : SessionMode)
  : M FeedBuf unit :=
  let pc := pipeline_context_ r in
  event_feed r mode (PipelineContext.forward_waited_event_name pc)
    ForwardWaited ;;;
  event_feed r mode (PipelineContext.forward_waited_event_after_recv_name pc)
    ForwardWaitedAfterRecv ;;;
  event_feed r mode (PipelineContext.forward_recorded_event_before_send_name pc)
    ForwardRecordedBeforeSend ;;;
  event_feed r mode (PipelineContext.forward_recorded_event_name pc)
    ForwardRecorded ;;;
  event_feed r mode (PipelineContext.backward_waited_event_name pc)
    BackwardWaited ;;;
  event_feed r mode (PipelineContext.backward_waited_event_after_recv_name pc)
    BackwardWaitedAfterRecv ;;;
  event_feed r mode (PipelineContext.backward_recorded_event_before_send_name pc)
    BackwardRecordedBeforeSend ;;;
  event_feed r mode (PipelineContext.backward_recorded_event_name pc)
    BackwardRecorded.

Definition PrepareFeedNamesAndFeeds (r : TrainingRunner) (mode : SessionMode)
  (training_data_loader : IDataLoader) (training_data : DataSet)
  (lr_scheduler : option (Z -> float32)) (batch_index : Z)
  : Outcome unit * FeedBuf :=
  (data_feeds_loop r (DataSetTensorNames training_data_loader) O
     (GetKthBatch training_data (Parameters.batch_size (params_ r)) batch_index)
   ;;;
   loss_scale_feed r mode ;;;
   learning_rate_feed r lr_scheduler ;;;
   event_feeds r mode)
    ([], []).

(** *** PrepareFetchNamesAndFetches (lines 541-633) *)

Definition push_fetch_name (name : string) : M (list string) unit :=
  modify (fun names => names ++ [name]).

(** The pipelined branch of the update and the evaluation modes: the
    user-declared names that belong to this stage. *)
Definition stage_fetch_names (r : TrainingRunner) : list string :=
  List.filter (contains (PipelineContext.fetch_names (pipeline_context_ r)))
    (Parameters.fetch_names (params_ r)).

(** [it = opt_graph_outputs_.find(key)], an error when it is the end,
    otherwise [fetch_names.push_back(it->second)]. *)
Definition push_optimizer_output (r : TrainingRunner)
  (key : OptimizerOutputKey) (msg : string) : M (list string) unit :=
  match opt_graph_outputs_ r !! key with
  | None => fail (Returned msg)
  | Some name => push_fetch_name name
  end.

Definition push_if_not_empty (name : string) : M (list string) unit :=
  if str_empty name then ret tt else push_fetch_name name.

(** The part of the function that depends on the mode (lines 550-624). *)
Definition mode_fetch_names (r : TrainingRunner) (mode : SessionMode)
  : M (list string) unit :=
  let p := params_ r in
  let pc := pipeline_context_ r in
  match mode with
  | ModelUpdateStep =>
      if 1 <? Parameters.pipeline_parallel_size p
      then modify (fun _ => stage_fetch_names r)
      else
        modify (fun _ => Parameters.fetch_names p) ;;;
        if Parameters.use_mixed_precision p
        then
          push_optimizer_output r GradientAllIsFinite
            "Gradient norm's IsFinite output is missing in the optimizer output" ;;;
          if Parameters.use_adasum p
          then push_optimizer_output r DeltaAllIsFinite
                 "Adasum delta's IsFinite output is missing in the optimizer output"
          else ret tt
        else ret tt
  | GradientAccumulateStep =>
      (if 1 <? Parameters.gradient_accumulation_steps p
       then push_optimizer_output r GradientAccumulation
              "Gradient accumulation output is missing in the optimizer output"
       else ret tt) ;;;
      if negb (Parameters.pipeline_parallel_size p =? 0)
      then
        push_if_not_empty (PipelineContext.forward_wait_output_name pc) ;;;
        push_if_not_empty (PipelineContext.forward_record_output_name pc) ;;;
        push_if_not_empty (PipelineContext.backward_wait_output_name pc) ;;;
        push_if_not_empty (PipelineContext.backward_record_output_name pc)
      else ret tt
  | EvaluateStep =>
      if 1 <? Parameters.pipeline_parallel_size p
      then modify (fun _ => stage_fetch_names r)
      else modify (fun _ => Parameters.fetch_names p)
  end.

(** The whole function: [fetch_names] starts empty, and is replaced by the
    allowed fetch names when the mode left it empty.  ([fetches] is always
    the empty vector.) *)
Definition PrepareFetchNamesAndFetches (r : TrainingRunner) (mode : SessionMode)
  : Outcome unit * list string :=
  (mode_fetch_names r mode ;;;
   let* fetch_names := get in
   if vec_empty fetch_names
   then modify (fun _ => PipelineContext.fetch_names (pipeline_context_ r))
   else ret tt)
    [].

(** *** The worker pool *)

Definition set_workers (v : list bool) (r : TrainingRunner) : TrainingRunner :=
  set_pipeline_worker_pool_
    (WorkerPool.Build_t v (WorkerPool.worker_states (pipeline_worker_pool_ r))
       (WorkerPool.uncaught (pipeline_worker_pool_ r))) r.

Definition set_worker_states (v : list WorkerState.t) (r : TrainingRunner)
  : TrainingRunner :=
  set_pipeline_worker_pool_
    (WorkerPool.Build_t (WorkerPool.workers (pipeline_worker_pool_ r)) v
       (WorkerPool.uncaught (pipeline_worker_pool_ r))) r.

Definition set_uncaught (v : gmap nat string) (r : TrainingRunner)
  : TrainingRunner :=
  set_pipeline_worker_pool_
    (WorkerPool.Build_t (WorkerPool.workers (pipeline_worker_pool_ r))
       (WorkerPool.worker_states (pipeline_worker_pool_ r)) v) r.

(** Modelled from the spec: [WorkerPool::Join(worker_id)] retires the
    slot's outstanding execution, if any, and does nothing otherwise.  A
    slot that does not exist is an index out of range.  When an exception
    has left the thread of the slot, the process has ended by the time the
    thread is joined: the call does not come back, which the model gives
    as [Terminated] with the message of that exception. *)
Definition Join (worker_id : Z) : M TrainingRunner unit :=
  emit (EvJoin worker_id) ;;;
  let* r := get in
  let workers := WorkerPool.workers (pipeline_worker_pool_ r) in
  match workers !! Z.to_nat worker_id with
  | None => fail Undefined
  | Some _ =>
      match WorkerPool.uncaught (pipeline_worker_pool_ r) !! Z.to_nat worker_id with
      | Some msg => fail (Terminated msg)
      | None => modify (set_workers (<[Z.to_nat worker_id := false]> workers))
      end
  end.

Fixpoint join_from (n : nat) (worker_id : Z) : M TrainingRunner unit :=
  match n with
  | O => ret tt
  | S n' => Join worker_id ;;; join_from n' (worker_id + 1)
  end.

(** Modelled from the spec: [WorkerPool::JoinAll()] joins every slot. *)
Definition JoinAll : M TrainingRunner unit :=
  let* r := get in
  join_from (List.length (WorkerPool.workers (pipeline_worker_pool_ r))) 0.

(** [pipeline_worker_pool_.worker_states[worker_id].<b> = ...]. *)
Definition assign_buffer (worker_id : Z) (b : Buffer)
  (f : WorkerState.t -> WorkerState.t) : M TrainingRunner unit :=
  emit (EvAssign worker_id b) ;;;
  let* r := get in
  let states := WorkerPool.worker_states (pipeline_worker_pool_ r) in
  match states !! Z.to_nat worker_id with
  | None => fail Undefined
  | Some ws => modify (set_worker_states (<[Z.to_nat worker_id := f ws]> states))
  end.

Definition with_feed_names (v : list string) (ws : WorkerState.t) : WorkerState.t :=
  WorkerState.Build_t v (WorkerState.feeds ws) (WorkerState.fetch_names ws)
    (WorkerState.fetches ws).
Definition with_feeds (v : list OrtValue) (ws : WorkerState.t) : WorkerState.t :=
  WorkerState.Build_t (WorkerState.feed_names ws) v (WorkerState.fetch_names ws)
    (WorkerState.fetches ws).
Definition with_fetch_names (v : list string) (ws : WorkerState.t) : WorkerState.t :=
  WorkerState.Build_t (WorkerState.feed_names ws) (WorkerState.feeds ws) v
    (WorkerState.fetches ws).
Definition with_fetches (v : list OrtValue) (ws : WorkerState.t) : WorkerState.t :=
  WorkerState.Build_t (WorkerState.feed_names ws) (WorkerState.feeds ws)
    (WorkerState.fetch_names ws) v.

(** [pipeline_worker_pool_.workers[worker_id] = std::thread(...)]: the slot
    now holds an outstanding execution. *)
Definition launch (worker_id : Z) (tag : RunTag) : M TrainingRunner unit :=
  emit (EvLaunch worker_id tag) ;;;
  let* r := get in
  let workers := WorkerPool.workers (pipeline_worker_pool_ r) in
  match workers !! Z.to_nat worker_id with
  | None => fail Undefined
  | Some _ => modify (set_workers (<[Z.to_nat worker_id := true]> workers))
  end.

(** The body of the thread of a training dispatch: [session_.Run] on the
    buffers of the slot, the fetched values stored in the slot.  The model
    lets the thread run as soon as it is launched. *)
Definition worker_run (worker_id : Z) (tag : RunTag)
  (only_execute_path_to_fetches : bool) : M TrainingRunner Status :=
  let* r := get in
  let states := WorkerPool.worker_states (pipeline_worker_pool_ r) in
  match states !! Z.to_nat worker_id with
  | None => fail Undefined
  | Some ws =>
      emit (EvSessionRun tag only_execute_path_to_fetches
              (WorkerState.feed_names ws) (WorkerState.fetch_names ws)) ;;;
      let '(status, fetches) :=
        session_Run tag only_execute_path_to_fetches
          (WorkerState.feed_names ws) (WorkerState.feeds ws)
          (WorkerState.fetch_names ws) in
      modify (set_worker_states (<[Z.to_nat worker_id := with_fetches fetches ws]> states)) ;;;
      ret status
  end.

(** [std::distance(begin, std::find(begin, end, name))], when found. *)
Fixpoint find_index (l : list string) (name : string) : option nat :=
  match l with
  | [] => None
  | x :: l' =>
      if String.eqb x name then Some O
      else match find_index l' name with
           | Some i => Some (S i)
           | None => None
           end
  end.

(** *** RunWithUpdate (lines 636-719) *)

(** Lines 686-694: the overflow flag is read from the fetches and handed
    to the loss scaler.  [opt_graph_outputs_[key]] inserts an empty name
    for a key that is absent. *)
Definition update_loss_scaler (fetch_names : list string)
  (fetches : list OrtValue) : M TrainingRunner unit :=
  let* r := get in
  match loss_scaler_ r with
  | Some ls =>
      let outputs := opt_graph_outputs_ r in
      let* name :=
        match outputs !! GradientAllIsFinite with
        | Some name => ret name
        | None =>
            modify (set_opt_graph_outputs_
                      (<[GradientAllIsFinite := EmptyString]> outputs)) ;;;
            ret EmptyString
        end in
      match find_index fetch_names name with
      | Some index =>
          match fetches !! index with
          | Some (BoolTensor (is_all_finite :: _)) =>
              modify (set_loss_scaler_ (Some (UpdateLossScale ls is_all_finite)))
          | _ => fail Undefined
          end
      | None => ret tt
      end
  | None => ret tt
  end.

(** Lines 696-709: the callbacks after a weight update. *)
Definition report_training_loss (tag : RunTag) : M TrainingRunner unit :=
  let* r := get in
  let p := params_ r in
  let session_can_see_loss :=
    (Parameters.pipeline_parallel_size p =? 1)
    || (PipelineContext.pipeline_stage_id (pipeline_context_ r)
        =? Parameters.pipeline_parallel_size p - 1) in
  if session_can_see_loss && negb (Parameters.is_perf_test p)
  then
    let* m := size_t_mod (weight_update_step_count_ r)
                (Parameters.display_loss_steps p) in
    if m =? 0
    then
      (if Parameters.error_function p then emit (EvErrorFunction tag) else ret tt) ;;;
      (if Parameters.post_evaluation_callback p
       then emit (EvPostEvaluationCallback tag) else ret tt)
    else ret tt
  else ret tt.

(** Lines 665-719: the thread runs the session; the pool is drained, the
    fetched values are taken from the slot, the loss scaler and the
    callbacks are served, and both counters advance. *)
Definition complete_update (worker_id step : Z) (fetch_names : list string)
  : M TrainingRunner (list OrtValue) :=
  let* status := worker_run worker_id (TrainingRun step) false in
  JoinAll ;;;
  ORT_THROW_IF_ERROR status ;;;
  let* r1 := get in
  match WorkerPool.worker_states (pipeline_worker_pool_ r1) !! Z.to_nat worker_id with
  | None => fail Undefined
  | Some ws =>
      let fetches := WorkerState.fetches ws in
      update_loss_scaler fetch_names fetches ;;;
      report_training_loss (TrainingRun step) ;;;
      JoinAll ;;;
      modify (fun r => set_step_ (wrap64 (step_ r + 1)) r) ;;;
      modify (fun r => set_weight_update_step_count_
                         (wrap64 (weight_update_step_count_ r + 1)) r) ;;;
      ret fetches
  end.

Definition RunWithUpdate (feed_names fetch_names : list string)
  (feeds : list OrtValue) : M TrainingRunner (list OrtValue) :=
  let* r := get in
  let* worker_id :=
    size_t_mod (step_ r)
      (size_t_of_int (Parameters.pipeline_parallel_size (params_ r))) in
  Join worker_id ;;;
  assign_buffer worker_id buf_feed_names (with_feed_names feed_names) ;;;
  assign_buffer worker_id buf_feeds (with_feeds feeds) ;;;
  assign_buffer worker_id buf_fetch_names (with_fetch_names fetch_names) ;;;
  assign_buffer worker_id buf_fetches (with_fetches []) ;;;
  launch worker_id (TrainingRun (step_ r)) ;;;
  complete_update worker_id (step_ r) fetch_names.

(** *** RunWithoutUpdate (lines 722-768) *)

(** The body of the thread (lines 740-761): the session runs, and
    [ORT_THROW_IF_ERROR(status)] throws inside the thread, where nothing
    catches the exception.  The caller is not interrupted: the exception
    is recorded for the slot. *)
Definition accumulation_thread (worker_id : Z) (tag : RunTag)
  : M TrainingRunner unit :=
  let* status := worker_run worker_id tag true in
  match status with
  | OK => ret tt
  | Error msg =>
      modify (fun r =>
                set_uncaught
                  (<[Z.to_nat worker_id := msg]>
                     (WorkerPool.uncaught (pipeline_worker_pool_ r))) r)
  end.

(** The result is the new value of [gradient_accumulation_step_count],
    which the source increments through a reference.
    [complete_accumulation] is lines 740-767: the thread is started, and
    the caller advances the two counters whatever becomes of the thread. *)
Definition complete_accumulation (worker_id step : Z)
  (gradient_accumulation_step_count : Z) : M TrainingRunner Z :=
  accumulation_thread worker_id (TrainingRun step) ;;;
  modify (fun r => set_step_ (wrap64 (step_ r + 1)) r) ;;;
  ret (wrap64 (gradient_accumulation_step_count + 1)).

Definition RunWithoutUpdate (feed_names fetch_names : list string)
  (feeds : list OrtValue) (gradient_accumulation_step_count : Z)
  : M TrainingRunner Z :=
  let* r := get in
  let* worker_id :=
    size_t_mod (step_ r)
      (size_t_of_int (Parameters.pipeline_parallel_size (params_ r))) in
  Join worker_id ;;;
  assign_buffer worker_id buf_feeds (with_feeds feeds) ;;;
  assign_buffer worker_id buf_feed_names (with_feed_names feed_names) ;;;
  assign_buffer worker_id buf_fetch_names (with_fetch_names fetch_names) ;;;
  assign_buffer worker_id buf_fetches (with_fetches []) ;;;
  launch worker_id (TrainingRun (step_ r)) ;;;
  complete_accumulation worker_id (step_ r) gradient_accumulation_step_count.

(** *** Evaluate (lines 1098-1208) *)

(** A status that the caller checks, and one that the caller drops. *)
Definition checked {S A : Type} (res : Outcome unit * A) : M S A :=
  match res.1 with
  | Ret _ => ret res.2
  | o => fail (propagate o)
  end.

Definition unchecked {S A : Type} (res : Outcome unit * A) : M S A :=
  match res.1 with
  | Ret _ | Returned _ => ret res.2
  | o => fail (propagate o)
  end.

(** One iteration of the loop over [batch_idx].  [test_data] is the local
    pointer, dereferenced by [*test_data]. *)
Definition evaluate_batch (batch_idx : Z) (data_loader : IDataLoader)
  (test_data : option DataSet)
  : M TrainingRunner (IDataLoader * option DataSet) :=
  let* r := get in
  let p := params_ r in
  match test_data with
  | None => fail Undefined
  | Some data =>
      let* feed_buf :=
        unchecked (PrepareFeedNamesAndFeeds r EvaluateStep data_loader data
                     None batch_idx) in
      let* fetch_names := unchecked (PrepareFetchNamesAndFetches r EvaluateStep) in
      let tag := EvaluationRun (step_ r) batch_idx in
      let* fetches :=
        (if Parameters.pipeline_parallel_size p =? 1
         then
           let worker_id := 0 in
           Join worker_id ;;;
           launch worker_id tag ;;;
           emit (EvSessionRun tag true feed_buf.1 fetch_names) ;;;
           let '(status, fetches) :=
             session_Run tag true feed_buf.1 feed_buf.2 fetch_names in
           Join worker_id ;;;
           ORT_RETURN_IF_ERROR status ;;;
           ret fetches
         else
           emit (EvSessionRun tag false feed_buf.1 fetch_names) ;;;
           let '(status, fetches) :=
             session_Run tag false feed_buf.1 feed_buf.2 fetch_names in
           ORT_RETURN_IF_ERROR status ;;;
           ret fetches) in
      let session_can_see_loss :=
        PipelineContext.pipeline_stage_id (pipeline_context_ r)
        =? Parameters.pipeline_parallel_size p - 1 in
      (if session_can_see_loss && Parameters.error_function p
       then emit (EvErrorFunction tag) else ret tt) ;;;
      let* r1 := get in
      let next_batch := wrap64 (current_batch r1 + 1) in
      modify (set_current_batch next_batch) ;;;
      if TotalBatch data (Parameters.batch_size p) <=? next_batch
      then
        let data_loader' := MoveToNextDataSet data_loader in
        modify (set_current_batch 0) ;;;
        ret (data_loader', CurrentDataSet data_loader')
      else ret (data_loader, test_data)
  end.

Fixpoint evaluate_batches (n : nat) (batch_idx : Z) (data_loader : IDataLoader)
  (test_data : option DataSet) : M TrainingRunner IDataLoader :=
  match n with
  | O => ret data_loader
  | S n' =>
      let* next := evaluate_batch batch_idx data_loader test_data in
      evaluate_batches n' (batch_idx + 1) next.1 next.2
  end.

(** [Evaluate(session_, data_loader)]; the result is the data loader as the
    call leaves it. *)
Definition Evaluate (data_loader : IDataLoader) : M TrainingRunner IDataLoader :=
  let* r := get in
  let p := params_ r in
  if Parameters.skip_evaluation p then ret data_loader
  else
    let* test_data :=
      (if Parameters.shuffle_data p && (current_batch r =? 0)
       then match CurrentDataSet data_loader with
            | Some data => ret (Some (RandomShuffle data))
            | None => fail Undefined
            end
       else ret (CurrentDataSet data_loader)) in
    let evaluation_batch_size := Parameters.eval_batch_size p in
    let num_batches :=
      eval_num_batches evaluation_batch_size (Parameters.batch_size p) in
    let* _ := size_t_mod evaluation_batch_size (Parameters.batch_size p) in
    let* data_loader' :=
      evaluate_batches (Z.to_nat num_batches) 0 data_loader test_data in
    (if Parameters.post_evaluation_callback p
     then emit (EvPostEvaluationCallback (EvaluationRun (step_ r) num_batches))
     else ret tt) ;;;
    ret data_loader'.

(** *** TrainingLoop (lines 770-975) *)

(** The runner together with the arguments and locals of [TrainingLoop]
    that change while it runs. *)
Record LoopState : Type := {
  runner : TrainingRunner;
  training_data_loader : IDataLoader;
  test_data_loader : option IDataLoader;
  gradient_accumulation_step_count : Z;
  epoch : Z
}.

Definition set_runner (v : TrainingRunner) (ls : LoopState) : LoopState :=
  Build_LoopState v (training_data_loader ls) (test_data_loader ls)
    (gradient_accumulation_step_count ls) (epoch ls).
Definition set_training_data_loader (v : IDataLoader) (ls : LoopState)
  : LoopState :=
  Build_LoopState (runner ls) v (test_data_loader ls)
    (gradient_accumulation_step_count ls) (epoch ls).
Definition set_test_data_loader (v : option IDataLoader) (ls : LoopState)
  : LoopState :=
  Build_LoopState (runner ls) (training_data_loader ls) v
    (gradient_accumulation_step_count ls) (epoch ls).
Definition set_gradient_accumulation_step_count (v : Z) (ls : LoopState)
  : LoopState :=
  Build_LoopState (runner ls) (training_data_loader ls) (test_data_loader ls)
    v (epoch ls).
Definition set_epoch (v : Z) (ls : LoopState) : LoopState :=
  Build_LoopState (runner ls) (training_data_loader ls) (test_data_loader ls)
    (gradient_accumulation_step_count ls) v.

(** A member function called from the loop. *)
Definition on_runner {A : Type} (m : M TrainingRunner A) : M LoopState A :=
  fun ls => let res := m (runner ls) in (res.1, set_runner res.2 ls).

(** Lines 839-866: feeds and fetches are prepared for the mode of the step
    and the step is dispatched. *)
Definition dispatch_step (is_weight_update_step : bool)
  (lr_scheduler : option (Z -> float32)) (training_data : DataSet) (batch : Z)
  : M LoopState unit :=
  let* ls := get in
  let r := runner ls in
  if is_weight_update_step
  then
    let* feed_buf :=
      checked (PrepareFeedNamesAndFeeds r ModelUpdateStep
                 (training_data_loader ls) training_data lr_scheduler batch) in
    let* fetch_names := checked (PrepareFetchNamesAndFetches r ModelUpdateStep) in
    let* _ := on_runner (RunWithUpdate feed_buf.1 fetch_names feed_buf.2) in
    ret tt
  else
    let* feed_buf :=
      checked (PrepareFeedNamesAndFeeds r GradientAccumulateStep
                 (training_data_loader ls) training_data lr_scheduler batch) in
    let* fetch_names :=
      checked (PrepareFetchNamesAndFetches r GradientAccumulateStep) in
    let* count :=
      on_runner (RunWithoutUpdate feed_buf.1 fetch_names feed_buf.2
                   (gradient_accumulation_step_count ls)) in
    modify (set_gradient_accumulation_step_count count).

(** Lines 891-894: periodic evaluation. *)
Definition maybe_evaluate : M LoopState unit :=
  let* ls := get in
  let p := params_ (runner ls) in
  match test_data_loader ls with
  | Some test_loader =>
      if Parameters.do_eval p
      then
        let* m := size_t_mod (step_ (runner ls)) (Parameters.evaluation_period p) in
        if m =? 0
        then
          let* test_loader' := on_runner (Evaluate test_loader) in
          modify (set_test_data_loader (Some test_loader'))
        else ret tt
      else ret tt
  | None => ret tt
  end.

(** Lines 896-919: periodic checkpoint. *)
Definition maybe_save_checkpoint (enable_checkpoint_saving : bool)
  (is_weight_update_step : bool) : M LoopState unit :=
  if enable_checkpoint_saving && is_weight_update_step
  then
    let* ls := get in
    let r := runner ls in
    let* m := size_t_mod (weight_update_step_count_ r)
                (Parameters.checkpoint_period (params_ r)) in
    if m =? 0
    then
      let saved := SaveCheckpointProperties r ∅ in
      ORT_RETURN_IF_ERROR
        (checkpoint_files (weight_update_step_count_ r) saved.2) ;;;
      on_runner (emit (EvSaveCheckpoint (weight_update_step_count_ r)))
    else ret tt
  else ret tt.

(** The body of the loop over the batches of a shard (lines 824-919).  In
    [(step_ + 1) % params_.gradient_accumulation_steps] the [int] divisor
    is converted to [size_t]. *)
Definition train_step (enable_checkpoint_saving : bool)
  (lr_scheduler : option (Z -> float32)) (training_data : DataSet) (batch : Z)
  : M LoopState unit :=
  let* ls := get in
  let r := runner ls in
  let* m := size_t_mod (wrap64 (step_ r + 1))
              (size_t_of_int (Parameters.gradient_accumulation_steps (params_ r))) in
  let is_weight_update_step := m =? 0 in
  dispatch_step is_weight_update_step lr_scheduler training_data batch ;;;
  maybe_evaluate ;;;
  maybe_save_checkpoint enable_checkpoint_saving is_weight_update_step.

(** [for (batch = 0; batch < batch_num_cur_shard && step_ < num_train_steps;
    ++batch)]: [n] is the number of batches from [batch] to
    [batch_num_cur_shard]. *)
Fixpoint batch_loop (n : nat) (enable_checkpoint_saving : bool)
  (lr_scheduler : option (Z -> float32)) (training_data : DataSet) (batch : Z)
  : M LoopState unit :=
  match n with
  | O => ret tt
  | S n' =>
      let* ls := get in
      if step_ (runner ls) <? Parameters.num_train_steps (params_ (runner ls))
      then
        train_step enable_checkpoint_saving lr_scheduler training_data batch ;;;
        batch_loop n' enable_checkpoint_saving lr_scheduler training_data
          (batch + 1)
      else ret tt
  end.

(** One iteration of the loop over the shards (lines 806-925). *)
Definition visit_shard (enable_checkpoint_saving : bool)
  (lr_scheduler : option (Z -> float32)) : M LoopState unit :=
  let* ls := get in
  let loader := training_data_loader ls in
  on_runner (modify (set_training_data_set_index_ (CurrentDataSetIndex loader))) ;;;
  match CurrentDataSet loader with
  | None =>
      on_runner (emit (EvSkippingShard (int_of_size_t (CurrentDataSetIndex loader)))) ;;;
      modify (fun ls => set_training_data_loader
                          (MoveToNextDataSet (training_data_loader ls)) ls)
  | Some data =>
      let p := params_ (runner ls) in
      let training_data :=
        if Parameters.shuffle_data p then RandomShuffle data else data in
      let batch_num_cur_shard := TotalBatch training_data (Parameters.batch_size p) in
      batch_loop (Z.to_nat batch_num_cur_shard) enable_checkpoint_saving
        lr_scheduler training_data 0 ;;;
      on_runner JoinAll ;;;
      let* ls1 := get in
      if step_ (runner ls1) <? Parameters.num_train_steps (params_ (runner ls1))
      then modify (fun ls => set_training_data_loader
                               (MoveToNextDataSet (training_data_loader ls)) ls)
      else ret tt
  end.

(** [for (shard_it = 0; shard_it < num_shards_to_visit; ++shard_it)]: [n]
    shards are left to visit. *)
Fixpoint shard_loop (n : nat) (enable_checkpoint_saving : bool)
  (lr_scheduler : option (Z -> float32)) : M LoopState unit :=
  match n with
  | O => ret tt
  | S n' =>
      visit_shard enable_checkpoint_saving lr_scheduler ;;;
      shard_loop n' enable_checkpoint_saving lr_scheduler
  end.

(** [while (step_ < params_.num_train_steps)]: the only loop without a
    bound of its own; each unit of fuel pays for one epoch. *)
Fixpoint epoch_loop (fuel : nat) (num_shards_to_visit : Z)
  (enable_checkpoint_saving : bool) (lr_scheduler : option (Z -> float32))
  : M LoopState unit :=
  let* ls := get in
  if step_ (runner ls) <? Parameters.num_train_steps (params_ (runner ls))
  then
    match fuel with
    | O => fail OutOfFuel
    | S fuel' =>
        shard_loop (Z.to_nat num_shards_to_visit) enable_checkpoint_saving
          lr_scheduler ;;;
        modify (fun ls => set_epoch (wrap64 (epoch ls + 1)) ls) ;;;
        epoch_loop fuel' num_shards_to_visit enable_checkpoint_saving
          lr_scheduler
    end
  else ret tt.

(** [TrainingLoop]: [Ret tt] is [Status::OK()]. The timing and throughput
    figures, which are only printed or written, are left out. *)
Definition TrainingLoop (fuel : nat) : M LoopState unit :=
  let* ls := get in
  let r := runner ls in
  let p := params_ r in
  let enable_checkpoint_saving :=
    (Parameters.world_rank p =? 0) && checkpoint_registry_ r
    && (0 <? Parameters.checkpoint_period p) in
  (match test_data_loader ls with
   | Some test_loader =>
       let init := InitializeDataSetIndex test_loader 0 in
       modify (set_test_data_loader (Some init.2)) ;;;
       ORT_RETURN_IF_ERROR init.1
   | None => ret tt
   end) ;;;
  let init := InitializeDataSetIndex (training_data_loader ls)
                (training_data_set_index_ r) in
  modify (set_training_data_loader init.2) ;;;
  ORT_RETURN_IF_ERROR init.1 ;;;
  let num_shards_to_visit := NumShards init.2 in
  let lr_scheduler := LearningRateScheduler_Create p in
  modify (set_epoch 0) ;;;
  modify (set_gradient_accumulation_step_count 0) ;;;
  let step_start := step_ r in
  let weight_update_step_count_start := weight_update_step_count_ r in
  epoch_loop fuel num_shards_to_visit enable_checkpoint_saving lr_scheduler ;;;
  let* ls1 := get in
  let number_of_batches := wrap64 (step_ (runner ls1) - step_start) in
  let weight_update_steps :=
    wrap64 (weight_update_step_count_ (runner ls1)
            - weight_update_step_count_start) in
  if str_empty (Parameters.perf_output_dir p)
  then ret tt
  else
    ORT_RETURN_IF_ERROR
      (perf_metrics_files number_of_batches
         (gradient_accumulation_step_count ls1) weight_update_steps).

(** ** Run

    The two loaders are objects of the caller, passed by pointer: the
    state of a call holds them beside the runner.  [None] is a null
    pointer. *)
Record RunState : Type := {
  run_runner : TrainingRunner;
  run_training_data_loader : option IDataLoader;
  run_test_data_loader : option IDataLoader
}.

(** The call of [TrainingLoop] in [Run], on the training loader that the
    pointer refers to and on the test loader.  The two locals of the loop
    are declared with the value 0. *)
Definition call_TrainingLoop (fuel : nat) (loader : IDataLoader)
  : M RunState unit :=
  fun rs =>
    let res := TrainingLoop fuel
                 {| runner := run_runner rs;
                    training_data_loader := loader;
                    test_data_loader := run_test_data_loader rs;
                    gradient_accumulation_step_count := 0;
                    epoch := 0 |} in
    (res.1,
     {| run_runner := runner res.2;
        run_training_data_loader := Some (training_data_loader res.2);
        run_test_data_loader := test_data_loader res.2 |}).

(** [Run].  The call [session_.Save(...)] of the first process, which
    writes the graph to a file and whose status is dropped, is left out,
    as is the warning printed for a null training loader.
    [ORT_RETURN_IF_ERROR(TrainingLoop(...))] is the bind of the monad;
    [++round_; step_ = 0;] follow it. *)
Definition Run (fuel : nat) : M RunState unit :=
  let* rs := get in
  match run_training_data_loader rs with
  | None => ret tt
  | Some loader =>
      call_TrainingLoop fuel loader ;;;
      modify (fun rs1 =>
                {| run_runner :=
                     set_step_ 0
                       (set_round_ (wrap64 (round_ (run_runner rs1) + 1))
                          (run_runner rs1));
                   run_training_data_loader := run_training_data_loader rs1;
                   run_test_data_loader := run_test_data_loader rs1 |})
  end.

End Runner.

(** ** Test doubles for the collaborators

    Small executable stand-ins, used to run the runner on concrete
    inputs. *)

(** A loss scaler holding the bit pattern of its scale and its count of
    steps without overflow; its saved form is the two numbers in decimal,
    separated by a blank. *)
Record SimpleLossScaler : Type := {
  loss_scale_input_name_ : string;
  loss_scale_ : float32;
  stable_steps_ : Z
}.

Definition SimpleLossScaler_save (ls : SimpleLossScaler) : string :=
  to_string (loss_scale_ ls) +:+ String " "%char (to_string (stable_steps_ ls)).

Definition SimpleLossScaler_load (ls : SimpleLossScaler) (s : string)
  : Status * SimpleLossScaler :=
  match extract_size_t s with
  | Some (scale, rest) =>
      match FromString rest with
      | Some steps =>
          (OK, Build_SimpleLossScaler (loss_scale_input_name_ ls) scale steps)
      | None => (Error "malformed loss scaler state", ls)
      end
  | None => (Error "malformed loss scaler state", ls)
  end.

Definition SimpleLossScaler_update (ls : SimpleLossScaler) (is_all_finite : bool)
  : SimpleLossScaler :=
  Build_SimpleLossScaler (loss_scale_input_name_ ls) (loss_scale_ ls)
    (if is_all_finite then stable_steps_ ls + 1 else 0).

#[global] Instance SimpleLossScaler_I : LossScalerI := {|
  LossScaler := SimpleLossScaler;
  GetLossScaleInputName := loss_scale_input_name_;
  GetLossScale := loss_scale_;
  UpdateLossScale := SimpleLossScaler_update;
  SaveToString := SimpleLossScaler_save;
  LoadFromString := SimpleLossScaler_load
|}.

(** A data set of a given number of batches, each holding one opaque
    value for the one tensor name ["input"]; a loader cycling through a
    list of shards, where [None] is a shard that fails to load. *)
Record SimpleDataSet : Type := {
  total_batch : Z
}.

Record SimpleLoader : Type := {
  shards : list (option SimpleDataSet);
  active_index : Z
}.

Definition SimpleLoader_at (index : Z) (l : SimpleLoader) : SimpleLoader :=
  Build_SimpleLoader (shards l) index.

#[global] Instance SimpleLoader_I : DataLoaderI := {|
  DataSet := SimpleDataSet;
  TotalBatch := fun d _ => total_batch d;
  GetKthBatch := fun _ _ k => [OtherValue k];
  RandomShuffle := fun d => d;
  IDataLoader := SimpleLoader;
  InitializeDataSetIndex := fun l index => (OK, SimpleLoader_at index l);
  NumShards := fun l => Z.of_nat (List.length (shards l));
  CurrentDataSet := fun l =>
    match shards l !! Z.to_nat (active_index l) with
    | Some (Some d) => Some d
    | _ => None
    end;
  CurrentDataSetIndex := active_index;
  MoveToNextDataSet := fun l =>
    SimpleLoader_at ((active_index l + 1) mod Z.of_nat (List.length (shards l))) l;
  DataSetTensorNames := fun _ => ["input"]
|}.

(** A session whose runs all succeed and report finite gradients; no
    learning-rate scheduler; exact ceiling division for the number of
    evaluation batches; file operations that succeed. *)
#[global] Instance SimpleSession_I : SessionI := {|
  session_Run := fun _ _ _ _ fetch_names =>
    (OK, List.map (fun _ => BoolTensor [true]) fetch_names);
  LearningRateScheduler_Create := fun _ => None;
  eval_num_batches := fun e b => (e + b - 1) / b;
  checkpoint_files := fun _ _ => OK;
  perf_metrics_files := fun _ _ _ => OK
|}.

(** A configuration without pipeline: one stage, plain precision, the
    user fetching ["loss"]. *)
Definition simple_params (num_train_steps gradient_accumulation_steps : Z)
  : Parameters.t := {|
  Parameters.model_path := "model.onnx";
  Parameters.weights_to_train := [];
  Parameters.weights_not_to_train := [];
  Parameters.training_optimizer_name := "AdamOptimizer";
  Parameters.deepspeed_zero_stage := 0;
  Parameters.use_nccl := false;
  Parameters.num_train_steps := num_train_steps;
  Parameters.gradient_accumulation_steps := gradient_accumulation_steps;
  Parameters.pipeline_parallel_size := 1;
  Parameters.batch_size := 8;
  Parameters.eval_batch_size := 8;
  Parameters.fetch_names := ["loss"];
  Parameters.use_mixed_precision := false;
  Parameters.use_adasum := false;
  Parameters.is_perf_test := false;
  Parameters.display_loss_steps := 1;
  Parameters.error_function := true;
  Parameters.post_evaluation_callback := false;
  Parameters.shuffle_data := false;
  Parameters.do_eval := false;
  Parameters.evaluation_period := 1;
  Parameters.skip_evaluation := false;
  Parameters.checkpoint_period := 0;
  Parameters.world_rank := 0;
  Parameters.lr_feed_name := "Learning_Rate";
  Parameters.perf_output_dir := EmptyString
|}.

(** The runner that the constructor and [Initialize] leave for
    [simple_params]: counters at zero, the optimizer's accumulation output
    exposed as ["accumulated"]. *)
Definition simple_runner (num_train_steps gradient_accumulation_steps : Z)
  : TrainingRunner := {|
  step_ := 0;
  round_ := 0;
  weight_update_step_count_ := 0;
  training_data_set_index_ := 0;
  params_ := simple_params num_train_steps gradient_accumulation_steps;
  loss_scaler_ := None;
  opt_graph_outputs_ := {[ GradientAccumulation := "accumulated" ]};
  pipeline_context_ := PipelineContext.empty;
  pipeline_schedule_ := fun _ _ _ => 0;
  pipeline_worker_pool_ := WorkerPool.make 1;
  checkpoint_registry_ := false;
  current_batch := 0;
  log := []
|}.

Definition simple_loader (shards : list (option SimpleDataSet)) : SimpleLoader :=
  {| shards := shards; active_index := 0 |}.

Definition simple_loop_state (r : TrainingRunner) (loader : SimpleLoader)
  : LoopState := {|
  runner := r;
  training_data_loader := loader;
  test_data_loader := None;
  gradient_accumulation_step_count := 0;
  epoch := 0
|}.

(** The end-to-end scenario: four training steps, a weight update every
    second step, one stage, one shard of four batches. *)
Definition four_step_scenario : LoopState :=
  simple_loop_state (simple_runner 4 2)
    (simple_loader [Some {| total_batch := 4 |}]).

(** The training session runs of a log, in order: the step of the run,
    whether only the path to the fetches is executed (set by
    [RunWithoutUpdate] alone), and the fetch names. *)
Fixpoint training_session_runs (lg : list Event)
  : list (Z * bool * list string) :=
  match lg with
  | [] => []
  | EvSessionRun (TrainingRun step) only_execute_path_to_fetches _ fetch_names
    :: lg' =>
      (step, only_execute_path_to_fetches, fetch_names)
      :: training_session_runs lg'
  | _ :: lg' => training_session_runs lg'
  end.

(** The fetch names of the session runs dispatched at [step]. *)
Definition fetched_at (step : Z) (lg : list Event) : list (list string) :=
  List.map snd
    (List.filter (fun run => fst (fst run) =? step) (training_session_runs lg)).

(** ** Vocabulary of the statements *)

Section Vocabulary.
Context `{LS : LossScalerI} `{DL : DataLoaderI} `{SE : SessionI}.

(** The three checks of the constructor that come before the two of
    interest. *)
Definition earlier_checks_pass (params : Parameters.t) : Prop :=
  str_empty (Parameters.model_path params) = false /\
  (vec_empty (Parameters.weights_to_train params) = true \/
   vec_empty (Parameters.weights_not_to_train params) = true) /\
  str_empty (Parameters.training_optimizer_name params) = false.


(** The names under which the four counters are saved. *)
Definition counter_property_names : list string :=
  [k_step; k_round; k_weight_update_step; k_training_data_set_index].

(** The eight event names of the pipeline context, in the order in which
    [PrepareFeedNamesAndFeeds] looks at them. *)
Definition event_names (pc : PipelineContext.t) : list string :=
  [ PipelineContext.forward_waited_event_name pc;
    PipelineContext.forward_waited_event_after_recv_name pc;
    PipelineContext.forward_recorded_event_before_send_name pc;
    PipelineContext.forward_recorded_event_name pc;
    PipelineContext.backward_waited_event_name pc;
    PipelineContext.backward_waited_event_after_recv_name pc;
    PipelineContext.backward_recorded_event_before_send_name pc;
    PipelineContext.backward_recorded_event_name pc ].

Definition non_empty (names : list string) : list string :=
  List.filter (fun name => negb (str_empty name)) names.

(** The loss-scale feed of an evaluation step: present when there is a
    loss scaler whose input name passes the pipeline filter, and then it
    is the one-element float tensor holding 1.0f. *)
Definition evaluation_loss_scale_feed (r : TrainingRunner) : FeedBuf :=
  match loss_scaler_ r with
  | Some ls =>
      if feed_allowed r (GetLossScaleInputName ls)
      then ([GetLossScaleInputName ls], [FloatTensor [1] [float_1_0]])
      else ([], [])
  | None => ([], [])
  end.

(** The event feeds of an evaluation step that returned OK. *)
Definition sentinel_feeds (names : list string) : list OrtValue :=
  List.map (fun _ => Int64Scalar (-1)) names.

(** A run of event feeds, one after the other. *)
Fixpoint event_feed_seq (r : TrainingRunner) (mode : SessionMode)
  (events : list (string * EventKind)) : M FeedBuf unit :=
  match events with
  | [] => ret tt
  | (name, kind) :: events' =>
      event_feed r mode name kind ;;; event_feed_seq r mode events'
  end.

Definition event_kinds : list EventKind :=
  [ ForwardWaited; ForwardWaitedAfterRecv; ForwardRecordedBeforeSend;
    ForwardRecorded; BackwardWaited; BackwardWaitedAfterRecv;
    BackwardRecordedBeforeSend; BackwardRecorded ].

(** The four event outputs of the pipeline context, in the order in
    which [PrepareFetchNamesAndFetches] looks at them. *)
Definition event_output_names (pc : PipelineContext.t) : list string :=
  [ PipelineContext.forward_wait_output_name pc;
    PipelineContext.forward_record_output_name pc;
    PipelineContext.backward_wait_output_name pc;
    PipelineContext.backward_record_output_name pc ].

(** *** The feeds of a training step *)

(** The tensors of the batch that this stage takes, with their names. *)
Definition selected_data_feeds (r : TrainingRunner) (names : list string)
  (data_feeds : list OrtValue) : list (string * OrtValue) :=
  List.filter (fun feed => feed_allowed r feed.1) (zip names data_feeds).

(** The loss-scale feed of a training step: the current scale of the
    loss scaler. *)
Definition training_loss_scale_feed (r : TrainingRunner) : FeedBuf :=
  match loss_scaler_ r with
  | Some ls =>
      if feed_allowed r (GetLossScaleInputName ls)
      then ([GetLossScaleInputName ls], [FloatTensor [1] [GetLossScale ls]])
      else ([], [])
  | None => ([], [])
  end.

(** The learning-rate feed: the rate of the scheduler for the step about
    to be taken, and 0.0f without a scheduler. *)
Definition scheduled_learning_rate_feed (r : TrainingRunner)
  (lr_scheduler : option (Z -> float32)) : FeedBuf :=
  let name := Parameters.lr_feed_name (params_ r) in
  if feed_allowed r name
  then ([name],
        [FloatTensor [1]
           [match lr_scheduler with
            | Some GetLearningRate => GetLearningRate (wrap64 (step_ r + 1))
            | None => float_0_0
            end]])
  else ([], []).

(** The event feeds of a training step: for each event with a non-empty
    name, the id that the schedule gives for this stage and the slot
    [static_cast<int>(step_) % num_pipeline_batches]. *)
Definition scheduled_event_feeds (r : TrainingRunner)
  (events : list (string * EventKind)) : list (string * OrtValue) :=
  let pc := pipeline_context_ r in
  let slot :=
    Z.rem (int_of_size_t (step_ r)) (PipelineContext.num_pipeline_batches pc) in
  List.map
    (fun event =>
       (event.1,
        Int64Scalar
          (pipeline_schedule_ r event.2 (PipelineContext.pipeline_stage_id pc) slot)))
    (List.filter (fun event => negb (str_empty event.1)) events).

Definition training_feeds (r : TrainingRunner) (data_loader : IDataLoader)
  (data : DataSet) (lr_scheduler : option (Z -> float32)) (batch_index : Z)
  : FeedBuf :=
  let data_feeds :=
    selected_data_feeds r (DataSetTensorNames data_loader)
      (GetKthBatch data (Parameters.batch_size (params_ r)) batch_index) in
  let loss_scale := training_loss_scale_feed r in
  let learning_rate := scheduled_learning_rate_feed r lr_scheduler in
  let events :=
    scheduled_event_feeds r (zip (event_names (pipeline_context_ r)) event_kinds) in
  (List.map fst data_feeds ++ loss_scale.1 ++ learning_rate.1
   ++ List.map fst events,
   List.map snd data_feeds ++ loss_scale.2 ++ learning_rate.2
   ++ List.map snd events).

(** A computation on the two output vectors that only appends to them,
    as many values as names unless it runs into undefined behaviour. *)
Definition appends_aligned (m : M FeedBuf unit) : Prop :=
  forall buf : FeedBuf,
  exists names values,
    (m buf).2 = (buf.1 ++ names, buf.2 ++ values) /\
    ((m buf).1 = Undefined \/ List.length names = List.length values).

(** The fetches that belong to gradient accumulation: the optimizer's
    accumulation output when [gradient_accumulation_steps > 1], and the
    event outputs with a non-empty name. *)
Definition accumulation_fetch_names (r : TrainingRunner) : list string :=
  (if 1 <? Parameters.gradient_accumulation_steps (params_ r)
   then match opt_graph_outputs_ r !! GradientAccumulation with
        | Some name => [name]
        | None => []
        end
   else [])
  ++ non_empty (event_output_names (pipeline_context_ r)).

(** A pipelined stage (two stages, one accumulation step per update) whose
    graph has no event outputs and whose allowed fetch is
    ["predictions"]. *)
Definition bare_stage_runner : TrainingRunner := {|
  step_ := 0;
  round_ := 0;
  weight_update_step_count_ := 0;
  training_data_set_index_ := 0;
  params_ := {|
    Parameters.model_path := "model.onnx";
    Parameters.weights_to_train := [];
    Parameters.weights_not_to_train := [];
    Parameters.training_optimizer_name := "AdamOptimizer";
    Parameters.deepspeed_zero_stage := 0;
    Parameters.use_nccl := false;
    Parameters.num_train_steps := 4;
    Parameters.gradient_accumulation_steps := 1;
    Parameters.pipeline_parallel_size := 2;
    Parameters.batch_size := 8;
    Parameters.eval_batch_size := 8;
    Parameters.fetch_names := ["loss"];
    Parameters.use_mixed_precision := false;
    Parameters.use_adasum := false;
    Parameters.is_perf_test := false;
    Parameters.display_loss_steps := 1;
    Parameters.error_function := true;
    Parameters.post_evaluation_callback := false;
    Parameters.shuffle_data := false;
    Parameters.do_eval := false;
    Parameters.evaluation_period := 1;
    Parameters.skip_evaluation := false;
    Parameters.checkpoint_period := 0;
    Parameters.world_rank := 0;
    Parameters.lr_feed_name := "Learning_Rate";
    Parameters.perf_output_dir := EmptyString
  |};
  loss_scaler_ := None;
  opt_graph_outputs_ := {[ GradientAccumulation := "accumulated" ]};
  pipeline_context_ :=
    PipelineContext.Build_t 0 1 ["input"] ["predictions"]
      EmptyString EmptyString EmptyString EmptyString
      EmptyString EmptyString EmptyString EmptyString
      EmptyString EmptyString EmptyString EmptyString;
  pipeline_schedule_ := fun _ _ _ => 0;
  pipeline_worker_pool_ := WorkerPool.make 2;
  checkpoint_registry_ := false;
  current_batch := 0;
  log := []
|}.


(** *** Reading the log with an automaton

    A property of the order of the logged events is stated with an
    automaton over the events: a transition that is undefined is a
    violation. *)

Fixpoint run_events {St : Type} (delta : St -> Event -> option St) (st : St)
  (es : list Event) : option St :=
  match es with
  | [] => Some st
  | e :: es' =>
      match delta st e with
      | Some st' => run_events delta st' es'
      | None => None
      end
  end.

(** [accepts lg I delta P m Q]: from a state satisfying [I], the call [m]
    keeps [I] and only appends events to the log [lg]; an automaton that
    starts in a state satisfying [P] reads all of them, however the call
    ends, and is in a state satisfying [Q] when the call completes. *)
Definition accepts {S St A : Type} (lg : S -> list Event) (I : S -> Prop)
  (delta : St -> Event -> option St) (P : St -> Prop) (m : M S A)
  (Q : St -> Prop) : Prop :=
  forall (s : S) (st : St),
    I s -> P st ->
    I (m s).2 /\
    exists es st',
      lg (m s).2 = lg s ++ es /\
      run_events delta st es = Some st' /\
      (forall a, (m s).1 = Ret a -> Q st').

Definition any_state {St : Type} : St -> Prop := fun _ => True.

(** The pool automaton: its state is the set of slots with an unjoined
    dispatch.  Overwriting a buffer of such a slot, or dispatching to it,
    is a violation. *)
Definition pool_step (busy : gset Z) (e : Event) : option (gset Z) :=
  match e with
  | EvJoin worker_id => Some (busy ∖ {[ worker_id ]})
  | EvAssign worker_id _ =>
      if decide (worker_id ∈ busy) then None else Some busy
  | EvLaunch worker_id _ =>
      if decide (worker_id ∈ busy) then None else Some (busy ∪ {[ worker_id ]})
  | _ => Some busy
  end.

(** No violation, whichever slots are busy at the start. *)
Definition joins_before_reuse (es : list Event) : Prop :=
  forall busy : gset Z, is_Some (run_events pool_step busy es).

(** Between two dispatches to one slot, the slot is joined. *)
Definition joined_between_dispatches (es : list Event) : Prop :=
  forall (before between after : list Event) (worker_id : Z) (tag tag' : RunTag),
    es = before ++ EvLaunch worker_id tag :: between
         ++ EvLaunch worker_id tag' :: after ->
    EvJoin worker_id ∈ between.

(** The automaton that checks the slot of every launch: a training
    dispatch of step [s] uses slot [s % pipeline_parallel_size], an
    evaluation uses slot 0. *)
Definition launch_step (pipeline_parallel_size : Z) (st : unit) (e : Event)
  : option unit :=
  match e with
  | EvLaunch w (TrainingRun s) =>
      if decide (w = s mod size_t_of_int pipeline_parallel_size)
      then Some tt else None
  | EvLaunch w (EvaluationRun _ _) => if decide (w = 0) then Some tt else None
  | _ => Some tt
  end.

Definition launches_on_slot (pipeline_parallel_size : Z) (es : list Event)
  : Prop :=
  forall (w s : Z),
    EvLaunch w (TrainingRun s) ∈ es ->
    w = s mod size_t_of_int pipeline_parallel_size.

(** The automaton that accepts everything. *)
Definition free_step (st : unit) (e : Event) : option unit := Some tt.

(** The worker pool has one slot per pipeline stage and no thread of it
    has died, as the constructor leaves it. *)
Definition pool_matches_pipeline (r : TrainingRunner) : Prop :=
  1 <= Parameters.pipeline_parallel_size (params_ r) < 2 ^ 31 /\
  List.length (WorkerPool.workers (pipeline_worker_pool_ r))
  = Z.to_nat (Parameters.pipeline_parallel_size (params_ r)) /\
  List.length (WorkerPool.worker_states (pipeline_worker_pool_ r))
  = Z.to_nat (Parameters.pipeline_parallel_size (params_ r)) /\
  WorkerPool.uncaught (pipeline_worker_pool_ r) = ∅.

(** The slot [w] exists, holds the buffers [ws], and no thread has died on
    it. *)
Definition slot_ready (w : Z) (ws : WorkerState.t) (r : TrainingRunner)
  : Prop :=
  is_Some (WorkerPool.workers (pipeline_worker_pool_ r) !! Z.to_nat w) /\
  WorkerPool.worker_states (pipeline_worker_pool_ r) !! Z.to_nat w = Some ws /\
  WorkerPool.uncaught (pipeline_worker_pool_ r) !! Z.to_nat w = None.

(** The runner after a dispatch to the slot [w]: the events [es] are
    logged, the slot holds the buffers [ws] and a thread to join. *)
Definition dispatched (w : Z) (es : list Event) (ws : WorkerState.t)
  (r : TrainingRunner) : TrainingRunner :=
  set_workers
    (<[Z.to_nat w := true]> (WorkerPool.workers (pipeline_worker_pool_ r)))
    (set_worker_states
       (<[Z.to_nat w := ws]>
          (WorkerPool.worker_states (pipeline_worker_pool_ r)))
       (set_log (log r ++ es) r)).

(** What [RunWithUpdate], and what [RunWithoutUpdate], log up to the
    launch of the thread, for the slot [w] and the step [s]. *)
Definition update_dispatch_events (w s : Z) : list Event :=
  [ EvJoin w; EvAssign w buf_feed_names; EvAssign w buf_feeds;
    EvAssign w buf_fetch_names; EvAssign w buf_fetches;
    EvLaunch w (TrainingRun s) ].

Definition accumulate_dispatch_events (w s : Z) : list Event :=
  [ EvJoin w; EvAssign w buf_feeds; EvAssign w buf_feed_names;
    EvAssign w buf_fetch_names; EvAssign w buf_fetches;
    EvLaunch w (TrainingRun s) ].

(** [es] begins with [head], or stops inside it (the call ended early). *)
Definition begins_with (head es : list Event) : Prop :=
  es `prefix_of` head \/ head `prefix_of` es.

(** [starts head m]: from any state, what [m] logs begins
    with [head]. *)
Definition starts {A : Type} (head : list Event) (m : M TrainingRunner A)
  : Prop :=
  forall r, exists es, log (m r).2 = log r ++ es /\ begins_with head es.

(** The automaton without a transition for the error callback. *)
Definition quiet_step (st : unit) (e : Event) : option unit :=
  match e with
  | EvErrorFunction _ => None
  | _ => Some tt
  end.

Definition is_error_callback (e : Event) : Prop :=
  exists tag, e = EvErrorFunction tag.

(** The session behind this runner can see the loss (line 698). *)
Definition session_can_see_loss (r : TrainingRunner) : bool :=
  (Parameters.pipeline_parallel_size (params_ r) =? 1)
  || (PipelineContext.pipeline_stage_id (pipeline_context_ r)
      =? Parameters.pipeline_parallel_size (params_ r) - 1).

(** The slot that a training dispatch picks (lines 641 and 727). *)
Definition worker_slot (r : TrainingRunner) : Z :=
  step_ r mod size_t_of_int (Parameters.pipeline_parallel_size (params_ r)).

(** *** Triples

    [hoare P m Q]: from a state satisfying [P], when [m] completes, its
    value and final state satisfy [Q]. *)
Definition hoare {S A : Type} (P : S -> Prop) (m : M S A) (Q : A -> S -> Prop)
  : Prop :=
  forall s a s', P s -> m s = (Ret a, s') -> Q a s'.

(** The three members that the counting argument follows. *)
Definition counters (step wus : Z) (p : Parameters.t) (r : TrainingRunner)
  : Prop :=
  step_ r = step /\ weight_update_step_count_ r = wus /\ params_ r = p.

(** The invariant of the training loop for the configuration [p], started
    with the step counter at zero and the weight-update counter at
    [wus_start]: the step counter has not passed [num_train_steps], and one
    weight update has been counted per [gradient_accumulation_steps]
    steps. *)
Definition loop_invariant (p : Parameters.t) (wus_start : Z)
  (r : TrainingRunner) : Prop :=
  params_ r = p /\
  0 <= step_ r <= Parameters.num_train_steps p /\
  weight_update_step_count_ r
  = wrap64 (wus_start + step_ r / Parameters.gradient_accumulation_steps p).

(** Whether the step taken from step counter [step] updates the weights
    (line 824). *)
Definition is_weight_update_step (p : Parameters.t) (step : Z) : bool :=
  wrap64 (step + 1) mod size_t_of_int (Parameters.gradient_accumulation_steps p)
  =? 0.

(** *** Runs in which nothing fails *)

(** [total P m Q]: from a state satisfying [P], the call [m] completes,
    and its value and final state satisfy [Q]. *)
Definition total {S A : Type} (P : S -> Prop) (m : M S A) (Q : A -> S -> Prop)
  : Prop :=
  forall s, P s -> exists a, (m s).1 = Ret a /\ Q a (m s).2.

(** The loader after the loop has moved past [n] shards. *)
Fixpoint after_shards (n : nat) (loader : IDataLoader) : IDataLoader :=
  match n with
  | O => loader
  | S n' => after_shards n' (MoveToNextDataSet loader)
  end.

(** Every shard that the loader offers, from the current one on, loads. *)
Definition always_loads (loader : IDataLoader) : Prop :=
  forall k, CurrentDataSet (after_shards k loader) <> None.

(** The name under which [RunWithUpdate] looks for the overflow flag
    (line 687): [opt_graph_outputs_[GradientAllIsFinite]], the empty
    string when the key is absent. *)
Definition all_finite_output (r : TrainingRunner) : string :=
  default EmptyString (opt_graph_outputs_ r !! GradientAllIsFinite).

(** A training run of the session answers a fetch of [name] with a
    boolean tensor that is not empty. *)
Definition session_reports_flag (name : string) : Prop :=
  forall step feed_names feeds fetch_names index,
    find_index fetch_names name = Some index ->
    exists flag rest,
      (session_Run (TrainingRun step) false feed_names feeds fetch_names).2
        !! index
      = Some (BoolTensor (flag :: rest)).

(** A runner on which a training step cannot fail for a reason of
    configuration: the pool has its [pipeline_parallel_size >= 1] slots
    and no thread of it has died; [gradient_accumulation_steps] is
    positive; the optimizer outputs that the fetch construction looks up
    are there; event names come with a pipeline of several stages and a
    positive number of pipeline batches; the loss is displayed at a
    non-zero period; an evaluation while training has a non-zero period
    and, unless skipped, a non-zero batch size; and with a loss scaler the
    session reports the overflow flag. *)
Definition well_configured (r : TrainingRunner) : Prop :=
  let p := params_ r in
  let pc := pipeline_context_ r in
  1 <= Parameters.pipeline_parallel_size p < 2 ^ 31 /\
  List.length (WorkerPool.workers (pipeline_worker_pool_ r))
  = Z.to_nat (Parameters.pipeline_parallel_size p) /\
  List.length (WorkerPool.worker_states (pipeline_worker_pool_ r))
  = Z.to_nat (Parameters.pipeline_parallel_size p) /\
  WorkerPool.uncaught (pipeline_worker_pool_ r) = ∅ /\
  0 < Parameters.gradient_accumulation_steps p /\
  (1 < Parameters.gradient_accumulation_steps p ->
   is_Some (opt_graph_outputs_ r !! GradientAccumulation)) /\
  (Parameters.pipeline_parallel_size p = 1 ->
   Parameters.use_mixed_precision p = true ->
   is_Some (opt_graph_outputs_ r !! GradientAllIsFinite) /\
   (Parameters.use_adasum p = true ->
    is_Some (opt_graph_outputs_ r !! DeltaAllIsFinite))) /\
  (non_empty (event_names pc) <> [] ->
   1 < Parameters.pipeline_parallel_size p /\
   0 < PipelineContext.num_pipeline_batches pc) /\
  (Parameters.is_perf_test p = true \/ Parameters.display_loss_steps p <> 0) /\
  (Parameters.do_eval p = true ->
   Parameters.evaluation_period p <> 0 /\
   (Parameters.skip_evaluation p = true \/ Parameters.batch_size p <> 0)) /\
  (loss_scaler_ r <> None -> session_reports_flag (all_finite_output r)).

(** The fetched values hold the overflow flag where the fetch names have
    its name. *)
Definition flag_fetched (fetch_names : list string) (fetches : list OrtValue)
  (r : TrainingRunner) : Prop :=
  forall index,
    find_index fetch_names (all_finite_output r) = Some index ->
    exists flag rest, fetches !! index = Some (BoolTensor (flag :: rest)).

(** The buffer of slot [w] holds the fetch names [names]. *)
Definition slot_fetch_names (w : Z) (names : list string) (r : TrainingRunner)
  : Prop :=
  exists ws,
    WorkerPool.worker_states (pipeline_worker_pool_ r) !! Z.to_nat w = Some ws /\
    WorkerState.fetch_names ws = names.

(** The buffer of slot [w] holds what a training run of the session
    returned for the fetch names [names]. *)
Definition slot_fetched (w : Z) (names : list string) (r : TrainingRunner)
  : Prop :=
  exists ws step feed_names feeds,
    WorkerPool.worker_states (pipeline_worker_pool_ r) !! Z.to_nat w = Some ws /\
    WorkerState.fetches ws
    = (session_Run (TrainingRun step) false feed_names feeds names).2.

(** The test loader of a loop that evaluates while it trains offers only
    shards that load. *)
Definition test_loader_ready (p : Parameters.t) (ls : LoopState) : Prop :=
  Parameters.do_eval p = true ->
  Parameters.skip_evaluation p = false ->
  forall test_loader,
    test_data_loader ls = Some test_loader -> always_loads test_loader.

(** Modelled from the spec: [SaveState()/LoadState(s)] serialize and
    restore [{current_scale, window_without_overflow}] as an opaque
    string.  The scaler [saved] keeps this contract when any scaler that
    loads the string saved by it returns OK and is then in the saved
    state: it has the scale of [saved] and saves the string that [saved]
    saves. *)
Definition state_is_restored (saved : LossScaler) : Prop :=
  forall current : LossScaler,
    exists restored,
      LoadFromString current (SaveToString saved) = (OK, restored) /\
      GetLossScale restored = GetLossScale saved /\
      SaveToString restored = SaveToString saved.

(** The collaborators never report a failure: every session run, every
    checkpoint save and the perf-metrics save return OK, and a batch holds
    a value for each tensor name of the loader. *)
Definition collaborators_never_fail : Prop :=
  (forall tag opt feed_names feeds fetch_names,
     (session_Run tag opt feed_names feeds fetch_names).1 = OK) /\
  (forall wus properties, checkpoint_files wus properties = OK) /\
  (forall batches accumulations updates,
     perf_metrics_files batches accumulations updates = OK) /\
  (forall (loader : IDataLoader) (data : DataSet) (batch_size k : Z),
     (List.length (DataSetTensorNames loader)
      <= List.length (GetKthBatch data batch_size k))%nat).

(** The number of batches that the loader supplies while the loop visits
    [n] shards, starting from the current one. *)
Fixpoint batches_supplied (p : Parameters.t) (n : nat) (loader : IDataLoader)
  : Z :=
  match n with
  | O => 0
  | S n' =>
      match CurrentDataSet loader with
      | Some data =>
          let training_data :=
            if Parameters.shuffle_data p then RandomShuffle data else data in
          Z.max 0 (TotalBatch training_data (Parameters.batch_size p))
      | None => 0
      end
      + batches_supplied p n' (MoveToNextDataSet loader)
  end.

(** *** Calls that commit on completion *)

(** [commits I J m]: from a state satisfying [I], the call [m] ends in a
    state satisfying [J] when it completes, and in a state still
    satisfying [I] when it does not. *)
Definition commits {S A : Type} (I : S -> Prop) (J : A -> S -> Prop)
  (m : M S A) : Prop :=
  forall s,
    I s ->
    match (m s).1 with
    | Ret a => J a (m s).2
    | _ => I (m s).2
    end.

(** No slot of the worker pool holds an outstanding thread. *)
Definition no_thread_outstanding (r : TrainingRunner) : Prop :=
  Forall (fun joinable => joinable = false)
    (WorkerPool.workers (pipeline_worker_pool_ r)).

(** The session fails every run with the message [msg]. *)
Definition session_always_fails (msg : string) : Prop :=
  forall tag opt feed_names feeds fetch_names,
    (session_Run tag opt feed_names feeds fetch_names).1 = Error msg.

(** [throws P msg m]: from a state satisfying [P], the call [m] throws
    the exception [msg]. *)
Definition throws {S A : Type} (P : S -> Prop) (msg : string) (m : M S A)
  : Prop :=
  forall s, P s -> (m s).1 = Thrown msg.


(** The slots below [k] hold no outstanding thread. *)
Definition joined_below (k : nat) (r : TrainingRunner) : Prop :=
  Forall (fun joinable => joinable = false)
    (take k (WorkerPool.workers (pipeline_worker_pool_ r))).

(** What the loop has counted beyond its steps: the accumulation steps
    plus the weight updates, less the steps, in [size_t] arithmetic.  The
    accumulation count is a [size_t] value. *)
Definition tally (d : Z) (ls : LoopState) : Prop :=
  wrap64 (gradient_accumulation_step_count ls
          + weight_update_step_count_ (runner ls) - step_ (runner ls)) = d /\
  is_size_t (gradient_accumulation_step_count ls).

(** The state of a loop in which nothing can fail: the runner is well
    configured, the test loader is ready and the loop invariant holds. *)
Definition steady_state (p : Parameters.t) (wus_start : Z) (ls : LoopState)
  : Prop :=
  (well_configured (runner ls) /\ test_loader_ready p ls) /\
  loop_invariant p wus_start (runner ls).

End Vocabulary.

(** ** Concrete inputs *)

(** ZeRO partitioning requested without NCCL. *)
Definition zero_stage_params : Parameters.t := {|
  Parameters.model_path := "model.onnx";
  Parameters.weights_to_train := [];
  Parameters.weights_not_to_train := [];
  Parameters.training_optimizer_name := "AdamOptimizer";
  Parameters.deepspeed_zero_stage := 1;
  Parameters.use_nccl := false;
  Parameters.num_train_steps := 4;
  Parameters.gradient_accumulation_steps := 2;
  Parameters.pipeline_parallel_size := 1;
  Parameters.batch_size := 8;
  Parameters.eval_batch_size := 8;
  Parameters.fetch_names := ["loss"];
  Parameters.use_mixed_precision := false;
  Parameters.use_adasum := false;
  Parameters.is_perf_test := false;
  Parameters.display_loss_steps := 1;
  Parameters.error_function := true;
  Parameters.post_evaluation_callback := false;
  Parameters.shuffle_data := false;
  Parameters.do_eval := false;
  Parameters.evaluation_period := 1;
  Parameters.skip_evaluation := false;
  Parameters.checkpoint_period := 0;
  Parameters.world_rank := 0;
  Parameters.lr_feed_name := "Learning_Rate";
  Parameters.perf_output_dir := EmptyString
|}.

(** The first of two pipeline stages, with a loss scaler at 65536.0f, two
    event names and one event output. *)
Definition event_stage_runner : TrainingRunner := {|
  step_ := 3;
  round_ := 0;
  weight_update_step_count_ := 3;
  training_data_set_index_ := 0;
  params_ := params_ bare_stage_runner;
  loss_scaler_ :=
    Some {| loss_scale_input_name_ := "loss_scale";
            loss_scale_ := 1199570944;
            stable_steps_ := 0 |};
  opt_graph_outputs_ := {[ GradientAccumulation := "accumulated" ]};
  pipeline_context_ :=
    PipelineContext.Build_t 0 1 ["input"; "loss_scale"] ["predictions"]
      "forward_waited" EmptyString EmptyString EmptyString
      EmptyString EmptyString EmptyString "backward_recorded"
      "forward_wait_output" EmptyString EmptyString EmptyString;
  pipeline_schedule_ := fun _ _ _ => 7;
  pipeline_worker_pool_ := WorkerPool.make 2;
  checkpoint_registry_ := false;
  current_batch := 0;
  log := []
|}.

(** A runner in mixed precision after four steps, and a fresh one that is
    to load its checkpoint. *)
Definition checkpointed_runner : TrainingRunner :=
  set_step_ 4
    (set_round_ 1
       (set_weight_update_step_count_ 2
          (set_training_data_set_index_ 3
             (set_loss_scaler_
                (Some {| loss_scale_input_name_ := "loss_scale";
                         loss_scale_ := 1199570944;
                         stable_steps_ := 7 |})
                (simple_runner 4 2))))).

Definition fresh_scaled_runner : TrainingRunner :=
  set_loss_scaler_
    (Some {| loss_scale_input_name_ := "loss_scale";
             loss_scale_ := float_1_0;
             stable_steps_ := 0 |})
    (simple_runner 4 2).


(** A session whose every run fails; its other services are those of the
    simple session. *)
Definition FailingSession_I : SessionI := {|
  session_Run := fun _ _ _ _ _ => (Error "session failed", []);
  LearningRateScheduler_Create := fun _ => None;
  eval_num_batches := fun e b => (e + b - 1) / b;
  checkpoint_files := fun _ _ => OK;
  perf_metrics_files := fun _ _ _ => OK
|}.

(** One stage in mixed precision, with a loss scaler and the optimizer's
    overflow flag exposed as ["all_finite"]. *)
Definition mixed_precision_runner : TrainingRunner := {|
  step_ := 0;
  round_ := 0;
  weight_update_step_count_ := 0;
  training_data_set_index_ := 0;
  params_ := {|
    Parameters.model_path := "model.onnx";
    Parameters.weights_to_train := [];
    Parameters.weights_not_to_train := [];
    Parameters.training_optimizer_name := "AdamOptimizer";
    Parameters.deepspeed_zero_stage := 0;
    Parameters.use_nccl := false;
    Parameters.num_train_steps := 4;
    Parameters.gradient_accumulation_steps := 1;
    Parameters.pipeline_parallel_size := 1;
    Parameters.batch_size := 8;
    Parameters.eval_batch_size := 8;
    Parameters.fetch_names := ["loss"];
    Parameters.use_mixed_precision := true;
    Parameters.use_adasum := false;
    Parameters.is_perf_test := false;
    Parameters.display_loss_steps := 1;
    Parameters.error_function := true;
    Parameters.post_evaluation_callback := false;
    Parameters.shuffle_data := false;
    Parameters.do_eval := false;
    Parameters.evaluation_period := 1;
    Parameters.skip_evaluation := false;
    Parameters.checkpoint_period := 0;
    Parameters.world_rank := 0;
    Parameters.lr_feed_name := "Learning_Rate";
    Parameters.perf_output_dir := EmptyString
  |};
  loss_scaler_ :=
    Some {| loss_scale_input_name_ := "loss_scale";
            loss_scale_ := 1199570944;
            stable_steps_ := 5 |};
  opt_graph_outputs_ := {[ GradientAllIsFinite := "all_finite" ]};
  pipeline_context_ := PipelineContext.empty;
  pipeline_schedule_ := fun _ _ _ => 0;
  pipeline_worker_pool_ := WorkerPool.make 1;
  checkpoint_registry_ := false;
  current_batch := 0;
  log := []
|}.

(** One stage, without pipeline, whose context still names two events. *)
Definition stray_event_runner : TrainingRunner := {|
  step_ := 0;
  round_ := 0;
  weight_update_step_count_ := 0;
  training_data_set_index_ := 0;
  params_ := simple_params 4 2;
  loss_scaler_ := None;
  opt_graph_outputs_ := {[ GradientAccumulation := "accumulated" ]};
  pipeline_context_ := pipeline_context_ event_stage_runner;
  pipeline_schedule_ := fun _ _ _ => 7;
  pipeline_worker_pool_ := WorkerPool.make 1;
  checkpoint_registry_ := false;
  current_batch := 0;
  log := []
|}.

(** The four-step scenario as a call of [Run], without a test loader. *)
Definition four_step_run : RunState := {|
  run_runner := simple_runner 4 2;
  run_training_data_loader := Some (simple_loader [Some {| total_batch := 4 |}]);
  run_test_data_loader := None
|}.



(** Four steps with an update every second step, in mixed precision with
    a loss scaler, evaluating after every weight update on a test loader
    of one shard. *)
Definition scaled_evaluating_scenario : LoopState := {|
  runner := {|
    step_ := 0;
    round_ := 0;
    weight_update_step_count_ := 0;
    training_data_set_index_ := 0;
    params_ := {|
      Parameters.model_path := "model.onnx";
      Parameters.weights_to_train := [];
      Parameters.weights_not_to_train := [];
      Parameters.training_optimizer_name := "AdamOptimizer";
      Parameters.deepspeed_zero_stage := 0;
      Parameters.use_nccl := false;
      Parameters.num_train_steps := 4;
      Parameters.gradient_accumulation_steps := 2;
      Parameters.pipeline_parallel_size := 1;
      Parameters.batch_size := 8;
      Parameters.eval_batch_size := 8;
      Parameters.fetch_names := ["loss"];
      Parameters.use_mixed_precision := true;
      Parameters.use_adasum := false;
      Parameters.is_perf_test := false;
      Parameters.display_loss_steps := 1;
      Parameters.error_function := true;
      Parameters.post_evaluation_callback := false;
      Parameters.shuffle_data := false;
      Parameters.do_eval := true;
      Parameters.evaluation_period := 1;
      Parameters.skip_evaluation := false;
      Parameters.checkpoint_period := 0;
      Parameters.world_rank := 0;
      Parameters.lr_feed_name := "Learning_Rate";
      Parameters.perf_output_dir := EmptyString
    |};
    loss_scaler_ :=
      Some {| loss_scale_input_name_ := "loss_scale";
              loss_scale_ := 1199570944;
              stable_steps_ := 0 |};
    opt_graph_outputs_ :=
      {[ GradientAccumulation := "accumulated";
         GradientAllIsFinite := "all_finite" ]};
    pipeline_context_ := PipelineContext.empty;
    pipeline_schedule_ := fun _ _ _ => 0;
    pipeline_worker_pool_ := WorkerPool.make 1;
    checkpoint_registry_ := false;
    current_batch := 0;
    log := []
  |};
  training_data_loader := simple_loader [Some {| total_batch := 4 |}];
  test_data_loader := Some (simple_loader [Some {| total_batch := 2 |}]);
  gradient_accumulation_step_count := 0;
  epoch := 0
|}.

(** A negative number of pipeline stages. *)
Definition negative_pipeline_params : Parameters.t := {|
  Parameters.model_path := "model.onnx";
  Parameters.weights_to_train := [];
  Parameters.weights_not_to_train := [];
  Parameters.training_optimizer_name := "AdamOptimizer";
  Parameters.deepspeed_zero_stage := 0;
  Parameters.use_nccl := false;
  Parameters.num_train_steps := 4;
  Parameters.gradient_accumulation_steps := 2;
  Parameters.pipeline_parallel_size := -1;
  Parameters.batch_size := 8;
  Parameters.eval_batch_size := 8;
  Parameters.fetch_names := ["loss"];
  Parameters.use_mixed_precision := false;
  Parameters.use_adasum := false;
  Parameters.is_perf_test := false;
  Parameters.display_loss_steps := 1;
  Parameters.error_function := true;
  Parameters.post_evaluation_callback := false;
  Parameters.shuffle_data := false;
  Parameters.do_eval := false;
  Parameters.evaluation_period := 1;
  Parameters.skip_evaluation := false;
  Parameters.checkpoint_period := 0;
  Parameters.world_rank := 0;
  Parameters.lr_feed_name := "Learning_Rate";
  Parameters.perf_output_dir := EmptyString
|}.

(** * Properties *)

(** ** Decimal round trip of [size_t] values *)

Lemma digit_cases (d : Z) :
  0 <= d < 10 ->
  d = 0 \/ d = 1 \/ d = 2 \/ d = 3 \/ d = 4 \/ d = 5 \/ d = 6 \/ d = 7 \/ d = 8 \/ d = 9.
Proof. lia. Qed.

Lemma digit_val_digit_char (d : Z) :
  0 <= d < 10 -> digit_val (digit_char d) = Some d.
Proof.
  intros Hd. destruct (digit_cases d Hd) as [-> | [-> | [-> | [-> | [-> | [-> | [-> | [-> | [-> | ->]]]]]]]]];
    reflexivity.
Qed.

Lemma read_digits_digit (d : Z) (s : string) (count : nat) (acc : Z) :
  0 <= d < 10 ->
  read_digits (String (digit_char d) s) count acc
  = read_digits s (S count) (acc * 10 + d).
Proof.
  intros Hd. cbn [read_digits]. rewrite (digit_val_digit_char d Hd). reflexivity.
Qed.

(** Reading back what [to_string_digits] wrote in front of [s] shifts the
    accumulator by the number written and goes on with [s]. *)
Lemma read_digits_to_string_digits (fuel : nat) :
  forall (n : Z) (s : string),
    fuel <> O -> 0 <= n < 10 ^ Z.of_nat fuel ->
    exists (k : Z) (j : nat),
      0 <= k /\
      forall (count : nat) (acc : Z),
        read_digits (to_string_digits fuel n s) count acc
        = read_digits s (S j + count) (acc * 10 ^ k + n).
Proof.
  induction fuel as [| fuel IH]; intros n s Hfuel Hn; [congruence |].
  assert (Hd : 0 <= n mod 10 < 10) by (apply Z.mod_pos_bound; lia).
  assert (Hdiv : n = 10 * (n / 10) + n mod 10) by (apply Z.div_mod; lia).
  cbn [to_string_digits].
  destruct (Z.eqb_spec (n / 10) 0) as [Hq | Hq].
  - exists 1, O. split; [lia |]. intros count acc.
    rewrite read_digits_digit by exact Hd.
    f_equal. lia.
  - assert (Hqpos : 0 < n / 10).
    { assert (0 <= n / 10) by (apply Z.div_pos; lia). lia. }
    assert (Hqlt : n / 10 < 10 ^ Z.of_nat fuel).
    { apply Z.div_lt_upper_bound; [lia |].
      replace (10 * 10 ^ Z.of_nat fuel) with (10 ^ Z.of_nat (S fuel)); [lia |].
      rewrite Nat2Z.inj_succ, Z.pow_succ_r by lia. reflexivity. }
    assert (Hfuel' : fuel <> O).
    { intros ->. change (10 ^ Z.of_nat 0) with 1 in Hqlt. lia. }
    destruct (IH (n / 10) (String (digit_char (n mod 10)) s) Hfuel'
                ltac:(lia)) as (k & j & Hk & Hread).
    exists (k + 1), (S j). split; [lia |]. intros count acc.
    rewrite Hread, read_digits_digit by exact Hd.
    f_equal. rewrite Z.pow_add_r by lia. lia.
Qed.

Lemma to_string_digits_head (fuel : nat) :
  forall (n : Z) (s : string),
    0 <= n ->
    (fuel <> O \/ exists d rest, 0 <= d < 10 /\ s = String (digit_char d) rest) ->
    exists d rest, 0 <= d < 10 /\ to_string_digits fuel n s = String (digit_char d) rest.
Proof.
  induction fuel as [| fuel IH]; intros n s Hn Hs.
  - destruct Hs as [Hs | Hs]; [congruence | exact Hs].
  - assert (Hd : 0 <= n mod 10 < 10) by (apply Z.mod_pos_bound; lia).
    cbn [to_string_digits].
    destruct (n / 10 =? 0).
    + eauto.
    + apply IH; [apply Z.div_pos; lia |]. right. eauto.
Qed.

Lemma extract_size_t_digit_led (d : Z) (rest : string) :
  0 <= d < 10 ->
  extract_size_t (String (digit_char d) rest)
  = let '(count, v, rest') := read_digits (String (digit_char d) rest) O 0 in
    match count with
    | O => None
    | S _ => if v <=? SIZE_MAX then Some (v, rest') else None
    end.
Proof.
  intros Hd. destruct (digit_cases d Hd) as [-> | [-> | [-> | [-> | [-> | [-> | [-> | [-> | [-> | ->]]]]]]]]];
    reflexivity.
Qed.

(** [FromString] reads back what [std::to_string] wrote. *)
Lemma FromString_to_string (n : Z) :
  is_size_t n -> FromString (to_string n) = Some n.
Proof.
  intros [Hlo Hhi]. unfold SIZE_MAX in Hhi.
  assert (Hlt : 0 <= n < 10 ^ Z.of_nat 20).
  { change (10 ^ Z.of_nat 20) with 100000000000000000000. lia. }
  destruct (to_string_digits_head 20 n EmptyString Hlo) as (d & rest & Hd & Hhead);
    [left; congruence |].
  destruct (read_digits_to_string_digits 20 n EmptyString ltac:(congruence) Hlt)
    as (k & j & _ & Hread).
  unfold FromString, to_string.
  rewrite Hhead, (extract_size_t_digit_led d rest Hd), <- Hhead, Hread.
  cbn [read_digits]. rewrite Z.mul_0_l, Z.add_0_l.
  replace (n <=? SIZE_MAX) with true; [reflexivity |].
  symmetry. apply Z.leb_le. unfold SIZE_MAX. lia.
Qed.

Section RunnerFacts.
Context `{LS : LossScalerI} `{DL : DataLoaderI} `{SE : SessionI}.

(** ** The constructor *)

Lemma size_t_of_int_nonneg (i : Z) : 0 <= i -> size_t_of_int i = i.
Proof.
  intros Hi. unfold size_t_of_int.
  destruct (Z.ltb_spec i 0); [lia | reflexivity].
Qed.

Lemma WorkerPool_ctor_nonneg (n : Z) :
  0 <= n -> WorkerPool_ctor n = Ret (WorkerPool.make n).
Proof.
  intros Hn. unfold WorkerPool_ctor.
  destruct (Z.ltb_spec n 0); [lia | reflexivity].
Qed.

(** The constructor throws when any check before the last one fails, also
    when the pool cannot be built. *)
Lemma ctor_throws_or_reaches_last_check (params : Parameters.t) :
  (exists msg, TrainingRunner_ctor params = Thrown msg) \/
  (0 <= Parameters.pipeline_parallel_size params /\
   earlier_checks_pass params /\
   (Parameters.deepspeed_zero_stage params = 0 \/
    Parameters.use_nccl params = true)).
Proof.
  unfold TrainingRunner_ctor, WorkerPool_ctor, earlier_checks_pass.
  destruct (Z.ltb_spec (Parameters.pipeline_parallel_size params) 0);
    [left; eexists; reflexivity |].
  destruct (str_empty (Parameters.model_path params));
    [left; eexists; reflexivity |].
  destruct (vec_empty (Parameters.weights_to_train params)) eqn:Htrain;
    destruct (vec_empty (Parameters.weights_not_to_train params)) eqn:Hnot;
    cbn [negb andb]; try (left; eexists; reflexivity).
  all: destruct (str_empty (Parameters.training_optimizer_name params));
    [left; eexists; reflexivity |].
  all: destruct (Z.eqb_spec (Parameters.deepspeed_zero_stage params) 0);
    destruct (Parameters.use_nccl params); cbn [negb andb];
    try (left; eexists; reflexivity).
  all: right; repeat split; auto.
Qed.

(** What the constructor does once the earlier checks have passed. *)
Lemma ctor_last_check (params : Parameters.t) :
  0 <= Parameters.pipeline_parallel_size params ->
  earlier_checks_pass params ->
  Parameters.deepspeed_zero_stage params = 0 \/
  Parameters.use_nccl params = true ->
  size_t_of_int (Parameters.gradient_accumulation_steps params) <> 0 ->
  TrainingRunner_ctor params
  = if Parameters.num_train_steps params
       mod size_t_of_int (Parameters.gradient_accumulation_steps params) =? 0
    then Ret {| step_ := 0;
                round_ := 0;
                weight_update_step_count_ := 0;
                training_data_set_index_ := 0;
                params_ := params;
                loss_scaler_ := None;
                opt_graph_outputs_ := ∅;
                pipeline_context_ := PipelineContext.empty;
                pipeline_schedule_ := fun _ _ _ => 0;
                pipeline_worker_pool_ :=
                  WorkerPool.make (Parameters.pipeline_parallel_size params);
                checkpoint_registry_ := false;
                current_batch := 0;
                log := [] |}
    else Thrown "Number of training steps must be a multiple of number of gradient accumulation step.".
Proof.
  intros Hpool (Hpath & Hweights & Hopt) Hzero HD.
  unfold TrainingRunner_ctor.
  rewrite (WorkerPool_ctor_nonneg _ Hpool), Hpath, Hopt.
  replace (negb (vec_empty (Parameters.weights_to_train params))
           && negb (vec_empty (Parameters.weights_not_to_train params)))
    with false by (destruct Hweights as [-> | ->]; [| rewrite andb_comm]; reflexivity).
  replace (negb (Parameters.deepspeed_zero_stage params =? 0)
           && negb (Parameters.use_nccl params))
    with false
    by (destruct Hzero as [-> | ->]; [| rewrite andb_comm]; reflexivity).
  apply Z.eqb_neq in HD. rewrite HD.
  destruct (Parameters.num_train_steps params
            mod size_t_of_int (Parameters.gradient_accumulation_steps params)
            =? 0); reflexivity.
Qed.

(** C7. In [num_train_steps % gradient_accumulation_steps] the [int]
    divisor is converted to [size_t]: it is [gradient_accumulation_steps]
    itself when that is not negative.  When the divisor is not zero, the
    constructor throws whenever [num_train_steps] is not a multiple of it,
    and it throws whenever ZeRO partitioning is requested without NCCL;
    when neither is the case (and the pool can be built and the three
    earlier checks pass) it yields a runner on which no step has run: all
    counters zero, nothing logged. *)
Theorem C7_constructor_checks (params : Parameters.t) :
  let N := Parameters.num_train_steps params in
  let A := Parameters.gradient_accumulation_steps params in
  let divisor := size_t_of_int A in
  (0 <= A -> divisor = A) /\
  (divisor <> 0 ->
   N mod divisor <> 0 ->
   exists msg, TrainingRunner_ctor params = Thrown msg) /\
  (Parameters.deepspeed_zero_stage params <> 0 ->
   Parameters.use_nccl params = false ->
   exists msg, TrainingRunner_ctor params = Thrown msg) /\
  (earlier_checks_pass params ->
   0 <= Parameters.pipeline_parallel_size params ->
   divisor <> 0 ->
   N mod divisor = 0 ->
   Parameters.deepspeed_zero_stage params = 0 \/ Parameters.use_nccl params = true ->
   exists r, TrainingRunner_ctor params = Ret r /\
             params_ r = params /\ step_ r = 0 /\
             weight_update_step_count_ r = 0 /\ log r = []).
Proof.
  intros N A divisor.
  split; [apply size_t_of_int_nonneg |].
  split; [| split].
  - intros HD Hmod.
    destruct (ctor_throws_or_reaches_last_check params)
      as [Hthrown | (Hpool & Hearlier & Hzero)]; [exact Hthrown |].
    rewrite (ctor_last_check params Hpool Hearlier Hzero HD).
    apply Z.eqb_neq in Hmod. fold N A divisor. rewrite Hmod. eauto.
  - intros Hstage Hnccl.
    destruct (ctor_throws_or_reaches_last_check params)
      as [Hthrown | (_ & _ & [Hzero | Hzero])];
      [exact Hthrown | contradiction | congruence].
  - intros Hearlier Hpool HD Hmod Hzero.
    rewrite (ctor_last_check params Hpool Hearlier Hzero HD).
    apply Z.eqb_eq in Hmod. fold N A divisor. rewrite Hmod.
    eexists. repeat split.
Qed.

(** ** Checkpoint properties *)

Lemma load_saved_property (properties : gmap string string) (name : string)
  (val : Z) :
  is_size_t val ->
  properties !! name = Some (to_string val) ->
  load_property properties name = Ret val.
Proof.
  intros Hval Hlookup. unfold load_property.
  rewrite Hlookup, (FromString_to_string val Hval). reflexivity.
Qed.

(** C2. Properties written by [SaveCheckpointProperties] (into any map)
    load back: [LoadCheckpointProperties] returns OK and the four counters
    are exactly the saved ones.  A runner that loads with a loss scaler
    hands it exactly the string that the saved loss scaler produced, and
    keeps the scaler that comes out of the load; when the saved scaler
    keeps the contract of the spec for [SaveState()/LoadState(s)], this
    scaler is in the saved state: it has the saved scale and its saved
    form is the saved string.  So a runner with a loss scaler, saved and
    loaded into a runner with a loss scaler, writes the properties that
    were loaded: everything that is serialized has been restored.  The
    runner that loads has a loss scaler only if the saving one had. *)
Theorem C2_checkpoint_properties_round_trip
  (saved current : TrainingRunner) (properties : gmap string string) :
  is_size_t (step_ saved) ->
  is_size_t (round_ saved) ->
  is_size_t (weight_update_step_count_ saved) ->
  is_size_t (training_data_set_index_ saved) ->
  (loss_scaler_ current <> None -> loss_scaler_ saved <> None) ->
  (forall ls, loss_scaler_ saved = Some ls -> state_is_restored ls) ->
  let produced := (SaveCheckpointProperties saved properties).2 in
  (SaveCheckpointProperties saved properties).1 = OK /\
  exists loaded,
    LoadCheckpointProperties produced current = Ret loaded /\
    step_ loaded = step_ saved /\
    round_ loaded = round_ saved /\
    weight_update_step_count_ loaded = weight_update_step_count_ saved /\
    training_data_set_index_ loaded = training_data_set_index_ saved /\
    match loss_scaler_ current with
    | Some ls' =>
        exists ls restored,
          loss_scaler_ saved = Some ls /\
          produced !! k_loss_scaler_state = Some (SaveToString ls) /\
          LoadFromString ls' (SaveToString ls) = (OK, restored) /\
          loss_scaler_ loaded = Some restored /\
          GetLossScale restored = GetLossScale ls /\
          SaveToString restored = SaveToString ls
    | None => loss_scaler_ loaded = None
    end /\
    ((loss_scaler_ saved <> None -> loss_scaler_ current <> None) ->
     forall properties',
       SaveCheckpointProperties loaded properties'
       = SaveCheckpointProperties saved properties').
Proof.
  intros Hstep Hround Hwus Hindex Hpresent Hcontract produced.
  split; [reflexivity |].
  assert (Hk : forall name val,
             (name = k_step /\ val = step_ saved) \/
             (name = k_round /\ val = round_ saved) \/
             (name = k_weight_update_step /\ val = weight_update_step_count_ saved) \/
             (name = k_training_data_set_index /\ val = training_data_set_index_ saved) ->
             produced !! name = Some (to_string val)).
  { intros name val Hcase. subst produced.
    unfold SaveCheckpointProperties, save_property. cbn [snd].
    assert (Hne : forall v m, (<[k_loss_scaler_state := v]> m : gmap string string) !! name
                              = m !! name).
    { intros v m. apply lookup_insert_ne.
      destruct Hcase as [[-> _] | [[-> _] | [[-> _] | [-> _]]]]; discriminate. }
    assert (Hbody : (<[k_training_data_set_index := to_string (training_data_set_index_ saved)]>
                      (<[k_weight_update_step := to_string (weight_update_step_count_ saved)]>
                         (<[k_round := to_string (round_ saved)]>
                            (<[k_step := to_string (step_ saved)]> properties))))
                    !! name = Some (to_string val)).
    { destruct Hcase as [[-> ->] | [[-> ->] | [[-> ->] | [-> ->]]]].
      - do 3 (rewrite lookup_insert_ne by discriminate). apply lookup_insert_eq.
      - do 2 (rewrite lookup_insert_ne by discriminate). apply lookup_insert_eq.
      - rewrite lookup_insert_ne by discriminate. apply lookup_insert_eq.
      - apply lookup_insert_eq. }
    destruct (loss_scaler_ saved); [rewrite Hne |]; exact Hbody. }
  unfold LoadCheckpointProperties.
  rewrite (load_saved_property produced k_step (step_ saved)) by auto.
  rewrite (load_saved_property produced k_round (round_ saved)) by auto 6.
  rewrite (load_saved_property produced k_weight_update_step
             (weight_update_step_count_ saved)) by auto 6.
  rewrite (load_saved_property produced k_training_data_set_index
             (training_data_set_index_ saved)) by auto 6.
  cbn [loss_scaler_ set_training_data_set_index_ set_weight_update_step_count_
       set_round_ set_step_].
  destruct (loss_scaler_ current) as [ls' |] eqn:Hcur.
  - destruct (loss_scaler_ saved) as [ls |] eqn:Hsaved;
      [| exfalso; apply Hpresent; congruence].
    assert (Hstate : produced !! k_loss_scaler_state = Some (SaveToString ls)).
    { subst produced. unfold SaveCheckpointProperties. cbn [snd].
      rewrite Hsaved. apply lookup_insert_eq. }
    rewrite Hstate.
    destruct (Hcontract ls eq_refl ls') as (restored & Hload & Hscale & Hsame).
    rewrite Hload.
    eexists. split; [reflexivity |].
    cbn. do 4 (split; [reflexivity |]). split.
    + exists ls, restored. auto 7.
    + intros _ properties'. unfold SaveCheckpointProperties. cbn.
      rewrite Hsaved, Hsame. reflexivity.
  - eexists. split; [reflexivity |].
    cbn. do 4 (split; [reflexivity |]). split; [exact Hcur |].
    intros Hboth properties'. unfold SaveCheckpointProperties. cbn.
    rewrite Hcur.
    destruct (loss_scaler_ saved) as [ls |] eqn:Hsaved; [| reflexivity].
    exfalso. apply Hboth; congruence.
Qed.

(** ** Feeds of an evaluation step *)

Lemma data_feeds_loop_appends (r : TrainingRunner) (data_feeds : list OrtValue)
  (names : list string) :
  forall (i : nat) (buf : FeedBuf),
  exists o data_names data_values,
    data_feeds_loop r names i data_feeds buf
    = (o, (buf.1 ++ data_names, buf.2 ++ data_values)) /\
    (o = Undefined \/
     o = Ret tt /\ List.length data_names = List.length data_values).
Proof.
  induction names as [| name names IH]; intros i [ns vs].
  - exists (Ret tt), [], []. cbn. rewrite !app_nil_r. auto.
  - cbn [data_feeds_loop]. unfold bind at 1.
    destruct (feed_allowed r name).
    + unfold bind at 1, push_feed_name, modify. cbn [fst snd].
      destruct (data_feeds !! i) as [v |].
      * unfold push_feed, modify. cbn [fst snd].
        destruct (IH (S i) (ns ++ [name], vs ++ [v])) as (o & dn & dv & Heq & Ho).
        exists o, (name :: dn), (v :: dv). cbn [fst snd] in *.
        rewrite Heq, <- !app_assoc. split; [reflexivity |].
        destruct Ho as [-> | [-> Hlen]]; [auto |]. right. cbn. auto.
      * exists Undefined, [name], []. cbn. rewrite app_nil_r. auto.
    + unfold ret.
      destruct (IH (S i) (ns, vs)) as (o & dn & dv & Heq & Ho).
      exists o, dn, dv. auto.
Qed.

Lemma loss_scale_feed_evaluation (r : TrainingRunner) (buf : FeedBuf) :
  loss_scale_feed r EvaluateStep buf
  = (Ret tt, (buf.1 ++ (evaluation_loss_scale_feed r).1,
              buf.2 ++ (evaluation_loss_scale_feed r).2)).
Proof.
  destruct buf as [ns vs].
  unfold loss_scale_feed, evaluation_loss_scale_feed.
  destruct (loss_scaler_ r) as [ls |]; [destruct (feed_allowed r _) |];
    cbn; rewrite ?app_nil_r; reflexivity.
Qed.

Lemma learning_rate_feed_appends (r : TrainingRunner)
  (lr_scheduler : option (Z -> float32)) (buf : FeedBuf) :
  exists lr_names lr_values,
    learning_rate_feed r lr_scheduler buf
    = (Ret tt, (buf.1 ++ lr_names, buf.2 ++ lr_values)) /\
    List.length lr_names = List.length lr_values.
Proof.
  destruct buf as [ns vs]. unfold learning_rate_feed.
  destruct (feed_allowed r _).
  - eexists [_], [_]. cbn. split; reflexivity.
  - exists [], []. cbn. rewrite !app_nil_r. split; reflexivity.
Qed.

(** One event feed in evaluation: nothing for an empty name, an error
    without pipeline, and otherwise the name with the sentinel. *)
Lemma event_feed_evaluation (r : TrainingRunner) (name : string)
  (kind : EventKind) (buf : FeedBuf) :
  event_feed r EvaluateStep name kind buf
  = if str_empty name then (Ret tt, buf)
    else if Parameters.pipeline_parallel_size (params_ r) <=? 1
         then (Returned "Internal event name should be empty if there is no pipeline.", buf)
         else (Ret tt, (buf.1 ++ [name], buf.2 ++ [Int64Scalar (-1)])).
Proof.
  unfold event_feed. destruct (str_empty name); [reflexivity |].
  destruct (Parameters.pipeline_parallel_size (params_ r) <=? 1); reflexivity.
Qed.

Lemma bind_ret_tt {S : Type} (m : M S unit) (s : S) :
  (m ;;; ret tt) s = m s.
Proof.
  unfold bind, ret. destruct (m s) as [[[] | | | | |] s']; reflexivity.
Qed.

Lemma bind_Ret {S A B : Type} (m : M S A) (k : A -> M S B) (s s' : S) (a : A) :
  m s = (Ret a, s') -> bind m k s = k a s'.
Proof. intros Hm. unfold bind. rewrite Hm. reflexivity. Qed.

Lemma bind_ext {S A B : Type} (m : M S A) (k1 k2 : A -> M S B) (s : S) :
  (forall a s', k1 a s' = k2 a s') -> bind m k1 s = bind m k2 s.
Proof.
  intros Hk. unfold bind. destruct (m s) as [[a | | | | |] s']; auto.
Qed.

Lemma event_feeds_as_seq (r : TrainingRunner) (mode : SessionMode)
  (buf : FeedBuf) :
  event_feeds r mode buf
  = event_feed_seq r mode
      (zip (event_names (pipeline_context_ r)) event_kinds) buf.
Proof.
  unfold event_feeds, event_names, event_kinds. cbn [zip zip_with event_feed_seq].
  do 7 (apply bind_ext; intros _ ?).
  symmetry. apply bind_ret_tt.
Qed.

Lemma event_feed_seq_evaluation (r : TrainingRunner)
  (events : list (string * EventKind)) :
  forall buf : FeedBuf,
    (event_feed_seq r EvaluateStep events buf
     = (Ret tt, (buf.1 ++ non_empty (List.map fst events),
                 buf.2 ++ sentinel_feeds (non_empty (List.map fst events)))) /\
     (non_empty (List.map fst events) = [] \/
      1 < Parameters.pipeline_parallel_size (params_ r))) \/
    (exists msg, event_feed_seq r EvaluateStep events buf = (Returned msg, buf) /\
                 Parameters.pipeline_parallel_size (params_ r) <= 1).
Proof.
  induction events as [| [name kind] events IH]; intros [ns vs].
  - left. cbn. rewrite !app_nil_r. auto.
  - cbn [event_feed_seq List.map fst]. unfold non_empty. cbn [List.filter].
    fold (non_empty (List.map fst events)).
    unfold bind. rewrite event_feed_evaluation.
    destruct (str_empty name); cbn [negb].
    + exact (IH (ns, vs)).
    + destruct (Z.leb_spec (Parameters.pipeline_parallel_size (params_ r)) 1)
        as [Hle | Hgt].
      * right. eexists. split; [reflexivity | exact Hle].
      * left. cbn [fst snd].
        destruct (IH (ns ++ [name], vs ++ [Int64Scalar (-1)]))
          as [[Heq _] | (msg & _ & Hle)]; [| lia].
        cbn [fst snd] in Heq. rewrite Heq.
        cbn. rewrite <- !app_assoc. auto.
Qed.

(** C3. In an evaluation step that does not run into undefined
    behaviour, the feeds are: the data feeds, then the loss-scale feed,
    which is the tensor holding 1.0f whenever it is there, then the
    learning-rate feed, then one feed per non-empty event name, each the
    scalar -1.  This holds whatever the stage id, the step and the
    schedule are.  (Without pipeline a non-empty event name makes the
    function return an error before any event is fed.) *)
Theorem C3_evaluation_feeds
  (r : TrainingRunner) (data_loader : IDataLoader) (data : DataSet)
  (lr_scheduler : option (Z -> float32)) (batch_index : Z)
  (o : Outcome unit) (feed_names : list string) (feeds : list OrtValue) :
  PrepareFeedNamesAndFeeds r EvaluateStep data_loader data lr_scheduler batch_index
  = (o, (feed_names, feeds)) ->
  o <> Undefined ->
  exists data_names data_values lr_names lr_values fed_events,
    feed_names
    = data_names ++ (evaluation_loss_scale_feed r).1 ++ lr_names ++ fed_events /\
    feeds
    = data_values ++ (evaluation_loss_scale_feed r).2 ++ lr_values
      ++ sentinel_feeds fed_events /\
    List.length data_names = List.length data_values /\
    List.length lr_names = List.length lr_values /\
    (o = Ret tt /\ fed_events = non_empty (event_names (pipeline_context_ r)) \/
     exists msg, o = Returned msg /\ fed_events = [] /\
                 Parameters.pipeline_parallel_size (params_ r) <= 1).
Proof.
  unfold PrepareFeedNamesAndFeeds. intros Hrun Hdef.
  unfold bind at 1 in Hrun.
  destruct (data_feeds_loop_appends r
              (GetKthBatch data (Parameters.batch_size (params_ r)) batch_index)
              (DataSetTensorNames data_loader) O ([], []))
    as (o1 & dn & dv & Hdata & Ho1).
  rewrite Hdata in Hrun. cbn [fst snd app] in Hrun.
  destruct Ho1 as [-> | [-> Hlen]]; [cbn in Hrun; congruence |].
  unfold bind at 1 in Hrun. rewrite loss_scale_feed_evaluation in Hrun.
  cbn [fst snd] in Hrun.
  unfold bind at 1 in Hrun.
  destruct (learning_rate_feed_appends r lr_scheduler
              (dn ++ (evaluation_loss_scale_feed r).1,
               dv ++ (evaluation_loss_scale_feed r).2))
    as (ln & lv & Hlr & Hlrlen).
  rewrite Hlr in Hrun. cbn [fst snd] in Hrun.
  rewrite event_feeds_as_seq in Hrun.
  match type of Hrun with
  | event_feed_seq _ _ ?events ?buf = _ =>
      destruct (event_feed_seq_evaluation r events buf)
        as [[Hev Hpipe] | (msg & Hev & Hle)]
  end; rewrite Hev in Hrun; injection Hrun as <- <- <-.
  - exists dn, dv, ln, lv, (non_empty (event_names (pipeline_context_ r))).
    cbn [fst snd]. rewrite <- !app_assoc. auto 10.
  - exists dn, dv, ln, lv, []. cbn [fst snd sentinel_feeds List.map].
    rewrite !app_nil_r, <- !app_assoc. repeat split; auto.
    right. eauto.
Qed.

(** ** Fetch names *)

Lemma push_if_not_empty_spec (name : string) (names : list string) :
  push_if_not_empty name names = (Ret tt, names ++ non_empty [name]).
Proof.
  unfold push_if_not_empty, non_empty. cbn [List.filter].
  destruct (str_empty name); cbn.
  - rewrite app_nil_r. reflexivity.
  - reflexivity.
Qed.

Lemma non_empty_cons (name : string) (names : list string) :
  non_empty (name :: names) = non_empty [name] ++ non_empty names.
Proof.
  unfold non_empty. cbn [List.filter]. destruct (negb (str_empty name)); reflexivity.
Qed.

(** The accumulation branch of [mode_fetch_names], run on the empty
    list. *)
Lemma mode_fetch_names_accumulate (r : TrainingRunner) :
  (1 < Parameters.gradient_accumulation_steps (params_ r) ->
   is_Some (opt_graph_outputs_ r !! GradientAccumulation)) ->
  Parameters.pipeline_parallel_size (params_ r) <> 0 ->
  mode_fetch_names r GradientAccumulateStep [] = (Ret tt, accumulation_fetch_names r).
Proof.
  intros Hacc Hpipe.
  unfold mode_fetch_names, accumulation_fetch_names, event_output_names.
  apply Z.eqb_neq in Hpipe. rewrite Hpipe. cbn [negb].
  rewrite (non_empty_cons (PipelineContext.forward_wait_output_name _)),
    (non_empty_cons (PipelineContext.forward_record_output_name _)),
    (non_empty_cons (PipelineContext.backward_wait_output_name _)).
  unfold bind.
  destruct (Z.ltb_spec 1 (Parameters.gradient_accumulation_steps (params_ r)))
    as [Hgt | Hle].
  - destruct (Hacc Hgt) as [name Hname].
    unfold push_optimizer_output. rewrite Hname.
    unfold push_fetch_name, modify. cbn [app].
    rewrite !push_if_not_empty_spec, <- !app_assoc. reflexivity.
  - unfold ret. rewrite !push_if_not_empty_spec, <- !app_assoc. reflexivity.
Qed.

(** C5, as amended.  A gradient-accumulation fetch construction (with the
    accumulation output available when it is needed, and a non-zero
    pipeline size) yields the accumulation output, present exactly when
    [gradient_accumulation_steps > 1], followed by the event outputs with
    a non-empty name, and nothing else, unless that list is empty: then it
    yields the allowed fetch names of the pipeline context.  With
    [gradient_accumulation_steps > 1], the only case in which the training
    loop asks for this mode, the list is never empty and is returned as it
    is. *)
Theorem C5_accumulation_fetch_names (r : TrainingRunner) :
  (1 < Parameters.gradient_accumulation_steps (params_ r) ->
   is_Some (opt_graph_outputs_ r !! GradientAccumulation)) ->
  Parameters.pipeline_parallel_size (params_ r) <> 0 ->
  PrepareFetchNamesAndFetches r GradientAccumulateStep
  = (Ret tt,
     if vec_empty (accumulation_fetch_names r)
     then PipelineContext.fetch_names (pipeline_context_ r)
     else accumulation_fetch_names r) /\
  (1 < Parameters.gradient_accumulation_steps (params_ r) ->
   PrepareFetchNamesAndFetches r GradientAccumulateStep
   = (Ret tt, accumulation_fetch_names r)).
Proof.
  intros Hacc Hpipe.
  assert (Hrun : PrepareFetchNamesAndFetches r GradientAccumulateStep
                 = (Ret tt,
                    if vec_empty (accumulation_fetch_names r)
                    then PipelineContext.fetch_names (pipeline_context_ r)
                    else accumulation_fetch_names r)).
  { unfold PrepareFetchNamesAndFetches.
    unfold bind at 1. rewrite (mode_fetch_names_accumulate r Hacc Hpipe).
    unfold bind, get.
    destruct (vec_empty (accumulation_fetch_names r)); reflexivity. }
  split; [exact Hrun |].
  intros Hmany. rewrite Hrun.
  unfold accumulation_fetch_names.
  destruct (Z.ltb_spec 1 (Parameters.gradient_accumulation_steps (params_ r)));
    [| lia].
  destruct (Hacc Hmany) as [name ->]. reflexivity.
Qed.

(** C10. Whatever the mode, once the mode-specific construction has
    produced its list, the function returns that list, or the allowed
    fetch names of the pipeline context when the list is empty; so what it
    returns is empty only if the allowed list is.  In particular an
    evaluation on a pipeline stage that owns none of the user-declared
    fetch names fetches every allowed name. *)
Theorem C10_fetch_fallback (r : TrainingRunner) (mode : SessionMode)
  (names : list string) :
  mode_fetch_names r mode [] = (Ret tt, names) ->
  PrepareFetchNamesAndFetches r mode
  = (Ret tt,
     if vec_empty names then PipelineContext.fetch_names (pipeline_context_ r)
     else names) /\
  ((PrepareFetchNamesAndFetches r mode).2 = [] ->
   PipelineContext.fetch_names (pipeline_context_ r) = []) /\
  (mode = EvaluateStep ->
   1 < Parameters.pipeline_parallel_size (params_ r) ->
   stage_fetch_names r = [] ->
   PrepareFetchNamesAndFetches r mode
   = (Ret tt, PipelineContext.fetch_names (pipeline_context_ r))).
Proof.
  intros Hmode.
  assert (Hrun : PrepareFetchNamesAndFetches r mode
                 = (Ret tt,
                    if vec_empty names
                    then PipelineContext.fetch_names (pipeline_context_ r)
                    else names)).
  { unfold PrepareFetchNamesAndFetches. unfold bind at 1. rewrite Hmode.
    unfold bind, get. destruct (vec_empty names); reflexivity. }
  split; [exact Hrun |]. split.
  - rewrite Hrun. cbn [snd]. destruct names; cbn [vec_empty]; congruence.
  - intros -> Hpipe Hnone. rewrite Hrun.
    cbn [mode_fetch_names] in Hmode.
    apply Z.ltb_lt in Hpipe. rewrite Hpipe in Hmode.
    unfold modify in Hmode. injection Hmode as <-. rewrite Hnone. reflexivity.
Qed.

(** ** A shard that fails to load *)


(** ** Rules for reading the log *)

Lemma run_events_app {St : Type} (delta : St -> Event -> option St)
  (es1 es2 : list Event) :
  forall st,
    run_events delta st (es1 ++ es2)
    = match run_events delta st es1 with
      | Some st' => run_events delta st' es2
      | None => None
      end.
Proof.
  induction es1 as [| e es1 IH]; intros st; cbn; [reflexivity |].
  destruct (delta st e); [apply IH | reflexivity].
Qed.

Lemma propagate_not_Ret {A B : Type} (o : Outcome A) (b : B) :
  (forall a, o <> Ret a) -> propagate o <> Ret b.
Proof. destruct o; cbn; congruence. Qed.

Section AcceptsRules.
Context {S St : Type}.
Variable lg : S -> list Event.
Variable I : S -> Prop.
Variable delta : St -> Event -> option St.

Lemma acc_ret {A : Type} (P : St -> Prop) (a : A) :
  accepts lg I delta P (ret a) P.
Proof.
  intros s st Hs Hst. cbn. split; [exact Hs |].
  exists [], st. rewrite app_nil_r. auto.
Qed.

Lemma acc_fail {A : Type} (P Q : St -> Prop) (o : Outcome A) :
  (forall a, o <> Ret a) -> accepts lg I delta P (fail o) Q.
Proof.
  intros Ho s st Hs Hst. cbn. split; [exact Hs |].
  exists [], st. rewrite app_nil_r. repeat split. intros a Ha.
  destruct (Ho a Ha).
Qed.

Lemma acc_modify (P : St -> Prop) (f : S -> S) :
  (forall s, I s -> I (f s) /\ lg (f s) = lg s) ->
  accepts lg I delta P (modify f) P.
Proof.
  intros Hf s st Hs Hst. cbn. destruct (Hf s Hs) as [HI Hlg].
  split; [exact HI |]. exists [], st. rewrite app_nil_r. auto.
Qed.

Lemma acc_bind {A B : Type} (P R Q : St -> Prop) (m : M S A) (k : A -> M S B) :
  accepts lg I delta P m R ->
  (forall a, accepts lg I delta R (k a) Q) ->
  accepts lg I delta P (bind m k) Q.
Proof.
  intros Hm Hk s st Hs Hst.
  destruct (Hm s st Hs Hst) as (HI1 & es1 & st1 & Hlg1 & Hrun1 & Hpost1).
  unfold bind. destruct (m s) as [o s1] eqn:Hms. cbn [fst snd] in *.
  assert (Hstop : (forall a, o <> Ret a) ->
                  I s1 /\
                  exists es st',
                    lg s1 = lg s ++ es /\ run_events delta st es = Some st' /\
                    (forall b, @propagate A B o = Ret b -> Q st')).
  { intros Ho. split; [exact HI1 |]. exists es1, st1. repeat split; auto.
    intros b Hb. destruct (propagate_not_Ret o b Ho Hb). }
  destruct o as [a | msg | msg | msg | |]; try (apply Hstop; congruence).
  destruct (Hk a s1 st1 HI1 (Hpost1 a eq_refl))
    as (HI2 & es2 & st2 & Hlg2 & Hrun2 & Hpost2).
  split; [exact HI2 |]. exists (es1 ++ es2), st2.
  rewrite Hlg2, Hlg1, app_assoc, run_events_app, Hrun1. auto.
Qed.

(** After [get], the value read satisfies the invariant. *)
Lemma acc_get_bind {B : Type} (P Q : St -> Prop) (k : S -> M S B) :
  (forall r, I r -> accepts lg I delta P (k r) Q) ->
  accepts lg I delta P (bind get k) Q.
Proof.
  intros Hk s st Hs Hst. exact (Hk s Hs s st Hs Hst).
Qed.

Lemma acc_weaken {A : Type} (P P' Q Q' : St -> Prop) (m : M S A) :
  accepts lg I delta P m Q ->
  (forall st, P' st -> P st) -> (forall st, Q st -> Q' st) ->
  accepts lg I delta P' m Q'.
Proof.
  intros Hm HP HQ s st Hs Hst.
  destruct (Hm s st Hs (HP st Hst)) as (HI & es & st' & Hlg & Hrun & Hpost).
  split; [exact HI |]. exists es, st'. repeat split; eauto.
Qed.

Lemma acc_ret_any {A : Type} (P : St -> Prop) (a : A) :
  accepts lg I delta P (ret a) any_state.
Proof.
  apply acc_weaken with (P := P) (Q := P);
    [apply acc_ret | auto | intros; exact Logic.I].
Qed.

Lemma acc_ret_bind {A B : Type} (P Q : St -> Prop) (a : A) (k : A -> M S B) :
  accepts lg I delta P (k a) Q -> accepts lg I delta P (bind (ret a) k) Q.
Proof. intros Hk s st Hs Hst. exact (Hk s st Hs Hst). Qed.

Lemma acc_fail_bind {A B : Type} (P Q : St -> Prop) (o : Outcome A)
  (k : A -> M S B) :
  (forall a, o <> Ret a) -> accepts lg I delta P (bind (fail o) k) Q.
Proof.
  intros Ho. apply acc_bind with (R := fun _ => False).
  - apply acc_fail, Ho.
  - intros a s st _ [].
Qed.

Lemma acc_ORT_RETURN_IF_ERROR (P : St -> Prop) (status : Status) :
  accepts lg I delta P (ORT_RETURN_IF_ERROR status) P.
Proof. destruct status; [apply acc_ret | apply acc_fail; congruence]. Qed.

Lemma acc_ORT_THROW_IF_ERROR (P : St -> Prop) (status : Status) :
  accepts lg I delta P (ORT_THROW_IF_ERROR status) P.
Proof. destruct status; [apply acc_ret | apply acc_fail; congruence]. Qed.

Lemma acc_size_t_mod (P : St -> Prop) (a b : Z) :
  accepts lg I delta P (size_t_mod a b) P.
Proof.
  unfold size_t_mod. destruct (b =? 0); [apply acc_fail; congruence | apply acc_ret].
Qed.

Lemma acc_checked {A : Type} (P : St -> Prop) (res : Outcome unit * A) :
  accepts lg I delta P (checked res) P.
Proof.
  unfold checked. destruct res.1; try apply acc_ret;
    apply acc_fail; cbn; congruence.
Qed.

Lemma acc_unchecked {A : Type} (P : St -> Prop) (res : Outcome unit * A) :
  accepts lg I delta P (unchecked res) P.
Proof.
  unfold unchecked. destruct res.1; try apply acc_ret;
    apply acc_fail; cbn; congruence.
Qed.

End AcceptsRules.

(** ** The log of the runner, read by an automaton

    The automaton and the invariant are kept abstract: what is assumed is
    that the invariant only depends on the configuration, that a join
    frees its slot, that a freed slot may have its buffers overwritten and
    a thread launched, and that the error callback is accepted whenever the
    session can see the loss. *)

Section Discipline.
Context {St : Type}.
Variable I_r : TrainingRunner -> Prop.
Variable delta : St -> Event -> option St.
Variable free : Z -> St -> Prop.

Hypothesis I_log : forall r l, I_r r -> I_r (set_log l r).
Hypothesis I_workers :
  forall r0 r i b,
    I_r r0 -> I_r r ->
    I_r (set_workers (<[i := b]> (WorkerPool.workers (pipeline_worker_pool_ r0))) r).
Hypothesis I_worker_states :
  forall r0 r i ws,
    I_r r0 -> I_r r ->
    I_r (set_worker_states
           (<[i := ws]> (WorkerPool.worker_states (pipeline_worker_pool_ r0))) r).
Hypothesis I_uncaught :
  forall r i msg,
    I_r r ->
    I_r (set_uncaught (<[i := msg]> (WorkerPool.uncaught (pipeline_worker_pool_ r))) r).
Hypothesis I_loss_scaler :
  forall r0 r ls,
    I_r r0 -> I_r r -> loss_scaler_ r0 <> None ->
    I_r (set_loss_scaler_ (Some ls) r).
Hypothesis I_opt_graph_outputs :
  forall r0 r,
    I_r r0 -> I_r r -> loss_scaler_ r0 <> None ->
    opt_graph_outputs_ r0 !! GradientAllIsFinite = None ->
    I_r (set_opt_graph_outputs_
           (<[GradientAllIsFinite := EmptyString]> (opt_graph_outputs_ r0)) r).
Hypothesis I_current_batch : forall r v, I_r r -> I_r (set_current_batch v r).
Hypothesis I_training_data_set_index :
  forall r v, I_r r -> I_r (set_training_data_set_index_ v r).
Hypothesis I_step_advance :
  forall r, I_r r -> I_r (set_step_ (wrap64 (step_ r + 1)) r).
Hypothesis I_weight_update_advance :
  forall r,
    I_r r ->
    I_r (set_weight_update_step_count_ (wrap64 (weight_update_step_count_ r + 1)) r).
Hypothesis H_join :
  forall st w, exists st', delta st (EvJoin w) = Some st' /\ free w st'.
Hypothesis H_assign :
  forall st w b, free w st ->
                 exists st', delta st (EvAssign w b) = Some st' /\ free w st'.
Hypothesis H_launch_training :
  forall r st,
    I_r r -> free (worker_slot r) st ->
    size_t_of_int (Parameters.pipeline_parallel_size (params_ r)) <> 0 ->
    is_Some (delta st (EvLaunch (worker_slot r) (TrainingRun (step_ r)))).
Hypothesis H_launch_evaluation :
  forall r st batch_idx,
    I_r r -> free 0 st ->
    is_Some (delta st (EvLaunch 0 (EvaluationRun (step_ r) batch_idx))).
Hypothesis H_session_run :
  forall st tag opt feed_names fetch_names,
    is_Some (delta st (EvSessionRun tag opt feed_names fetch_names)).
Hypothesis H_post_evaluation :
  forall st tag, is_Some (delta st (EvPostEvaluationCallback tag)).
Hypothesis H_skipping :
  forall st index, is_Some (delta st (EvSkippingShard index)).
Hypothesis H_save_checkpoint :
  forall st wus, is_Some (delta st (EvSaveCheckpoint wus)).
Hypothesis H_error_function :
  forall r st tag,
    I_r r -> session_can_see_loss r = true ->
    is_Some (delta st (EvErrorFunction tag)).

Local Abbreviation acc := (accepts log I_r delta).

Lemma acc_emit (P Q : St -> Prop) (e : Event) :
  (forall st, P st -> exists st', delta st e = Some st' /\ Q st') ->
  acc P (emit e) Q.
Proof.
  intros He r st Hr Hst. cbn. split; [apply I_log, Hr |].
  destruct (He st Hst) as (st' & Hdelta & HQ).
  exists [e], st'. cbn. rewrite Hdelta. auto.
Qed.

Lemma acc_emit_any (P : St -> Prop) (e : Event) :
  (forall st, is_Some (delta st e)) -> acc P (emit e) any_state.
Proof.
  intros He. apply acc_emit. intros st _. destruct (He st) as [st' Hst'].
  exists st'. split; [exact Hst' | exact Logic.I].
Qed.

(** A change of the runner that keeps the invariant and the log. *)
Lemma acc_set (P : St -> Prop) (f : TrainingRunner -> TrainingRunner) :
  (forall r, I_r r -> I_r (f r)) -> (forall r, log (f r) = log r) ->
  acc P (modify f) P.
Proof. intros Hf Hlog. apply acc_modify. intros r Hr. auto. Qed.

Ltac acc_set_tac :=
  apply acc_set;
  [ intros ? ?;
    first [ apply I_workers; assumption
          | apply I_worker_states; assumption
          | apply I_uncaught; assumption
          | apply I_current_batch; assumption
          | apply I_training_data_set_index; assumption
          | apply I_step_advance; assumption
          | apply I_weight_update_advance; assumption ]
  | intros ?; reflexivity ].

Lemma acc_Join (P : St -> Prop) (w : Z) : acc P (Join w) (free w).
Proof.
  unfold Join.
  eapply acc_bind.
  - apply acc_emit with (Q := free w). intros st _. apply H_join.
  - intros _. apply acc_get_bind. intros r Hr.
    destruct (WorkerPool.workers _ !! _); [| apply acc_fail; congruence].
    destruct (WorkerPool.uncaught _ !! _);
      [apply acc_fail; congruence | acc_set_tac].
Qed.

Lemma acc_Join_any (P : St -> Prop) (w : Z) : acc P (Join w) any_state.
Proof.
  apply acc_weaken with (P := P) (Q := free w);
    [apply acc_Join | auto | intros; exact Logic.I].
Qed.

Lemma acc_join_from (n : nat) :
  forall (P : St -> Prop) (w : Z), acc P (join_from n w) any_state.
Proof.
  induction n as [| n IH]; intros P w; cbn [join_from].
  - apply acc_ret_any.
  - eapply acc_bind; [apply acc_Join_any | intros _; apply IH].
Qed.

Lemma acc_JoinAll (P : St -> Prop) : acc P JoinAll any_state.
Proof. unfold JoinAll. apply acc_get_bind. intros r _. apply acc_join_from. Qed.

Lemma acc_assign_buffer (w : Z) (b : Buffer)
  (f : WorkerState.t -> WorkerState.t) :
  acc (free w) (assign_buffer w b f) (free w).
Proof.
  unfold assign_buffer.
  eapply acc_bind.
  - apply acc_emit with (Q := free w). intros st Hst. apply H_assign, Hst.
  - intros _. apply acc_get_bind. intros r Hr.
    destruct (_ !! _); [acc_set_tac | apply acc_fail; congruence].
Qed.

Lemma acc_launch (P : St -> Prop) (w : Z) (tag : RunTag) :
  (forall st, P st -> is_Some (delta st (EvLaunch w tag))) ->
  acc P (launch w tag) any_state.
Proof.
  intros Hl. unfold launch.
  eapply acc_bind.
  - apply acc_emit with (Q := any_state). intros st Hst.
    destruct (Hl st Hst) as [st' Hst']. exists st'. split; [exact Hst' | exact Logic.I].
  - intros _. apply acc_get_bind. intros r Hr.
    destruct (_ !! _); [acc_set_tac | apply acc_fail; congruence].
Qed.

Lemma acc_worker_run (P : St -> Prop) (w : Z) (tag : RunTag) (opt : bool) :
  acc P (worker_run w tag opt) any_state.
Proof.
  unfold worker_run. apply acc_get_bind. intros r Hr.
  destruct (_ !! _) as [ws |]; [| apply acc_fail; congruence].
  eapply acc_bind; [apply acc_emit_any; intros; apply H_session_run |].
  intros _. destruct (session_Run _ _ _ _ _) as [status fetches].
  eapply acc_bind; [acc_set_tac | intros _; apply acc_ret].
Qed.

Lemma acc_update_loss_scaler (P : St -> Prop) (fetch_names : list string)
  (fetches : list OrtValue) :
  acc P (update_loss_scaler fetch_names fetches) P.
Proof.
  unfold update_loss_scaler. apply acc_get_bind. intros r Hr.
  destruct (loss_scaler_ r) as [ls |] eqn:Hls; [| apply acc_ret].
  assert (Hsome : loss_scaler_ r <> None) by congruence.
  eapply acc_bind with (R := P).
  - destruct (_ !! _) eqn:Hout; [apply acc_ret |].
    eapply acc_bind; [| intros _; apply acc_ret].
    apply acc_set; [| intros ?; reflexivity].
    intros r0 Hr0. apply I_opt_graph_outputs; assumption.
  - intros name. destruct (find_index _ _) as [index |]; [| apply acc_ret].
    destruct (_ !! _) as [[| | [| b bs] |] |];
      try (apply acc_fail; congruence).
    apply acc_set; [| intros ?; reflexivity].
    intros r0 Hr0. apply (I_loss_scaler r); assumption.
Qed.

Lemma acc_report_training_loss (P : St -> Prop) (tag : RunTag) :
  acc P (report_training_loss tag) any_state.
Proof.
  unfold report_training_loss. apply acc_get_bind. intros r Hr.
  fold (session_can_see_loss r).
  destruct (session_can_see_loss r) eqn:Hsee; cbn [andb].
  2: { apply acc_ret_any. }
  destruct (negb _).
  2: { apply acc_ret_any. }
  eapply acc_bind; [apply acc_size_t_mod | intros m].
  destruct (m =? 0).
  2: { apply acc_ret_any. }
  eapply acc_bind with (R := any_state).
  - destruct (Parameters.error_function _).
    + apply acc_emit_any. intros st. apply (H_error_function r); assumption.
    + apply acc_ret_any.
  - intros _. destruct (Parameters.post_evaluation_callback _).
    + apply acc_emit_any. intros st. apply H_post_evaluation.
    + apply acc_ret.
Qed.

Ltac acc_then lem := eapply acc_bind; [lem | intros ?].

(** What [complete_update] does once the session has run. *)
Lemma acc_complete_update_from (P : St -> Prop) (w step : Z)
  (fetch_names : list string) :
  exists k,
    complete_update w step fetch_names
    = bind (worker_run w (TrainingRun step) false) k /\
    forall status, acc P (k status) any_state.
Proof.
  eexists. split; [reflexivity |]. intros status. cbv beta.
  acc_then ltac:(apply acc_JoinAll).
  acc_then ltac:(apply acc_ORT_THROW_IF_ERROR).
  apply acc_get_bind. intros r1 _.
  destruct (_ !! _) as [ws |]; [| apply acc_fail; congruence].
  acc_then ltac:(apply acc_update_loss_scaler).
  acc_then ltac:(apply acc_report_training_loss).
  acc_then ltac:(apply acc_JoinAll).
  acc_then ltac:(acc_set_tac).
  acc_then ltac:(acc_set_tac).
  apply acc_ret.
Qed.

Lemma acc_complete_update (P : St -> Prop) (w step : Z)
  (fetch_names : list string) :
  acc P (complete_update w step fetch_names) any_state.
Proof.
  unfold complete_update.
  acc_then ltac:(apply acc_worker_run).
  acc_then ltac:(apply acc_JoinAll).
  acc_then ltac:(apply acc_ORT_THROW_IF_ERROR).
  apply acc_get_bind. intros r1 _.
  destruct (_ !! _) as [ws |]; [| apply acc_fail; congruence].
  acc_then ltac:(apply acc_update_loss_scaler).
  acc_then ltac:(apply acc_report_training_loss).
  acc_then ltac:(apply acc_JoinAll).
  acc_then ltac:(acc_set_tac).
  acc_then ltac:(acc_set_tac).
  apply acc_ret.
Qed.

Lemma acc_accumulation_thread (P : St -> Prop) (w : Z) (tag : RunTag) :
  acc P (accumulation_thread w tag) any_state.
Proof.
  unfold accumulation_thread.
  eapply acc_bind; [apply acc_worker_run | intros status].
  destruct status as [| msg]; [apply acc_ret | acc_set_tac].
Qed.

Lemma acc_complete_accumulation (P : St -> Prop) (w step count : Z) :
  acc P (complete_accumulation w step count) any_state.
Proof.
  unfold complete_accumulation.
  acc_then ltac:(apply acc_accumulation_thread).
  acc_then ltac:(acc_set_tac).
  apply acc_ret.
Qed.

Lemma acc_RunWithUpdate (P : St -> Prop) (feed_names fetch_names : list string)
  (feeds : list OrtValue) :
  acc P (RunWithUpdate feed_names fetch_names feeds) any_state.
Proof.
  unfold RunWithUpdate. apply acc_get_bind. intros r Hr.
  unfold size_t_mod.
  destruct (Z.eqb_spec (size_t_of_int (Parameters.pipeline_parallel_size (params_ r))) 0)
    as [Hzero | Hpipe].
  { apply acc_fail_bind. congruence. }
  apply acc_ret_bind. fold (worker_slot r).
  acc_then ltac:(apply acc_Join).
  do 4 (acc_then ltac:(apply acc_assign_buffer)).
  acc_then ltac:(apply acc_launch; intros st Hfree; apply H_launch_training; auto).
  apply acc_complete_update.
Qed.

Lemma acc_RunWithoutUpdate (P : St -> Prop) (feed_names fetch_names : list string)
  (feeds : list OrtValue) (count : Z) :
  acc P (RunWithoutUpdate feed_names fetch_names feeds count) any_state.
Proof.
  unfold RunWithoutUpdate. apply acc_get_bind. intros r Hr.
  unfold size_t_mod.
  destruct (Z.eqb_spec (size_t_of_int (Parameters.pipeline_parallel_size (params_ r))) 0)
    as [Hzero | Hpipe].
  { apply acc_fail_bind. congruence. }
  apply acc_ret_bind. fold (worker_slot r).
  acc_then ltac:(apply acc_Join).
  do 4 (acc_then ltac:(apply acc_assign_buffer)).
  acc_then ltac:(apply acc_launch; intros st Hfree; apply H_launch_training; auto).
  apply acc_complete_accumulation.
Qed.

Lemma session_can_see_loss_stage (r : TrainingRunner) :
  (PipelineContext.pipeline_stage_id (pipeline_context_ r)
   =? Parameters.pipeline_parallel_size (params_ r) - 1) = true ->
  session_can_see_loss r = true.
Proof. unfold session_can_see_loss. intros ->. apply orb_true_r. Qed.

Lemma acc_evaluate_batch (P : St -> Prop) (batch_idx : Z)
  (data_loader : IDataLoader) (test_data : option DataSet) :
  acc P (evaluate_batch batch_idx data_loader test_data) any_state.
Proof.
  unfold evaluate_batch. apply acc_get_bind. intros r Hr.
  destruct test_data as [data |]; [| apply acc_fail; congruence].
  acc_then ltac:(apply acc_unchecked).
  acc_then ltac:(apply acc_unchecked).
  eapply acc_bind with (R := any_state).
  - destruct (Parameters.pipeline_parallel_size (params_ r) =? 1).
    + acc_then ltac:(apply acc_Join).
      acc_then ltac:(apply acc_launch; intros st Hfree; apply H_launch_evaluation; auto).
      acc_then ltac:(apply acc_emit_any; intros; apply H_session_run).
      destruct (session_Run _ _ _ _ _) as [status fetches].
      acc_then ltac:(apply acc_Join_any).
      acc_then ltac:(apply acc_ORT_RETURN_IF_ERROR).
      apply acc_ret.
    + acc_then ltac:(apply acc_emit_any; intros; apply H_session_run).
      destruct (session_Run _ _ _ _ _) as [status fetches].
      acc_then ltac:(apply acc_ORT_RETURN_IF_ERROR).
      apply acc_ret.
  - intros fetches.
    eapply acc_bind with (R := any_state).
    + destruct (_ =? _) eqn:Hstage; cbn [andb]; [| apply acc_ret].
      destruct (Parameters.error_function _); [| apply acc_ret].
      apply acc_emit_any. intros st.
      apply (H_error_function r); [exact Hr |].
      apply session_can_see_loss_stage, Hstage.
    + intros _. apply acc_get_bind. intros r1 _.
      acc_then ltac:(acc_set_tac).
      destruct (_ <=? _); [| apply acc_ret].
      acc_then ltac:(acc_set_tac). apply acc_ret.
Qed.

Lemma acc_evaluate_batches (n : nat) :
  forall (P : St -> Prop) (batch_idx : Z) (data_loader : IDataLoader)
         (test_data : option DataSet),
    acc P (evaluate_batches n batch_idx data_loader test_data) any_state.
Proof.
  induction n as [| n IH]; intros P batch_idx data_loader test_data;
    cbn [evaluate_batches].
  - apply acc_ret_any.
  - acc_then ltac:(apply acc_evaluate_batch). apply IH.
Qed.

Lemma acc_Evaluate (P : St -> Prop) (data_loader : IDataLoader) :
  acc P (Evaluate data_loader) any_state.
Proof.
  unfold Evaluate. apply acc_get_bind. intros r Hr.
  destruct (Parameters.skip_evaluation _); [apply acc_ret_any |].
  eapply acc_bind with (R := P).
  - destruct (_ && _); [| apply acc_ret].
    destruct (CurrentDataSet _); [apply acc_ret | apply acc_fail; congruence].
  - intros test_data.
    acc_then ltac:(apply acc_size_t_mod).
    acc_then ltac:(apply acc_evaluate_batches).
    eapply acc_bind with (R := any_state).
    + destruct (Parameters.post_evaluation_callback _); [| apply acc_ret].
      apply acc_emit_any. intros st. apply H_post_evaluation.
    + intros _. apply acc_ret.
Qed.

Local Abbreviation accL :=
  (accepts (fun ls : LoopState => log (runner ls))
           (fun ls : LoopState => I_r (runner ls)) delta).

Lemma acc_on_runner {A : Type} (P Q : St -> Prop) (m : M TrainingRunner A) :
  acc P m Q -> accL P (on_runner m) Q.
Proof. intros Hm ls st Hls Hst. exact (Hm (runner ls) st Hls Hst). Qed.

(** A setter of the loop state that leaves the runner alone. *)
Lemma acc_set_loop (P : St -> Prop) (f : LoopState -> LoopState) :
  (forall ls, runner (f ls) = runner ls) -> accL P (modify f) P.
Proof.
  intros Hf. apply acc_modify. intros ls Hls. rewrite Hf. auto.
Qed.

Ltac acc_set_loop_tac := apply acc_set_loop; intros ?; reflexivity.

Lemma acc_dispatch_step (P : St -> Prop) (is_weight_update_step : bool)
  (lr_scheduler : option (Z -> float32)) (training_data : DataSet) (batch : Z) :
  accL P (dispatch_step is_weight_update_step lr_scheduler training_data batch)
    any_state.
Proof.
  unfold dispatch_step. apply acc_get_bind. intros ls Hls.
  destruct is_weight_update_step.
  - acc_then ltac:(apply acc_checked).
    acc_then ltac:(apply acc_checked).
    acc_then ltac:(apply acc_on_runner, acc_RunWithUpdate).
    apply acc_ret.
  - acc_then ltac:(apply acc_checked).
    acc_then ltac:(apply acc_checked).
    acc_then ltac:(apply acc_on_runner, acc_RunWithoutUpdate).
    acc_set_loop_tac.
Qed.

Lemma acc_maybe_evaluate (P : St -> Prop) : accL P maybe_evaluate any_state.
Proof.
  unfold maybe_evaluate. apply acc_get_bind. intros ls Hls.
  destruct (test_data_loader ls) as [test_loader |]; [| apply acc_ret_any].
  destruct (Parameters.do_eval _); [| apply acc_ret_any].
  acc_then ltac:(apply acc_size_t_mod).
  destruct (_ =? 0); [| apply acc_ret_any].
  acc_then ltac:(apply acc_on_runner, acc_Evaluate).
  acc_set_loop_tac.
Qed.

Lemma acc_maybe_save_checkpoint (P : St -> Prop)
  (enable_checkpoint_saving is_weight_update_step : bool) :
  accL P (maybe_save_checkpoint enable_checkpoint_saving is_weight_update_step)
    any_state.
Proof.
  unfold maybe_save_checkpoint. destruct (_ && _); [| apply acc_ret_any].
  apply acc_get_bind. intros ls Hls.
  acc_then ltac:(apply acc_size_t_mod).
  destruct (_ =? 0); [| apply acc_ret_any].
  acc_then ltac:(apply acc_ORT_RETURN_IF_ERROR).
  apply acc_on_runner, acc_emit_any. intros st. apply H_save_checkpoint.
Qed.

Lemma acc_train_step (P : St -> Prop) (enable_checkpoint_saving : bool)
  (lr_scheduler : option (Z -> float32)) (training_data : DataSet) (batch : Z) :
  accL P (train_step enable_checkpoint_saving lr_scheduler training_data batch)
    any_state.
Proof.
  unfold train_step. apply acc_get_bind. intros ls Hls.
  acc_then ltac:(apply acc_size_t_mod).
  acc_then ltac:(apply acc_dispatch_step).
  acc_then ltac:(apply acc_maybe_evaluate).
  apply acc_maybe_save_checkpoint.
Qed.

Lemma acc_batch_loop (n : nat) :
  forall (P : St -> Prop) (enable_checkpoint_saving : bool)
         (lr_scheduler : option (Z -> float32)) (training_data : DataSet)
         (batch : Z),
    accL P (batch_loop n enable_checkpoint_saving lr_scheduler training_data batch)
      any_state.
Proof.
  induction n as [| n IH]; intros P ecs lr data batch; cbn [batch_loop].
  - apply acc_ret_any.
  - apply acc_get_bind. intros ls Hls.
    destruct (_ <? _); [| apply acc_ret_any].
    acc_then ltac:(apply acc_train_step). apply IH.
Qed.

Lemma acc_visit_shard (P : St -> Prop) (enable_checkpoint_saving : bool)
  (lr_scheduler : option (Z -> float32)) :
  accL P (visit_shard enable_checkpoint_saving lr_scheduler) any_state.
Proof.
  unfold visit_shard. apply acc_get_bind. intros ls Hls.
  acc_then ltac:(apply acc_on_runner; acc_set_tac).
  destruct (CurrentDataSet _) as [data |].
  - acc_then ltac:(apply acc_batch_loop).
    acc_then ltac:(apply acc_on_runner, acc_JoinAll).
    apply acc_get_bind. intros ls1 _.
    destruct (_ <? _); [acc_set_loop_tac | apply acc_ret].
  - acc_then ltac:(apply acc_on_runner, acc_emit_any; intros st; apply H_skipping).
    acc_set_loop_tac.
Qed.

Lemma acc_shard_loop (n : nat) :
  forall (P : St -> Prop) (enable_checkpoint_saving : bool)
         (lr_scheduler : option (Z -> float32)),
    accL P (shard_loop n enable_checkpoint_saving lr_scheduler) any_state.
Proof.
  induction n as [| n IH]; intros P ecs lr; cbn [shard_loop].
  - apply acc_ret_any.
  - acc_then ltac:(apply acc_visit_shard). apply IH.
Qed.

Lemma acc_epoch_loop (fuel : nat) :
  forall (P : St -> Prop) (num_shards_to_visit : Z)
         (enable_checkpoint_saving : bool)
         (lr_scheduler : option (Z -> float32)),
    accL P (epoch_loop fuel num_shards_to_visit enable_checkpoint_saving
              lr_scheduler) any_state.
Proof.
  induction fuel as [| fuel IH]; intros P num ecs lr; cbn [epoch_loop];
    apply acc_get_bind; intros ls Hls;
    (destruct (_ <? _); [| apply acc_ret_any]).
  - apply acc_fail. congruence.
  - acc_then ltac:(apply acc_shard_loop).
    acc_then ltac:(acc_set_loop_tac).
    apply IH.
Qed.

(** Whatever the automaton that satisfies the assumptions, it reads all
    that [TrainingLoop] logs. *)
Lemma acc_TrainingLoop (P : St -> Prop) (fuel : nat) :
  accL P (TrainingLoop fuel) any_state.
Proof.
  unfold TrainingLoop. apply acc_get_bind. intros ls Hls.
  eapply acc_bind with (R := P).
  - destruct (test_data_loader ls) as [test_loader |]; [| apply acc_ret].
    acc_then ltac:(acc_set_loop_tac). apply acc_ORT_RETURN_IF_ERROR.
  - intros _.
    acc_then ltac:(acc_set_loop_tac).
    acc_then ltac:(apply acc_ORT_RETURN_IF_ERROR).
    acc_then ltac:(acc_set_loop_tac).
    acc_then ltac:(acc_set_loop_tac).
    acc_then ltac:(apply acc_epoch_loop).
    apply acc_get_bind. intros ls1 _.
    destruct (str_empty _); [apply acc_ret | apply acc_ORT_RETURN_IF_ERROR].
Qed.

End Discipline.

(** ** The three automata *)

Lemma accepts_from_any {S St A : Type} (lg : S -> list Event) (I : S -> Prop)
  (delta : St -> Event -> option St) (Q : St -> Prop) (m : M S A) (s : S)
  (st0 : St) :
  accepts lg I delta any_state m Q -> I s ->
  exists es, lg (m s).2 = lg s ++ es /\
             forall st, is_Some (run_events delta st es).
Proof.
  intros Hm Hs.
  destruct (Hm s st0 Hs Logic.I) as (_ & es & st' & Hlg & _ & _).
  exists es. split; [exact Hlg |]. intros st.
  destruct (Hm s st Hs Logic.I) as (_ & es1 & st1 & Hlg1 & Hrun1 & _).
  rewrite Hlg in Hlg1. apply app_inv_head in Hlg1. subst es1. eauto.
Qed.

(** A one-state automaton reads a list when it reads each event. *)
Lemma run_events_unit (delta : unit -> Event -> option unit) (es : list Event) :
  is_Some (run_events delta tt es) ->
  Forall (fun e => delta tt e = Some tt) es.
Proof.
  induction es as [| e es IH]; cbn; intros Hrun; [constructor |].
  destruct (delta tt e) as [[] |] eqn:He; [| destruct Hrun as [? Hx]; discriminate].
  constructor; auto.
Qed.

(** The pool automaton. *)
Lemma pool_step_join (busy : gset Z) (w : Z) :
  exists busy', pool_step busy (EvJoin w) = Some busy' /\ w ∉ busy'.
Proof.
  eexists. split; [reflexivity |].
  apply not_elem_of_difference. right. apply elem_of_singleton. reflexivity.
Qed.

Lemma pool_step_assign (busy : gset Z) (w : Z) (b : Buffer) :
  w ∉ busy -> exists busy', pool_step busy (EvAssign w b) = Some busy' /\ w ∉ busy'.
Proof. intros Hw. exists busy. cbn. rewrite decide_False by exact Hw. auto. Qed.

Lemma pool_step_launch (busy : gset Z) (w : Z) (tag : RunTag) :
  w ∉ busy -> is_Some (pool_step busy (EvLaunch w tag)).
Proof. intros Hw. cbn. rewrite decide_False by exact Hw. eauto. Qed.

(** A slot that is busy and then free has been joined in between. *)
Lemma pool_joined (es : list Event) :
  forall (busy busy' : gset Z) (w : Z),
    run_events pool_step busy es = Some busy' ->
    w ∈ busy -> w ∉ busy' -> EvJoin w ∈ es.
Proof.
  induction es as [| e es IH]; intros busy busy' w Hrun Hin Hout; cbn in Hrun.
  - injection Hrun as <-. contradiction.
  - destruct (pool_step busy e) as [busy1 |] eqn:Hstep; [| discriminate].
    destruct e as [w0 | w0 b | w0 tag | | | | |]; cbn in Hstep;
      try case_decide; simplify_eq;
      try (right; apply (IH _ busy' w Hrun); [set_solver | exact Hout]).
    destruct (decide (w0 = w)) as [-> | Hne]; [left |].
    right. apply (IH _ busy' w Hrun); [set_solver | exact Hout].
Qed.

Lemma joins_before_reuse_between (es : list Event) :
  joins_before_reuse es -> joined_between_dispatches es.
Proof.
  intros Hsafe before between after w tag tag' ->.
  destruct (Hsafe ∅) as [final Hrun].
  rewrite run_events_app in Hrun.
  destruct (run_events pool_step ∅ before) as [busy0 |]; [| discriminate].
  cbn [run_events] in Hrun.
  destruct (pool_step busy0 (EvLaunch w tag)) as [busy1 |] eqn:Hlaunch;
    [| discriminate].
  rewrite run_events_app in Hrun.
  destruct (run_events pool_step busy1 between) as [busy2 |] eqn:Hbetween;
    [| discriminate].
  cbn [run_events] in Hrun.
  destruct (pool_step busy2 (EvLaunch w tag')) as [busy3 |] eqn:Hlaunch';
    [| discriminate].
  cbn in Hlaunch, Hlaunch'. repeat case_decide; simplify_eq.
  apply (pool_joined between _ _ w Hbetween); [set_solver | assumption].
Qed.

Lemma launch_step_launches_on_slot (pipeline_parallel_size : Z)
  (es : list Event) :
  (forall st, is_Some (run_events (launch_step pipeline_parallel_size) st es)) ->
  launches_on_slot pipeline_parallel_size es.
Proof.
  intros Hrun w s Hin.
  pose proof (run_events_unit _ es (Hrun tt)) as Hall.
  rewrite Forall_forall in Hall. specialize (Hall _ Hin).
  cbn in Hall. case_decide; [assumption | discriminate].
Qed.

Lemma quiet_step_no_error_callback (es : list Event) :
  (forall st, is_Some (run_events quiet_step st es)) ->
  Forall (fun e => ~ is_error_callback e) es.
Proof.
  intros Hrun. pose proof (run_events_unit _ es (Hrun tt)) as Hall.
  eapply Forall_impl; [exact Hall |].
  intros e He [tag ->]. discriminate.
Qed.

(** ** The discipline of the worker pool *)

Lemma starts_tail {A : Type} (m : M TrainingRunner A) :
  (forall r, exists es, log (m r).2 = log r ++ es) -> starts [] m.
Proof.
  intros Hm r. destruct (Hm r) as [es Hes]. exists es.
  split; [exact Hes |]. right. apply prefix_nil.
Qed.

Lemma starts_cons {A B : Type} (e : Event) (head : list Event)
  (m : M TrainingRunner A) (k : A -> M TrainingRunner B) :
  (forall r, log (m r).2 = log r ++ [e]) ->
  (forall a, starts head (k a)) ->
  starts (e :: head) (bind m k).
Proof.
  intros Hm Hk r. unfold bind. specialize (Hm r).
  destruct (m r) as [o r1]. cbn [snd] in Hm.
  assert (Hstop : exists es, log r1 = log r ++ es /\ begins_with (e :: head) es).
  { exists [e]. split; [exact Hm |]. left. apply prefix_cons, prefix_nil. }
  destruct o as [a | | | | |]; try exact Hstop.
  destruct (Hk a r1) as (es & Hes & Hbegin).
  exists (e :: es). split.
  - rewrite Hes, Hm, <- app_assoc. reflexivity.
  - destruct Hbegin as [Hpre | Hpre]; [left | right]; apply prefix_cons, Hpre.
Qed.

Lemma Join_logs (w : Z) (r : TrainingRunner) :
  log (Join w r).2 = log r ++ [EvJoin w].
Proof.
  unfold Join, bind, emit, modify, get. cbn.
  destruct (_ !! _); [destruct (_ !! _) |]; reflexivity.
Qed.

Lemma assign_buffer_logs (w : Z) (b : Buffer)
  (f : WorkerState.t -> WorkerState.t) (r : TrainingRunner) :
  log (assign_buffer w b f r).2 = log r ++ [EvAssign w b].
Proof.
  unfold assign_buffer, bind, emit, modify, get. cbn. destruct (_ !! _); reflexivity.
Qed.

Lemma launch_logs (w : Z) (tag : RunTag) (r : TrainingRunner) :
  log (launch w tag r).2 = log r ++ [EvLaunch w tag].
Proof. unfold launch, bind, emit, modify, get. cbn. destruct (_ !! _); reflexivity. Qed.

(** Every automaton-independent assumption of the discipline holds for
    the automaton that accepts everything. *)
Lemma complete_update_extends (w step : Z) (fetch_names : list string)
  (r : TrainingRunner) :
  exists es, log (complete_update w step fetch_names r).2 = log r ++ es.
Proof.
  destruct (accepts_from_any log (fun _ => True) free_step any_state
              (complete_update w step fetch_names) r tt) as (es & Hes & _);
    [| exact Logic.I | eauto].
  apply acc_complete_update with (free := fun _ _ => True);
    intros; cbn; eauto.
Qed.

Lemma complete_accumulation_extends (w step count : Z) (r : TrainingRunner) :
  exists es, log (complete_accumulation w step count r).2 = log r ++ es.
Proof.
  destruct (accepts_from_any log (fun _ => True) free_step any_state
              (complete_accumulation w step count) r tt) as (es & Hes & _);
    [| exact Logic.I | eauto].
  apply acc_complete_accumulation; intros; cbn; eauto.
Qed.

Lemma RunWithUpdate_starts (feed_names fetch_names : list string)
  (feeds : list OrtValue) (r : TrainingRunner) :
  exists es,
    log (RunWithUpdate feed_names fetch_names feeds r).2 = log r ++ es /\
    begins_with (update_dispatch_events (worker_slot r) (step_ r)) es.
Proof.
  unfold RunWithUpdate. unfold bind at 1, get. unfold bind at 1, size_t_mod.
  fold (worker_slot r).
  destruct (_ =? 0).
  - exists []. cbn. rewrite app_nil_r. split; [reflexivity |]. left. apply prefix_nil.
  - cbn [ret].
    apply (starts_cons _ _ _ _ (Join_logs _)). intros _.
    do 4 (apply (starts_cons _ _ _ _ (assign_buffer_logs _ _ _)); intros _).
    apply (starts_cons _ _ _ _ (launch_logs _ _)). intros _.
    apply starts_tail. apply complete_update_extends.
Qed.

Lemma RunWithoutUpdate_starts (feed_names fetch_names : list string)
  (feeds : list OrtValue) (count : Z) (r : TrainingRunner) :
  exists es,
    log (RunWithoutUpdate feed_names fetch_names feeds count r).2 = log r ++ es /\
    begins_with (accumulate_dispatch_events (worker_slot r) (step_ r)) es.
Proof.
  unfold RunWithoutUpdate. unfold bind at 1, get. unfold bind at 1, size_t_mod.
  fold (worker_slot r).
  destruct (_ =? 0).
  - exists []. cbn. rewrite app_nil_r. split; [reflexivity |]. left. apply prefix_nil.
  - cbn [ret].
    apply (starts_cons _ _ _ _ (Join_logs _)). intros _.
    do 4 (apply (starts_cons _ _ _ _ (assign_buffer_logs _ _ _)); intros _).
    apply (starts_cons _ _ _ _ (launch_logs _ _)). intros _.
    apply starts_tail. apply complete_accumulation_extends.
Qed.

Ltac pool_discipline :=
  first [ intros; exact Logic.I
        | intros; apply pool_step_join
        | intros; apply pool_step_assign; assumption
        | intros; apply pool_step_launch; assumption
        | intros; cbn; eauto ].

Lemma RunWithUpdate_joins_before_reuse (feed_names fetch_names : list string)
  (feeds : list OrtValue) (r : TrainingRunner) :
  exists es,
    log (RunWithUpdate feed_names fetch_names feeds r).2 = log r ++ es /\
    joins_before_reuse es.
Proof.
  apply (accepts_from_any log (fun _ => True) pool_step any_state _ r ∅);
    [| exact Logic.I].
  apply acc_RunWithUpdate with (free := fun w busy => w ∉ busy); pool_discipline.
Qed.

Lemma RunWithoutUpdate_joins_before_reuse (feed_names fetch_names : list string)
  (feeds : list OrtValue) (count : Z) (r : TrainingRunner) :
  exists es,
    log (RunWithoutUpdate feed_names fetch_names feeds count r).2 = log r ++ es /\
    joins_before_reuse es.
Proof.
  apply (accepts_from_any log (fun _ => True) pool_step any_state _ r ∅);
    [| exact Logic.I].
  apply acc_RunWithoutUpdate with (free := fun w busy => w ∉ busy); pool_discipline.
Qed.

Lemma TrainingLoop_joins_before_reuse (fuel : nat) (ls : LoopState) :
  exists es,
    log (runner (TrainingLoop fuel ls).2) = log (runner ls) ++ es /\
    joins_before_reuse es.
Proof.
  apply (accepts_from_any (fun ls => log (runner ls)) (fun _ => True)
           pool_step any_state _ ls ∅); [| exact Logic.I].
  apply acc_TrainingLoop with (I_r := fun _ => True)
                              (free := fun w busy => w ∉ busy); pool_discipline.
Qed.

Lemma TrainingLoop_launches_on_slot (fuel : nat) (ls : LoopState) :
  exists es,
    log (runner (TrainingLoop fuel ls).2) = log (runner ls) ++ es /\
    launches_on_slot (Parameters.pipeline_parallel_size (params_ (runner ls))) es.
Proof.
  destruct (accepts_from_any (fun ls => log (runner ls))
              (fun ls' => params_ (runner ls') = params_ (runner ls))
              (launch_step (Parameters.pipeline_parallel_size (params_ (runner ls))))
              any_state (TrainingLoop fuel) ls tt) as (es & Hes & Hrun);
    [| reflexivity |].
  - apply acc_TrainingLoop with (I_r := fun r => params_ r = params_ (runner ls))
                                (free := fun _ _ => True);
      first [ intros r st Hr _ _; cbn; unfold worker_slot; rewrite Hr;
              rewrite decide_True by reflexivity; eauto
            | intros; assumption
            | intros; cbn; eauto ].
  - exists es. split; [exact Hes |].
    apply launch_step_launches_on_slot, Hrun.
Qed.

(** *** A dispatch on a pool that matches the pipeline *)

Lemma Join_run (w : Z) (r : TrainingRunner) (joinable : bool) :
  WorkerPool.workers (pipeline_worker_pool_ r) !! Z.to_nat w = Some joinable ->
  WorkerPool.uncaught (pipeline_worker_pool_ r) !! Z.to_nat w = None ->
  Join w r
  = (Ret tt,
     set_workers
       (<[Z.to_nat w := false]> (WorkerPool.workers (pipeline_worker_pool_ r)))
       (set_log (log r ++ [EvJoin w]) r)).
Proof.
  intros Hw Hu. unfold Join, bind, emit, modify, get. cbn.
  rewrite Hw, Hu. reflexivity.
Qed.

Lemma assign_buffer_run (w : Z) (b : Buffer)
  (f : WorkerState.t -> WorkerState.t) (r : TrainingRunner)
  (ws : WorkerState.t) :
  WorkerPool.worker_states (pipeline_worker_pool_ r) !! Z.to_nat w = Some ws ->
  assign_buffer w b f r
  = (Ret tt,
     set_worker_states
       (<[Z.to_nat w := f ws]>
          (WorkerPool.worker_states (pipeline_worker_pool_ r)))
       (set_log (log r ++ [EvAssign w b]) r)).
Proof.
  intros Hs. unfold assign_buffer, bind, emit, modify, get. cbn.
  rewrite Hs. reflexivity.
Qed.

Lemma launch_run (w : Z) (tag : RunTag) (r : TrainingRunner) (joinable : bool) :
  WorkerPool.workers (pipeline_worker_pool_ r) !! Z.to_nat w = Some joinable ->
  launch w tag r
  = (Ret tt,
     set_workers
       (<[Z.to_nat w := true]> (WorkerPool.workers (pipeline_worker_pool_ r)))
       (set_log (log r ++ [EvLaunch w tag]) r)).
Proof.
  intros Hw. unfold launch, bind, emit, modify, get. cbn.
  rewrite Hw. reflexivity.
Qed.

Lemma worker_run_run (w : Z) (tag : RunTag) (opt : bool) (r : TrainingRunner)
  (ws : WorkerState.t) :
  WorkerPool.worker_states (pipeline_worker_pool_ r) !! Z.to_nat w = Some ws ->
  let res := session_Run tag opt (WorkerState.feed_names ws)
               (WorkerState.feeds ws) (WorkerState.fetch_names ws) in
  worker_run w tag opt r
  = (Ret res.1,
     set_worker_states
       (<[Z.to_nat w := with_fetches res.2 ws]>
          (WorkerPool.worker_states (pipeline_worker_pool_ r)))
       (set_log (log r ++ [EvSessionRun tag opt (WorkerState.feed_names ws)
                             (WorkerState.fetch_names ws)]) r)).
Proof.
  intros Hs res. unfold worker_run, bind, emit, modify, get, ret.
  rewrite Hs. fold res. destruct res as [status fetches]. reflexivity.
Qed.

(** Join, four assignments, launch: on a slot that exists and on which no
    thread has died, the six operations complete. *)
Lemma dispatch_runs {A : Type} (w : Z) (tag : RunTag) (b1 b2 b3 b4 : Buffer)
  (f1 f2 f3 f4 : WorkerState.t -> WorkerState.t) (k : M TrainingRunner A)
  (r : TrainingRunner) (ws : WorkerState.t) :
  slot_ready w ws r ->
  (Join w ;;;
   assign_buffer w b1 f1 ;;;
   assign_buffer w b2 f2 ;;;
   assign_buffer w b3 f3 ;;;
   assign_buffer w b4 f4 ;;;
   launch w tag ;;;
   k) r
  = k (dispatched w
         [EvJoin w; EvAssign w b1; EvAssign w b2; EvAssign w b3; EvAssign w b4;
          EvLaunch w tag]
         (f4 (f3 (f2 (f1 ws)))) r).
Proof.
  intros ([joinable Hw] & Hs & Hu).
  pose proof (lookup_lt_Some _ _ _ Hw) as Hlw.
  pose proof (lookup_lt_Some _ _ _ Hs) as Hls.
  rewrite (bind_Ret _ _ _ _ _ (Join_run w r joinable Hw Hu)). cbv beta.
  set (r1 := set_workers _ _).
  rewrite (bind_Ret _ _ _ _ _ (assign_buffer_run w b1 f1 r1 ws Hs)). cbv beta.
  set (r2 := set_worker_states _ _).
  assert (Hs2 : WorkerPool.worker_states (pipeline_worker_pool_ r2) !! Z.to_nat w
                = Some (f1 ws))
    by (apply list_lookup_insert_eq; exact Hls).
  rewrite (bind_Ret _ _ _ _ _ (assign_buffer_run w b2 f2 r2 _ Hs2)). cbv beta.
  set (r3 := set_worker_states _ _).
  assert (Hs3 : WorkerPool.worker_states (pipeline_worker_pool_ r3) !! Z.to_nat w
                = Some (f2 (f1 ws)))
    by (apply list_lookup_insert_eq; cbn; rewrite length_insert; exact Hls).
  rewrite (bind_Ret _ _ _ _ _ (assign_buffer_run w b3 f3 r3 _ Hs3)). cbv beta.
  set (r4 := set_worker_states _ _).
  assert (Hs4 : WorkerPool.worker_states (pipeline_worker_pool_ r4) !! Z.to_nat w
                = Some (f3 (f2 (f1 ws))))
    by (apply list_lookup_insert_eq; cbn; rewrite !length_insert; exact Hls).
  rewrite (bind_Ret _ _ _ _ _ (assign_buffer_run w b4 f4 r4 _ Hs4)). cbv beta.
  set (r5 := set_worker_states _ _).
  assert (Hw5 : WorkerPool.workers (pipeline_worker_pool_ r5) !! Z.to_nat w
                = Some false)
    by (apply list_lookup_insert_eq; exact Hlw).
  rewrite (bind_Ret _ _ _ _ _ (launch_run w tag r5 _ Hw5)). cbv beta.
  f_equal. subst r5 r4 r3 r2 r1.
  unfold dispatched, set_workers, set_worker_states. cbn.
  rewrite !list_insert_insert_eq, <- !app_assoc. reflexivity.
Qed.

Lemma pool_slot_ready (r : TrainingRunner) :
  pool_matches_pipeline r ->
  size_t_of_int (Parameters.pipeline_parallel_size (params_ r)) <> 0 /\
  worker_slot r = step_ r mod Parameters.pipeline_parallel_size (params_ r) /\
  exists ws, slot_ready (worker_slot r) ws r.
Proof.
  intros (Hpps & Hworkers & Hstates & Hnone).
  unfold worker_slot. rewrite size_t_of_int_nonneg by lia.
  split; [lia |]. split; [reflexivity |].
  pose proof (Z.mod_pos_bound (step_ r)
                (Parameters.pipeline_parallel_size (params_ r)) ltac:(lia)) as Hw.
  destruct (lookup_lt_is_Some_2
              (WorkerPool.worker_states (pipeline_worker_pool_ r))
              (Z.to_nat (step_ r mod Parameters.pipeline_parallel_size (params_ r))))
    as [ws Hws]; [lia |].
  exists ws. split; [| split].
  - apply lookup_lt_is_Some_2. lia.
  - exact Hws.
  - rewrite Hnone. apply lookup_empty.
Qed.

(** On a pool that matches the pipeline, [RunWithUpdate] gets as far as
    the session run of the launched thread. *)
Lemma RunWithUpdate_dispatches (feed_names fetch_names : list string)
  (feeds : list OrtValue) (r : TrainingRunner) :
  pool_matches_pipeline r ->
  RunWithUpdate feed_names fetch_names feeds r
  = complete_update (worker_slot r) (step_ r) fetch_names
      (dispatched (worker_slot r)
         (update_dispatch_events (worker_slot r) (step_ r))
         (WorkerState.Build_t feed_names feeds fetch_names []) r).
Proof.
  intros Hpool. destruct (pool_slot_ready r Hpool) as (Hdiv & _ & ws & Hready).
  unfold RunWithUpdate. unfold bind at 1, get. unfold bind at 1, size_t_mod.
  fold (worker_slot r).
  destruct (Z.eqb_spec (size_t_of_int (Parameters.pipeline_parallel_size (params_ r))) 0)
    as [Hz | _]; [contradiction |].
  cbn [ret].
  rewrite (dispatch_runs _ _ _ _ _ _ _ _ _ _ _ r ws Hready). reflexivity.
Qed.

Lemma RunWithoutUpdate_dispatches (feed_names fetch_names : list string)
  (feeds : list OrtValue) (count : Z) (r : TrainingRunner) :
  pool_matches_pipeline r ->
  RunWithoutUpdate feed_names fetch_names feeds count r
  = complete_accumulation (worker_slot r) (step_ r) count
      (dispatched (worker_slot r)
         (accumulate_dispatch_events (worker_slot r) (step_ r))
         (WorkerState.Build_t feed_names feeds fetch_names []) r).
Proof.
  intros Hpool. destruct (pool_slot_ready r Hpool) as (Hdiv & _ & ws & Hready).
  unfold RunWithoutUpdate. unfold bind at 1, get. unfold bind at 1, size_t_mod.
  fold (worker_slot r).
  destruct (Z.eqb_spec (size_t_of_int (Parameters.pipeline_parallel_size (params_ r))) 0)
    as [Hz | _]; [contradiction |].
  cbn [ret].
  rewrite (dispatch_runs _ _ _ _ _ _ _ _ _ _ _ r ws Hready). reflexivity.
Qed.

Lemma dispatched_slot (w : Z) (es : list Event) (ws ws0 : WorkerState.t)
  (r : TrainingRunner) :
  slot_ready w ws0 r ->
  WorkerPool.worker_states (pipeline_worker_pool_ (dispatched w es ws r))
  !! Z.to_nat w = Some ws.
Proof.
  intros (_ & Hs & _). cbn. apply list_lookup_insert_eq.
  eapply lookup_lt_Some, Hs.
Qed.

(** The thread of an accumulation step: a failed session run is an
    exception that nothing catches, recorded for the slot. *)
Lemma accumulation_thread_run (w : Z) (tag : RunTag) (r : TrainingRunner)
  (ws : WorkerState.t) :
  WorkerPool.worker_states (pipeline_worker_pool_ r) !! Z.to_nat w = Some ws ->
  let res := session_Run tag true (WorkerState.feed_names ws)
               (WorkerState.feeds ws) (WorkerState.fetch_names ws) in
  let r1 :=
    set_worker_states
      (<[Z.to_nat w := with_fetches res.2 ws]>
         (WorkerPool.worker_states (pipeline_worker_pool_ r)))
      (set_log (log r ++ [EvSessionRun tag true (WorkerState.feed_names ws)
                            (WorkerState.fetch_names ws)]) r) in
  accumulation_thread w tag r
  = (Ret tt,
     match res.1 with
     | OK => r1
     | Error msg =>
         set_uncaught
           (<[Z.to_nat w := msg]> (WorkerPool.uncaught (pipeline_worker_pool_ r1)))
           r1
     end).
Proof.
  intros Hs res r1. unfold accumulation_thread.
  rewrite (bind_Ret _ _ _ _ _ (worker_run_run w tag true r ws Hs)).
  fold res. fold r1. destruct res.1; reflexivity.
Qed.

Lemma complete_accumulation_run (w step count : Z) (r : TrainingRunner)
  (ws : WorkerState.t) :
  WorkerPool.worker_states (pipeline_worker_pool_ r) !! Z.to_nat w = Some ws ->
  let res := session_Run (TrainingRun step) true (WorkerState.feed_names ws)
               (WorkerState.feeds ws) (WorkerState.fetch_names ws) in
  let r1 :=
    set_worker_states
      (<[Z.to_nat w := with_fetches res.2 ws]>
         (WorkerPool.worker_states (pipeline_worker_pool_ r)))
      (set_log (log r ++ [EvSessionRun (TrainingRun step) true
                            (WorkerState.feed_names ws)
                            (WorkerState.fetch_names ws)]) r) in
  complete_accumulation w step count r
  = (Ret (wrap64 (count + 1)),
     set_step_ (wrap64 (step_ r + 1))
       match res.1 with
       | OK => r1
       | Error msg =>
           set_uncaught
             (<[Z.to_nat w := msg]> (WorkerPool.uncaught (pipeline_worker_pool_ r1)))
             r1
       end).
Proof.
  intros Hs res r1. unfold complete_accumulation.
  rewrite (bind_Ret _ _ _ _ _ (accumulation_thread_run w _ r ws Hs)).
  cbv zeta. fold res. fold r1. destruct res.1; reflexivity.
Qed.

Lemma RunWithUpdate_runs_the_session (feed_names fetch_names : list string)
  (feeds : list OrtValue) (r : TrainingRunner) :
  pool_matches_pipeline r ->
  exists es,
    log (RunWithUpdate feed_names fetch_names feeds r).2
    = log r ++ update_dispatch_events (worker_slot r) (step_ r)
        ++ EvSessionRun (TrainingRun (step_ r)) false feed_names fetch_names
           :: es.
Proof.
  intros Hpool. rewrite (RunWithUpdate_dispatches _ _ _ _ Hpool).
  destruct (pool_slot_ready r Hpool) as (_ & _ & ws0 & Hready).
  set (r1 := dispatched _ _ _ r).
  destruct (acc_complete_update_from (fun _ : TrainingRunner => True)
              free_step (fun _ _ => True)) with
    (P := @any_state unit) (w := worker_slot r) (step := step_ r)
    (fetch_names := fetch_names) as (k & -> & Hk);
    try (intros; cbn; eauto; fail).
  rewrite (bind_Ret _ _ _ _ _
             (worker_run_run _ _ _ r1 _ (dispatched_slot _ _ _ _ _ Hready))).
  cbv beta.
  match goal with
  | |- exists es, log (k ?status ?s).2 = _ =>
      destruct (accepts_from_any log (fun _ => True) free_step any_state _
                  s tt (Hk status) Logic.I) as (es & Hes & _)
  end.
  exists es. rewrite Hes. cbn. rewrite <- !app_assoc. reflexivity.
Qed.

Lemma RunWithoutUpdate_runs_the_session (feed_names fetch_names : list string)
  (feeds : list OrtValue) (count : Z) (r : TrainingRunner) :
  pool_matches_pipeline r ->
  log (RunWithoutUpdate feed_names fetch_names feeds count r).2
  = log r ++ accumulate_dispatch_events (worker_slot r) (step_ r)
      ++ [EvSessionRun (TrainingRun (step_ r)) true feed_names fetch_names].
Proof.
  intros Hpool. rewrite (RunWithoutUpdate_dispatches _ _ _ _ _ Hpool).
  destruct (pool_slot_ready r Hpool) as (_ & _ & ws0 & Hready).
  rewrite (complete_accumulation_run _ _ _ _ _
             (dispatched_slot _ _ _ _ _ Hready)).
  cbv zeta. destruct (session_Run _ _ _ _ _).1;
    cbn; rewrite <- !app_assoc; reflexivity.
Qed.

(** C8. A dispatch at step [s], with or without update, works on the slot
    [s % pipeline_parallel_size]: what it logs begins with the join of
    that slot, then the four assignments to the buffers of that slot, then
    the launch of the thread on it (or stops inside this sequence when the
    call ends early); and whatever slots are busy when it starts, no
    buffer is overwritten and no thread is launched on a slot that has not
    been joined since its last dispatch.  So in all that [TrainingLoop]
    logs, a join of the slot lies between any two dispatches to one slot,
    and every training dispatch is on the slot of its step.  And the
    dispatch does happen: on a pool with one slot per stage and no dead
    thread, both calls log the whole sequence on the slot
    [step_ mod pipeline_parallel_size], join first, and then the session
    run of the launched thread, on the feed and fetch names that the call
    was given. *)
Theorem C8_join_before_overwrite :
  (forall feed_names fetch_names feeds r,
     exists es,
       log (RunWithUpdate feed_names fetch_names feeds r).2 = log r ++ es /\
       begins_with (update_dispatch_events (worker_slot r) (step_ r)) es /\
       joins_before_reuse es) /\
  (forall feed_names fetch_names feeds count r,
     exists es,
       log (RunWithoutUpdate feed_names fetch_names feeds count r).2
       = log r ++ es /\
       begins_with (accumulate_dispatch_events (worker_slot r) (step_ r)) es /\
       joins_before_reuse es) /\
  (forall fuel ls,
     exists es,
       log (runner (TrainingLoop fuel ls).2) = log (runner ls) ++ es /\
       joins_before_reuse es /\
       joined_between_dispatches es /\
       launches_on_slot
         (Parameters.pipeline_parallel_size (params_ (runner ls))) es) /\
  (forall feed_names fetch_names feeds r,
     pool_matches_pipeline r ->
     worker_slot r = step_ r mod Parameters.pipeline_parallel_size (params_ r) /\
     exists es,
       log (RunWithUpdate feed_names fetch_names feeds r).2
       = log r ++ update_dispatch_events (worker_slot r) (step_ r)
           ++ EvSessionRun (TrainingRun (step_ r)) false feed_names fetch_names
              :: es) /\
  (forall feed_names fetch_names feeds count r,
     pool_matches_pipeline r ->
     worker_slot r = step_ r mod Parameters.pipeline_parallel_size (params_ r) /\
     log (RunWithoutUpdate feed_names fetch_names feeds count r).2
     = log r ++ accumulate_dispatch_events (worker_slot r) (step_ r)
         ++ [EvSessionRun (TrainingRun (step_ r)) true feed_names fetch_names]).
Proof.
  split; [| split; [| split; [| split]]].
  - intros fn fen fs r.
    destruct (RunWithUpdate_starts fn fen fs r) as (es & Hes & Hbegin).
    destruct (RunWithUpdate_joins_before_reuse fn fen fs r) as (es' & Hes' & Hsafe).
    rewrite Hes in Hes'. apply app_inv_head in Hes'. subst es'. eauto.
  - intros fn fen fs count r.
    destruct (RunWithoutUpdate_starts fn fen fs count r) as (es & Hes & Hbegin).
    destruct (RunWithoutUpdate_joins_before_reuse fn fen fs count r)
      as (es' & Hes' & Hsafe).
    rewrite Hes in Hes'. apply app_inv_head in Hes'. subst es'. eauto.
  - intros fuel ls.
    destruct (TrainingLoop_joins_before_reuse fuel ls) as (es & Hes & Hsafe).
    destruct (TrainingLoop_launches_on_slot fuel ls) as (es' & Hes' & Hslot).
    rewrite Hes in Hes'. apply app_inv_head in Hes'. subst es'.
    exists es. repeat split; auto. apply joins_before_reuse_between, Hsafe.
  - intros fn fen fs r Hpool. split.
    + apply (pool_slot_ready r Hpool).
    + apply RunWithUpdate_runs_the_session, Hpool.
  - intros fn fen fs count r Hpool. split.
    + apply (pool_slot_ready r Hpool).
    + apply RunWithoutUpdate_runs_the_session, Hpool.
Qed.

(** ** The error callback *)

Ltac quiet_discipline :=
  first [ intros ? ? ? Hcannot Hcan; congruence
        | intros; assumption
        | intros; cbn; eauto ].

Lemma stage_before_last_cannot_see_loss (r : TrainingRunner) :
  0 <= PipelineContext.pipeline_stage_id (pipeline_context_ r) ->
  PipelineContext.pipeline_stage_id (pipeline_context_ r)
  < Parameters.pipeline_parallel_size (params_ r) - 1 ->
  session_can_see_loss r = false.
Proof.
  intros Hlo Hhi. unfold session_can_see_loss.
  apply orb_false_iff. split; apply Z.eqb_neq; lia.
Qed.

(** C6. When the session cannot see the loss (the pipeline has several
    stages and this is not the last one), in particular on every stage
    with [0 <= pipeline_stage_id < pipeline_parallel_size - 1], the error
    callback is not called: neither by [RunWithUpdate], nor by
    [Evaluate], nor anywhere in [TrainingLoop], however these calls end. *)
Theorem C6_error_callback_needs_loss (r : TrainingRunner) :
  session_can_see_loss r = false \/
  (0 <= PipelineContext.pipeline_stage_id (pipeline_context_ r) /\
   PipelineContext.pipeline_stage_id (pipeline_context_ r)
   < Parameters.pipeline_parallel_size (params_ r) - 1) ->
  (forall feed_names fetch_names feeds,
     exists es,
       log (RunWithUpdate feed_names fetch_names feeds r).2 = log r ++ es /\
       Forall (fun e => ~ is_error_callback e) es) /\
  (forall data_loader,
     exists es,
       log (Evaluate data_loader r).2 = log r ++ es /\
       Forall (fun e => ~ is_error_callback e) es) /\
  (forall fuel ls,
     runner ls = r ->
     exists es,
       log (runner (TrainingLoop fuel ls).2) = log r ++ es /\
       Forall (fun e => ~ is_error_callback e) es).
Proof.
  intros Hcase.
  assert (Hno : session_can_see_loss r = false).
  { destruct Hcase as [H | [Hlo Hhi]];
      [exact H | apply stage_before_last_cannot_see_loss; assumption]. }
  split; [| split].
  - intros fn fen fs.
    destruct (accepts_from_any log (fun r' => session_can_see_loss r' = false)
                quiet_step any_state (RunWithUpdate fn fen fs) r tt)
      as (es & Hes & Hrun); [| exact Hno |].
    + apply acc_RunWithUpdate with (free := fun _ _ => True); quiet_discipline.
    + exists es. split; [exact Hes | apply quiet_step_no_error_callback, Hrun].
  - intros data_loader.
    destruct (accepts_from_any log (fun r' => session_can_see_loss r' = false)
                quiet_step any_state (Evaluate data_loader) r tt)
      as (es & Hes & Hrun); [| exact Hno |].
    + apply acc_Evaluate with (free := fun _ _ => True); quiet_discipline.
    + exists es. split; [exact Hes | apply quiet_step_no_error_callback, Hrun].
  - intros fuel ls <-.
    destruct (accepts_from_any (fun ls' => log (runner ls'))
                (fun ls' => session_can_see_loss (runner ls') = false)
                quiet_step any_state (TrainingLoop fuel) ls tt)
      as (es & Hes & Hrun); [| exact Hno |].
    + apply acc_TrainingLoop
        with (I_r := fun r' => session_can_see_loss r' = false)
             (free := fun _ _ => True); quiet_discipline.
    + exists es. split; [exact Hes | apply quiet_step_no_error_callback, Hrun].
Qed.

(** ** Triples *)

Section HoareRules.
Context {S : Type}.

Lemma hoare_ret {A : Type} (P : S -> Prop) (a : A) :
  hoare P (ret a) (fun _ s => P s).
Proof. intros s a' s' Hs Hrun. injection Hrun as <- <-. exact Hs. Qed.

Lemma hoare_fail {A : Type} (P : S -> Prop) (Q : A -> S -> Prop) (o : Outcome A) :
  (forall a, o <> Ret a) -> hoare P (fail o) Q.
Proof. intros Ho s a s' _ Hrun. injection Hrun as Ho' _. destruct (Ho a Ho'). Qed.

Lemma hoare_bind {A B : Type} (P : S -> Prop) (R : A -> S -> Prop)
  (Q : B -> S -> Prop) (m : M S A) (k : A -> M S B) :
  hoare P m R -> (forall a, hoare (R a) (k a) Q) -> hoare P (bind m k) Q.
Proof.
  intros Hm Hk s b s' Hs Hrun. unfold bind in Hrun.
  destruct (m s) as [[a | | | | |] s1] eqn:Hms; cbn in Hrun; try discriminate.
  exact (Hk a s1 b s' (Hm s a s1 Hs Hms) Hrun).
Qed.

(** After [get], the value read is the state. *)
Lemma hoare_get_bind {B : Type} (P : S -> Prop) (Q : B -> S -> Prop)
  (k : S -> M S B) :
  (forall r, P r -> hoare (fun s => s = r) (k r) Q) ->
  hoare P (bind get k) Q.
Proof. intros Hk s b s' Hs Hrun. exact (Hk s Hs s b s' eq_refl Hrun). Qed.

Lemma hoare_modify (P : S -> Prop) (f : S -> S) :
  hoare (fun s => P (f s)) (modify f) (fun _ s => P s).
Proof. intros s a s' Hs Hrun. injection Hrun as _ <-. exact Hs. Qed.

Lemma hoare_weaken {A : Type} (P P' : S -> Prop) (Q Q' : A -> S -> Prop)
  (m : M S A) :
  hoare P m Q -> (forall s, P' s -> P s) -> (forall a s, Q a s -> Q' a s) ->
  hoare P' m Q'.
Proof. intros Hm HP HQ s a s' Hs Hrun. eauto. Qed.

Lemma hoare_assume {A : Type} (fact : Prop) (P : S -> Prop)
  (Q : A -> S -> Prop) (m : M S A) :
  (fact -> hoare P m Q) -> hoare (fun s => P s /\ fact) m Q.
Proof. intros Hm s a s' [Hs Hfact] Hrun. exact (Hm Hfact s a s' Hs Hrun). Qed.

(** A call that keeps an invariant however it ends. *)
Lemma hoare_keeps {A : Type} (I : S -> Prop) (m : M S A) :
  (forall s, I s -> I (m s).2) -> hoare I m (fun _ s => I s).
Proof. intros Hm s a s' Hs Hrun. specialize (Hm s Hs). rewrite Hrun in Hm. exact Hm. Qed.

Lemma hoare_pure {A : Type} (P : S -> Prop) (m : M S A) :
  (forall s, (m s).2 = s) -> hoare P m (fun _ s => P s).
Proof.
  intros Hm. apply hoare_keeps. intros s Hs. rewrite Hm. exact Hs.
Qed.

Lemma hoare_size_t_mod (P : S -> Prop) (a b : Z) :
  hoare P (size_t_mod a b) (fun m s => P s /\ b <> 0 /\ m = a mod b).
Proof.
  intros s m s' Hs Hrun. unfold size_t_mod in Hrun.
  destruct (Z.eqb_spec b 0); [discriminate |].
  injection Hrun as <- <-. auto.
Qed.

End HoareRules.

Lemma accepts_keeps {S St A : Type} (lg : S -> list Event) (I : S -> Prop)
  (delta : St -> Event -> option St) (Q : St -> Prop) (m : M S A) (st0 : St) :
  accepts lg I delta any_state m Q -> forall s, I s -> I (m s).2.
Proof. intros Hm s Hs. exact (proj1 (Hm s st0 Hs Logic.I)). Qed.

(** ** Counting steps: what a completed call has done to the counters *)

Ltac stable_inv :=
  first [ intros; assumption
        | intros; match goal with H : _ |- _ => exact H end
        | intros; cbn; eauto ].

(** [keep_free lem]: the call keeps the invariant, by the discipline
    lemma [lem] read with the automaton that accepts everything. *)
Lemma hoare_accepts {S St A : Type} (lg : S -> list Event) (I : S -> Prop)
  (delta : St -> Event -> option St) (Q : St -> Prop) (m : M S A) (st0 : St) :
  accepts lg I delta any_state m Q -> hoare I m (fun _ s => I s).
Proof. intros Hm. apply hoare_keeps. exact (accepts_keeps lg I delta Q m st0 Hm). Qed.

Tactic Notation "keep_free" open_constr(lem) :=
  eapply hoare_accepts with (delta := free_step) (st0 := tt);
  first [ eapply lem with (free := fun _ _ => True); stable_inv
        | eapply lem; stable_inv ].

Lemma hoare_on_runner {A : Type} (P : TrainingRunner -> Prop)
  (Q : A -> TrainingRunner -> Prop) (m : M TrainingRunner A) :
  hoare P m Q ->
  hoare (fun ls => P (runner ls)) (on_runner m) (fun a ls => Q a (runner ls)).
Proof.
  intros Hm ls a ls' Hls Hrun. unfold on_runner in Hrun.
  destruct (m (runner ls)) as [o r'] eqn:Hmr. cbn in Hrun.
  injection Hrun as -> <-. cbn. exact (Hm _ _ _ Hls Hmr).
Qed.

Lemma ORT_THROW_IF_ERROR_pure {S : Type} (status : Status) (s : S) :
  (ORT_THROW_IF_ERROR status s).2 = s.
Proof. destruct status; reflexivity. Qed.

Lemma ORT_RETURN_IF_ERROR_pure {S : Type} (status : Status) (s : S) :
  (ORT_RETURN_IF_ERROR status s).2 = s.
Proof. destruct status; reflexivity. Qed.

Lemma checked_pure {S A : Type} (res : Outcome unit * A) (s : S) :
  (checked res s).2 = s.
Proof. unfold checked. destruct res.1; reflexivity. Qed.

Section CountingSteps.
Variables (s w : Z) (p : Parameters.t).

Lemma hoare_step_advance :
  hoare (counters s w p)
    (modify (fun r => set_step_ (wrap64 (step_ r + 1)) r))
    (fun _ => counters (wrap64 (s + 1)) w p).
Proof.
  intros r a r' (Hs & Hw & Hp) Hrun. injection Hrun as _ <-.
  unfold counters. cbn. rewrite Hs. auto.
Qed.

Lemma hoare_weight_update_advance (s' : Z) :
  hoare (counters s' w p)
    (modify (fun r => set_weight_update_step_count_
                        (wrap64 (weight_update_step_count_ r + 1)) r))
    (fun _ => counters s' (wrap64 (w + 1)) p).
Proof.
  intros r a r' (Hs & Hw & Hp) Hrun. injection Hrun as _ <-.
  unfold counters. cbn. rewrite Hw. auto.
Qed.

Lemma hoare_complete_update (worker_id step : Z) (fetch_names : list string) :
  hoare (counters s w p) (complete_update worker_id step fetch_names)
    (fun _ => counters (wrap64 (s + 1)) (wrap64 (w + 1)) p).
Proof.
  unfold complete_update.
  eapply hoare_bind; [keep_free acc_worker_run | intros status; cbv beta].
  eapply hoare_bind; [keep_free acc_JoinAll | intros ?; cbv beta].
  eapply hoare_bind; [apply hoare_pure, ORT_THROW_IF_ERROR_pure | intros ?; cbv beta].
  apply hoare_get_bind. intros r1 Hr1.
  apply hoare_weaken with (P := counters s w p)
                          (Q := fun _ => counters (wrap64 (s + 1)) (wrap64 (w + 1)) p);
    [| intros ? ->; exact Hr1 | auto].
  destruct (_ !! _) as [ws |]; [| apply hoare_fail; congruence].
  eapply hoare_bind; [keep_free acc_update_loss_scaler | intros ?; cbv beta].
  eapply hoare_bind; [keep_free acc_report_training_loss | intros ?; cbv beta].
  eapply hoare_bind; [keep_free acc_JoinAll | intros ?; cbv beta].
  eapply hoare_bind; [apply hoare_step_advance | intros ?; cbv beta].
  eapply hoare_bind; [apply hoare_weight_update_advance | intros ?; cbv beta].
  apply hoare_ret.
Qed.

Lemma hoare_complete_accumulation (worker_id step count : Z) :
  hoare (counters s w p) (complete_accumulation worker_id step count)
    (fun _ => counters (wrap64 (s + 1)) w p).
Proof.
  unfold complete_accumulation.
  eapply hoare_bind; [keep_free acc_accumulation_thread | intros ?; cbv beta].
  eapply hoare_bind; [apply hoare_step_advance | intros ?; cbv beta].
  apply hoare_ret.
Qed.

Lemma size_t_mod_pure {S : Type} (a b : Z) (st : S) : (size_t_mod a b st).2 = st.
Proof. unfold size_t_mod. destruct (b =? 0); reflexivity. Qed.

Lemma hoare_RunWithUpdate (feed_names fetch_names : list string)
  (feeds : list OrtValue) :
  hoare (counters s w p) (RunWithUpdate feed_names fetch_names feeds)
    (fun _ => counters (wrap64 (s + 1)) (wrap64 (w + 1)) p).
Proof.
  unfold RunWithUpdate.
  apply hoare_get_bind. intros r Hr.
  apply hoare_weaken with (P := counters s w p)
                          (Q := fun _ => counters (wrap64 (s + 1)) (wrap64 (w + 1)) p);
    [| intros ? ->; exact Hr | auto].
  eapply hoare_bind; [apply hoare_pure, size_t_mod_pure | intros worker_id; cbv beta].
  eapply hoare_bind; [keep_free acc_Join_any | intros ?; cbv beta].
  do 4 (eapply hoare_bind; [keep_free acc_assign_buffer | intros ?; cbv beta]).
  eapply hoare_bind; [keep_free acc_launch | intros ?; cbv beta].
  apply hoare_complete_update.
Qed.

Lemma hoare_RunWithoutUpdate (feed_names fetch_names : list string)
  (feeds : list OrtValue) (count : Z) :
  hoare (counters s w p) (RunWithoutUpdate feed_names fetch_names feeds count)
    (fun _ => counters (wrap64 (s + 1)) w p).
Proof.
  unfold RunWithoutUpdate.
  apply hoare_get_bind. intros r Hr.
  apply hoare_weaken with (P := counters s w p)
                          (Q := fun _ => counters (wrap64 (s + 1)) w p);
    [| intros ? ->; exact Hr | auto].
  eapply hoare_bind; [apply hoare_pure, size_t_mod_pure | intros worker_id; cbv beta].
  eapply hoare_bind; [keep_free acc_Join_any | intros ?; cbv beta].
  do 4 (eapply hoare_bind; [keep_free acc_assign_buffer | intros ?; cbv beta]).
  eapply hoare_bind; [keep_free acc_launch | intros ?; cbv beta].
  apply hoare_complete_accumulation.
Qed.

Local Abbreviation countersL :=
  (fun (s' w' : Z) (ls : LoopState) => counters s' w' p (runner ls)).

Lemma hoare_dispatch_step (update : bool)
  (lr_scheduler : option (Z -> float32)) (training_data : DataSet) (batch : Z) :
  hoare (countersL s w)
    (dispatch_step update lr_scheduler training_data batch)
    (fun _ => countersL (wrap64 (s + 1))
                (if update then wrap64 (w + 1) else w)).
Proof.
  unfold dispatch_step.
  apply hoare_get_bind. intros ls Hls.
  apply hoare_weaken
    with (P := countersL s w)
         (Q := fun _ => countersL (wrap64 (s + 1))
                          (if update then wrap64 (w + 1) else w));
    [| intros ? ->; exact Hls | auto].
  destruct update.
  - eapply hoare_bind; [apply hoare_pure, checked_pure | intros feed_buf; cbv beta].
    eapply hoare_bind; [apply hoare_pure, checked_pure | intros fetch_names; cbv beta].
    eapply hoare_bind;
      [apply hoare_on_runner, hoare_RunWithUpdate | intros ?; cbv beta].
    apply hoare_ret.
  - eapply hoare_bind; [apply hoare_pure, checked_pure | intros feed_buf; cbv beta].
    eapply hoare_bind; [apply hoare_pure, checked_pure | intros fetch_names; cbv beta].
    eapply hoare_bind;
      [apply hoare_on_runner, hoare_RunWithoutUpdate | intros ?; cbv beta].
    intros ls0 a0 ls' Hls0 Hrun. injection Hrun as _ <-. exact Hls0.
Qed.

End CountingSteps.

Lemma weight_update_count_step (A s : Z) :
  0 < A -> 0 <= s ->
  (s + 1) / A = s / A + (if (s + 1) mod A =? 0 then 1 else 0).
Proof.
  intros HA Hs.
  pose proof (Z.div_mod s A ltac:(lia)) as Hdiv.
  pose proof (Z.mod_pos_bound s A HA) as Hmod.
  destruct (Z.eq_dec (s mod A + 1) A) as [Hfull | Hpart].
  - rewrite <- (Z.div_unique_pos (s + 1) A (s / A + 1) 0) by lia.
    rewrite <- (Z.mod_unique_pos (s + 1) A (s / A + 1) 0) by lia.
    reflexivity.
  - rewrite <- (Z.div_unique_pos (s + 1) A (s / A) (s mod A + 1)) by lia.
    rewrite <- (Z.mod_unique_pos (s + 1) A (s / A) (s mod A + 1)) by lia.
    destruct (Z.eqb_spec (s mod A + 1) 0); lia.
Qed.

Lemma wrap64_small (z : Z) : is_size_t z -> wrap64 z = z.
Proof. unfold is_size_t, SIZE_MAX, wrap64. intros H. apply Z.mod_small. lia. Qed.

Lemma wrap64_add_l (a b : Z) : wrap64 (wrap64 a + b) = wrap64 (a + b).
Proof. unfold wrap64. apply Zplus_mod_idemp_l. Qed.

(** A change of the state that the assertion does not look at. *)
Ltac hoare_same :=
  let H := fresh in
  let Hrun := fresh in
  intros ? ? ? H Hrun; injection Hrun as _ <-; exact H.

Section LoopInvariant.
Variables (p : Parameters.t) (wus_start : Z).
Hypothesis N_fits : is_size_t (Parameters.num_train_steps p).
Hypothesis A_not_negative : 0 <= Parameters.gradient_accumulation_steps p.

Local Abbreviation Inv :=
  (fun ls : LoopState => loop_invariant p wus_start (runner ls)).

(** A step taken below [num_train_steps] re-establishes the invariant. *)
Lemma counters_after_step (r : TrainingRunner) (s w : Z) :
  0 <= s < Parameters.num_train_steps p ->
  w = wrap64 (wus_start + s / Parameters.gradient_accumulation_steps p) ->
  Parameters.gradient_accumulation_steps p <> 0 ->
  counters (wrap64 (s + 1))
    (if wrap64 (s + 1) mod Parameters.gradient_accumulation_steps p =? 0
     then wrap64 (w + 1) else w) p r ->
  loop_invariant p wus_start r.
Proof.
  intros Hs Hw HA (Hstep & Hwus & Hp).
  assert (Hfit : wrap64 (s + 1) = s + 1).
  { apply wrap64_small. unfold is_size_t in *. lia. }
  rewrite Hfit in *. unfold loop_invariant.
  rewrite Hstep, Hwus. repeat split; [exact Hp | lia | lia |].
  rewrite (weight_update_count_step _ s) by lia.
  destruct (_ =? 0).
  - rewrite Hw, wrap64_add_l. f_equal. lia.
  - rewrite Hw. f_equal. lia.
Qed.

Lemma hoare_train_step (enable_checkpoint_saving : bool)
  (lr_scheduler : option (Z -> float32)) (training_data : DataSet) (batch : Z) :
  hoare (fun ls => Inv ls /\ step_ (runner ls) < Parameters.num_train_steps p)
    (train_step enable_checkpoint_saving lr_scheduler training_data batch)
    (fun _ => Inv).
Proof.
  unfold train_step.
  apply hoare_get_bind. intros ls [(Hp & Hstep & Hwus) Hlt].
  set (s := step_ (runner ls)) in *.
  set (w := weight_update_step_count_ (runner ls)) in *.
  rewrite Hp, (size_t_of_int_nonneg _ A_not_negative).
  eapply hoare_bind with
    (R := fun m ls' => counters s w p (runner ls') /\
                       Parameters.gradient_accumulation_steps p <> 0 /\
                       m = wrap64 (s + 1) mod Parameters.gradient_accumulation_steps p).
  { eapply hoare_weaken;
      [apply (hoare_size_t_mod (fun ls' : LoopState => counters s w p (runner ls')))
      | intros ? ->; repeat split; auto
      | auto ]. }
  intros m. apply hoare_assume. intros [HA ->].
  eapply hoare_bind; [apply hoare_dispatch_step | intros ?; cbv beta].
  eapply hoare_bind; [keep_free acc_maybe_evaluate | intros ?; cbv beta].
  match goal with
  | |- hoare ?pre _ _ => apply hoare_weaken with (P := pre) (Q := fun _ => pre)
  end; [keep_free acc_maybe_save_checkpoint | auto |].
  intros _ ls' Hc. cbv beta in Hc.
  apply (counters_after_step _ s w); auto. lia.
Qed.

Lemma hoare_batch_loop (n : nat) :
  forall (enable_checkpoint_saving : bool)
         (lr_scheduler : option (Z -> float32)) (training_data : DataSet)
         (batch : Z),
    hoare Inv
      (batch_loop n enable_checkpoint_saving lr_scheduler training_data batch)
      (fun _ => Inv).
Proof.
  induction n as [| n IH]; intros ecs lr data batch; cbn [batch_loop].
  - apply hoare_ret.
  - apply hoare_get_bind. intros ls Hls.
    destruct (Z.ltb_spec (step_ (runner ls))
                (Parameters.num_train_steps (params_ (runner ls)))) as [Hlt | Hge].
    + eapply hoare_bind; [| intros ?; apply IH].
      eapply hoare_weaken; [apply hoare_train_step | | auto].
      intros ? ->. split; [exact Hls |].
      destruct Hls as (Hp & _). rewrite Hp in Hlt. exact Hlt.
    + intros ls0 a ls1 -> Hrun. injection Hrun as _ <-. exact Hls.
Qed.

Lemma loop_invariant_stable (r r' : TrainingRunner) :
  params_ r' = params_ r -> step_ r' = step_ r ->
  weight_update_step_count_ r' = weight_update_step_count_ r ->
  loop_invariant p wus_start r -> loop_invariant p wus_start r'.
Proof. unfold loop_invariant. intros -> -> ->. auto. Qed.

Lemma hoare_visit_shard (enable_checkpoint_saving : bool)
  (lr_scheduler : option (Z -> float32)) :
  hoare Inv (visit_shard enable_checkpoint_saving lr_scheduler) (fun _ => Inv).
Proof.
  unfold visit_shard.
  apply hoare_get_bind. intros ls Hls.
  apply hoare_weaken with (P := Inv) (Q := fun _ => Inv);
    [| intros ? ->; exact Hls | auto].
  eapply hoare_bind with (R := fun _ => Inv).
  { hoare_same. }
  intros _.
  destruct (CurrentDataSet _) as [data |].
  - eapply hoare_bind; [apply hoare_batch_loop | intros ?; cbv beta].
    eapply hoare_bind with (R := fun _ => Inv).
    { eapply hoare_accepts with (delta := free_step) (st0 := tt).
      apply acc_on_runner.
      eapply acc_JoinAll with (free := fun _ _ => True); stable_inv. }
    intros _. apply hoare_get_bind. intros ls1 Hls1.
    apply hoare_weaken with (P := Inv) (Q := fun _ => Inv);
      [| intros ? ->; exact Hls1 | auto].
    destruct (_ <? _); [| apply hoare_ret].
    hoare_same.
  - eapply hoare_bind with (R := fun _ => Inv).
    { hoare_same. }
    intros _. hoare_same.
Qed.

Lemma hoare_shard_loop (n : nat) :
  forall (enable_checkpoint_saving : bool)
         (lr_scheduler : option (Z -> float32)),
    hoare Inv (shard_loop n enable_checkpoint_saving lr_scheduler) (fun _ => Inv).
Proof.
  induction n as [| n IH]; intros ecs lr; cbn [shard_loop].
  - apply hoare_ret.
  - eapply hoare_bind; [apply hoare_visit_shard | intros ?; apply IH].
Qed.

Lemma hoare_epoch_loop (fuel : nat) :
  forall (num_shards_to_visit : Z) (enable_checkpoint_saving : bool)
         (lr_scheduler : option (Z -> float32)),
    hoare Inv
      (epoch_loop fuel num_shards_to_visit enable_checkpoint_saving lr_scheduler)
      (fun _ ls => Inv ls /\
                   step_ (runner ls) = Parameters.num_train_steps p).
Proof.
  induction fuel as [| fuel IH]; intros num ecs lr; cbn [epoch_loop];
    apply hoare_get_bind; intros ls Hls;
    (destruct (Z.ltb_spec (step_ (runner ls))
                 (Parameters.num_train_steps (params_ (runner ls))))
      as [Hlt | Hge]).
  - apply hoare_fail. congruence.
  - intros ls0 a ls1 -> Hrun. injection Hrun as _ <-.
    split; [exact Hls |]. destruct Hls as (Hp & Hstep & _).
    rewrite Hp in Hge. lia.
  - apply hoare_weaken
      with (P := Inv)
           (Q := fun _ ls => Inv ls /\
                             step_ (runner ls) = Parameters.num_train_steps p);
      [| intros ? ->; exact Hls | auto].
    eapply hoare_bind; [apply hoare_shard_loop | intros ?; cbv beta].
    eapply hoare_bind with (R := fun _ => Inv); [| intros ?; apply IH].
    hoare_same.
  - intros ls0 a ls1 -> Hrun. injection Hrun as _ <-.
    split; [exact Hls |]. destruct Hls as (Hp & Hstep & _).
    rewrite Hp in Hge. lia.
Qed.

End LoopInvariant.

(** Every run of [TrainingLoop] that starts with the step counter at zero
    and returns OK has taken exactly [num_train_steps] steps and counted
    one weight update per [gradient_accumulation_steps] steps. *)
Lemma TrainingLoop_counts (fuel : nat) (ls ls' : LoopState) :
  is_size_t (Parameters.num_train_steps (params_ (runner ls))) ->
  0 <= Parameters.gradient_accumulation_steps (params_ (runner ls)) ->
  is_size_t (weight_update_step_count_ (runner ls)) ->
  step_ (runner ls) = 0 ->
  TrainingLoop fuel ls = (Ret tt, ls') ->
  params_ (runner ls') = params_ (runner ls) /\
  step_ (runner ls') = Parameters.num_train_steps (params_ (runner ls)) /\
  weight_update_step_count_ (runner ls')
  = wrap64 (weight_update_step_count_ (runner ls)
            + Parameters.num_train_steps (params_ (runner ls))
              / Parameters.gradient_accumulation_steps (params_ (runner ls))).
Proof.
  intros HN HA Hwus Hstart Hrun.
  set (p := params_ (runner ls)) in *.
  set (wus := weight_update_step_count_ (runner ls)) in *.
  pose (Inv := fun ls0 : LoopState => loop_invariant p wus (runner ls0)).
  pose (Done := fun (_ : unit) (ls0 : LoopState) =>
                  Inv ls0 /\ step_ (runner ls0) = Parameters.num_train_steps p).
  assert (Hgoal : hoare (fun ls0 => ls0 = ls) (TrainingLoop fuel) Done).
  2: { destruct (Hgoal ls tt ls' eq_refl Hrun) as ((Hp & _ & Hcount) & Hstep).
       rewrite Hstep in Hcount. auto. }
  assert (Hinit : Inv ls).
  { unfold Inv, loop_invariant. fold p wus. rewrite Hstart.
    repeat split; [unfold is_size_t in HN; lia .. |].
    rewrite Zdiv_0_l, Z.add_0_r, wrap64_small; auto. }
  unfold TrainingLoop.
  apply hoare_get_bind. intros ls0 ->.
  apply hoare_weaken with (P := Inv) (Q := Done);
    [| intros ? ->; exact Hinit | auto].
  eapply hoare_bind with (R := fun _ => Inv).
  { destruct (test_data_loader ls) as [test_loader |]; [| apply hoare_ret].
    eapply hoare_bind with (R := fun _ => Inv); [hoare_same |].
    intros _. apply hoare_pure, ORT_RETURN_IF_ERROR_pure. }
  intros _.
  eapply hoare_bind with (R := fun _ => Inv); [hoare_same | intros _].
  eapply hoare_bind with (R := fun _ => Inv);
    [apply hoare_pure, ORT_RETURN_IF_ERROR_pure | intros _].
  eapply hoare_bind with (R := fun _ => Inv); [hoare_same | intros _].
  eapply hoare_bind with (R := fun _ => Inv); [hoare_same | intros _].
  eapply hoare_bind; [apply (hoare_epoch_loop p wus HN HA) | intros ?; cbv beta].
  apply hoare_get_bind. intros ls1 Hls1.
  apply hoare_weaken with (P := Done tt) (Q := Done);
    [| intros ? ->; exact Hls1 | auto].
  destruct (str_empty _); [apply hoare_ret |].
  apply (hoare_pure (Done tt)), ORT_RETURN_IF_ERROR_pure.
Qed.

(** ** What a step does to the loop state *)

(** A property of the loop state that does not look at the runner, the
    accumulation counter or the test loader is kept by a step. *)
Section Frame.
Variable F : LoopState -> Prop.
Hypothesis F_runner : forall ls r, F ls -> F (set_runner r ls).
Hypothesis F_count :
  forall ls v, F ls -> F (set_gradient_accumulation_step_count v ls).
Hypothesis F_test_loader : forall ls v, F ls -> F (set_test_data_loader v ls).

Lemma frame_on_runner {A : Type} (m : M TrainingRunner A) :
  hoare F (on_runner m) (fun _ => F).
Proof.
  intros ls a ls' Hls Hrun. unfold on_runner in Hrun.
  injection Hrun as _ <-. apply F_runner, Hls.
Qed.

Lemma frame_dispatch_step (update : bool)
  (lr_scheduler : option (Z -> float32)) (training_data : DataSet) (batch : Z) :
  hoare F (dispatch_step update lr_scheduler training_data batch) (fun _ => F).
Proof.
  unfold dispatch_step. apply hoare_get_bind. intros ls Hls.
  apply hoare_weaken with (P := F) (Q := fun _ => F);
    [| intros ? ->; exact Hls | auto].
  destruct update.
  - eapply hoare_bind; [apply hoare_pure, checked_pure | intros ?; cbv beta].
    eapply hoare_bind; [apply hoare_pure, checked_pure | intros ?; cbv beta].
    eapply hoare_bind; [apply frame_on_runner | intros ?; cbv beta].
    apply hoare_ret.
  - eapply hoare_bind; [apply hoare_pure, checked_pure | intros ?; cbv beta].
    eapply hoare_bind; [apply hoare_pure, checked_pure | intros ?; cbv beta].
    eapply hoare_bind; [apply frame_on_runner | intros ?; cbv beta].
    intros ? ? ? H0 Hrun. injection Hrun as _ <-. apply F_count, H0.
Qed.

Lemma frame_maybe_evaluate : hoare F maybe_evaluate (fun _ => F).
Proof.
  unfold maybe_evaluate. apply hoare_get_bind. intros ls Hls.
  apply hoare_weaken with (P := F) (Q := fun _ => F);
    [| intros ? ->; exact Hls | auto].
  destruct (test_data_loader ls); [| apply hoare_ret].
  destruct (Parameters.do_eval _); [| apply hoare_ret].
  eapply hoare_bind; [apply hoare_pure, size_t_mod_pure | intros m; cbv beta].
  destruct (_ =? 0); [| apply hoare_ret].
  eapply hoare_bind; [apply frame_on_runner | intros ?; cbv beta].
  intros ? ? ? H0 Hrun. injection Hrun as _ <-. apply F_test_loader, H0.
Qed.

Lemma frame_maybe_save_checkpoint (enable_checkpoint_saving update : bool) :
  hoare F (maybe_save_checkpoint enable_checkpoint_saving update) (fun _ => F).
Proof.
  unfold maybe_save_checkpoint. destruct (_ && _); [| apply hoare_ret].
  apply hoare_get_bind. intros ls Hls.
  apply hoare_weaken with (P := F) (Q := fun _ => F);
    [| intros ? ->; exact Hls | auto].
  eapply hoare_bind; [apply hoare_pure, size_t_mod_pure | intros m; cbv beta].
  destruct (_ =? 0); [| apply hoare_ret].
  eapply hoare_bind;
    [apply hoare_pure, ORT_RETURN_IF_ERROR_pure | intros ?; cbv beta].
  apply frame_on_runner.
Qed.

Lemma frame_train_step (enable_checkpoint_saving : bool)
  (lr_scheduler : option (Z -> float32)) (training_data : DataSet) (batch : Z) :
  hoare F (train_step enable_checkpoint_saving lr_scheduler training_data batch)
    (fun _ => F).
Proof.
  unfold train_step. apply hoare_get_bind. intros ls Hls.
  apply hoare_weaken with (P := F) (Q := fun _ => F);
    [| intros ? ->; exact Hls | auto].
  eapply hoare_bind; [apply hoare_pure, size_t_mod_pure | intros m; cbv beta].
  eapply hoare_bind; [apply frame_dispatch_step | intros ?; cbv beta].
  eapply hoare_bind; [apply frame_maybe_evaluate | intros ?; cbv beta].
  apply frame_maybe_save_checkpoint.
Qed.

End Frame.

(** ** Runs in which nothing fails *)

Section TotalRules.
Context {S : Type}.

Lemma total_ret {A : Type} (P : S -> Prop) (a : A) :
  total P (ret a) (fun a' s => a' = a /\ P s).
Proof. intros s Hs. exists a. cbn. auto. Qed.

Lemma total_skip {A : Type} (P : S -> Prop) (a : A) :
  total P (ret a) (fun _ s => P s).
Proof. intros s Hs. exists a. cbn. auto. Qed.

Lemma total_bind {A B : Type} (P : S -> Prop) (R : A -> S -> Prop)
  (Q : B -> S -> Prop) (m : M S A) (k : A -> M S B) :
  total P m R -> (forall a, total (R a) (k a) Q) -> total P (bind m k) Q.
Proof.
  intros Hm Hk s Hs. destruct (Hm s Hs) as (a & Ha & HR).
  unfold bind. destruct (m s) as [o s1]. cbn [fst snd] in *. subst o.
  exact (Hk a s1 HR).
Qed.

Lemma total_get_bind {B : Type} (P : S -> Prop) (Q : B -> S -> Prop)
  (k : S -> M S B) :
  (forall r, P r -> total (fun s => s = r) (k r) Q) ->
  total P (bind get k) Q.
Proof. intros Hk s Hs. exact (Hk s Hs s eq_refl). Qed.

Lemma total_modify (Q : S -> Prop) (f : S -> S) :
  total (fun s => Q (f s)) (modify f) (fun _ s => Q s).
Proof. intros s Hs. exists tt. cbn. auto. Qed.

Lemma total_weaken {A : Type} (P P' : S -> Prop) (Q Q' : A -> S -> Prop)
  (m : M S A) :
  total P m Q -> (forall s, P' s -> P s) -> (forall a s, Q a s -> Q' a s) ->
  total P' m Q'.
Proof.
  intros Hm HP HQ s Hs. destruct (Hm s (HP s Hs)) as (a & Ha & Hq). eauto.
Qed.

Lemma total_assume {A : Type} (fact : Prop) (P : S -> Prop)
  (Q : A -> S -> Prop) (m : M S A) :
  (fact -> total P m Q) -> total (fun s => fact /\ P s) m Q.
Proof. intros Hm s [Hfact Hs]. exact (Hm Hfact s Hs). Qed.

Lemma total_size_t_mod (P : S -> Prop) (a b : Z) :
  b <> 0 -> total P (size_t_mod a b) (fun m s => m = a mod b /\ P s).
Proof.
  intros Hb s Hs. unfold size_t_mod. apply Z.eqb_neq in Hb. rewrite Hb.
  exists (a mod b). cbn. auto.
Qed.

Lemma total_assume_r {A : Type} (fact : Prop) (P : S -> Prop)
  (Q : A -> S -> Prop) (m : M S A) :
  (fact -> total P m Q) -> total (fun s => P s /\ fact) m Q.
Proof. intros Hm s [Hs Hfact]. exact (Hm Hfact s Hs). Qed.

End TotalRules.

Section NothingFails.
Hypothesis benign : collaborators_never_fail.

Local Abbreviation WC := well_configured.

(** What [well_configured] looks at. *)
Lemma well_configured_frame (r r' : TrainingRunner) :
  params_ r' = params_ r ->
  pipeline_worker_pool_ r' = pipeline_worker_pool_ r ->
  opt_graph_outputs_ r' = opt_graph_outputs_ r ->
  pipeline_context_ r' = pipeline_context_ r ->
  (loss_scaler_ r' <> None -> loss_scaler_ r <> None) ->
  WC r -> WC r'.
Proof.
  intros Hp Hpool Hout Hpc Hls. unfold well_configured, all_finite_output.
  rewrite Hp, Hpool, Hout, Hpc. intuition.
Qed.

Lemma well_configured_no_uncaught (r : TrainingRunner) (w : nat) :
  WC r -> WorkerPool.uncaught (pipeline_worker_pool_ r) !! w = None.
Proof. intros (_ & _ & _ & -> & _). apply lookup_empty. Qed.

Lemma after_shards_add (n m : nat) :
  forall loader : IDataLoader,
    after_shards (n + m) loader = after_shards m (after_shards n loader).
Proof.
  induction n as [| n IH]; intros loader; cbn [after_shards Nat.add];
    [reflexivity | apply IH].
Qed.

Lemma after_shards_next (k : nat) :
  forall loader : IDataLoader,
    MoveToNextDataSet (after_shards k loader) = after_shards (S k) loader.
Proof.
  induction k as [| k IH]; intros loader; cbn [after_shards];
    [reflexivity | apply IH].
Qed.

Lemma always_loads_after (k : nat) (loader : IDataLoader) :
  always_loads loader -> always_loads (after_shards k loader).
Proof. intros Hall j. rewrite <- after_shards_add. apply Hall. Qed.

Lemma total_hoare {S A : Type} (P P' : S -> Prop) (Q : A -> S -> Prop)
  (Q' : A -> S -> Prop) (m : M S A) :
  total P m Q -> hoare P' m Q' ->
  total (fun s => P s /\ P' s) m (fun a s => Q a s /\ Q' a s).
Proof.
  intros Hm Hk s [Hs Hs']. destruct (Hm s Hs) as (a & Ha & HQ).
  exists a. split; [exact Ha |]. split; [exact HQ |].
  apply (Hk s a (m s).2 Hs'). rewrite <- Ha. apply surjective_pairing.
Qed.

Lemma total_also {S A : Type} (P P' : S -> Prop) (Q : A -> S -> Prop)
  (Q' : S -> Prop) (m : M S A) :
  total P m Q -> (forall s, P' s -> Q' (m s).2) ->
  total (fun s => P s /\ P' s) m (fun a s => Q a s /\ Q' s).
Proof.
  intros Hm Hk s [Hs Hs']. destruct (Hm s Hs) as (a & Ha & HQ).
  exists a. auto.
Qed.

Lemma well_configured_slot (r : TrainingRunner) (w : Z) :
  WC r -> 0 <= w < Parameters.pipeline_parallel_size (params_ r) ->
  is_Some (WorkerPool.workers (pipeline_worker_pool_ r) !! Z.to_nat w) /\
  is_Some (WorkerPool.worker_states (pipeline_worker_pool_ r) !! Z.to_nat w).
Proof.
  intros (_ & Hworkers & Hstates & _) Hw.
  split; apply lookup_lt_is_Some; [rewrite Hworkers | rewrite Hstates]; lia.
Qed.

Lemma well_configured_set_workers (r : TrainingRunner) (i : nat) (b : bool) :
  WC r ->
  WC (set_workers (<[i := b]> (WorkerPool.workers (pipeline_worker_pool_ r))) r).
Proof.
  unfold well_configured. cbn. rewrite length_insert. auto.
Qed.

Lemma well_configured_set_worker_states (r : TrainingRunner) (i : nat)
  (ws : WorkerState.t) :
  WC r ->
  WC (set_worker_states
        (<[i := ws]> (WorkerPool.worker_states (pipeline_worker_pool_ r))) r).
Proof.
  unfold well_configured. cbn. rewrite length_insert. auto.
Qed.

(** The configuration and the slot under consideration are fixed; a call
    keeps both. *)
Local Abbreviation at_slot :=
  (fun (p : Parameters.t) (r : TrainingRunner) => WC r /\ params_ r = p).

Lemma total_Join (p : Parameters.t) (w : Z) :
  0 <= w < Parameters.pipeline_parallel_size p ->
  total (at_slot p) (Join w) (fun _ => at_slot p).
Proof.
  intros Hw r [Hr Hp]. subst p.
  destruct (well_configured_slot r w Hr Hw) as [[b Hb] _].
  unfold Join, bind, emit, modify, get. cbn. rewrite Hb.
  rewrite (well_configured_no_uncaught r _ Hr). cbn.
  exists tt. split; [reflexivity |]. split; [| reflexivity].
  apply (well_configured_set_workers (set_log _ r)). exact Hr.
Qed.

Lemma total_join_from (p : Parameters.t) (n : nat) :
  forall w : Z,
    0 <= w -> w + Z.of_nat n <= Parameters.pipeline_parallel_size p ->
    total (at_slot p) (join_from n w) (fun _ => at_slot p).
Proof.
  induction n as [| n IH]; intros w Hlo Hhi; cbn [join_from].
  - intros r Hr. exists tt. cbn. auto.
  - eapply total_bind; [apply total_Join; lia | intros ?; apply IH; lia].
Qed.

Lemma total_JoinAll (p : Parameters.t) :
  total (at_slot p) JoinAll (fun _ => at_slot p).
Proof.
  unfold JoinAll. apply total_get_bind. intros r [Hr Hp].
  apply total_weaken with (P := at_slot p) (Q := fun _ => at_slot p);
    [| intros ? ->; auto | auto].
  destruct Hr as (Hpipe & Hworkers & _). rewrite Hworkers.
  apply total_join_from; [lia |]. subst p. lia.
Qed.

Lemma total_assign_buffer (p : Parameters.t) (w : Z) (b : Buffer)
  (f : WorkerState.t -> WorkerState.t) :
  0 <= w < Parameters.pipeline_parallel_size p ->
  total (at_slot p) (assign_buffer w b f) (fun _ => at_slot p).
Proof.
  intros Hw r [Hr Hp]. subst p.
  destruct (well_configured_slot r w Hr Hw) as [_ [ws Hws]].
  unfold assign_buffer, bind, emit, modify, get. cbn. rewrite Hws. cbn.
  exists tt. split; [reflexivity |]. split; [| reflexivity].
  apply (well_configured_set_worker_states (set_log _ r)). exact Hr.
Qed.

Lemma total_launch (p : Parameters.t) (w : Z) (tag : RunTag) :
  0 <= w < Parameters.pipeline_parallel_size p ->
  total (at_slot p) (launch w tag) (fun _ => at_slot p).
Proof.
  intros Hw r [Hr Hp]. subst p.
  destruct (well_configured_slot r w Hr Hw) as [[b Hb] _].
  unfold launch, bind, emit, modify, get. cbn. rewrite Hb. cbn.
  exists tt. split; [reflexivity |]. split; [| reflexivity].
  apply (well_configured_set_workers (set_log _ r)). exact Hr.
Qed.

Lemma total_worker_run (p : Parameters.t) (w : Z) (tag : RunTag) (opt : bool) :
  0 <= w < Parameters.pipeline_parallel_size p ->
  total (at_slot p) (worker_run w tag opt)
    (fun status r => status = OK /\ at_slot p r).
Proof.
  intros Hw r [Hr Hp]. subst p.
  destruct (well_configured_slot r w Hr Hw) as [_ [ws Hws]].
  unfold worker_run, bind, emit, modify, get. cbn. rewrite Hws. cbn.
  destruct benign as (Hrun & _).
  specialize (Hrun tag opt (WorkerState.feed_names ws) (WorkerState.feeds ws)
                (WorkerState.fetch_names ws)).
  destruct (session_Run _ _ _ _ _) as [status fetches]. cbn in *. subst status.
  exists OK. split; [reflexivity |]. split; [reflexivity |]. split; [| reflexivity].
  apply (well_configured_set_worker_states (set_log _ r)). exact Hr.
Qed.

Lemma well_configured_flag (r : TrainingRunner) (w : Z)
  (fetch_names : list string) :
  WC r -> loss_scaler_ r <> None -> slot_fetched w fetch_names r ->
  exists ws,
    WorkerPool.worker_states (pipeline_worker_pool_ r) !! Z.to_nat w = Some ws /\
    flag_fetched fetch_names (WorkerState.fetches ws) r.
Proof.
  intros Hr Hls (ws & step & feed_names & feeds & Hws & Hfetches).
  exists ws. split; [exact Hws |]. intros index Hindex. rewrite Hfetches.
  destruct Hr as (_ & _ & _ & _ & _ & _ & _ & _ & _ & _ & Hflag).
  exact (Hflag Hls step feed_names feeds fetch_names index Hindex).
Qed.

Lemma total_update_loss_scaler (p : Parameters.t) (fetch_names : list string)
  (fetches : list OrtValue) :
  total (fun r => at_slot p r /\
                  (loss_scaler_ r <> None -> flag_fetched fetch_names fetches r))
    (update_loss_scaler fetch_names fetches) (fun _ => at_slot p).
Proof.
  intros r [[Hr Hp] Hflag]. unfold update_loss_scaler, bind, get.
  assert (Hkeep : forall r' ls',
             params_ r' = params_ r ->
             pipeline_worker_pool_ r' = pipeline_worker_pool_ r ->
             opt_graph_outputs_ r' = opt_graph_outputs_ r ->
             pipeline_context_ r' = pipeline_context_ r ->
             loss_scaler_ r = Some ls' -> WC r')
    by (intros r' ls' ? ? ? ? Hls'; apply (well_configured_frame r); auto;
        congruence).
  destruct (loss_scaler_ r) as [ls |] eqn:Hls; [| exists tt; cbn; auto].
  specialize (Hflag ltac:(discriminate)).
  unfold flag_fetched, all_finite_output in Hflag.
  destruct (opt_graph_outputs_ r !! GradientAllIsFinite) as [name |] eqn:Hname;
    cbn in Hflag; unfold id in Hflag; cbn [ret modify].
  - destruct (find_index fetch_names name) as [index |] eqn:Hindex;
      [| exists tt; cbn; auto].
    destruct (Hflag index eq_refl) as (flag & rest & ->).
    exists tt. cbn. split; [reflexivity |]. split; [| exact Hp].
    apply (Hkeep _ ls); reflexivity.
  - assert (Hr1 : WC (set_opt_graph_outputs_
                        (<[GradientAllIsFinite := EmptyString]>
                           (opt_graph_outputs_ r)) r)).
    { destruct Hr as (H1 & H2 & H3 & H4 & H5 & H6 & H7 & H8 & H9 & H10 & H11).
      unfold all_finite_output in H11. rewrite Hname in H7, H11.
      unfold well_configured, all_finite_output. cbn.
      rewrite lookup_insert_eq, !lookup_insert_ne by discriminate.
      refine (conj H1 (conj H2 (conj H3 (conj H4 (conj H5 (conj H6
                (conj _ (conj H8 (conj H9 (conj H10 _)))))))))).
      - intros Hone Hmixed. destruct (H7 Hone Hmixed) as [[x Hx] _].
        discriminate Hx.
      - intros _. apply H11. congruence. }
    destruct (find_index fetch_names EmptyString) as [index |] eqn:Hindex;
      [| exists tt; cbn; auto].
    destruct (Hflag index eq_refl) as (flag & rest & ->).
    exists tt. cbn. split; [reflexivity |]. split; [| exact Hp].
    apply (well_configured_frame
             (set_opt_graph_outputs_
                (<[GradientAllIsFinite := EmptyString]> (opt_graph_outputs_ r)) r));
      auto.
    intros _. cbn. congruence.
Qed.

Lemma total_emit (p : Parameters.t) (e : Event) :
  total (at_slot p) (emit e) (fun _ => at_slot p).
Proof.
  intros r [Hr Hp]. exists tt. split; [reflexivity |]. split; [exact Hr | exact Hp].
Qed.

Lemma total_report_training_loss (p : Parameters.t) (tag : RunTag) :
  total (at_slot p) (report_training_loss tag) (fun _ => at_slot p).
Proof.
  unfold report_training_loss. apply total_get_bind. intros r [Hr Hp].
  apply total_weaken with (P := at_slot p) (Q := fun _ => at_slot p);
    [| intros ? ->; auto | auto].
  assert (Hdisplay : Parameters.is_perf_test (params_ r) = true \/
                     Parameters.display_loss_steps (params_ r) <> 0)
    by (destruct Hr as (_ & _ & _ & _ & _ & _ & _ & _ & H & _); exact H).
  destruct (_ || _); cbn [andb]; [| apply total_skip].
  destruct (Parameters.is_perf_test (params_ r)) eqn:Hperf; cbn [negb];
    [apply total_skip |].
  destruct Hdisplay as [Hd | Hd]; [discriminate |].
  eapply total_bind; [apply total_size_t_mod, Hd | intros m; cbv beta].
  apply total_assume. intros ->.
  destruct (_ =? 0); [| apply total_skip].
  eapply total_bind with (R := fun _ => at_slot p).
  - destruct (Parameters.error_function _); [apply total_emit | apply total_skip].
  - intros _.
    destruct (Parameters.post_evaluation_callback _);
      [apply total_emit | apply total_skip].
Qed.

Lemma ORT_THROW_IF_ERROR_OK {S : Type} (st : S) :
  ORT_THROW_IF_ERROR OK st = (Ret tt, st).
Proof. reflexivity. Qed.

(** What the buffers of a slot hold after an assignment and after the run
    of its thread. *)
Lemma assign_buffer_slot (w : Z) (b : Buffer) (f : WorkerState.t -> WorkerState.t)
  (r : TrainingRunner) (ws : WorkerState.t) :
  WorkerPool.worker_states (pipeline_worker_pool_ r) !! Z.to_nat w = Some ws ->
  WorkerPool.worker_states (pipeline_worker_pool_ (assign_buffer w b f r).2)
    !! Z.to_nat w
  = Some (f ws).
Proof.
  intros Hws. unfold assign_buffer, bind, emit, modify, get. cbn. rewrite Hws. cbn.
  apply list_lookup_insert_eq. exact (lookup_lt_Some _ _ _ Hws).
Qed.

Lemma worker_run_slot (w : Z) (tag : RunTag) (opt : bool) (r : TrainingRunner)
  (ws : WorkerState.t) :
  WorkerPool.worker_states (pipeline_worker_pool_ r) !! Z.to_nat w = Some ws ->
  WorkerPool.worker_states (pipeline_worker_pool_ (worker_run w tag opt r).2)
    !! Z.to_nat w
  = Some (with_fetches
            (session_Run tag opt (WorkerState.feed_names ws)
               (WorkerState.feeds ws) (WorkerState.fetch_names ws)).2 ws).
Proof.
  intros Hws. unfold worker_run, bind, emit, modify, get. cbn. rewrite Hws. cbn.
  destruct (session_Run _ _ _ _ _) as [status fetches]. cbn.
  apply list_lookup_insert_eq. exact (lookup_lt_Some _ _ _ Hws).
Qed.

Lemma assign_fetch_names_slot (p : Parameters.t) (w : Z) (names : list string)
  (r : TrainingRunner) :
  0 <= w < Parameters.pipeline_parallel_size p ->
  at_slot p r ->
  slot_fetch_names w names
    (assign_buffer w buf_fetch_names (with_fetch_names names) r).2.
Proof.
  intros Hw [Hr Hp]. subst p.
  destruct (well_configured_slot r w Hr Hw) as [_ [ws Hws]].
  eexists. split; [apply assign_buffer_slot, Hws | reflexivity].
Qed.

Lemma assign_fetches_slot (w : Z) (names : list string) (fetches : list OrtValue)
  (r : TrainingRunner) :
  slot_fetch_names w names r ->
  slot_fetch_names w names
    (assign_buffer w buf_fetches (with_fetches fetches) r).2.
Proof.
  intros (ws & Hws & Hnames).
  eexists. split; [apply assign_buffer_slot, Hws | exact Hnames].
Qed.

Lemma launch_keeps_slot (w w' : Z) (tag : RunTag) (names : list string)
  (r : TrainingRunner) :
  slot_fetch_names w names r -> slot_fetch_names w names (launch w' tag r).2.
Proof.
  apply (accepts_keeps log (slot_fetch_names w names) free_step any_state
           (launch w' tag) tt).
  eapply acc_launch; stable_inv.
Qed.

Lemma worker_run_fetched (w step : Z) (names : list string) (r : TrainingRunner) :
  slot_fetch_names w names r ->
  slot_fetched w names (worker_run w (TrainingRun step) false r).2.
Proof.
  intros (ws & Hws & Hnames).
  eexists _, step, (WorkerState.feed_names ws), (WorkerState.feeds ws).
  split; [apply worker_run_slot, Hws |]. cbn. rewrite Hnames. reflexivity.
Qed.

Lemma JoinAll_keeps_fetched (w : Z) (names : list string) (r : TrainingRunner) :
  slot_fetched w names r -> slot_fetched w names (JoinAll r).2.
Proof.
  apply (accepts_keeps log (slot_fetched w names) free_step any_state JoinAll tt).
  eapply acc_JoinAll with (free := fun _ _ => True); stable_inv.
Qed.

Lemma total_complete_update (p : Parameters.t) (w step : Z)
  (fetch_names : list string) :
  0 <= w < Parameters.pipeline_parallel_size p ->
  total (fun r => at_slot p r /\ slot_fetch_names w fetch_names r)
    (complete_update w step fetch_names) (fun _ => at_slot p).
Proof.
  intros Hw. unfold complete_update.
  eapply total_bind
    with (R := fun status r =>
                 (status = OK /\ at_slot p r) /\ slot_fetched w fetch_names r).
  { apply total_also; [apply total_worker_run, Hw |].
    intros r. apply worker_run_fetched. }
  intros status. cbv beta.
  eapply total_weaken
    with (P := fun r => status = OK /\
                        (at_slot p r /\ slot_fetched w fetch_names r))
         (Q := fun _ => at_slot p); [| tauto | auto].
  apply total_assume. intros ->.
  eapply total_bind
    with (R := fun _ r => at_slot p r /\ slot_fetched w fetch_names r).
  { apply total_also; [apply total_JoinAll |].
    intros r. apply JoinAll_keeps_fetched. }
  intros _.
  eapply total_bind
    with (R := fun _ r => at_slot p r /\ slot_fetched w fetch_names r).
  { intros r Hr. exists tt. cbn. auto. }
  intros _. apply total_get_bind. intros r1 [[Hr1 Hp1] Hfetched].
  apply total_weaken with (P := fun r => r = r1) (Q := fun _ => at_slot p);
    [| auto | auto].
  pose proof Hfetched as (ws & _ & _ & _ & Hws & _). rewrite Hws.
  eapply total_bind with (R := fun _ => at_slot p).
  { eapply total_weaken;
      [apply (total_update_loss_scaler p fetch_names (WorkerState.fetches ws))
      | | auto].
    intros r ->. split; [split; assumption |]. intros Hls.
    destruct (well_configured_flag r1 w fetch_names Hr1 Hls Hfetched)
      as (ws' & Hws' & Hflag).
    rewrite Hws in Hws'. injection Hws' as <-. exact Hflag. }
  intros _.
  eapply total_bind; [apply total_report_training_loss | intros ?; cbv beta].
  eapply total_bind; [apply total_JoinAll | intros ?; cbv beta].
  eapply total_bind with (R := fun _ => at_slot p).
  { intros r [Hr Hp]. exists tt. cbn. split; [reflexivity |]. split; [| exact Hp].
    apply (well_configured_frame r); auto. }
  intros _.
  eapply total_bind with (R := fun _ => at_slot p).
  { intros r [Hr Hp]. exists tt. cbn. split; [reflexivity |]. split; [| exact Hp].
    apply (well_configured_frame r); auto. }
  intros _. intros r Hr. eexists. cbn. auto.
Qed.

Lemma total_complete_accumulation (p : Parameters.t) (w step count : Z) :
  0 <= w < Parameters.pipeline_parallel_size p ->
  total (at_slot p) (complete_accumulation w step count) (fun _ => at_slot p).
Proof.
  intros Hw. unfold complete_accumulation, accumulation_thread.
  eapply total_bind with (R := fun _ => at_slot p).
  { eapply total_bind; [apply total_worker_run, Hw | intros status; cbv beta].
    apply total_assume. intros ->. apply total_skip. }
  intros _.
  eapply total_bind with (R := fun _ => at_slot p).
  { intros r [Hr Hp]. exists tt. cbn. split; [reflexivity |]. split; [| exact Hp].
    apply (well_configured_frame r); auto. }
  intros _. intros r Hr. eexists. cbn. auto.
Qed.

Lemma well_configured_worker_slot (r : TrainingRunner) :
  WC r ->
  size_t_of_int (Parameters.pipeline_parallel_size (params_ r)) <> 0 /\
  0 <= worker_slot r < Parameters.pipeline_parallel_size (params_ r).
Proof.
  intros (Hpipe & _). unfold worker_slot.
  rewrite size_t_of_int_nonneg by lia. split; [lia |].
  apply Z.mod_pos_bound. lia.
Qed.

Lemma total_RunWithUpdate (p : Parameters.t) (feed_names fetch_names : list string)
  (feeds : list OrtValue) :
  total (at_slot p) (RunWithUpdate feed_names fetch_names feeds)
    (fun _ => at_slot p).
Proof.
  unfold RunWithUpdate. apply total_get_bind. intros r [Hr Hp].
  apply total_weaken with (P := at_slot p) (Q := fun _ => at_slot p);
    [| intros ? ->; auto | auto].
  destruct (well_configured_worker_slot r Hr) as [Hne Hslot].
  fold (worker_slot r) in *. rewrite Hp in Hslot.
  eapply total_bind; [apply total_size_t_mod, Hne | intros w; cbv beta].
  apply total_assume. fold (worker_slot r). intros ->.
  eapply total_bind; [apply total_Join, Hslot | intros ?; cbv beta].
  do 2 (eapply total_bind; [apply total_assign_buffer, Hslot | intros ?; cbv beta]).
  eapply total_bind
    with (R := fun _ r0 => at_slot p r0 /\
                           slot_fetch_names (worker_slot r) fetch_names r0).
  { eapply total_weaken;
      [apply (total_also (at_slot p) (at_slot p));
       [apply total_assign_buffer, Hslot
       | intros r0; apply assign_fetch_names_slot, Hslot]
      | intros s Hs; split; exact Hs | auto]. }
  intros _.
  eapply total_bind
    with (R := fun _ r0 => at_slot p r0 /\
                           slot_fetch_names (worker_slot r) fetch_names r0).
  { apply total_also; [apply total_assign_buffer, Hslot |].
    intros r0. apply assign_fetches_slot. }
  intros _.
  eapply total_bind
    with (R := fun _ r0 => at_slot p r0 /\
                           slot_fetch_names (worker_slot r) fetch_names r0).
  { apply total_also; [apply total_launch, Hslot |].
    intros r0. apply launch_keeps_slot. }
  intros _.
  apply total_complete_update, Hslot.
Qed.

Lemma total_RunWithoutUpdate (p : Parameters.t)
  (feed_names fetch_names : list string) (feeds : list OrtValue) (count : Z) :
  total (at_slot p) (RunWithoutUpdate feed_names fetch_names feeds count)
    (fun _ => at_slot p).
Proof.
  unfold RunWithoutUpdate. apply total_get_bind. intros r [Hr Hp].
  apply total_weaken with (P := at_slot p) (Q := fun _ => at_slot p);
    [| intros ? ->; auto | auto].
  destruct (well_configured_worker_slot r Hr) as [Hne Hslot].
  fold (worker_slot r) in *. rewrite Hp in Hslot.
  eapply total_bind; [apply total_size_t_mod, Hne | intros w; cbv beta].
  apply total_assume. fold (worker_slot r). intros ->.
  eapply total_bind; [apply total_Join, Hslot | intros ?; cbv beta].
  do 4 (eapply total_bind; [apply total_assign_buffer, Hslot | intros ?; cbv beta]).
  eapply total_bind; [apply total_launch, Hslot | intros ?; cbv beta].
  apply total_complete_accumulation, Hslot.
Qed.

Lemma data_feeds_loop_ok (r : TrainingRunner) (data_feeds : list OrtValue)
  (names : list string) :
  forall (i : nat) (buf : FeedBuf),
    (i + List.length names <= List.length data_feeds)%nat ->
    (data_feeds_loop r names i data_feeds buf).1 = Ret tt.
Proof.
  induction names as [| name names IH]; intros i buf Hlen; [reflexivity |].
  cbn [data_feeds_loop List.length] in *. unfold bind at 1.
  destruct (feed_allowed r name).
  - unfold bind at 1, push_feed_name, modify.
    destruct (lookup_lt_is_Some_2 data_feeds i ltac:(lia)) as [v ->].
    unfold push_feed, modify. apply IH. lia.
  - apply IH. lia.
Qed.

Lemma event_feed_seq_ok (r : TrainingRunner) (mode : SessionMode)
  (events : list (string * EventKind)) :
  forall buf : FeedBuf,
    (non_empty (List.map fst events) <> [] ->
     1 < Parameters.pipeline_parallel_size (params_ r) /\
     0 < PipelineContext.num_pipeline_batches (pipeline_context_ r)) ->
    (event_feed_seq r mode events buf).1 = Ret tt.
Proof.
  induction events as [| [name kind] events IH]; intros buf Hok; [reflexivity |].
  cbn [event_feed_seq List.map fst] in *. unfold non_empty in Hok.
  cbn [List.filter] in Hok. fold (non_empty (List.map fst events)) in Hok.
  unfold bind at 1, event_feed.
  destruct (str_empty name); cbn [negb] in Hok.
  - apply IH, Hok.
  - destruct Hok as [Hpipe Hbatches]; [discriminate |].
    unfold ORT_RETURN_IF.
    replace (Parameters.pipeline_parallel_size (params_ r) <=? 1) with false
      by (symmetry; apply Z.leb_gt; lia).
    unfold bind at 1. cbn [ret].
    unfold bind at 1, push_feed_name, modify.
    assert (Hid : forall b : FeedBuf,
               exists id,
                 (if is_EvaluateStep mode then ret (-1)
                  else
                    let* slot :=
                      int_rem (int_of_size_t (step_ r))
                        (PipelineContext.num_pipeline_batches (pipeline_context_ r)) in
                    ret (pipeline_schedule_ r kind
                           (PipelineContext.pipeline_stage_id (pipeline_context_ r))
                           slot)) b
                 = (Ret id, b)).
    { intros b. destruct (is_EvaluateStep mode); [eexists; reflexivity |].
      unfold int_rem, bind.
      replace (PipelineContext.num_pipeline_batches (pipeline_context_ r) =? 0)
        with false by (symmetry; apply Z.eqb_neq; lia).
      replace (PipelineContext.num_pipeline_batches (pipeline_context_ r) =? -1)
        with false by (symmetry; apply Z.eqb_neq; lia).
      rewrite andb_false_r. cbn. eexists; reflexivity. }
    unfold bind at 1. destruct (Hid (buf.1 ++ [name], buf.2)) as [id ->].
    unfold push_feed, modify. apply IH. intros _. auto.
Qed.

Lemma loss_scale_feed_ok (r : TrainingRunner) (mode : SessionMode) (buf : FeedBuf) :
  (loss_scale_feed r mode buf).1 = Ret tt.
Proof.
  unfold loss_scale_feed. destruct (loss_scaler_ r); [| reflexivity].
  destruct (feed_allowed r _); reflexivity.
Qed.

Lemma learning_rate_feed_ok (r : TrainingRunner)
  (lr_scheduler : option (Z -> float32)) (buf : FeedBuf) :
  (learning_rate_feed r lr_scheduler buf).1 = Ret tt.
Proof. unfold learning_rate_feed. destruct (feed_allowed r _); reflexivity. Qed.

Lemma bind_ok {S A B : Type} (m : M S A) (k : A -> M S B) (s : S) :
  (exists a, (m s).1 = Ret a) -> (forall a s', exists b, (k a s').1 = Ret b) ->
  exists b, (bind m k s).1 = Ret b.
Proof.
  intros [a Ha] Hk. unfold bind. destruct (m s) as [o s']. cbn in Ha. subst o.
  apply Hk.
Qed.

Lemma PrepareFeedNamesAndFeeds_ok (r : TrainingRunner) (mode : SessionMode)
  (loader : IDataLoader) (data : DataSet)
  (lr_scheduler : option (Z -> float32)) (batch : Z) :
  WC r ->
  (PrepareFeedNamesAndFeeds r mode loader data lr_scheduler batch).1 = Ret tt.
Proof.
  intros Hr. unfold PrepareFeedNamesAndFeeds.
  destruct benign as (_ & _ & _ & Hcover).
  assert (Hunit : forall (o : Outcome unit), (exists a, o = Ret a) -> o = Ret tt).
  { intros o [[] ->]. reflexivity. }
  apply Hunit. apply bind_ok.
  { exists tt. apply data_feeds_loop_ok. cbn. apply Hcover. }
  intros _ b1. apply bind_ok; [exists tt; apply loss_scale_feed_ok |].
  intros _ b2. apply bind_ok; [exists tt; apply learning_rate_feed_ok |].
  intros _ b3. exists tt. rewrite event_feeds_as_seq. apply event_feed_seq_ok.
  destruct Hr as (_ & _ & _ & _ & _ & _ & _ & Hevents & _).
  replace (List.map fst (zip (event_names (pipeline_context_ r)) event_kinds))
    with (event_names (pipeline_context_ r)) by reflexivity.
  exact Hevents.
Qed.

Lemma PrepareFetchNamesAndFetches_ok (r : TrainingRunner) (update : bool) :
  WC r ->
  (PrepareFetchNamesAndFetches r
     (if update then ModelUpdateStep else GradientAccumulateStep)).1 = Ret tt.
Proof.
  intros (Hpipe & _ & _ & _ & HA & Hacc & Hfinite & _).
  unfold PrepareFetchNamesAndFetches.
  assert (Hfallback : forall names : list string,
             ((let* fetch_names := get in
               if vec_empty fetch_names
               then modify (fun _ => PipelineContext.fetch_names (pipeline_context_ r))
               else ret tt) names).1 = Ret tt).
  { intros names. unfold bind, get. destruct (vec_empty names); reflexivity. }
  destruct update.
  - unfold bind at 1. cbn [mode_fetch_names].
    destruct (Z.ltb_spec 1 (Parameters.pipeline_parallel_size (params_ r)))
      as [Hmany | Hone].
    + unfold modify. apply Hfallback.
    + assert (Hpps : Parameters.pipeline_parallel_size (params_ r) = 1) by lia.
      unfold bind at 1, modify.
      destruct (Parameters.use_mixed_precision (params_ r)) eqn:Hmixed;
        [| apply Hfallback].
      destruct (Hfinite Hpps eq_refl) as [[name Hname] Hdelta].
      unfold bind at 1, push_optimizer_output. rewrite Hname.
      unfold push_fetch_name, modify.
      destruct (Parameters.use_adasum (params_ r)) eqn:Hadasum;
        [| apply Hfallback].
      destruct (Hdelta eq_refl) as [name' Hname']. rewrite Hname'.
      apply Hfallback.
  - unfold bind at 1.
    rewrite (mode_fetch_names_accumulate r Hacc ltac:(lia)). apply Hfallback.
Qed.

Local Abbreviation at_slotL0 :=
  (fun (p : Parameters.t) (ls : LoopState) =>
     WC (runner ls) /\ params_ (runner ls) = p).

Local Abbreviation at_slotL :=
  (fun (p : Parameters.t) (ls : LoopState) =>
     (WC (runner ls) /\ test_loader_ready p ls) /\ params_ (runner ls) = p).

Lemma total_on_runner {A : Type} (P : TrainingRunner -> Prop)
  (Q : A -> TrainingRunner -> Prop) (m : M TrainingRunner A) :
  total P m Q ->
  total (fun ls => P (runner ls)) (on_runner m) (fun a ls => Q a (runner ls)).
Proof. intros Hm ls Hls. exact (Hm (runner ls) Hls). Qed.

Lemma checked_ok {S A : Type} (res : Outcome unit * A) (s : S) :
  res.1 = Ret tt -> checked res s = (Ret res.2, s).
Proof. intros H. unfold checked. rewrite H. reflexivity. Qed.

Lemma total_checked {S A : Type} (P : S -> Prop) (res : Outcome unit * A) :
  res.1 = Ret tt -> total P (checked res) (fun _ s => P s).
Proof.
  intros Hres s Hs. rewrite (checked_ok res s Hres). eexists. cbn. auto.
Qed.

Lemma total_dispatch_step_runner (p : Parameters.t) (update : bool)
  (lr_scheduler : option (Z -> float32)) (training_data : DataSet) (batch : Z) :
  total (at_slotL0 p)
    (dispatch_step update lr_scheduler training_data batch)
    (fun _ => at_slotL0 p).
Proof.
  unfold dispatch_step. apply total_get_bind. intros ls [Hr Hp].
  apply total_weaken with (P := at_slotL0 p) (Q := fun _ => at_slotL0 p);
    [| intros ? ->; auto | auto].
  destruct update.
  - eapply total_bind;
      [apply total_checked, PrepareFeedNamesAndFeeds_ok, Hr | intros ?; cbv beta].
    eapply total_bind;
      [apply total_checked, (PrepareFetchNamesAndFetches_ok _ true), Hr
      | intros ?; cbv beta].
    eapply total_bind;
      [apply (total_on_runner (at_slot p) (fun _ => at_slot p)),
         total_RunWithUpdate | intros ?; cbv beta].
    apply total_skip.
  - eapply total_bind;
      [apply total_checked, PrepareFeedNamesAndFeeds_ok, Hr | intros ?; cbv beta].
    eapply total_bind;
      [apply total_checked, (PrepareFetchNamesAndFetches_ok _ false), Hr
      | intros ?; cbv beta].
    eapply total_bind;
      [apply (total_on_runner (at_slot p) (fun _ => at_slot p)),
         total_RunWithoutUpdate | intros ?; cbv beta].
    intros ls0 Hls0. exists tt. split; [reflexivity | exact Hls0].
Qed.

Lemma total_dispatch_step (p : Parameters.t) (update : bool)
  (lr_scheduler : option (Z -> float32)) (training_data : DataSet) (batch : Z) :
  total (at_slotL p)
    (dispatch_step update lr_scheduler training_data batch)
    (fun _ => at_slotL p).
Proof.
  eapply total_weaken;
    [apply (total_hoare (at_slotL0 p) (test_loader_ready p));
     [apply total_dispatch_step_runner
     | apply (frame_dispatch_step (test_loader_ready p)); intros; assumption]
    | intros s [[H1 H2] H3]; auto
    | intros a s [[H1 H2] H3]; auto].
Qed.

Lemma unchecked_ok {S A : Type} (res : Outcome unit * A) (s : S) :
  res.1 = Ret tt -> unchecked res s = (Ret res.2, s).
Proof. intros H. unfold unchecked. rewrite H. reflexivity. Qed.

Lemma total_unchecked {S A : Type} (P : S -> Prop) (res : Outcome unit * A) :
  res.1 = Ret tt -> total P (unchecked res) (fun _ s => P s).
Proof.
  intros Hres s Hs. rewrite (unchecked_ok res s Hres). eexists. cbn. auto.
Qed.

Lemma PrepareFetchNamesAndFetches_evaluate_ok (r : TrainingRunner) :
  (PrepareFetchNamesAndFetches r EvaluateStep).1 = Ret tt.
Proof.
  unfold PrepareFetchNamesAndFetches, bind, get, modify. cbn [mode_fetch_names].
  destruct (1 <? _); cbn; destruct (vec_empty _); reflexivity.
Qed.

Lemma total_set_current_batch (p : Parameters.t) (v : Z) :
  total (at_slot p) (modify (set_current_batch v)) (fun _ => at_slot p).
Proof.
  intros r [Hr Hp]. exists tt. cbn. split; [reflexivity |]. split; [| exact Hp].
  apply (well_configured_frame r); auto.
Qed.

Lemma total_ORT_RETURN_IF_ERROR_OK {S : Type} (P : S -> Prop) :
  total P (ORT_RETURN_IF_ERROR OK) (fun _ s => P s).
Proof. intros s Hs. exists tt. cbn. auto. Qed.

(** The session run of one evaluation batch. *)
Lemma total_evaluation_run (p : Parameters.t) (tag : RunTag)
  (feed_names fetch_names : list string) (feeds : list OrtValue) :
  1 <= Parameters.pipeline_parallel_size p ->
  total (at_slot p)
    (if Parameters.pipeline_parallel_size p =? 1
     then
       let worker_id := 0 in
       Join worker_id ;;;
       launch worker_id tag ;;;
       emit (EvSessionRun tag true feed_names fetch_names) ;;;
       let '(status, fetches) :=
         session_Run tag true feed_names feeds fetch_names in
       Join worker_id ;;;
       ORT_RETURN_IF_ERROR status ;;;
       ret fetches
     else
       emit (EvSessionRun tag false feed_names fetch_names) ;;;
       let '(status, fetches) :=
         session_Run tag false feed_names feeds fetch_names in
       ORT_RETURN_IF_ERROR status ;;;
       ret fetches)
    (fun _ => at_slot p).
Proof.
  intros Hpipe. destruct benign as (Hrun & _).
  assert (Hslot : 0 <= 0 < Parameters.pipeline_parallel_size p) by lia.
  destruct (_ =? 1).
  - cbv zeta.
    eapply total_bind; [apply total_Join, Hslot | intros ?; cbv beta].
    eapply total_bind; [apply total_launch, Hslot | intros ?; cbv beta].
    eapply total_bind; [apply total_emit | intros ?; cbv beta].
    pose proof (Hrun tag true feed_names feeds fetch_names) as Hok.
    destruct (session_Run _ _ _ _ _) as [status fetches]. cbn in Hok. subst status.
    eapply total_bind; [apply total_Join, Hslot | intros ?; cbv beta].
    eapply total_bind; [apply total_ORT_RETURN_IF_ERROR_OK | intros ?; cbv beta].
    apply total_skip.
  - eapply total_bind; [apply total_emit | intros ?; cbv beta].
    pose proof (Hrun tag false feed_names feeds fetch_names) as Hok.
    destruct (session_Run _ _ _ _ _) as [status fetches]. cbn in Hok. subst status.
    eapply total_bind; [apply total_ORT_RETURN_IF_ERROR_OK | intros ?; cbv beta].
    apply total_skip.
Qed.

Lemma total_evaluate_batch (p : Parameters.t) (loader0 : IDataLoader)
  (batch_idx : Z) (k : nat) (data : DataSet) :
  always_loads loader0 ->
  total (at_slot p)
    (evaluate_batch batch_idx (after_shards k loader0) (Some data))
    (fun next r =>
       at_slot p r /\
       exists k' data', next = (after_shards k' loader0, Some data')).
Proof.
  intros Hloads. unfold evaluate_batch. apply total_get_bind. intros r [Hr Hp].
  apply total_weaken
    with (P := at_slot p)
         (Q := fun next r0 =>
                 at_slot p r0 /\
                 exists k' data', next = (after_shards k' loader0, Some data'));
    [| intros ? ->; auto | auto].
  assert (Hpipe : 1 <= Parameters.pipeline_parallel_size p)
    by (destruct Hr as (H1 & _); rewrite <- Hp; lia).
  eapply total_bind;
    [apply total_unchecked, PrepareFeedNamesAndFeeds_ok, Hr | intros feed_buf; cbv beta].
  eapply total_bind;
    [apply total_unchecked, PrepareFetchNamesAndFetches_evaluate_ok
    | intros fetch_names; cbv beta].
  rewrite Hp.
  eapply total_bind; [apply total_evaluation_run, Hpipe | intros fetches; cbv beta].
  eapply total_bind with (R := fun _ => at_slot p).
  { destruct (_ && _); [apply total_emit | apply total_skip]. }
  intros _. apply total_get_bind. intros r1 Hr1.
  apply total_weaken
    with (P := at_slot p)
         (Q := fun next r0 =>
                 at_slot p r0 /\
                 exists k' data', next = (after_shards k' loader0, Some data'));
    [| intros ? ->; auto | auto].
  eapply total_bind; [apply total_set_current_batch | intros ?; cbv beta].
  destruct (_ <=? _).
  - eapply total_bind; [apply total_set_current_batch | intros ?; cbv beta].
    rewrite after_shards_next.
    destruct (CurrentDataSet (after_shards (S k) loader0)) as [data' |] eqn:Hnext;
      [| destruct (Hloads (S k) Hnext)].
    intros r2 Hr2. eexists. cbn. split; [reflexivity |]. split; [exact Hr2 |].
    exists (S k), data'. reflexivity.
  - intros r2 Hr2. eexists. cbn. split; [reflexivity |]. split; [exact Hr2 |].
    exists k, data. reflexivity.
Qed.

Lemma total_evaluate_batches (p : Parameters.t) (loader0 : IDataLoader)
  (n : nat) :
  always_loads loader0 ->
  forall (batch_idx : Z) (k : nat) (data : DataSet),
    total (at_slot p)
      (evaluate_batches n batch_idx (after_shards k loader0) (Some data))
      (fun loader' r => at_slot p r /\ exists k', loader' = after_shards k' loader0).
Proof.
  intros Hloads. induction n as [| n IH]; intros batch_idx k data;
    cbn [evaluate_batches].
  - intros r Hr. eexists. cbn. split; [reflexivity |]. split; [exact Hr |].
    exists k. reflexivity.
  - eapply total_bind; [apply total_evaluate_batch, Hloads | intros next; cbv beta].
    intros r [Hr (k' & data' & ->)]. cbn [fst snd]. apply IH, Hr.
Qed.

Lemma total_Evaluate (p : Parameters.t) (loader : IDataLoader) :
  (Parameters.skip_evaluation p = false ->
   Parameters.batch_size p <> 0 /\ always_loads loader) ->
  total (at_slot p) (Evaluate loader)
    (fun loader' r => at_slot p r /\ exists k, loader' = after_shards k loader).
Proof.
  intros Hready. unfold Evaluate. apply total_get_bind. intros r [Hr Hp].
  apply total_weaken
    with (P := at_slot p)
         (Q := fun loader' r0 =>
                 at_slot p r0 /\ exists k, loader' = after_shards k loader);
    [| intros ? ->; auto | auto].
  rewrite Hp.
  destruct (Parameters.skip_evaluation p) eqn:Hskip.
  { intros r0 Hr0. eexists. cbn. split; [reflexivity |]. split; [exact Hr0 |].
    exists O. reflexivity. }
  destruct (Hready eq_refl) as [Hbatch Hloads].
  destruct (CurrentDataSet loader) as [data |] eqn:Hcurrent;
    [| destruct (Hloads O Hcurrent)].
  eapply total_bind
    with (R := fun test_data r0 =>
                 (exists data', test_data = Some data') /\ at_slot p r0).
  { destruct (_ && _); intros r0 Hr0; eexists; cbn; eauto. }
  intros test_data. apply total_assume. intros [data' ->].
  eapply total_bind; [apply total_size_t_mod, Hbatch | intros m; cbv beta].
  apply total_assume. intros _.
  eapply total_bind;
    [apply (total_evaluate_batches p loader _ Hloads 0 O data')
    | intros loader'; cbv beta].
  apply total_assume_r. intros Hk.
  eapply total_bind with (R := fun _ => at_slot p).
  { destruct (Parameters.post_evaluation_callback p);
      [apply total_emit | apply total_skip]. }
  intros _ r0 Hr0. eexists. cbn. auto.
Qed.

Lemma total_maybe_evaluate (p : Parameters.t) :
  total (at_slotL p) maybe_evaluate (fun _ => at_slotL p).
Proof.
  unfold maybe_evaluate. apply total_get_bind. intros ls [[Hr Hready] Hp].
  apply total_weaken with (P := fun s => s = ls) (Q := fun _ => at_slotL p);
    [| auto | auto].
  assert (Hskip : total (fun s => s = ls) (ret tt) (fun _ => at_slotL p))
    by (intros s ->; exists tt; cbn; auto).
  destruct (test_data_loader ls) as [test_loader |] eqn:Htest; [| exact Hskip].
  rewrite Hp.
  destruct (Parameters.do_eval p) eqn:Heval; [| exact Hskip].
  pose proof Hr as (_ & _ & _ & _ & _ & _ & _ & _ & _ & H10 & _).
  rewrite Hp, Heval in H10. destruct (H10 eq_refl) as [Hperiod Hbatch].
  eapply total_bind; [apply total_size_t_mod, Hperiod | intros m; cbv beta].
  apply total_assume. intros _.
  destruct (m =? 0); [| exact Hskip].
  intros s ->.
  destruct (total_Evaluate p test_loader) with (s := runner ls)
    as (loader' & Hret & Hslot & k & Hk).
  { intros Hno. split.
    - destruct Hbatch as [Hbatch | Hbatch]; [congruence | exact Hbatch].
    - exact (Hready Heval Hno test_loader Htest). }
  { split; [exact Hr | exact Hp]. }
  unfold bind, on_runner, modify.
  destruct (Evaluate test_loader (runner ls)) as [o r'].
  cbn [fst snd] in *. subst o loader'.
  exists tt. split; [reflexivity |]. cbn.
  destruct Hslot as [Hwc' Hp']. split; [split; [exact Hwc' |] | exact Hp'].
  intros Heval' Hno tl Htl. cbn in Htl. injection Htl as <-.
  apply always_loads_after. exact (Hready Heval Hno test_loader Htest).
Qed.

Lemma total_maybe_save_checkpoint_runner (p : Parameters.t)
  (enable_checkpoint_saving update : bool) :
  (enable_checkpoint_saving = true -> Parameters.checkpoint_period p <> 0) ->
  total (at_slotL0 p) (maybe_save_checkpoint enable_checkpoint_saving update)
    (fun _ => at_slotL0 p).
Proof.
  intros Hperiod. unfold maybe_save_checkpoint.
  destruct enable_checkpoint_saving; cbn [andb]; [| apply total_skip].
  destruct update; [| apply total_skip].
  apply total_get_bind. intros ls [Hr Hp].
  apply total_weaken with (P := at_slotL0 p) (Q := fun _ => at_slotL0 p);
    [| intros ? ->; auto | auto].
  rewrite Hp.
  eapply total_bind; [apply total_size_t_mod, Hperiod, eq_refl | intros m; cbv beta].
  apply total_assume. intros ->.
  destruct (_ =? 0); [| apply total_skip].
  destruct benign as (_ & Hsave & _). rewrite Hsave.
  eapply total_bind with (R := fun _ => at_slotL0 p); [apply total_skip |].
  intros _. apply (total_on_runner (at_slot p) (fun _ => at_slot p)), total_emit.
Qed.

Lemma total_maybe_save_checkpoint (p : Parameters.t)
  (enable_checkpoint_saving update : bool) :
  (enable_checkpoint_saving = true -> Parameters.checkpoint_period p <> 0) ->
  total (at_slotL p) (maybe_save_checkpoint enable_checkpoint_saving update)
    (fun _ => at_slotL p).
Proof.
  intros Hperiod.
  eapply total_weaken;
    [apply (total_hoare (at_slotL0 p) (test_loader_ready p));
     [apply total_maybe_save_checkpoint_runner, Hperiod
     | apply (frame_maybe_save_checkpoint (test_loader_ready p));
       intros; assumption]
    | intros s [[H1 H2] H3]; auto
    | intros a s [[H1 H2] H3]; auto].
Qed.

Lemma total_train_step (p : Parameters.t) (enable_checkpoint_saving : bool)
  (lr_scheduler : option (Z -> float32)) (training_data : DataSet) (batch : Z) :
  (enable_checkpoint_saving = true -> Parameters.checkpoint_period p <> 0) ->
  total (at_slotL p)
    (train_step enable_checkpoint_saving lr_scheduler training_data batch)
    (fun _ => at_slotL p).
Proof.
  intros Hperiod. unfold train_step. apply total_get_bind. intros ls [[Hr Hready] Hp].
  apply total_weaken with (P := at_slotL p) (Q := fun _ => at_slotL p);
    [| intros ? ->; auto | auto].
  assert (HA : size_t_of_int
                 (Parameters.gradient_accumulation_steps (params_ (runner ls)))
               <> 0)
    by (destruct Hr as (_ & _ & _ & _ & H & _);
        rewrite size_t_of_int_nonneg; lia).
  eapply total_bind; [apply total_size_t_mod, HA | intros m; cbv beta].
  apply total_assume. intros ->.
  eapply total_bind; [apply total_dispatch_step | intros ?; cbv beta].
  eapply total_bind; [apply total_maybe_evaluate | intros ?; cbv beta].
  apply total_maybe_save_checkpoint, Hperiod.
Qed.

End NothingFails.

(** The counters after one completed step: the step counter has advanced
    by one, the weight-update counter by one exactly when
    [(step_ + 1) % gradient_accumulation_steps == 0]. *)
Lemma hoare_train_step_counters (s w : Z) (p : Parameters.t)
  (enable_checkpoint_saving : bool) (lr_scheduler : option (Z -> float32))
  (training_data : DataSet) (batch : Z) :
  hoare (fun ls => counters s w p (runner ls))
    (train_step enable_checkpoint_saving lr_scheduler training_data batch)
    (fun _ ls =>
       counters (wrap64 (s + 1))
         (if is_weight_update_step p s then wrap64 (w + 1) else w) p (runner ls)).
Proof.
  unfold train_step, is_weight_update_step.
  apply hoare_get_bind. intros ls (Hs & Hw & Hp).
  rewrite Hs, Hp.
  eapply hoare_bind with
    (R := fun m ls' =>
            counters s w p (runner ls') /\
            (size_t_of_int (Parameters.gradient_accumulation_steps p) <> 0 /\
             m = wrap64 (s + 1)
                 mod size_t_of_int (Parameters.gradient_accumulation_steps p))).
  { eapply hoare_weaken;
      [apply (hoare_size_t_mod (fun ls' : LoopState => counters s w p (runner ls')))
      | intros ? ->; repeat split; auto
      | auto ]. }
  intros m. apply hoare_assume. intros [HA ->].
  eapply hoare_bind; [apply hoare_dispatch_step | intros ?; cbv beta].
  eapply hoare_bind; [keep_free acc_maybe_evaluate | intros ?; cbv beta].
  keep_free acc_maybe_save_checkpoint.
Qed.

(** ** Termination of the loops when nothing fails *)

Lemma batches_supplied_nonneg (p : Parameters.t) (n : nat) :
  forall loader : IDataLoader, 0 <= batches_supplied p n loader.
Proof.
  induction n as [| n IH]; intros loader; cbn [batches_supplied]; [lia |].
  specialize (IH (MoveToNextDataSet loader)).
  destruct (CurrentDataSet loader); lia.
Qed.

Section Termination.
Hypothesis benign : collaborators_never_fail.
Variables (p : Parameters.t) (wus_start : Z).
Hypothesis N_fits : is_size_t (Parameters.num_train_steps p).
Variable enable_checkpoint_saving : bool.
Hypothesis period_not_zero :
  enable_checkpoint_saving = true -> Parameters.checkpoint_period p <> 0.
Variable lr_scheduler : option (Z -> float32).

Local Abbreviation N := (Parameters.num_train_steps p).

Local Abbreviation steady := (steady_state p wus_start).

Lemma steady_accumulation_steps (ls : LoopState) :
  steady ls -> 0 <= Parameters.gradient_accumulation_steps p.
Proof.
  intros [[(_ & _ & _ & _ & HA & _) _] (Hp & _)]. rewrite Hp in HA. lia.
Qed.

Lemma train_step_total (training_data : DataSet) (batch : Z) (ls : LoopState) :
  steady ls -> step_ (runner ls) < N ->
  exists ls',
    train_step enable_checkpoint_saving lr_scheduler training_data batch ls
    = (Ret tt, ls') /\
    steady ls' /\
    training_data_loader ls' = training_data_loader ls /\
    step_ (runner ls') = step_ (runner ls) + 1.
Proof.
  intros Hsteady Hlt.
  pose proof (steady_accumulation_steps ls Hsteady) as HA.
  destruct Hsteady as [Hwc Hinv].
  pose proof Hinv as (Hp & Hstep & Hwus).
  destruct (total_train_step benign p enable_checkpoint_saving lr_scheduler
              training_data batch period_not_zero ls (conj Hwc Hp))
    as ([] & Hret & Hwc' & Hp').
  destruct (train_step enable_checkpoint_saving lr_scheduler training_data batch ls)
    as [o ls'] eqn:Hrun.
  cbn [fst snd] in *. subst o.
  exists ls'. split; [reflexivity |].
  split; [split; [exact Hwc' |] | split].
  - exact (hoare_train_step p wus_start N_fits HA enable_checkpoint_saving
             lr_scheduler training_data batch ls tt ls' (conj Hinv Hlt) Hrun).
  - apply (frame_train_step
             (fun l => training_data_loader l = training_data_loader ls)
             ltac:(auto) ltac:(auto) ltac:(auto)
             enable_checkpoint_saving lr_scheduler training_data batch
             ls tt ls' eq_refl Hrun).
  - destruct (hoare_train_step_counters (step_ (runner ls))
                (weight_update_step_count_ (runner ls)) p
                enable_checkpoint_saving lr_scheduler training_data batch
                ls tt ls' ltac:(repeat split; auto) Hrun) as (Hs' & _).
    rewrite Hs'. apply wrap64_small. unfold is_size_t in *. lia.
Qed.

Lemma batch_loop_total (n : nat) :
  forall (training_data : DataSet) (batch : Z) (ls : LoopState),
    steady ls ->
    exists ls',
      batch_loop n enable_checkpoint_saving lr_scheduler training_data batch ls
      = (Ret tt, ls') /\
      steady ls' /\
      training_data_loader ls' = training_data_loader ls /\
      step_ (runner ls') = Z.min N (step_ (runner ls) + Z.of_nat n).
Proof.
  induction n as [| n IH]; intros data batch ls Hsteady.
  - exists ls. split; [reflexivity |]. split; [exact Hsteady |].
    split; [reflexivity |].
    destruct Hsteady as [_ (_ & Hstep & _)]. lia.
  - pose proof Hsteady as [_ (Hp & Hstep & _)].
    cbn [batch_loop]. unfold bind at 1, get. rewrite Hp.
    destruct (Z.ltb_spec (step_ (runner ls)) N) as [Hlt | Hge].
    + destruct (train_step_total data batch ls Hsteady Hlt)
        as (ls1 & Hrun1 & Hsteady1 & Hloader1 & Hstep1).
      unfold bind. rewrite Hrun1.
      destruct (IH data (batch + 1) ls1 Hsteady1)
        as (ls' & Hrun' & Hsteady' & Hloader' & Hstep').
      exists ls'. rewrite Hrun'. split; [reflexivity |].
      split; [exact Hsteady' |]. split; [congruence |].
      rewrite Hstep', Hstep1. lia.
    + exists ls. split; [reflexivity |]. split; [exact Hsteady |].
      split; [reflexivity | lia].
Qed.

Lemma JoinAll_total (ls : LoopState) :
  steady ls ->
  exists ls',
    on_runner JoinAll ls = (Ret tt, ls') /\
    steady ls' /\
    training_data_loader ls' = training_data_loader ls /\
    step_ (runner ls') = step_ (runner ls).
Proof.
  intros [[Hwc Hready] Hinv]. pose proof Hinv as (Hp & _).
  destruct (total_JoinAll p (runner ls) (conj Hwc Hp))
    as ([] & Hret & Hwc' & Hp').
  assert (Hkeep : counters (step_ (runner ls))
                    (weight_update_step_count_ (runner ls)) p (JoinAll (runner ls)).2).
  { apply (accepts_keeps log _ free_step any_state JoinAll tt);
      [| repeat split; auto].
    eapply acc_JoinAll with (free := fun _ _ => True); stable_inv. }
  unfold on_runner. destruct (JoinAll (runner ls)) as [o r'].
  cbn [fst snd] in *. subst o.
  destruct Hkeep as (Hs & Hw & Hp_kept).
  eexists. split; [reflexivity |]. cbn.
  split; [split; [split; [exact Hwc' | exact Hready] |]
         | split; [reflexivity | exact Hs]].
  apply (loop_invariant_stable p wus_start (runner ls));
    [cbn; congruence | exact Hs | exact Hw | exact Hinv].
Qed.

Lemma visit_shard_total (ls : LoopState) :
  steady ls ->
  exists ls',
    visit_shard enable_checkpoint_saving lr_scheduler ls = (Ret tt, ls') /\
    steady ls' /\
    step_ (runner ls')
    = Z.min N (step_ (runner ls) + batches_supplied p 1 (training_data_loader ls)) /\
    (step_ (runner ls') < N ->
     training_data_loader ls' = MoveToNextDataSet (training_data_loader ls)).
Proof.
  intros Hsteady. pose proof Hsteady as [Hwc (Hp & Hstep & Hwus)].
  unfold visit_shard. unfold bind at 1, get.
  set (ls_a := set_runner
                 (set_training_data_set_index_
                    (CurrentDataSetIndex (training_data_loader ls)) (runner ls)) ls).
  assert (Hsteady_a : steady ls_a) by exact Hsteady.
  rewrite (bind_Ret
             (on_runner
                (modify (set_training_data_set_index_
                           (CurrentDataSetIndex (training_data_loader ls)))))
             _ ls ls_a tt eq_refl).
  cbn [batches_supplied]. rewrite Z.add_0_r.
  destruct (CurrentDataSet (training_data_loader ls)) as [data |].
  - rewrite Hp.
    set (training_data :=
           if Parameters.shuffle_data p then RandomShuffle data else data).
    destruct (batch_loop_total
                (Z.to_nat (TotalBatch training_data (Parameters.batch_size p)))
                training_data 0 ls_a Hsteady_a)
      as (ls_b & Hrun_b & Hsteady_b & Hloader_b & Hstep_b).
    rewrite (bind_Ret _ _ _ _ _ Hrun_b).
    destruct (JoinAll_total ls_b Hsteady_b)
      as (ls_c & Hrun_c & Hsteady_c & Hloader_c & Hstep_c).
    rewrite (bind_Ret _ _ _ _ _ Hrun_c).
    unfold bind, get.
    assert (Hcount : step_ (runner ls_c)
                     = Z.min N (step_ (runner ls)
                                + Z.max 0 (TotalBatch training_data
                                             (Parameters.batch_size p)))).
    { rewrite Hstep_c, Hstep_b. cbn. f_equal. f_equal. lia. }
    destruct Hsteady_c as [Hwc_c Hinv_c]. pose proof Hinv_c as (Hp_c & _).
    rewrite Hp_c.
    destruct (Z.ltb_spec (step_ (runner ls_c)) N) as [Hlt | Hge].
    + eexists. split; [reflexivity |]. cbn.
      split; [split; assumption |]. split; [exact Hcount |].
      intros _. rewrite Hloader_c, Hloader_b. reflexivity.
    + eexists. split; [reflexivity |].
      split; [split; assumption |]. split; [exact Hcount |].
      intros Hlt. lia.
  - eexists. split; [reflexivity |]. cbn.
    split; [exact Hsteady |]. split; [lia |]. intros _. reflexivity.
Qed.

Lemma shard_loop_total (n : nat) :
  forall ls : LoopState,
    steady ls ->
    exists ls',
      shard_loop n enable_checkpoint_saving lr_scheduler ls = (Ret tt, ls') /\
      steady ls' /\
      step_ (runner ls')
      = Z.min N (step_ (runner ls)
                 + batches_supplied p n (training_data_loader ls)) /\
      (step_ (runner ls') < N ->
       training_data_loader ls' = after_shards n (training_data_loader ls)).
Proof.
  induction n as [| n IH]; intros ls Hsteady.
  - exists ls. split; [reflexivity |]. split; [exact Hsteady |].
    destruct Hsteady as [_ (_ & Hstep & _)]. cbn.
    split; [lia | reflexivity].
  - cbn [shard_loop].
    destruct (visit_shard_total ls Hsteady)
      as (ls1 & Hrun1 & Hsteady1 & Hstep1 & Hloader1).
    rewrite (bind_Ret _ _ _ _ _ Hrun1).
    destruct (IH ls1 Hsteady1) as (ls' & Hrun' & Hsteady' & Hstep' & Hloader').
    exists ls'. split; [exact Hrun' |]. split; [exact Hsteady' |].
    cbn [batches_supplied after_shards] in *. rewrite Z.add_0_r in Hstep1.
    pose proof (batches_supplied_nonneg p n (training_data_loader ls1)) as Hnn1.
    pose proof (batches_supplied_nonneg p n
                  (MoveToNextDataSet (training_data_loader ls))) as Hnn.
    destruct (Z.lt_ge_cases (step_ (runner ls1)) N) as [Hlt | Hge].
    + rewrite <- (Hloader1 Hlt). split; [lia | exact Hloader'].
    + split; lia.
Qed.

Lemma batches_supplied_add (n m : nat) :
  forall loader : IDataLoader,
    batches_supplied p (n + m) loader
    = batches_supplied p n loader + batches_supplied p m (after_shards n loader).
Proof.
  induction n as [| n IH]; intros loader; cbn [batches_supplied after_shards Nat.add].
  - lia.
  - rewrite IH. lia.
Qed.

(** The loop over the epochs completes when the shards visited in [fuel]
    epochs supply the batches that are still to be trained on. *)
Lemma epoch_loop_total (num_shards_to_visit : Z) (fuel : nat) :
  forall ls : LoopState,
    steady ls ->
    N <= step_ (runner ls)
         + batches_supplied p (fuel * Z.to_nat num_shards_to_visit)
             (training_data_loader ls) ->
    exists ls',
      epoch_loop fuel num_shards_to_visit enable_checkpoint_saving
        lr_scheduler ls = (Ret tt, ls') /\
      steady ls'.
Proof.
  induction fuel as [| fuel IH]; intros ls Hsteady Hsupply;
    pose proof Hsteady as [_ (Hp & Hstep & _)].
  - cbn [Nat.mul batches_supplied] in Hsupply.
    exists ls. split; [| exact Hsteady].
    cbn [epoch_loop]. unfold bind, get. rewrite Hp.
    destruct (Z.ltb_spec (step_ (runner ls)) N); [lia | reflexivity].
  - cbn [epoch_loop]. unfold bind at 1, get. rewrite Hp.
    destruct (Z.ltb_spec (step_ (runner ls)) N) as [Hlt | Hge];
      [| exists ls; split; [reflexivity | exact Hsteady]].
    destruct (shard_loop_total (Z.to_nat num_shards_to_visit) ls Hsteady)
      as (ls1 & Hrun1 & Hsteady1 & Hstep1 & Hloader1).
    rewrite (bind_Ret _ _ _ _ _ Hrun1).
    set (ls2 := set_epoch (wrap64 (epoch ls1 + 1)) ls1).
    rewrite (bind_Ret
               (modify (fun ls0 => set_epoch (wrap64 (epoch ls0 + 1)) ls0))
               _ ls1 ls2 tt eq_refl).
    apply IH; [exact Hsteady1 |].
    change (step_ (runner ls2)) with (step_ (runner ls1)).
    change (training_data_loader ls2) with (training_data_loader ls1).
    pose proof (batches_supplied_nonneg p (fuel * Z.to_nat num_shards_to_visit)
                  (training_data_loader ls1)) as Hnn.
    destruct (Z.lt_ge_cases (step_ (runner ls1)) N) as [Hlt1 | Hge1]; [| lia].
    rewrite (Hloader1 Hlt1).
    cbn [Nat.mul] in Hsupply. rewrite batches_supplied_add in Hsupply. lia.
Qed.

End Termination.

(** With one unit of fuel per epoch, a loop completes when the shards
    visited in [fuel] epochs supply at least [num_train_steps] batches. *)
Lemma TrainingLoop_completes (fuel : nat) (ls : LoopState) :
  let p := params_ (runner ls) in
  let init := InitializeDataSetIndex (training_data_loader ls)
                (training_data_set_index_ (runner ls)) in
  collaborators_never_fail ->
  well_configured (runner ls) ->
  is_size_t (Parameters.num_train_steps p) ->
  is_size_t (weight_update_step_count_ (runner ls)) ->
  step_ (runner ls) = 0 ->
  (forall test_loader,
     test_data_loader ls = Some test_loader ->
     (InitializeDataSetIndex test_loader 0).1 = OK /\
     (Parameters.do_eval p = true -> Parameters.skip_evaluation p = false ->
      always_loads (InitializeDataSetIndex test_loader 0).2)) ->
  init.1 = OK ->
  Parameters.num_train_steps p
  <= batches_supplied p (fuel * Z.to_nat (NumShards init.2)) init.2 ->
  exists ls', TrainingLoop fuel ls = (Ret tt, ls').
Proof.
  intros p init benign Hwc HN Hwus Hstart Htest Hinit Hsupply.
  set (wus := weight_update_step_count_ (runner ls)) in *.
  assert (Hinv : loop_invariant p wus (runner ls)).
  { unfold loop_invariant. fold p wus. rewrite Hstart.
    repeat split; [unfold is_size_t in HN; lia .. |].
    rewrite Zdiv_0_l, Z.add_0_r, wrap64_small; auto. }
  unfold TrainingLoop. unfold bind at 1, get.
  set (ls_a := match test_data_loader ls with
               | Some test_loader =>
                   set_test_data_loader
                     (Some (InitializeDataSetIndex test_loader 0).2) ls
               | None => ls
               end).
  assert (Hready_a : test_loader_ready p ls_a).
  { unfold ls_a. intros Heval Hskip tl Htl.
    destruct (test_data_loader ls) as [test_loader |] eqn:Hsome.
    - cbn in Htl. injection Htl as <-.
      exact (proj2 (Htest test_loader eq_refl) Heval Hskip).
    - rewrite Hsome in Htl. discriminate Htl. }
  assert (Hrunner_a : runner ls_a = runner ls).
  { unfold ls_a. destruct (test_data_loader ls); reflexivity. }
  erewrite (bind_Ret _ _ ls ls_a tt).
  2: { unfold ls_a. destruct (test_data_loader ls) as [test_loader |] eqn:Htl;
         [| reflexivity].
       unfold bind, modify. rewrite (proj1 (Htest test_loader eq_refl)).
       reflexivity. }
  fold init.
  set (ls_b := set_gradient_accumulation_step_count 0
                 (set_epoch 0 (set_training_data_loader init.2 ls_a))).
  assert (Hsteady_b : steady_state p wus ls_b).
  { split; [split |].
    - change (runner ls_b) with (runner ls_a). rewrite Hrunner_a. exact Hwc.
    - exact Hready_a.
    - change (runner ls_b) with (runner ls_a). rewrite Hrunner_a. exact Hinv. }
  assert (Hloader_b : training_data_loader ls_b = init.2) by reflexivity.
  assert (Hstep_b : step_ (runner ls_b) = 0).
  { change (runner ls_b) with (runner ls_a). rewrite Hrunner_a. exact Hstart. }
  assert (Hperiod :
            (Parameters.world_rank p =? 0) && checkpoint_registry_ (runner ls)
            && (0 <? Parameters.checkpoint_period p) = true ->
            Parameters.checkpoint_period p <> 0).
  { intros Hon. apply andb_prop in Hon as [_ Hon].
    apply Z.ltb_lt in Hon. lia. }
  destruct (epoch_loop_total benign p wus HN _ Hperiod
              (LearningRateScheduler_Create p) (NumShards init.2) fuel ls_b
              Hsteady_b)
    as (ls_c & Hrun_c & Hsteady_c).
  { rewrite Hloader_b, Hstep_b. lia. }
  unfold bind at 1, modify. unfold bind at 1. rewrite Hinit. cbn [ORT_RETURN_IF_ERROR ret].
  unfold bind at 1. unfold bind at 1.
  fold ls_b.
  rewrite (bind_Ret _ _ _ _ _ Hrun_c).
  unfold bind, get.
  destruct (str_empty _); [eexists; reflexivity |].
  destruct benign as (_ & _ & Hperf & _). rewrite Hperf.
  eexists; reflexivity.
Qed.

(** C1. A training loop entered with [step_] at zero, [num_train_steps = N]
    and [gradient_accumulation_steps = A], [A] positive and [N mod A = 0]:
    - when it returns OK, [step_] is [N] and [weight_update_step_count_]
      has grown by [N / A];
    - each completed step, of this or any other run, advances [step_] by
      one, and advances [weight_update_step_count_] by one exactly when
      [(step_ + 1) % gradient_accumulation_steps == 0], where the divisor
      is converted to [size_t]: for the steps of this run it is [A];
    - it does return OK, with fuel for [fuel] epochs, when no collaborator
      fails, the runner is well configured (with or without a loss scaler
      and with or without evaluation while training), the loaders
      initialise, the test loader of an evaluating run offers only shards
      that load, and the shards visited in these epochs supply at least
      [N] batches. *)
Theorem C1_training_loop_step_counts (fuel : nat) (ls : LoopState) :
  let p := params_ (runner ls) in
  let N := Parameters.num_train_steps p in
  let A := Parameters.gradient_accumulation_steps p in
  let wus_start := weight_update_step_count_ (runner ls) in
  let init := InitializeDataSetIndex (training_data_loader ls)
                (training_data_set_index_ (runner ls)) in
  is_size_t N ->
  0 < A ->
  N mod A = 0 ->
  is_size_t wus_start ->
  step_ (runner ls) = 0 ->
  (forall ls',
     TrainingLoop fuel ls = (Ret tt, ls') ->
     step_ (runner ls') = N /\
     weight_update_step_count_ (runner ls') = wrap64 (wus_start + N / A)) /\
  (forall enable_checkpoint_saving lr_scheduler training_data batch ls0 ls1,
     train_step enable_checkpoint_saving lr_scheduler training_data batch ls0
     = (Ret tt, ls1) ->
     let divisor :=
       size_t_of_int
         (Parameters.gradient_accumulation_steps (params_ (runner ls0))) in
     step_ (runner ls1) = wrap64 (step_ (runner ls0) + 1) /\
     weight_update_step_count_ (runner ls1)
     = (if wrap64 (step_ (runner ls0) + 1) mod divisor =? 0
        then wrap64 (weight_update_step_count_ (runner ls0) + 1)
        else weight_update_step_count_ (runner ls0)) /\
     (params_ (runner ls0) = p -> divisor = A)) /\
  (collaborators_never_fail ->
   well_configured (runner ls) ->
   (forall test_loader,
      test_data_loader ls = Some test_loader ->
      (InitializeDataSetIndex test_loader 0).1 = OK /\
      (Parameters.do_eval p = true -> Parameters.skip_evaluation p = false ->
       always_loads (InitializeDataSetIndex test_loader 0).2)) ->
   init.1 = OK ->
   N <= batches_supplied p (fuel * Z.to_nat (NumShards init.2)) init.2 ->
   exists ls',
     TrainingLoop fuel ls = (Ret tt, ls') /\
     step_ (runner ls') = N /\
     weight_update_step_count_ (runner ls') = wrap64 (wus_start + N / A)).
Proof.
  intros p N A wus_start init HN HA Hdiv Hwus Hstart.
  assert (Hcounts :
            forall ls',
              TrainingLoop fuel ls = (Ret tt, ls') ->
              step_ (runner ls') = N /\
              weight_update_step_count_ (runner ls')
              = wrap64 (wus_start + N / A)).
  { intros ls' Hrun.
    destruct (TrainingLoop_counts fuel ls ls' HN (Z.lt_le_incl _ _ HA) Hwus
                Hstart Hrun)
      as (_ & Hstep & Hcount).
    split; assumption. }
  split; [exact Hcounts | split].
  - intros ecs lr data batch ls0 ls1 Hrun divisor.
    destruct (hoare_train_step_counters (step_ (runner ls0))
                (weight_update_step_count_ (runner ls0)) (params_ (runner ls0))
                ecs lr data batch ls0 tt ls1) as (Hs & Hw & _);
      [repeat split | exact Hrun |].
    split; [exact Hs |]. split; [exact Hw |].
    intros Hp. subst divisor. rewrite Hp. apply size_t_of_int_nonneg.
    fold A. lia.
  - intros benign Hwc Htest Hinit Hsupply.
    destruct (TrainingLoop_completes fuel ls benign Hwc HN Hwus Hstart Htest
                Hinit Hsupply) as (ls' & Hrun).
    exists ls'. split; [exact Hrun | exact (Hcounts ls' Hrun)].
Qed.

(** * Further properties *)

(** ** The decimal codec of the checkpoint properties *)

Lemma digit_val_bounds (c : ascii) (d : Z) :
  digit_val c = Some d -> 0 <= d < 10.
Proof.
  unfold digit_val.
  destruct (Z.leb_spec 48 (Z.of_nat (nat_of_ascii c)));
    destruct (Z.leb_spec (Z.of_nat (nat_of_ascii c)) 57); cbn;
    intros Hd; inversion Hd; lia.
Qed.

Lemma read_digits_nonneg (s : string) :
  forall (count : nat) (acc : Z),
    0 <= acc -> 0 <= (read_digits s count acc).1.2.
Proof.
  induction s as [| c s IH]; intros count acc Hacc; cbn [read_digits].
  - exact Hacc.
  - destruct (digit_val c) as [d |] eqn:Hd; [| exact Hacc].
    apply IH. pose proof (digit_val_bounds c d Hd). lia.
Qed.

Lemma to_string_digits_app (fuel : nat) :
  forall (n : Z) (acc s : string),
    to_string_digits fuel n acc +:+ s = to_string_digits fuel n (acc +:+ s).
Proof.
  induction fuel as [| fuel IH]; intros n acc s; cbn [to_string_digits].
  - reflexivity.
  - destruct (n / 10 =? 0); [reflexivity |]. apply IH.
Qed.

(** The starting count is only added to the number of digits read. *)
Lemma read_digits_count (s : string) :
  forall (count : nat) (acc : Z),
    read_digits s count acc
    = (((read_digits s O acc).1.1 + count)%nat,
       (read_digits s O acc).1.2, (read_digits s O acc).2).
Proof.
  induction s as [| c s IH]; intros count acc; cbn [read_digits].
  - reflexivity.
  - destruct (digit_val c) as [d |]; [| reflexivity].
    rewrite (IH (S count)), (IH 1%nat). cbn [fst snd]. f_equal. f_equal. lia.
Qed.

(** What is read from a decimal number followed by [s]. *)
Lemma extract_size_t_to_string (n : Z) (s : string) :
  is_size_t n ->
  extract_size_t (to_string n +:+ s)
  = if (read_digits s O n).1.2 <=? SIZE_MAX
    then Some ((read_digits s O n).1.2, (read_digits s O n).2)
    else None.
Proof.
  intros [Hlo Hhi]. unfold SIZE_MAX in Hhi.
  assert (Hlt : 0 <= n < 10 ^ Z.of_nat 20).
  { change (10 ^ Z.of_nat 20) with 100000000000000000000. lia. }
  unfold to_string. rewrite to_string_digits_app.
  change (EmptyString +:+ s) with s.
  destruct (to_string_digits_head 20 n s Hlo) as (d & rest & Hd & Hhead);
    [left; congruence |].
  destruct (read_digits_to_string_digits 20 n s ltac:(congruence) Hlt)
    as (k & j & _ & Hread).
  rewrite Hhead, (extract_size_t_digit_led d rest Hd), <- Hhead, Hread.
  rewrite Z.mul_0_l, Z.add_0_l, read_digits_count.
  rewrite (Nat.add_comm _ (S j + 0)). reflexivity.
Qed.

(** X1. [FromString] reads back every
    [size_t] value from what [std::to_string] wrote for it; so two
    different values are never written as the same string. *)
Theorem FromString_reads_back_to_string (n m : Z) :
  is_size_t n ->
  FromString (to_string n) = Some n /\
  (is_size_t m -> to_string n = to_string m -> n = m).
Proof.
  intros Hn. split; [exact (FromString_to_string n Hn) |].
  intros Hm Heq.
  pose proof (FromString_to_string n Hn) as Hread.
  rewrite Heq, (FromString_to_string m Hm) in Hread. congruence.
Qed.

(** X2. [FromString] fails on the
    empty string, on a string whose first character is neither a digit, a
    sign nor white space, and on a number followed by anything that is not
    a digit (a blank, a newline, a letter): the whole string has to be the
    number. *)
Theorem FromString_rejects_what_is_not_a_number :
  FromString EmptyString = None /\
  (forall (c : ascii) (rest : string),
     digit_val c = None -> is_space c = false ->
     c <> "-"%char -> c <> "+"%char ->
     FromString (String c rest) = None) /\
  (forall (n : Z) (c : ascii) (rest : string),
     is_size_t n -> digit_val c = None ->
     FromString (to_string n +:+ String c rest) = None).
Proof.
  split; [reflexivity | split].
  - intros c rest Hdigit Hspace Hminus Hplus.
    unfold FromString, extract_size_t. cbn [skip_ws]. rewrite Hspace.
    assert (Hsign : (match String c rest with
                     | String "-"%char s' => (true, s')
                     | String "+"%char s' => (false, s')
                     | _ => (false, String c rest)
                     end) = (false, String c rest)).
    { destruct c as [[] [] [] [] [] [] [] []]; try reflexivity; congruence. }
    rewrite Hsign. cbn [read_digits]. rewrite Hdigit. reflexivity.
  - intros n c rest Hn Hdigit.
    unfold FromString. rewrite (extract_size_t_to_string n _ Hn).
    cbn [read_digits]. rewrite Hdigit. cbn [fst snd].
    destruct (n <=? SIZE_MAX); reflexivity.
Qed.

(** X3. Whatever the string, a value that
    [FromString] yields is a [size_t] value. *)
Theorem FromString_yields_a_size_t (s : string) (v : Z) :
  FromString s = Some v -> is_size_t v.
Proof.
  unfold FromString, extract_size_t.
  destruct (match skip_ws s with
            | String "-"%char s' => (true, s')
            | String "+"%char s' => (false, s')
            | _ => (false, skip_ws s)
            end) as [negative s2].
  pose proof (read_digits_nonneg s2 O 0 ltac:(lia)) as Hnn.
  destruct (read_digits s2 O 0) as [[count v0] rest]. cbn [fst snd] in Hnn.
  destruct count; [discriminate |].
  destruct (Z.leb_spec v0 SIZE_MAX) as [Hle | Hgt]; [| discriminate].
  destruct rest; [| discriminate].
  intros Hv. injection Hv as <-.
  unfold is_size_t, SIZE_MAX in *.
  destruct negative; [| lia].
  unfold wrap64. pose proof (Z.mod_pos_bound (- v0) (2 ^ 64) ltac:(lia)). lia.
Qed.

(** ** Checkpoints that do not load *)

Lemma load_property_cases (properties : gmap string string) (name : string) :
  (exists v, load_property properties name = Ret v) \/
  (exists msg, load_property properties name = Returned msg).
Proof.
  unfold load_property.
  destruct (properties !! name) as [s |]; [destruct (FromString s) |]; eauto.
Qed.

(** X4. A property map in
    which one of the four counters is missing, or holds a string that
    [FromString] rejects, does not load: [LoadCheckpointProperties]
    returns an error status.  (What [FromString] rejects is less than
    what is not a decimal number: it reads past leading white space and a
    sign.) *)
Theorem LoadCheckpointProperties_needs_the_counters
  (properties : gmap string string) (r : TrainingRunner) (name : string) :
  In name counter_property_names ->
  properties !! name = None \/
  (exists s, properties !! name = Some s /\ FromString s = None) ->
  exists msg, LoadCheckpointProperties properties r = Returned msg.
Proof.
  intros Hname Hbad.
  assert (Hfail : exists msg, load_property properties name = Returned msg).
  { unfold load_property.
    destruct Hbad as [-> | (s & -> & ->)]; eauto. }
  destruct Hfail as (msg & Hfail).
  unfold LoadCheckpointProperties.
  destruct (load_property_cases properties k_step) as [[v1 H1] | [m1 H1]];
    rewrite H1; [| cbn; eauto].
  destruct (load_property_cases properties k_round) as [[v2 H2] | [m2 H2]];
    rewrite H2; [| cbn; eauto].
  destruct (load_property_cases properties k_weight_update_step)
    as [[v3 H3] | [m3 H3]]; rewrite H3; [| cbn; eauto].
  destruct (load_property_cases properties k_training_data_set_index)
    as [[v4 H4] | [m4 H4]]; rewrite H4; [| cbn; eauto].
  exfalso.
  destruct Hname as [<- | [<- | [<- | [<- | []]]]]; congruence.
Qed.

(** X5. A runner with a
    loss scaler does not load a property map without the loss-scaler
    state, and such is every map that a runner without loss scaler saved
    into an empty map: a checkpoint written in full precision is refused
    by a runner in mixed precision. *)
Theorem LoadCheckpointProperties_needs_the_scaler_state
  (saved current : TrainingRunner) (properties : gmap string string) :
  loss_scaler_ current <> None ->
  (properties !! k_loss_scaler_state = None ->
   exists msg, LoadCheckpointProperties properties current = Returned msg) /\
  (loss_scaler_ saved = None ->
   exists msg,
     LoadCheckpointProperties (SaveCheckpointProperties saved ∅).2 current
     = Returned msg).
Proof.
  intros Hscaler.
  assert (Hgeneral : forall properties0 : gmap string string,
             properties0 !! k_loss_scaler_state = None ->
             exists msg, LoadCheckpointProperties properties0 current = Returned msg).
  { intros properties0 Hmissing. unfold LoadCheckpointProperties.
    destruct (load_property_cases properties0 k_step) as [[v1 H1] | [m1 H1]];
      rewrite H1; [| cbn; eauto].
    destruct (load_property_cases properties0 k_round) as [[v2 H2] | [m2 H2]];
      rewrite H2; [| cbn; eauto].
    destruct (load_property_cases properties0 k_weight_update_step)
      as [[v3 H3] | [m3 H3]]; rewrite H3; [| cbn; eauto].
    destruct (load_property_cases properties0 k_training_data_set_index)
      as [[v4 H4] | [m4 H4]]; rewrite H4; [| cbn; eauto].
    cbn [loss_scaler_ set_training_data_set_index_ set_weight_update_step_count_
         set_round_ set_step_].
    destruct (loss_scaler_ current); [| congruence].
    rewrite Hmissing. eauto. }
  split; [apply Hgeneral |].
  intros Hnone. apply Hgeneral.
  unfold SaveCheckpointProperties, save_property. rewrite Hnone. cbn [snd].
  do 4 (rewrite lookup_insert_ne by discriminate). apply lookup_empty.
Qed.

(** ** The checks of the constructor *)

(** X6. In the last check of the
    constructor the divisor is [gradient_accumulation_steps] converted to
    [size_t] ([gradient_accumulation_steps] itself when that is not
    negative).  When the divisor is not zero, the constructor yields a
    runner exactly when [pipeline_parallel_size] is not negative, the
    model path and the optimizer name are not empty, at most one of the
    two weight lists is given, ZeRO partitioning comes with NCCL, and
    [num_train_steps] is a multiple of the divisor; otherwise it throws
    (it never returns a status).  The runner has a worker pool of
    [pipeline_parallel_size] idle slots. *)
Theorem constructor_accepts_exactly (params : Parameters.t) :
  let divisor :=
    size_t_of_int (Parameters.gradient_accumulation_steps params) in
  divisor <> 0 ->
  let accepted :=
    0 <= Parameters.pipeline_parallel_size params /\
    earlier_checks_pass params /\
    (Parameters.deepspeed_zero_stage params = 0 \/
     Parameters.use_nccl params = true) /\
    Parameters.num_train_steps params mod divisor = 0 in
  (0 <= Parameters.gradient_accumulation_steps params ->
   divisor = Parameters.gradient_accumulation_steps params) /\
  (accepted ->
   exists r,
     TrainingRunner_ctor params = Ret r /\
     WorkerPool.workers (pipeline_worker_pool_ r)
     = replicate (Z.to_nat (Parameters.pipeline_parallel_size params)) false /\
     List.length (WorkerPool.worker_states (pipeline_worker_pool_ r))
     = Z.to_nat (Parameters.pipeline_parallel_size params) /\
     WorkerPool.uncaught (pipeline_worker_pool_ r) = ∅) /\
  (~ accepted -> exists msg, TrainingRunner_ctor params = Thrown msg).
Proof.
  intros divisor HD accepted. subst accepted.
  split; [apply size_t_of_int_nonneg |].
  split.
  - intros (Hpool & Hearlier & Hzero & Hmod).
    rewrite (ctor_last_check params Hpool Hearlier Hzero HD).
    apply Z.eqb_eq in Hmod. fold divisor. rewrite Hmod.
    eexists. split; [reflexivity |]. cbn.
    split; [reflexivity |]. split; [apply length_replicate | reflexivity].
  - intros Hno.
    destruct (ctor_throws_or_reaches_last_check params)
      as [Hthrown | (Hpool & Hearlier & Hzero)]; [exact Hthrown |].
    rewrite (ctor_last_check params Hpool Hearlier Hzero HD). fold divisor.
    destruct (Z.eqb_spec (Parameters.num_train_steps params mod divisor) 0)
      as [Hmod | Hmod]; [| eauto].
    exfalso. apply Hno. auto.
Qed.

(** ** What a step feeds *)

Lemma data_feeds_loop_spec (r : TrainingRunner) (data_feeds : list OrtValue)
  (names : list string) :
  forall (i : nat) (buf : FeedBuf),
    (i + List.length names <= List.length data_feeds)%nat ->
    data_feeds_loop r names i data_feeds buf
    = (Ret tt,
       (buf.1 ++ List.map fst (selected_data_feeds r names (drop i data_feeds)),
        buf.2 ++ List.map snd (selected_data_feeds r names (drop i data_feeds)))).
Proof.
  induction names as [| name names IH]; intros i [ns vs] Hlen.
  - cbn. rewrite !app_nil_r. reflexivity.
  - cbn [data_feeds_loop List.length] in *.
    destruct (lookup_lt_is_Some_2 data_feeds i ltac:(lia)) as [v Hv].
    rewrite (drop_S _ _ _ Hv). unfold selected_data_feeds.
    cbn [zip zip_with List.filter fst snd].
    fold (zip names (drop (S i) data_feeds)).
    unfold bind at 1.
    destruct (feed_allowed r name).
    + unfold bind at 1, push_feed_name, modify. rewrite Hv.
      unfold push_feed, modify. cbn [fst snd].
      rewrite (IH (S i)) by lia. unfold selected_data_feeds.
      cbn [fst snd List.map]. rewrite <- !app_assoc. reflexivity.
    + unfold ret. rewrite (IH (S i)) by lia. reflexivity.
Qed.

Lemma loss_scale_feed_training (r : TrainingRunner) (mode : SessionMode)
  (buf : FeedBuf) :
  mode <> EvaluateStep ->
  loss_scale_feed r mode buf
  = (Ret tt, (buf.1 ++ (training_loss_scale_feed r).1,
              buf.2 ++ (training_loss_scale_feed r).2)).
Proof.
  intros Hmode. destruct buf as [ns vs].
  unfold loss_scale_feed, training_loss_scale_feed.
  replace (is_EvaluateStep mode) with false by (destruct mode; cbn; congruence).
  destruct (loss_scaler_ r) as [ls |]; [destruct (feed_allowed r _) |];
    cbn; rewrite ?app_nil_r; reflexivity.
Qed.

Lemma learning_rate_feed_spec (r : TrainingRunner)
  (lr_scheduler : option (Z -> float32)) (buf : FeedBuf) :
  learning_rate_feed r lr_scheduler buf
  = (Ret tt, (buf.1 ++ (scheduled_learning_rate_feed r lr_scheduler).1,
              buf.2 ++ (scheduled_learning_rate_feed r lr_scheduler).2)).
Proof.
  destruct buf as [ns vs].
  unfold learning_rate_feed, scheduled_learning_rate_feed.
  destruct (feed_allowed r _); cbn; rewrite ?app_nil_r; reflexivity.
Qed.

Lemma event_feed_seq_training (r : TrainingRunner) (mode : SessionMode)
  (events : list (string * EventKind)) :
  mode <> EvaluateStep ->
  (non_empty (List.map fst events) <> [] ->
   1 < Parameters.pipeline_parallel_size (params_ r) /\
   PipelineContext.num_pipeline_batches (pipeline_context_ r) <> 0 /\
   ~ (int_of_size_t (step_ r) = - 2 ^ 31 /\
      PipelineContext.num_pipeline_batches (pipeline_context_ r) = -1)) ->
  forall buf : FeedBuf,
    event_feed_seq r mode events buf
    = (Ret tt,
       (buf.1 ++ List.map fst (scheduled_event_feeds r events),
        buf.2 ++ List.map snd (scheduled_event_feeds r events))).
Proof.
  intros Hmode.
  induction events as [| [name kind] events IH]; intros Hok [ns vs].
  - cbn. rewrite !app_nil_r. reflexivity.
  - cbn [event_feed_seq List.map fst] in *. unfold non_empty in Hok.
    cbn [List.filter] in Hok. fold (non_empty (List.map fst events)) in Hok.
    unfold scheduled_event_feeds. cbn [List.filter fst snd].
    unfold bind at 1, event_feed.
    destruct (str_empty name); cbn [negb] in *.
    + unfold ret. apply (IH Hok).
    + destruct Hok as (Hpipe & Hbatches & Hmin); [discriminate |].
      unfold ORT_RETURN_IF.
      replace (Parameters.pipeline_parallel_size (params_ r) <=? 1) with false
        by (symmetry; apply Z.leb_gt; lia).
      unfold bind at 1. cbn [ret].
      unfold bind at 1, push_feed_name, modify.
      replace (is_EvaluateStep mode) with false by (destruct mode; cbn; congruence).
      unfold bind at 1, int_rem.
      replace ((PipelineContext.num_pipeline_batches (pipeline_context_ r) =? 0)
               || ((int_of_size_t (step_ r) =? - 2 ^ 31)
                   && (PipelineContext.num_pipeline_batches (pipeline_context_ r)
                       =? -1)))
        with false.
      2: { symmetry. apply orb_false_iff. split; [apply Z.eqb_neq; exact Hbatches |].
           apply andb_false_iff.
           destruct (Z.eqb_spec (int_of_size_t (step_ r)) (- 2 ^ 31)); [| auto].
           right. apply Z.eqb_neq. intros Hm. apply Hmin. auto. }
      unfold bind at 1. cbn [ret]. unfold push_feed, modify. cbn [fst snd].
      rewrite IH by (intros _; auto).
      cbn [List.map fst snd]. rewrite <- !app_assoc. reflexivity.
Qed.

(** X7. What a training step (with or without
    update) feeds, when the batch has a tensor for each name of the loader
    and the event names, if any, come with a pipeline of several stages and
    a usable number of pipeline batches: the tensors of the batch that
    this stage takes, the current scale of the loss scaler, the learning
    rate of the scheduler for step [step_ + 1] (0.0f without scheduler),
    and for each named event the id that the schedule gives for the slot
    [static_cast<int>(step_) % num_pipeline_batches]. *)
Theorem training_step_feeds (r : TrainingRunner) (mode : SessionMode)
  (data_loader : IDataLoader) (data : DataSet)
  (lr_scheduler : option (Z -> float32)) (batch_index : Z) :
  mode <> EvaluateStep ->
  (List.length (DataSetTensorNames data_loader)
   <= List.length (GetKthBatch data (Parameters.batch_size (params_ r))
                     batch_index))%nat ->
  (non_empty (event_names (pipeline_context_ r)) <> [] ->
   1 < Parameters.pipeline_parallel_size (params_ r) /\
   PipelineContext.num_pipeline_batches (pipeline_context_ r) <> 0 /\
   ~ (int_of_size_t (step_ r) = - 2 ^ 31 /\
      PipelineContext.num_pipeline_batches (pipeline_context_ r) = -1)) ->
  PrepareFeedNamesAndFeeds r mode data_loader data lr_scheduler batch_index
  = (Ret tt, training_feeds r data_loader data lr_scheduler batch_index).
Proof.
  intros Hmode Hcover Hevents. unfold PrepareFeedNamesAndFeeds.
  unfold bind at 1. rewrite data_feeds_loop_spec by (cbn; lia).
  unfold bind at 1. rewrite (loss_scale_feed_training r mode _ Hmode).
  unfold bind at 1. rewrite learning_rate_feed_spec.
  rewrite event_feeds_as_seq.
  rewrite (event_feed_seq_training r mode
             (zip (event_names (pipeline_context_ r)) event_kinds) Hmode Hevents).
  unfold training_feeds. cbn [fst snd drop app]. rewrite <- !app_assoc.
  reflexivity.
Qed.

(** *** The two output vectors stay aligned *)

Lemma appends_aligned_ret : appends_aligned (ret tt).
Proof.
  intros buf. exists [], []. cbn. rewrite !app_nil_r. destruct buf. auto.
Qed.

Lemma appends_aligned_bind (m1 m2 : M FeedBuf unit) :
  appends_aligned m1 -> appends_aligned m2 -> appends_aligned (m1 ;;; m2).
Proof.
  intros H1 H2 buf. unfold bind.
  destruct (H1 buf) as (ns1 & vs1 & Hbuf1 & Hlen1).
  destruct (m1 buf) as [o1 buf1]. cbn [fst snd] in *. subst buf1.
  destruct o1 as [[] | msg | msg | msg | |];
    try (exists ns1, vs1; cbn; split; [reflexivity |];
         destruct Hlen1 as [Hbad | Hlen1]; [discriminate Hbad || auto | auto]).
  destruct (H2 (buf.1 ++ ns1, buf.2 ++ vs1)) as (ns2 & vs2 & Hbuf2 & Hlen2).
  exists (ns1 ++ ns2), (vs1 ++ vs2). cbn [fst snd] in Hbuf2.
  rewrite Hbuf2, !app_assoc. split; [reflexivity |].
  destruct Hlen2 as [Hbad | Hlen2]; [auto |].
  destruct Hlen1 as [Hbad | Hlen1]; [discriminate Hbad |].
  right. rewrite !length_app. lia.
Qed.

Lemma data_feeds_loop_aligned (r : TrainingRunner) (data_feeds : list OrtValue)
  (names : list string) (i : nat) :
  appends_aligned (data_feeds_loop r names i data_feeds).
Proof.
  intros buf.
  destruct (data_feeds_loop_appends r data_feeds names i buf)
    as (o & dn & dv & Heq & Ho).
  exists dn, dv. rewrite Heq. cbn [fst snd]. split; [reflexivity |].
  destruct Ho as [-> | [-> Hlen]]; auto.
Qed.

Lemma loss_scale_feed_aligned (r : TrainingRunner) (mode : SessionMode) :
  appends_aligned (loss_scale_feed r mode).
Proof.
  intros [ns vs]. unfold loss_scale_feed.
  destruct (loss_scaler_ r) as [ls |]; [destruct (feed_allowed r _) |].
  - eexists [_], [_]. cbn. auto.
  - exists [], []. cbn. rewrite !app_nil_r. auto.
  - exists [], []. cbn. rewrite !app_nil_r. auto.
Qed.

Lemma learning_rate_feed_aligned (r : TrainingRunner)
  (lr_scheduler : option (Z -> float32)) :
  appends_aligned (learning_rate_feed r lr_scheduler).
Proof.
  intros buf. rewrite learning_rate_feed_spec. cbn [fst snd].
  eexists _, _. split; [reflexivity |]. right.
  unfold scheduled_learning_rate_feed. destruct (feed_allowed r _); reflexivity.
Qed.

Lemma event_feed_aligned (r : TrainingRunner) (mode : SessionMode)
  (name : string) (kind : EventKind) :
  appends_aligned (event_feed r mode name kind).
Proof.
  intros [ns vs]. unfold event_feed.
  destruct (str_empty name).
  { exists [], []. cbn. rewrite !app_nil_r. auto. }
  unfold ORT_RETURN_IF.
  destruct (Parameters.pipeline_parallel_size (params_ r) <=? 1).
  { exists [], []. cbn. rewrite !app_nil_r. auto. }
  unfold bind at 1. cbn [ret]. unfold bind at 1, push_feed_name, modify.
  cbn [fst snd].
  destruct (is_EvaluateStep mode).
  { eexists [_], [_]. cbn. auto. }
  unfold bind at 1. unfold bind at 1, int_rem.
  destruct ((PipelineContext.num_pipeline_batches (pipeline_context_ r) =? 0)
            || _).
  - eexists [_], []. cbn. rewrite app_nil_r. auto.
  - eexists [_], [_]. cbn. auto.
Qed.

Lemma event_feeds_aligned (r : TrainingRunner) (mode : SessionMode) :
  appends_aligned (event_feeds r mode).
Proof.
  unfold event_feeds.
  repeat (apply appends_aligned_bind; [apply event_feed_aligned |]).
  apply event_feed_aligned.
Qed.

(** X8. In every mode, when feed construction returns
    (OK or an error status, anything but undefined behaviour), it has
    pushed as many feeds as feed names. *)
Theorem feeds_stay_aligned (r : TrainingRunner) (mode : SessionMode)
  (data_loader : IDataLoader) (data : DataSet)
  (lr_scheduler : option (Z -> float32)) (batch_index : Z)
  (o : Outcome unit) (feed_names : list string) (feeds : list OrtValue) :
  PrepareFeedNamesAndFeeds r mode data_loader data lr_scheduler batch_index
  = (o, (feed_names, feeds)) ->
  o <> Undefined ->
  List.length feed_names = List.length feeds.
Proof.
  unfold PrepareFeedNamesAndFeeds. intros Hrun Hdefined.
  assert (Hall : appends_aligned
                   (data_feeds_loop r (DataSetTensorNames data_loader) O
                      (GetKthBatch data (Parameters.batch_size (params_ r))
                         batch_index) ;;;
                    loss_scale_feed r mode ;;;
                    learning_rate_feed r lr_scheduler ;;;
                    event_feeds r mode)).
  { apply appends_aligned_bind; [apply data_feeds_loop_aligned |].
    apply appends_aligned_bind; [apply loss_scale_feed_aligned |].
    apply appends_aligned_bind; [apply learning_rate_feed_aligned |].
    apply event_feeds_aligned. }
  destruct (Hall ([], [])) as (ns & vs & Hbuf & Hlen).
  rewrite Hrun in Hbuf, Hlen. cbn [fst snd app] in *.
  injection Hbuf as -> ->. destruct Hlen; [contradiction | assumption].
Qed.

(** X9. Without pipeline
    ([pipeline_parallel_size <= 1]) a non-empty event name makes feed
    construction return an error status in every mode, unless the batch is
    too short for the tensor names. *)
Theorem event_name_needs_a_pipeline (r : TrainingRunner) (mode : SessionMode)
  (data_loader : IDataLoader) (data : DataSet)
  (lr_scheduler : option (Z -> float32)) (batch_index : Z) :
  Parameters.pipeline_parallel_size (params_ r) <= 1 ->
  non_empty (event_names (pipeline_context_ r)) <> [] ->
  (List.length (DataSetTensorNames data_loader)
   <= List.length (GetKthBatch data (Parameters.batch_size (params_ r))
                     batch_index))%nat ->
  (PrepareFeedNamesAndFeeds r mode data_loader data lr_scheduler batch_index).1
  = Returned "Internal event name should be empty if there is no pipeline.".
Proof.
  intros Hpipe Hevents Hcover. unfold PrepareFeedNamesAndFeeds.
  unfold bind at 1. rewrite data_feeds_loop_spec by (cbn; lia).
  unfold bind at 1.
  pose proof (loss_scale_feed_ok r mode) as Hloss.
  match goal with
  | |- context [loss_scale_feed r mode ?b] =>
      specialize (Hloss b); destruct (loss_scale_feed r mode b) as [o1 b1]
  end.
  cbn [fst] in Hloss. subst o1.
  unfold bind at 1. rewrite learning_rate_feed_spec.
  rewrite event_feeds_as_seq.
  match goal with
  | |- context [event_feed_seq r mode ?events ?b] =>
      generalize b; change (non_empty (List.map fst events) <> []) in Hevents;
        generalize dependent events
  end.
  intros events. induction events as [| [name kind] events IH];
    intros Hne buf; [contradiction |].
  cbn [event_feed_seq List.map fst] in *. unfold non_empty in Hne.
  cbn [List.filter] in Hne. fold (non_empty (List.map fst events)) in Hne.
  unfold bind at 1, event_feed.
  destruct (str_empty name); cbn [negb] in Hne.
  - unfold ret. apply IH, Hne.
  - unfold ORT_RETURN_IF.
    replace (Parameters.pipeline_parallel_size (params_ r) <=? 1) with true
      by (symmetry; apply Z.leb_le; lia).
    reflexivity.
Qed.

(** ** What a step fetches *)

Lemma contains_In (l : list string) (name : string) :
  contains l name = true -> In name l.
Proof.
  unfold contains. intros Hfound.
  apply existsb_exists in Hfound as (x & Hin & Heq).
  apply String.eqb_eq in Heq. subst x. exact Hin.
Qed.

Lemma stage_fetch_names_allowed (r : TrainingRunner) (name : string) :
  In name (stage_fetch_names r) ->
  In name (Parameters.fetch_names (params_ r)) /\
  In name (PipelineContext.fetch_names (pipeline_context_ r)).
Proof.
  unfold stage_fetch_names. intros Hin.
  apply filter_In in Hin as [Huser Hallowed].
  split; [exact Huser | exact (contains_In _ _ Hallowed)].
Qed.

(** X10. With a pipeline of several stages,
    an update step and an evaluation step always return OK and fetch the
    user-declared names that this stage owns, in the user's order, or every
    allowed name when it owns none; so they never fetch a name outside the
    fetch names allowed for the stage. *)
Theorem pipelined_fetches_are_allowed (r : TrainingRunner) (mode : SessionMode) :
  1 < Parameters.pipeline_parallel_size (params_ r) ->
  mode <> GradientAccumulateStep ->
  PrepareFetchNamesAndFetches r mode
  = (Ret tt,
     if vec_empty (stage_fetch_names r)
     then PipelineContext.fetch_names (pipeline_context_ r)
     else stage_fetch_names r) /\
  forall name,
    In name (PrepareFetchNamesAndFetches r mode).2 ->
    In name (PipelineContext.fetch_names (pipeline_context_ r)).
Proof.
  intros Hpipe Hmode.
  assert (Hrun : PrepareFetchNamesAndFetches r mode
                 = (Ret tt,
                    if vec_empty (stage_fetch_names r)
                    then PipelineContext.fetch_names (pipeline_context_ r)
                    else stage_fetch_names r)).
  { unfold PrepareFetchNamesAndFetches, mode_fetch_names.
    apply Z.ltb_lt in Hpipe.
    destruct mode; [| congruence |]; rewrite Hpipe;
      unfold bind, modify, get;
      destruct (vec_empty (stage_fetch_names r)); reflexivity. }
  split; [exact Hrun |].
  rewrite Hrun. cbn [snd]. intros name Hin.
  destruct (vec_empty (stage_fetch_names r)); [exact Hin |].
  apply (stage_fetch_names_allowed r name Hin).
Qed.

(** X11. Fetch construction returns an
    error status, and fetches nothing more, when the optimizer output it
    needs is not registered: the all-finite flag of the gradient norm, or
    of the Adasum delta, for an update step without pipeline in mixed
    precision; the accumulation output for an accumulation step with
    [gradient_accumulation_steps > 1]. *)
Theorem missing_optimizer_output_is_an_error (r : TrainingRunner) :
  (Parameters.pipeline_parallel_size (params_ r) <= 1 ->
   Parameters.use_mixed_precision (params_ r) = true ->
   opt_graph_outputs_ r !! GradientAllIsFinite = None ->
   PrepareFetchNamesAndFetches r ModelUpdateStep
   = (Returned "Gradient norm's IsFinite output is missing in the optimizer output",
      Parameters.fetch_names (params_ r))) /\
  (forall all_finite,
     Parameters.pipeline_parallel_size (params_ r) <= 1 ->
     Parameters.use_mixed_precision (params_ r) = true ->
     Parameters.use_adasum (params_ r) = true ->
     opt_graph_outputs_ r !! GradientAllIsFinite = Some all_finite ->
     opt_graph_outputs_ r !! DeltaAllIsFinite = None ->
     PrepareFetchNamesAndFetches r ModelUpdateStep
     = (Returned "Adasum delta's IsFinite output is missing in the optimizer output",
        Parameters.fetch_names (params_ r) ++ [all_finite])) /\
  (1 < Parameters.gradient_accumulation_steps (params_ r) ->
   opt_graph_outputs_ r !! GradientAccumulation = None ->
   PrepareFetchNamesAndFetches r GradientAccumulateStep
   = (Returned "Gradient accumulation output is missing in the optimizer output",
      [])).
Proof.
  unfold PrepareFetchNamesAndFetches, mode_fetch_names, push_optimizer_output.
  split; [| split].
  - intros Hpipe Hmixed Hmissing.
    replace (1 <? Parameters.pipeline_parallel_size (params_ r)) with false
      by (symmetry; apply Z.ltb_ge; lia).
    rewrite Hmixed, Hmissing. reflexivity.
  - intros all_finite Hpipe Hmixed Hadasum Hfinite Hmissing.
    replace (1 <? Parameters.pipeline_parallel_size (params_ r)) with false
      by (symmetry; apply Z.ltb_ge; lia).
    rewrite Hmixed, Hadasum, Hfinite, Hmissing. reflexivity.
  - intros Hmany Hmissing.
    apply Z.ltb_lt in Hmany. rewrite Hmany, Hmissing. reflexivity.
Qed.

Lemma find_index_In (l : list string) (name : string) :
  In name l ->
  exists index, find_index l name = Some index /\ l !! index = Some name.
Proof.
  induction l as [| x l IH]; intros Hin; [destruct Hin |].
  cbn [find_index].
  destruct (String.eqb_spec x name) as [-> | Hne].
  - exists O. split; reflexivity.
  - destruct Hin as [-> | Hin]; [congruence |].
    destruct (IH Hin) as (index & -> & Hlookup).
    exists (S index). split; [reflexivity | exact Hlookup].
Qed.

(** X12. Without pipeline and in
    mixed precision, an update step fetches the user-declared names,
    then the all-finite flag of the gradient norm (then that of the Adasum
    delta); and the flag that [RunWithUpdate] hands to the loss scaler is
    the first element of what the session returned at the position of
    that name.  When the fetches are too few to have that position,
    reading it is undefined behaviour. *)
Theorem loss_scaler_follows_the_overflow_flag (r : TrainingRunner)
  (ls : LossScaler) (all_finite : string) (fetches : list OrtValue) :
  Parameters.pipeline_parallel_size (params_ r) <= 1 ->
  Parameters.use_mixed_precision (params_ r) = true ->
  loss_scaler_ r = Some ls ->
  opt_graph_outputs_ r !! GradientAllIsFinite = Some all_finite ->
  (Parameters.use_adasum (params_ r) = true ->
   is_Some (opt_graph_outputs_ r !! DeltaAllIsFinite)) ->
  exists fetch_names index,
    PrepareFetchNamesAndFetches r ModelUpdateStep = (Ret tt, fetch_names) /\
    fetch_names
    = Parameters.fetch_names (params_ r)
      ++ all_finite
         :: (if Parameters.use_adasum (params_ r)
             then match opt_graph_outputs_ r !! DeltaAllIsFinite with
                  | Some delta_finite => [delta_finite]
                  | None => []
                  end
             else []) /\
    find_index fetch_names all_finite = Some index /\
    fetch_names !! index = Some all_finite /\
    (forall is_all_finite rest,
       fetches !! index = Some (BoolTensor (is_all_finite :: rest)) ->
       update_loss_scaler fetch_names fetches r
       = (Ret tt, set_loss_scaler_ (Some (UpdateLossScale ls is_all_finite)) r)) /\
    (fetches !! index = None ->
     (update_loss_scaler fetch_names fetches r).1 = Undefined).
Proof.
  intros Hpipe Hmixed Hscaler Hfinite Hdelta.
  set (fetch_names :=
         Parameters.fetch_names (params_ r)
         ++ all_finite
            :: (if Parameters.use_adasum (params_ r)
                then match opt_graph_outputs_ r !! DeltaAllIsFinite with
                     | Some delta_finite => [delta_finite]
                     | None => []
                     end
                else [])).
  destruct (find_index_In fetch_names all_finite) as (index & Hindex & Hlookup).
  { unfold fetch_names. apply in_or_app. right. left. reflexivity. }
  exists fetch_names, index.
  split; [| split; [reflexivity | split; [exact Hindex | split; [exact Hlookup |]]]].
  - unfold PrepareFetchNamesAndFetches, mode_fetch_names, push_optimizer_output.
    replace (1 <? Parameters.pipeline_parallel_size (params_ r)) with false
      by (symmetry; apply Z.ltb_ge; lia).
    rewrite Hmixed, Hfinite. subst fetch_names.
    destruct (Parameters.use_adasum (params_ r)).
    + destruct (Hdelta eq_refl) as [delta_finite ->].
      unfold bind, modify, push_fetch_name, get, ret. cbn.
      rewrite <- app_assoc.
      destruct (Parameters.fetch_names (params_ r)); reflexivity.
    + unfold bind, modify, push_fetch_name, get, ret. cbn.
      destruct (Parameters.fetch_names (params_ r)); reflexivity.
  - split.
    + intros is_all_finite rest Hfetched.
      unfold update_loss_scaler, bind, get. rewrite Hscaler, Hfinite.
      cbn [ret]. rewrite Hindex, Hfetched. reflexivity.
    + intros Hfetched.
      unfold update_loss_scaler, bind, get. rewrite Hscaler, Hfinite.
      cbn [ret]. rewrite Hindex, Hfetched. reflexivity.
Qed.

(** ** Calls that commit on completion *)

Section CommitRules.
Context {S : Type}.

Lemma commits_kept {A : Type} (I : S -> Prop) (m : M S A) :
  (forall s, I s -> I (m s).2) -> commits I (fun _ => I) m.
Proof. intros Hm s Hs. specialize (Hm s Hs). destruct (m s).1; exact Hm. Qed.

Lemma commits_pure {A : Type} (I : S -> Prop) (m : M S A) :
  (forall s, (m s).2 = s) -> commits I (fun _ => I) m.
Proof. intros Hm. apply commits_kept. intros s Hs. rewrite Hm. exact Hs. Qed.

Lemma commits_fail {A : Type} (I : S -> Prop) (J : A -> S -> Prop)
  (o : Outcome A) :
  (forall a, o <> Ret a) -> commits I J (fail o).
Proof.
  intros Ho s Hs. cbn. destruct o as [a | | | | |]; [destruct (Ho a eq_refl) | ..];
    exact Hs.
Qed.

Lemma commits_bind {A B : Type} (I : S -> Prop) (J : B -> S -> Prop)
  (m : M S A) (k : A -> M S B) :
  commits I (fun _ => I) m -> (forall a, commits I J (k a)) ->
  commits I J (bind m k).
Proof.
  intros Hm Hk s Hs. specialize (Hm s Hs). unfold bind.
  destruct (m s) as [[a | | | | |] s1]; cbn [fst snd propagate] in *;
    [exact (Hk a s1 Hm) | exact Hm ..].
Qed.

Lemma commits_get_bind {B : Type} (I : S -> Prop) (J : B -> S -> Prop)
  (k : S -> M S B) :
  (forall r, commits I J (k r)) -> commits I J (bind get k).
Proof. intros Hk s Hs. exact (Hk s s Hs). Qed.

Lemma commits_completes {A : Type} (I : S -> Prop) (J : A -> S -> Prop)
  (m : M S A) :
  (forall s, I s -> exists a, (m s).1 = Ret a /\ J a (m s).2) ->
  commits I J m.
Proof. intros Hm s Hs. destruct (Hm s Hs) as (a & -> & HJ). exact HJ. Qed.

Lemma commits_accepts {St A : Type} (lg : S -> list Event) (I : S -> Prop)
  (delta : St -> Event -> option St) (Q : St -> Prop) (m : M S A) (st0 : St) :
  accepts lg I delta any_state m Q -> commits I (fun _ => I) m.
Proof.
  intros Hm. apply commits_kept. exact (accepts_keeps lg I delta Q m st0 Hm).
Qed.

End CommitRules.

Tactic Notation "commit_free" open_constr(lem) :=
  eapply commits_accepts with (delta := free_step) (st0 := tt);
  first [ eapply lem with (free := fun _ _ => True); stable_inv
        | eapply lem; stable_inv ].

Ltac commit_then tac := eapply commits_bind; [tac | intros ?].

Section Commit.
Variables (s w : Z) (p : Parameters.t).

Lemma commits_complete_update (worker_id step : Z) (fetch_names : list string) :
  commits (counters s w p) (fun _ => counters (wrap64 (s + 1)) (wrap64 (w + 1)) p)
    (complete_update worker_id step fetch_names).
Proof.
  unfold complete_update.
  commit_then ltac:(commit_free acc_worker_run).
  commit_then ltac:(commit_free acc_JoinAll).
  commit_then ltac:(apply commits_pure, ORT_THROW_IF_ERROR_pure).
  apply commits_get_bind. intros r1.
  destruct (_ !! _) as [ws |]; [| apply commits_fail; congruence].
  commit_then ltac:(commit_free acc_update_loss_scaler).
  commit_then ltac:(commit_free acc_report_training_loss).
  commit_then ltac:(commit_free acc_JoinAll).
  apply commits_completes. intros r (Hs & Hw & Hp).
  eexists. split; [reflexivity |]. unfold counters. cbn. rewrite Hs, Hw. auto.
Qed.

Lemma commits_complete_accumulation (worker_id step count : Z) :
  commits (counters s w p)
    (fun count' r => count' = wrap64 (count + 1) /\
                     counters (wrap64 (s + 1)) w p r)
    (complete_accumulation worker_id step count).
Proof.
  unfold complete_accumulation.
  commit_then ltac:(commit_free acc_accumulation_thread).
  apply commits_completes. intros r (Hs & Hw & Hp).
  eexists. split; [reflexivity |]. unfold counters. cbn. rewrite Hs. auto.
Qed.

Lemma commits_RunWithUpdate (feed_names fetch_names : list string)
  (feeds : list OrtValue) :
  commits (counters s w p) (fun _ => counters (wrap64 (s + 1)) (wrap64 (w + 1)) p)
    (RunWithUpdate feed_names fetch_names feeds).
Proof.
  unfold RunWithUpdate. apply commits_get_bind. intros r.
  commit_then ltac:(apply commits_pure, size_t_mod_pure).
  commit_then ltac:(commit_free acc_Join_any).
  do 4 (commit_then ltac:(commit_free acc_assign_buffer)).
  commit_then ltac:(commit_free acc_launch).
  apply commits_complete_update.
Qed.

Lemma commits_RunWithoutUpdate (feed_names fetch_names : list string)
  (feeds : list OrtValue) (count : Z) :
  commits (counters s w p)
    (fun count' r => count' = wrap64 (count + 1) /\
                     counters (wrap64 (s + 1)) w p r)
    (RunWithoutUpdate feed_names fetch_names feeds count).
Proof.
  unfold RunWithoutUpdate. apply commits_get_bind. intros r.
  commit_then ltac:(apply commits_pure, size_t_mod_pure).
  commit_then ltac:(commit_free acc_Join_any).
  do 4 (commit_then ltac:(commit_free acc_assign_buffer)).
  commit_then ltac:(commit_free acc_launch).
  apply commits_complete_accumulation.
Qed.

End Commit.

(** X13. A dispatch advances the
    counters when it completes and leaves them as they were when it does
    not: [RunWithUpdate] then adds one to [step_] and to
    [weight_update_step_count_]; [RunWithoutUpdate] adds one to [step_]
    and to the accumulation count and never changes
    [weight_update_step_count_] or the loss scaler.  Neither changes
    [params_] or [round_].  The status of the session run plays no part
    for [RunWithoutUpdate], where it is checked in the thread and the
    caller counts unconditionally: on a pool with one slot per stage and
    no dead thread that call completes, with the counters advanced,
    whatever the session answers. *)
Theorem counters_advance_only_on_completion
  (feed_names fetch_names : list string) (feeds : list OrtValue) (count : Z)
  (r : TrainingRunner) :
  let update := RunWithUpdate feed_names fetch_names feeds r in
  let accumulate := RunWithoutUpdate feed_names fetch_names feeds count r in
  match update.1 with
  | Ret _ =>
      counters (wrap64 (step_ r + 1)) (wrap64 (weight_update_step_count_ r + 1))
        (params_ r) update.2
  | _ => counters (step_ r) (weight_update_step_count_ r) (params_ r) update.2
  end /\
  match accumulate.1 with
  | Ret count' =>
      count' = wrap64 (count + 1) /\
      counters (wrap64 (step_ r + 1)) (weight_update_step_count_ r) (params_ r)
        accumulate.2
  | _ => counters (step_ r) (weight_update_step_count_ r) (params_ r) accumulate.2
  end /\
  loss_scaler_ accumulate.2 = loss_scaler_ r /\
  round_ accumulate.2 = round_ r /\
  round_ update.2 = round_ r /\
  (pool_matches_pipeline r -> accumulate.1 = Ret (wrap64 (count + 1))).
Proof.
  intros update accumulate.
  assert (Hstart : counters (step_ r) (weight_update_step_count_ r) (params_ r) r)
    by (repeat split).
  split; [| split; [| split; [| split; [| split]]]];
    [| | | | | intros Hpool; subst accumulate;
               rewrite (RunWithoutUpdate_dispatches _ _ _ _ _ Hpool);
               destruct (pool_slot_ready r Hpool) as (_ & _ & ws0 & Hready);
               rewrite (complete_accumulation_run _ _ _ _ _
                          (dispatched_slot _ _ _ _ _ Hready));
               reflexivity ].
  - exact (commits_RunWithUpdate _ _ _ feed_names fetch_names feeds r Hstart).
  - exact (commits_RunWithoutUpdate _ _ _ feed_names fetch_names feeds count
             r Hstart).
  - apply (accepts_keeps log (fun r' => loss_scaler_ r' = loss_scaler_ r)
             free_step any_state
             (RunWithoutUpdate feed_names fetch_names feeds count) tt);
      [| reflexivity].
    eapply acc_RunWithoutUpdate with (free := fun _ _ => True); stable_inv.
  - apply (accepts_keeps log (fun r' => round_ r' = round_ r)
             free_step any_state
             (RunWithoutUpdate feed_names fetch_names feeds count) tt);
      [| reflexivity].
    eapply acc_RunWithoutUpdate with (free := fun _ _ => True); stable_inv.
  - apply (accepts_keeps log (fun r' => round_ r' = round_ r)
             free_step any_state
             (RunWithUpdate feed_names fetch_names feeds) tt);
      [| reflexivity].
    eapply acc_RunWithUpdate with (free := fun _ _ => True); stable_inv.
Qed.

(** ** A session that fails *)

Section Throws.
Context {S : Type}.

Lemma throws_bind {A B : Type} (P : S -> Prop) (R : A -> S -> Prop)
  (msg : string) (m : M S A) (k : A -> M S B) :
  total P m R -> (forall a, throws (R a) msg (k a)) -> throws P msg (bind m k).
Proof.
  intros Hm Hk s Hs. destruct (Hm s Hs) as (a & Ha & HR).
  unfold bind. destruct (m s) as [o s1]. cbn [fst snd] in *. subst o.
  exact (Hk a s1 HR).
Qed.

Lemma throws_get_bind {B : Type} (P : S -> Prop) (msg : string)
  (k : S -> M S B) :
  (forall r, P r -> throws (fun s => s = r) msg (k r)) ->
  throws P msg (bind get k).
Proof. intros Hk s Hs. exact (Hk s Hs s eq_refl). Qed.

Lemma throws_weaken {A : Type} (P P' : S -> Prop) (msg : string) (m : M S A) :
  throws P msg m -> (forall s, P' s -> P s) -> throws P' msg m.
Proof. intros Hm HP s Hs. apply Hm, HP, Hs. Qed.

End Throws.

Section FailingSession.
Variable msg : string.
Hypothesis session_fails : session_always_fails msg.
Variable p : Parameters.t.

Local Abbreviation pool :=
  (fun r : TrainingRunner => pool_matches_pipeline r /\ params_ r = p).

Lemma pool_slot (r : TrainingRunner) (w : Z) :
  pool r -> 0 <= w < Parameters.pipeline_parallel_size p ->
  is_Some (WorkerPool.workers (pipeline_worker_pool_ r) !! Z.to_nat w) /\
  is_Some (WorkerPool.worker_states (pipeline_worker_pool_ r) !! Z.to_nat w).
Proof.
  intros [(_ & Hworkers & Hstates & _) <-] Hw.
  split; apply lookup_lt_is_Some; [rewrite Hworkers | rewrite Hstates]; lia.
Qed.

Lemma pool_Join (w : Z) :
  0 <= w < Parameters.pipeline_parallel_size p ->
  total pool (Join w) (fun _ => pool).
Proof.
  intros Hw r Hr.
  destruct (pool_slot r w Hr Hw) as [[b Hb] _].
  destruct Hr as [(Hpipe & Hworkers & Hstates & Hnone) Hp].
  rewrite (Join_run w r b Hb) by (rewrite Hnone; apply lookup_empty).
  exists tt. split; [reflexivity |].
  unfold pool_matches_pipeline. cbn. rewrite length_insert. auto.
Qed.

Lemma pool_join_from (n : nat) :
  forall w : Z,
    0 <= w -> w + Z.of_nat n <= Parameters.pipeline_parallel_size p ->
    total pool (join_from n w) (fun _ => pool).
Proof.
  induction n as [| n IH]; intros w Hlo Hhi; cbn [join_from].
  - intros r Hr. exists tt. cbn. auto.
  - eapply total_bind; [apply pool_Join; lia | intros ?; apply IH; lia].
Qed.

Lemma pool_JoinAll : total pool JoinAll (fun _ => pool).
Proof.
  unfold JoinAll. apply total_get_bind. intros r Hr.
  apply total_weaken with (P := pool) (Q := fun _ => pool);
    [| intros ? ->; auto | auto].
  destruct Hr as [(Hpipe & Hworkers & _) Hp]. rewrite Hworkers.
  apply pool_join_from; [lia |]. subst p. lia.
Qed.

Lemma pool_dispatched (w : Z) (es : list Event) (ws : WorkerState.t)
  (r : TrainingRunner) :
  pool r -> pool (dispatched w es ws r).
Proof.
  intros [(Hpipe & Hworkers & Hstates & Hnone) Hp].
  unfold pool_matches_pipeline. cbn. rewrite !length_insert. auto.
Qed.

Lemma throws_RunWithUpdate (feed_names fetch_names : list string)
  (feeds : list OrtValue) :
  throws pool msg (RunWithUpdate feed_names fetch_names feeds).
Proof.
  intros r Hr. destruct Hr as [Hpool Hp].
  rewrite (RunWithUpdate_dispatches _ _ _ _ Hpool).
  destruct (pool_slot_ready r Hpool) as (_ & _ & ws0 & Hready).
  pose proof (pool_dispatched (worker_slot r)
                (update_dispatch_events (worker_slot r) (step_ r))
                (WorkerState.Build_t feed_names feeds fetch_names []) r
                (conj Hpool Hp)) as Hr1.
  set (r1 := dispatched _ _ _ r) in *.
  unfold complete_update.
  rewrite (bind_Ret _ _ _ _ _
             (worker_run_run _ _ _ r1 _ (dispatched_slot _ _ _ _ _ Hready))).
  cbv beta. rewrite session_fails.
  match goal with
  | |- (bind JoinAll _ ?s).1 = _ =>
      destruct (pool_JoinAll s) as (a & Hjoin & _)
  end.
  { destruct Hr1 as [(Hpipe & Hworkers & Hstates & Hnone) Hp1].
    unfold pool_matches_pipeline. cbn. rewrite !length_insert. auto. }
  unfold bind at 1. destruct (JoinAll _) as [o r2]. cbn in Hjoin. subst o.
  reflexivity.
Qed.

(** A thread that died on the slot [w]: joining the slot ends the run. *)
Lemma Join_of_dead_thread (w : Z) (r : TrainingRunner) :
  is_Some (WorkerPool.workers (pipeline_worker_pool_ r) !! Z.to_nat w) ->
  WorkerPool.uncaught (pipeline_worker_pool_ r) !! Z.to_nat w = Some msg ->
  (Join w r).1 = Terminated msg.
Proof.
  intros [b Hb] Hdead. unfold Join, bind, emit, modify, get. cbn.
  rewrite Hb, Hdead. reflexivity.
Qed.

Lemma join_from_dead_thread (dead : nat) (n : nat) :
  forall (first : nat) (r : TrainingRunner),
    (first <= dead < first + n)%nat ->
    (first + n <= List.length (WorkerPool.workers (pipeline_worker_pool_ r)))%nat ->
    WorkerPool.uncaught (pipeline_worker_pool_ r) = {[ dead := msg ]} ->
    (join_from n (Z.of_nat first) r).1 = Terminated msg.
Proof.
  induction n as [| n IH]; intros first r Hin Hlen Hdead; [lia |].
  cbn [join_from].
  destruct (lookup_lt_is_Some_2
              (WorkerPool.workers (pipeline_worker_pool_ r)) first ltac:(lia))
    as [b Hb].
  destruct (decide (first = dead)) as [-> | Hne].
  - unfold bind.
    pose proof (Join_of_dead_thread (Z.of_nat dead) r) as Hjoin.
    rewrite Nat2Z.id in Hjoin.
    specialize (Hjoin (ex_intro _ b Hb)
                  ltac:(rewrite Hdead; apply lookup_singleton_eq)).
    destruct (Join _ r) as [o r']. cbn in Hjoin. subst o. reflexivity.
  - rewrite (bind_Ret _ _ _ _ _ (Join_run (Z.of_nat first) r b
               ltac:(rewrite Nat2Z.id; exact Hb)
               ltac:(rewrite Nat2Z.id, Hdead;
                     apply lookup_singleton_ne; congruence))).
    replace (Z.of_nat first + 1) with (Z.of_nat (S first)) by lia.
    apply IH; [lia | cbn; rewrite length_insert; lia | exact Hdead].
Qed.

Lemma JoinAll_of_dead_thread (dead : nat) (r : TrainingRunner) :
  (dead < List.length (WorkerPool.workers (pipeline_worker_pool_ r)))%nat ->
  WorkerPool.uncaught (pipeline_worker_pool_ r) = {[ dead := msg ]} ->
  (JoinAll r).1 = Terminated msg.
Proof.
  intros Hlen Hdead. unfold JoinAll. unfold bind at 1, get.
  apply (join_from_dead_thread dead _ 0%nat r); [lia | lia | exact Hdead].
Qed.

(** The accumulation step of a session that fails: the caller goes on,
    the thread has died. *)
Lemma RunWithoutUpdate_leaves_dead_thread (feed_names fetch_names : list string)
  (feeds : list OrtValue) (count : Z) (r : TrainingRunner) :
  pool_matches_pipeline r ->
  let res := RunWithoutUpdate feed_names fetch_names feeds count r in
  res.1 = Ret (wrap64 (count + 1)) /\
  step_ res.2 = wrap64 (step_ r + 1) /\
  WorkerPool.uncaught (pipeline_worker_pool_ res.2)
  = {[ Z.to_nat (worker_slot r) := msg ]} /\
  List.length (WorkerPool.workers (pipeline_worker_pool_ res.2))
  = List.length (WorkerPool.workers (pipeline_worker_pool_ r)).
Proof.
  intros Hpool res. subst res.
  rewrite (RunWithoutUpdate_dispatches _ _ _ _ _ Hpool).
  destruct (pool_slot_ready r Hpool) as (_ & _ & ws0 & Hready).
  rewrite (complete_accumulation_run _ _ _ _ _
             (dispatched_slot _ _ _ _ _ Hready)).
  cbv zeta. rewrite session_fails.
  destruct Hpool as (_ & _ & _ & Hnone).
  split; [reflexivity |]. split; [reflexivity |]. cbn.
  rewrite Hnone, length_insert. split; [apply insert_empty | reflexivity].
Qed.

End FailingSession.

(** X14. On a runner whose worker pool has its
    [pipeline_parallel_size] slots and no dead thread, a session that
    fails its run makes [RunWithUpdate] throw the message of the failed
    status on the caller: the failure is not returned as a status.
    [RunWithoutUpdate] is not interrupted: it completes, with [step_] and
    the accumulation count advanced, and the exception is thrown in the
    thread of the slot, where nothing catches it: the process is ended by
    [std::terminate].  The model records the exception for the slot, and
    gives the end of the process where the caller joins that slot, alone
    or in [JoinAll]. *)
Theorem failing_session_run_is_fatal (msg : string) (r : TrainingRunner)
  (feed_names fetch_names : list string) (feeds : list OrtValue) (count : Z) :
  session_always_fails msg ->
  pool_matches_pipeline r ->
  (RunWithUpdate feed_names fetch_names feeds r).1 = Thrown msg /\
  let accumulate := RunWithoutUpdate feed_names fetch_names feeds count r in
  accumulate.1 = Ret (wrap64 (count + 1)) /\
  step_ accumulate.2 = wrap64 (step_ r + 1) /\
  WorkerPool.uncaught (pipeline_worker_pool_ accumulate.2)
  = {[ Z.to_nat (worker_slot r) := msg ]} /\
  (Join (worker_slot r) accumulate.2).1 = Terminated msg /\
  (JoinAll accumulate.2).1 = Terminated msg.
Proof.
  intros Hfails Hpool. split.
  - apply (throws_RunWithUpdate msg Hfails (params_ r)). auto.
  - intros accumulate.
    destruct (RunWithoutUpdate_leaves_dead_thread msg Hfails feed_names
                fetch_names feeds count r Hpool) as (Hret & Hstep & Hdead & Hlen).
    fold accumulate in Hret, Hstep, Hdead, Hlen.
    destruct (pool_slot_ready r Hpool) as (_ & _ & ws0 & Hslot & _).
    apply lookup_lt_is_Some_1 in Hslot. rewrite <- Hlen in Hslot.
    repeat split; try assumption.
    + apply Join_of_dead_thread.
      * apply lookup_lt_is_Some_2, Hslot.
      * rewrite Hdead. apply lookup_singleton_eq.
    + apply (JoinAll_of_dead_thread msg _ _ Hslot Hdead).
Qed.

(** ** Threads left outstanding *)

Lemma hoare_any {S A : Type} (P : S -> Prop) (m : M S A) :
  hoare P m (fun _ _ => True).
Proof. intros s a s' _ _. exact Logic.I. Qed.

Lemma hoare_Join_joined (w : Z) (size : nat) :
  0 <= w ->
  hoare (fun r => joined_below (Z.to_nat w) r /\
                  List.length (WorkerPool.workers (pipeline_worker_pool_ r)) = size)
    (Join w)
    (fun _ r => joined_below (S (Z.to_nat w)) r /\
                List.length (WorkerPool.workers (pipeline_worker_pool_ r)) = size).
Proof.
  intros Hw r a r' [Hbelow Hsize] Hrun.
  unfold Join, bind, emit, modify, get in Hrun. cbn in Hrun.
  destruct (WorkerPool.workers (pipeline_worker_pool_ r) !! Z.to_nat w)
    as [b |] eqn:Hb; [| discriminate].
  destruct (WorkerPool.uncaught (pipeline_worker_pool_ r) !! Z.to_nat w);
    [discriminate |].
  injection Hrun as _ <-. unfold joined_below. cbn.
  rewrite length_insert. split; [| exact Hsize].
  rewrite (take_S_r _ _ false)
    by (apply list_lookup_insert_eq, (lookup_lt_Some _ _ _ Hb)).
  rewrite take_insert_ge by lia.
  apply Forall_app. split; [exact Hbelow | repeat constructor].
Qed.

Lemma hoare_join_from_joined (n : nat) :
  forall w : Z,
    0 <= w ->
    hoare (fun r => joined_below (Z.to_nat w) r /\
                    List.length (WorkerPool.workers (pipeline_worker_pool_ r))
                    = (Z.to_nat w + n)%nat)
      (join_from n w) (fun _ => no_thread_outstanding).
Proof.
  induction n as [| n IH]; intros w Hw; cbn [join_from].
  - intros r a r' [Hbelow Hsize] Hrun. injection Hrun as _ <-.
    unfold no_thread_outstanding, joined_below in *.
    rewrite take_ge in Hbelow by lia. exact Hbelow.
  - eapply hoare_bind; [apply (hoare_Join_joined w), Hw | intros ?; cbv beta].
    eapply hoare_weaken; [apply (IH (w + 1)); lia | | auto].
    intros r [Hbelow Hsize].
    replace (Z.to_nat (w + 1)) with (S (Z.to_nat w)) by lia.
    split; [exact Hbelow | lia].
Qed.

Lemma hoare_JoinAll_joined (P : TrainingRunner -> Prop) :
  hoare P JoinAll (fun _ => no_thread_outstanding).
Proof.
  unfold JoinAll. apply hoare_get_bind. intros r _.
  eapply hoare_weaken; [apply (hoare_join_from_joined _ 0); lia | | auto].
  intros ? ->. split; [constructor | reflexivity].
Qed.

Lemma hoare_RunWithUpdate_joined (P : TrainingRunner -> Prop)
  (feed_names fetch_names : list string) (feeds : list OrtValue) :
  hoare P (RunWithUpdate feed_names fetch_names feeds)
    (fun _ => no_thread_outstanding).
Proof.
  unfold RunWithUpdate.
  eapply hoare_bind; [apply hoare_any | intros r; cbv beta].
  do 7 (eapply hoare_bind; [apply hoare_any | intros ?; cbv beta]).
  unfold complete_update.
  do 3 (eapply hoare_bind; [apply hoare_any | intros ?; cbv beta]).
  eapply hoare_bind; [apply hoare_any | intros r1; cbv beta].
  destruct (_ !! _) as [ws |]; [| apply hoare_fail; congruence].
  do 2 (eapply hoare_bind; [apply hoare_any | intros ?; cbv beta]).
  eapply hoare_bind; [apply hoare_JoinAll_joined | intros ?; cbv beta].
  eapply hoare_bind with (R := fun _ => no_thread_outstanding); [hoare_same |].
  intros _.
  eapply hoare_bind with (R := fun _ => no_thread_outstanding); [hoare_same |].
  intros _. apply hoare_ret.
Qed.

Lemma hoare_visit_shard_joined (enable_checkpoint_saving : bool)
  (lr_scheduler : option (Z -> float32)) :
  hoare (fun ls => no_thread_outstanding (runner ls))
    (visit_shard enable_checkpoint_saving lr_scheduler)
    (fun _ ls => no_thread_outstanding (runner ls)).
Proof.
  unfold visit_shard.
  apply hoare_get_bind. intros ls Hls.
  apply hoare_weaken with (P := fun ls => no_thread_outstanding (runner ls))
                          (Q := fun _ ls => no_thread_outstanding (runner ls));
    [| intros ? ->; exact Hls | auto].
  eapply hoare_bind with (R := fun _ ls => no_thread_outstanding (runner ls));
    [hoare_same | intros _].
  destruct (CurrentDataSet _) as [data |].
  - eapply hoare_bind; [apply hoare_any | intros ?; cbv beta].
    eapply hoare_bind with (R := fun _ ls => no_thread_outstanding (runner ls)).
    { apply (hoare_on_runner (fun _ => True) (fun _ => no_thread_outstanding)),
        hoare_JoinAll_joined. }
    intros _. apply hoare_get_bind. intros ls1 Hls1.
    apply hoare_weaken with (P := fun ls => no_thread_outstanding (runner ls))
                            (Q := fun _ ls => no_thread_outstanding (runner ls));
      [| intros ? ->; exact Hls1 | auto].
    destruct (_ <? _); [hoare_same | apply hoare_ret].
  - eapply hoare_bind with (R := fun _ ls => no_thread_outstanding (runner ls));
      [hoare_same | intros _; hoare_same].
Qed.

Lemma hoare_shard_loop_joined (n : nat) (enable_checkpoint_saving : bool)
  (lr_scheduler : option (Z -> float32)) :
  hoare (fun ls => no_thread_outstanding (runner ls))
    (shard_loop n enable_checkpoint_saving lr_scheduler)
    (fun _ ls => no_thread_outstanding (runner ls)).
Proof.
  induction n as [| n IH]; cbn [shard_loop].
  - apply hoare_ret.
  - eapply hoare_bind; [apply hoare_visit_shard_joined | intros ?; apply IH].
Qed.

Lemma hoare_epoch_loop_joined (fuel : nat) (num_shards_to_visit : Z)
  (enable_checkpoint_saving : bool) (lr_scheduler : option (Z -> float32)) :
  hoare (fun ls => no_thread_outstanding (runner ls))
    (epoch_loop fuel num_shards_to_visit enable_checkpoint_saving lr_scheduler)
    (fun _ ls => no_thread_outstanding (runner ls)).
Proof.
  induction fuel as [| fuel IH]; cbn [epoch_loop];
    apply hoare_get_bind; intros ls Hls;
    (apply hoare_weaken with (P := fun ls => no_thread_outstanding (runner ls))
                             (Q := fun _ ls => no_thread_outstanding (runner ls));
     [| intros ? ->; exact Hls | auto]);
    (destruct (_ <? _); [| apply hoare_ret]).
  - apply hoare_fail. congruence.
  - eapply hoare_bind; [apply hoare_shard_loop_joined | intros ?; cbv beta].
    eapply hoare_bind with (R := fun _ ls => no_thread_outstanding (runner ls));
      [hoare_same | intros ?; apply IH].
Qed.

Lemma hoare_TrainingLoop_joined (fuel : nat) :
  hoare (fun ls => no_thread_outstanding (runner ls)) (TrainingLoop fuel)
    (fun _ ls => no_thread_outstanding (runner ls)).
Proof.
  unfold TrainingLoop.
  apply hoare_get_bind. intros ls Hls.
  apply hoare_weaken with (P := fun ls => no_thread_outstanding (runner ls))
                          (Q := fun _ ls => no_thread_outstanding (runner ls));
    [| intros ? ->; exact Hls | auto].
  eapply hoare_bind with (R := fun _ ls => no_thread_outstanding (runner ls)).
  { destruct (test_data_loader ls) as [test_loader |]; [| apply hoare_ret].
    eapply hoare_bind with (R := fun _ ls => no_thread_outstanding (runner ls));
      [hoare_same |].
    intros _. apply hoare_pure, ORT_RETURN_IF_ERROR_pure. }
  intros _.
  eapply hoare_bind with (R := fun _ ls => no_thread_outstanding (runner ls));
    [hoare_same | intros _].
  eapply hoare_bind with (R := fun _ ls => no_thread_outstanding (runner ls));
    [apply hoare_pure, ORT_RETURN_IF_ERROR_pure | intros _].
  eapply hoare_bind with (R := fun _ ls => no_thread_outstanding (runner ls));
    [hoare_same | intros _].
  eapply hoare_bind with (R := fun _ ls => no_thread_outstanding (runner ls));
    [hoare_same | intros _].
  eapply hoare_bind; [apply hoare_epoch_loop_joined | intros ?; cbv beta].
  apply hoare_get_bind. intros ls1 Hls1.
  apply hoare_weaken with (P := fun ls => no_thread_outstanding (runner ls))
                          (Q := fun _ ls => no_thread_outstanding (runner ls));
    [| intros ? ->; exact Hls1 | auto].
  destruct (str_empty _); [apply hoare_ret |].
  apply (hoare_pure (fun ls => no_thread_outstanding (runner ls))),
    ORT_RETURN_IF_ERROR_pure.
Qed.

Lemma hoare_launch_outstanding (P : TrainingRunner -> Prop) (w : Z) (tag : RunTag) :
  hoare P (launch w tag)
    (fun _ r =>
       WorkerPool.workers (pipeline_worker_pool_ r) !! Z.to_nat w = Some true).
Proof.
  intros r a r' _ Hrun.
  unfold launch, bind, emit, modify, get in Hrun. cbn in Hrun.
  destruct (WorkerPool.workers (pipeline_worker_pool_ r) !! Z.to_nat w)
    as [b |] eqn:Hb; [| discriminate].
  injection Hrun as _ <-. cbn.
  apply list_lookup_insert_eq, (lookup_lt_Some _ _ _ Hb).
Qed.

Lemma hoare_RunWithoutUpdate_outstanding (r : TrainingRunner)
  (feed_names fetch_names : list string) (feeds : list OrtValue) (count : Z) :
  hoare (fun r0 => r0 = r)
    (RunWithoutUpdate feed_names fetch_names feeds count)
    (fun _ r' =>
       WorkerPool.workers (pipeline_worker_pool_ r') !! Z.to_nat (worker_slot r)
       = Some true).
Proof.
  unfold RunWithoutUpdate.
  apply hoare_get_bind. intros r0 ->.
  eapply hoare_bind; [apply hoare_size_t_mod | intros worker_id; cbv beta].
  apply hoare_weaken
    with (P := fun r0 : TrainingRunner => r0 = r /\ worker_id = worker_slot r)
         (Q := fun _ r' =>
                 WorkerPool.workers (pipeline_worker_pool_ r')
                 !! Z.to_nat (worker_slot r) = Some true);
    [| intros ? (? & _ & ?); split; [congruence | assumption] | auto].
  apply hoare_assume. intros ->.
  do 5 (eapply hoare_bind; [apply hoare_any | intros ?; cbv beta]).
  eapply hoare_bind; [apply hoare_launch_outstanding | intros ?; cbv beta].
  unfold complete_accumulation.
  eapply hoare_bind; [keep_free acc_accumulation_thread | intros ?; cbv beta].
  eapply hoare_bind
    with (R := fun _ r' =>
                 WorkerPool.workers (pipeline_worker_pool_ r')
                 !! Z.to_nat (worker_slot r) = Some true);
    [hoare_same | intros _].
  apply hoare_ret.
Qed.

(** X15. When [RunWithUpdate] completes, no slot
    of the worker pool holds an outstanding thread; when
    [RunWithoutUpdate] completes, the thread that it launched on the slot
    [step_ % pipeline_parallel_size] is still outstanding; and when
    [TrainingLoop], entered with no thread outstanding, returns OK, no
    thread is outstanding. *)
Theorem threads_left_outstanding :
  (forall feed_names fetch_names feeds r fetches r',
     RunWithUpdate feed_names fetch_names feeds r = (Ret fetches, r') ->
     no_thread_outstanding r') /\
  (forall feed_names fetch_names feeds count r count' r',
     RunWithoutUpdate feed_names fetch_names feeds count r = (Ret count', r') ->
     WorkerPool.workers (pipeline_worker_pool_ r') !! Z.to_nat (worker_slot r)
     = Some true) /\
  (forall fuel ls ls',
     no_thread_outstanding (runner ls) ->
     TrainingLoop fuel ls = (Ret tt, ls') ->
     no_thread_outstanding (runner ls')).
Proof.
  split; [| split].
  - intros feed_names fetch_names feeds r fetches r' Hrun.
    exact (hoare_RunWithUpdate_joined (fun _ => True) feed_names fetch_names
             feeds r fetches r' Logic.I Hrun).
  - intros feed_names fetch_names feeds count r count' r' Hrun.
    exact (hoare_RunWithoutUpdate_outstanding r feed_names fetch_names feeds
             count r count' r' eq_refl Hrun).
  - intros fuel ls ls' Hls Hrun.
    exact (hoare_TrainingLoop_joined fuel ls tt ls' Hls Hrun).
Qed.

(** ** Evaluation *)

(** X16. However it ends, [Evaluate]
    leaves the counters, the parameters, the loss scaler, the optimizer
    outputs, the pipeline context and the buffers of the worker slots as
    they were; and with [skip_evaluation] set it returns OK at once,
    changing nothing and running nothing. *)
Theorem Evaluate_keeps_the_training_state (data_loader : IDataLoader)
  (r : TrainingRunner) :
  let r' := (Evaluate data_loader r).2 in
  (step_ r' = step_ r /\
   round_ r' = round_ r /\
   weight_update_step_count_ r' = weight_update_step_count_ r /\
   training_data_set_index_ r' = training_data_set_index_ r /\
   params_ r' = params_ r /\
   loss_scaler_ r' = loss_scaler_ r /\
   opt_graph_outputs_ r' = opt_graph_outputs_ r /\
   pipeline_context_ r' = pipeline_context_ r /\
   WorkerPool.worker_states (pipeline_worker_pool_ r')
   = WorkerPool.worker_states (pipeline_worker_pool_ r)) /\
  (Parameters.skip_evaluation (params_ r) = true ->
   Evaluate data_loader r = (Ret data_loader, r)).
Proof.
  intros r'. split.
  - subst r'.
    apply (accepts_keeps log
             (fun r' =>
                step_ r' = step_ r /\
                round_ r' = round_ r /\
                weight_update_step_count_ r' = weight_update_step_count_ r /\
                training_data_set_index_ r' = training_data_set_index_ r /\
                params_ r' = params_ r /\
                loss_scaler_ r' = loss_scaler_ r /\
                opt_graph_outputs_ r' = opt_graph_outputs_ r /\
                pipeline_context_ r' = pipeline_context_ r /\
                WorkerPool.worker_states (pipeline_worker_pool_ r')
                = WorkerPool.worker_states (pipeline_worker_pool_ r))
             free_step any_state (Evaluate data_loader) tt);
      [| repeat split].
    eapply acc_Evaluate with (free := fun _ _ => True); stable_inv.
  - intros Hskip. unfold Evaluate, bind, get. rewrite Hskip. reflexivity.
Qed.

(** X17. Unlike the training loop,
    [Evaluate] does not check the data set it gets from the loader: when
    the current test shard failed to load (a null pointer), evaluation is
    not skipped, [batch_size] is not zero and at least one batch is to be
    evaluated, the call dereferences the null pointer. *)
Theorem Evaluate_dereferences_a_missing_shard (data_loader : IDataLoader)
  (r : TrainingRunner) :
  Parameters.skip_evaluation (params_ r) = false ->
  CurrentDataSet data_loader = None ->
  Parameters.batch_size (params_ r) <> 0 ->
  0 < eval_num_batches (Parameters.eval_batch_size (params_ r))
        (Parameters.batch_size (params_ r)) ->
  (Evaluate data_loader r).1 = Undefined.
Proof.
  intros Hskip Hnull Hsize Hbatches.
  unfold Evaluate. unfold bind at 1, get. rewrite Hskip, Hnull.
  destruct (Parameters.shuffle_data (params_ r) && (current_batch r =? 0));
    [reflexivity |].
  unfold bind at 1, ret. unfold bind at 1, size_t_mod.
  apply Z.eqb_neq in Hsize. rewrite Hsize.
  destruct (Z.to_nat (eval_num_batches _ _)) as [| n] eqn:Hn; [lia |].
  cbn [evaluate_batches]. reflexivity.
Qed.

(** ** Training loops that do nothing, and that never end *)

(** What [TrainingLoop] does before its [while] loop. *)
Lemma TrainingLoop_prologue (fuel : nat) (ls : LoopState) :
  let init := InitializeDataSetIndex (training_data_loader ls)
                (training_data_set_index_ (runner ls)) in
  (forall test_loader,
     test_data_loader ls = Some test_loader ->
     (InitializeDataSetIndex test_loader 0).1 = OK) ->
  init.1 = OK ->
  exists ls0,
    runner ls0 = runner ls /\
    training_data_loader ls0 = init.2 /\
    gradient_accumulation_step_count ls0 = 0 /\
    TrainingLoop fuel ls
    = (epoch_loop fuel (NumShards init.2)
         ((Parameters.world_rank (params_ (runner ls)) =? 0)
          && checkpoint_registry_ (runner ls)
          && (0 <? Parameters.checkpoint_period (params_ (runner ls))))
         (LearningRateScheduler_Create (params_ (runner ls))) ;;;
       let* ls1 := get in
       if str_empty (Parameters.perf_output_dir (params_ (runner ls)))
       then ret tt
       else
         ORT_RETURN_IF_ERROR
           (perf_metrics_files
              (wrap64 (step_ (runner ls1) - step_ (runner ls)))
              (gradient_accumulation_step_count ls1)
              (wrap64 (weight_update_step_count_ (runner ls1)
                       - weight_update_step_count_ (runner ls))))) ls0.
Proof.
  intros init Htest Hinit.
  set (ls_a := match test_data_loader ls with
               | Some test_loader =>
                   set_test_data_loader
                     (Some (InitializeDataSetIndex test_loader 0).2) ls
               | None => ls
               end).
  exists (set_gradient_accumulation_step_count 0
            (set_epoch 0 (set_training_data_loader init.2 ls_a))).
  split; [unfold ls_a; destruct (test_data_loader ls); reflexivity |].
  split; [reflexivity |]. split; [reflexivity |].
  unfold TrainingLoop. unfold bind at 1, get.
  erewrite (bind_Ret _ _ ls ls_a tt).
  2: { unfold ls_a. destruct (test_data_loader ls) as [test_loader |] eqn:Htl;
         [| reflexivity].
       unfold bind, modify. rewrite (Htest test_loader eq_refl). reflexivity. }
  fold init.
  unfold bind at 1, modify. unfold bind at 1. rewrite Hinit.
  cbn [ORT_RETURN_IF_ERROR ret].
  unfold bind at 1. unfold bind at 1. reflexivity.
Qed.





(** ** Every step is counted once *)

Lemma hoare_conj {S A : Type} (P1 P2 : S -> Prop) (Q1 Q2 : A -> S -> Prop)
  (m : M S A) :
  hoare P1 m Q1 -> hoare P2 m Q2 ->
  hoare (fun s => P1 s /\ P2 s) m (fun a s => Q1 a s /\ Q2 a s).
Proof. intros H1 H2 s a s' [Hs1 Hs2] Hrun. split; eauto. Qed.

Lemma hoare_commits {S A : Type} (I : S -> Prop) (J : A -> S -> Prop)
  (m : M S A) :
  commits I J m -> hoare I m J.
Proof.
  intros Hm s a s' Hs Hrun. specialize (Hm s Hs). rewrite Hrun in Hm. exact Hm.
Qed.

Lemma wrap64_is_size_t (z : Z) : is_size_t (wrap64 z).
Proof.
  unfold is_size_t, SIZE_MAX, wrap64.
  pose proof (Z.mod_pos_bound z (2 ^ 64) ltac:(lia)). lia.
Qed.

Lemma wrap64_congr (a b c : Z) :
  wrap64 a = wrap64 b -> wrap64 (a + c) = wrap64 (b + c).
Proof.
  unfold wrap64. intros Heq.
  rewrite (Zplus_mod a c), (Zplus_mod b c), Heq. reflexivity.
Qed.

Lemma wrap64_idem (z : Z) : wrap64 (wrap64 z) = wrap64 z.
Proof. unfold wrap64. apply Zmod_mod. Qed.

(** The tally after a step, whichever counter the step advanced. *)
Lemma tally_after_step (update : bool) (s w g : Z) :
  wrap64 ((if update then g else wrap64 (g + 1))
          + (if update then wrap64 (w + 1) else w) - wrap64 (s + 1))
  = wrap64 (g + w - s).
Proof.
  destruct update.
  - transitivity (wrap64 (wrap64 (w + 1) + (g - wrap64 (s + 1)))); [f_equal; lia |].
    rewrite wrap64_add_l.
    transitivity (wrap64 (g + w + 1 - wrap64 (s + 1))); [f_equal; lia |].
    unfold wrap64. rewrite Zminus_mod_idemp_r. f_equal. lia.
  - transitivity (wrap64 (wrap64 (g + 1) + (w - wrap64 (s + 1)))); [f_equal; lia |].
    rewrite wrap64_add_l.
    transitivity (wrap64 (g + w + 1 - wrap64 (s + 1))); [f_equal; lia |].
    unfold wrap64. rewrite Zminus_mod_idemp_r. f_equal. lia.
Qed.

Section Tally.
Variables (s w g : Z) (p : Parameters.t).

Local Abbreviation counted :=
  (fun (s' w' g' : Z) (ls : LoopState) =>
     counters s' w' p (runner ls) /\ gradient_accumulation_step_count ls = g').

Lemma hoare_dispatch_step_counted (update : bool)
  (lr_scheduler : option (Z -> float32)) (training_data : DataSet) (batch : Z) :
  hoare (counted s w g)
    (dispatch_step update lr_scheduler training_data batch)
    (fun _ => counted (wrap64 (s + 1))
                (if update then wrap64 (w + 1) else w)
                (if update then g else wrap64 (g + 1))).
Proof.
  unfold dispatch_step.
  apply hoare_get_bind. intros ls Hls.
  apply hoare_weaken
    with (P := counted s w g)
         (Q := fun _ => counted (wrap64 (s + 1))
                          (if update then wrap64 (w + 1) else w)
                          (if update then g else wrap64 (g + 1)));
    [| intros ? ->; exact Hls | auto].
  destruct Hls as [_ Hg].
  destruct update.
  - eapply hoare_bind; [apply hoare_pure, checked_pure | intros feed_buf; cbv beta].
    eapply hoare_bind; [apply hoare_pure, checked_pure | intros fetch_names; cbv beta].
    eapply hoare_bind; [| intros ?; apply hoare_ret].
    apply (hoare_conj
             (fun ls0 => counters s w p (runner ls0))
             (fun ls0 => gradient_accumulation_step_count ls0 = g)
             (fun _ ls0 => counters (wrap64 (s + 1)) (wrap64 (w + 1)) p (runner ls0))
             (fun _ ls0 => gradient_accumulation_step_count ls0 = g)).
    + apply (hoare_on_runner (counters s w p)
               (fun _ => counters (wrap64 (s + 1)) (wrap64 (w + 1)) p)),
        hoare_RunWithUpdate.
    + apply (frame_on_runner
               (fun ls0 => gradient_accumulation_step_count ls0 = g)).
      intros ? ? H0. exact H0.
  - eapply hoare_bind; [apply hoare_pure, checked_pure | intros feed_buf; cbv beta].
    eapply hoare_bind; [apply hoare_pure, checked_pure | intros fetch_names; cbv beta].
    rewrite Hg.
    eapply hoare_bind
      with (R := fun count' ls0 =>
                   count' = wrap64 (g + 1) /\
                   counters (wrap64 (s + 1)) w p (runner ls0)).
    + eapply hoare_weaken;
        [apply (hoare_on_runner (counters s w p)
                  (fun count' r => count' = wrap64 (g + 1) /\
                                   counters (wrap64 (s + 1)) w p r)),
           hoare_commits, commits_RunWithoutUpdate
        | intros ? [H0 _]; exact H0
        | auto].
    + intros count'. intros ls0 a ls1 [-> Hc] Hrun.
      injection Hrun as _ <-. split; [exact Hc | reflexivity].
Qed.

Lemma hoare_train_step_counted (enable_checkpoint_saving : bool)
  (lr_scheduler : option (Z -> float32)) (training_data : DataSet) (batch : Z) :
  hoare (counted s w g)
    (train_step enable_checkpoint_saving lr_scheduler training_data batch)
    (fun _ ls =>
       exists update : bool,
         counted (wrap64 (s + 1))
           (if update then wrap64 (w + 1) else w)
           (if update then g else wrap64 (g + 1)) ls).
Proof.
  unfold train_step.
  apply hoare_get_bind. intros ls Hls.
  apply hoare_weaken
    with (P := counted s w g)
         (Q := fun _ ls =>
                 exists update : bool,
                   counted (wrap64 (s + 1))
                     (if update then wrap64 (w + 1) else w)
                     (if update then g else wrap64 (g + 1)) ls);
    [| intros ? ->; exact Hls | auto].
  eapply hoare_bind; [apply hoare_pure, size_t_mod_pure | intros m; cbv beta].
  eapply hoare_bind;
    [apply hoare_dispatch_step_counted | intros ?; cbv beta].
  eapply hoare_bind.
  { apply (hoare_conj
             (fun ls0 => counters (wrap64 (s + 1))
                           (if m =? 0 then wrap64 (w + 1) else w) p (runner ls0))
             (fun ls0 => gradient_accumulation_step_count ls0
                         = if m =? 0 then g else wrap64 (g + 1))
             (fun _ ls0 => counters (wrap64 (s + 1))
                             (if m =? 0 then wrap64 (w + 1) else w) p (runner ls0))
             (fun _ ls0 => gradient_accumulation_step_count ls0
                           = if m =? 0 then g else wrap64 (g + 1))).
    - keep_free acc_maybe_evaluate.
    - apply (frame_maybe_evaluate
               (fun ls0 => gradient_accumulation_step_count ls0
                           = if m =? 0 then g else wrap64 (g + 1)));
        intros ? ? H0; exact H0. }
  intros ?. cbv beta.
  eapply hoare_weaken.
  { apply (hoare_conj
             (fun ls0 => counters (wrap64 (s + 1))
                           (if m =? 0 then wrap64 (w + 1) else w) p (runner ls0))
             (fun ls0 => gradient_accumulation_step_count ls0
                         = if m =? 0 then g else wrap64 (g + 1))
             (fun _ ls0 => counters (wrap64 (s + 1))
                             (if m =? 0 then wrap64 (w + 1) else w) p (runner ls0))
             (fun _ ls0 => gradient_accumulation_step_count ls0
                           = if m =? 0 then g else wrap64 (g + 1))).
    - keep_free acc_maybe_save_checkpoint.
    - apply (frame_maybe_save_checkpoint
               (fun ls0 => gradient_accumulation_step_count ls0
                           = if m =? 0 then g else wrap64 (g + 1)));
        intros ? ? H0; exact H0. }
  - auto.
  - intros ? ls0 Hls0. exists (m =? 0). exact Hls0.
Qed.

End Tally.

Section TallyKept.
Variable d : Z.

Lemma hoare_train_step_tally (enable_checkpoint_saving : bool)
  (lr_scheduler : option (Z -> float32)) (training_data : DataSet) (batch : Z) :
  hoare (tally d)
    (train_step enable_checkpoint_saving lr_scheduler training_data batch)
    (fun _ => tally d).
Proof.
  intros ls a ls' [Hd Hsize] Hrun.
  destruct (hoare_train_step_counted
              (step_ (runner ls)) (weight_update_step_count_ (runner ls))
              (gradient_accumulation_step_count ls) (params_ (runner ls))
              enable_checkpoint_saving lr_scheduler training_data batch
              ls a ls') as (update & (Hs & Hw & _) & Hg);
    [repeat split | exact Hrun |].
  unfold tally. rewrite Hs, Hw, Hg, tally_after_step.
  split; [exact Hd |].
  destruct update; [exact Hsize | apply wrap64_is_size_t].
Qed.

Lemma hoare_batch_loop_tally (n : nat) :
  forall (enable_checkpoint_saving : bool)
         (lr_scheduler : option (Z -> float32)) (training_data : DataSet)
         (batch : Z),
    hoare (tally d)
      (batch_loop n enable_checkpoint_saving lr_scheduler training_data batch)
      (fun _ => tally d).
Proof.
  induction n as [| n IH]; intros ecs lr data batch; cbn [batch_loop].
  - apply hoare_ret.
  - apply hoare_get_bind. intros ls Hls.
    apply hoare_weaken with (P := tally d) (Q := fun _ => tally d);
      [| intros ? ->; exact Hls | auto].
    destruct (_ <? _); [| apply hoare_ret].
    eapply hoare_bind; [apply hoare_train_step_tally | intros ?; apply IH].
Qed.

(** A call on the runner that keeps the two counters keeps the tally. *)
Lemma hoare_on_runner_tally {A : Type} (m : M TrainingRunner A) :
  (forall r, step_ (m r).2 = step_ r /\
             weight_update_step_count_ (m r).2 = weight_update_step_count_ r) ->
  hoare (tally d) (on_runner m) (fun _ => tally d).
Proof.
  intros Hm ls a ls' [Hd Hsize] Hrun. unfold on_runner in Hrun.
  injection Hrun as _ <-. destruct (Hm (runner ls)) as [Hs Hw].
  unfold tally. cbn. rewrite Hs, Hw. auto.
Qed.

Lemma JoinAll_keeps_counters (r : TrainingRunner) :
  step_ (JoinAll r).2 = step_ r /\
  weight_update_step_count_ (JoinAll r).2 = weight_update_step_count_ r.
Proof.
  apply (accepts_keeps log
           (fun r' => step_ r' = step_ r /\
                      weight_update_step_count_ r' = weight_update_step_count_ r)
           free_step any_state JoinAll tt); [| auto].
  eapply acc_JoinAll with (free := fun _ _ => True); stable_inv.
Qed.

Lemma hoare_visit_shard_tally (enable_checkpoint_saving : bool)
  (lr_scheduler : option (Z -> float32)) :
  hoare (tally d) (visit_shard enable_checkpoint_saving lr_scheduler)
    (fun _ => tally d).
Proof.
  unfold visit_shard.
  apply hoare_get_bind. intros ls Hls.
  apply hoare_weaken with (P := tally d) (Q := fun _ => tally d);
    [| intros ? ->; exact Hls | auto].
  eapply hoare_bind with (R := fun _ => tally d); [hoare_same | intros _].
  destruct (CurrentDataSet _) as [data |].
  - eapply hoare_bind; [apply hoare_batch_loop_tally | intros ?; cbv beta].
    eapply hoare_bind with (R := fun _ => tally d);
      [apply hoare_on_runner_tally, JoinAll_keeps_counters | intros _].
    apply hoare_get_bind. intros ls1 Hls1.
    apply hoare_weaken with (P := tally d) (Q := fun _ => tally d);
      [| intros ? ->; exact Hls1 | auto].
    destruct (_ <? _); [hoare_same | apply hoare_ret].
  - eapply hoare_bind with (R := fun _ => tally d);
      [hoare_same | intros _; hoare_same].
Qed.

Lemma hoare_shard_loop_tally (n : nat) (enable_checkpoint_saving : bool)
  (lr_scheduler : option (Z -> float32)) :
  hoare (tally d) (shard_loop n enable_checkpoint_saving lr_scheduler)
    (fun _ => tally d).
Proof.
  induction n as [| n IH]; cbn [shard_loop].
  - apply hoare_ret.
  - eapply hoare_bind; [apply hoare_visit_shard_tally | intros ?; apply IH].
Qed.

Lemma hoare_epoch_loop_tally (fuel : nat) (num_shards_to_visit : Z)
  (enable_checkpoint_saving : bool) (lr_scheduler : option (Z -> float32)) :
  hoare (tally d)
    (epoch_loop fuel num_shards_to_visit enable_checkpoint_saving lr_scheduler)
    (fun _ => tally d).
Proof.
  induction fuel as [| fuel IH]; cbn [epoch_loop];
    apply hoare_get_bind; intros ls Hls;
    (apply hoare_weaken with (P := tally d) (Q := fun _ => tally d);
     [| intros ? ->; exact Hls | auto]);
    (destruct (_ <? _); [| apply hoare_ret]).
  - apply hoare_fail. congruence.
  - eapply hoare_bind; [apply hoare_shard_loop_tally | intros ?; cbv beta].
    eapply hoare_bind with (R := fun _ => tally d);
      [hoare_same | intros ?; apply IH].
Qed.

End TallyKept.

Lemma bind_Ret_inv {S A B : Type} (m : M S A) (k : A -> M S B)
  (s s' : S) (b : B) :
  bind m k s = (Ret b, s') ->
  exists a s1, m s = (Ret a, s1) /\ k a s1 = (Ret b, s').
Proof.
  unfold bind. destruct (m s) as [[a | | | | |] s1]; cbn; try discriminate.
  intros Hk. exists a, s1. auto.
Qed.

Lemma ORT_RETURN_IF_ERROR_Ret_inv {S : Type} (status : Status) (s s' : S) :
  ORT_RETURN_IF_ERROR status s = (Ret tt, s') -> status = OK.
Proof. destruct status; [reflexivity | discriminate]. Qed.

(** A loop that returned OK has initialised its loaders. *)
Lemma TrainingLoop_Ret_initialised (fuel : nat) (ls ls' : LoopState) :
  TrainingLoop fuel ls = (Ret tt, ls') ->
  (forall test_loader,
     test_data_loader ls = Some test_loader ->
     (InitializeDataSetIndex test_loader 0).1 = OK) /\
  (InitializeDataSetIndex (training_data_loader ls)
     (training_data_set_index_ (runner ls))).1 = OK.
Proof.
  intros Hrun. unfold TrainingLoop in Hrun.
  apply bind_Ret_inv in Hrun as (ls0 & s0 & Hget & Hrun).
  injection Hget as <- <-.
  apply bind_Ret_inv in Hrun as ([] & s1 & Htest & Hrun).
  apply bind_Ret_inv in Hrun as ([] & s2 & _ & Hrun).
  apply bind_Ret_inv in Hrun as ([] & s3 & Hinit & _).
  split; [| exact (ORT_RETURN_IF_ERROR_Ret_inv _ _ _ Hinit)].
  intros test_loader Htl. rewrite Htl in Htest.
  apply bind_Ret_inv in Htest as ([] & s4 & _ & Htest).
  exact (ORT_RETURN_IF_ERROR_Ret_inv _ _ _ Htest).
Qed.

(** X20. When [TrainingLoop] returns OK, the
    number of batches it reports is the number of accumulation steps plus
    the number of weight-update steps it reports (in [size_t]
    arithmetic): every step was either an accumulation or an update.
    Started from step zero with [num_train_steps = N] and
    [gradient_accumulation_steps = A], it has counted [N - N / A]
    accumulation steps. *)
Theorem every_step_is_counted_once (fuel : nat) (ls ls' : LoopState) :
  TrainingLoop fuel ls = (Ret tt, ls') ->
  let number_of_batches := wrap64 (step_ (runner ls') - step_ (runner ls)) in
  let weight_update_steps :=
    wrap64 (weight_update_step_count_ (runner ls')
            - weight_update_step_count_ (runner ls)) in
  let N := Parameters.num_train_steps (params_ (runner ls)) in
  let A := Parameters.gradient_accumulation_steps (params_ (runner ls)) in
  wrap64 (gradient_accumulation_step_count ls' + weight_update_steps)
  = number_of_batches /\
  (is_size_t N -> 0 <= A ->
   is_size_t (weight_update_step_count_ (runner ls)) ->
   step_ (runner ls) = 0 ->
   gradient_accumulation_step_count ls' = N - N / A).
Proof.
  intros Hrun number_of_batches weight_update_steps N A.
  destruct (TrainingLoop_Ret_initialised fuel ls ls' Hrun) as [Htest Hinit].
  destruct (TrainingLoop_prologue fuel ls Htest Hinit)
    as (ls0 & Hrunner & _ & Hcount & Hsplit).
  set (d := wrap64 (0 + weight_update_step_count_ (runner ls)
                    - step_ (runner ls))).
  assert (Hstart : tally d ls0).
  { unfold tally. rewrite Hrunner, Hcount. split; [reflexivity |].
    unfold is_size_t, SIZE_MAX. lia. }
  assert (Hend : tally d ls').
  { rewrite Hsplit in Hrun.
    refine (hoare_bind (tally d) (fun _ => tally d) (fun _ => tally d) _ _
              _ _ ls0 tt ls' Hstart Hrun).
    - apply hoare_epoch_loop_tally.
    - intros _. apply hoare_get_bind. intros ls1 Hls1.
      apply hoare_weaken with (P := tally d) (Q := fun _ => tally d);
        [| intros ? ->; exact Hls1 | auto].
      destruct (str_empty _); [apply hoare_ret |].
      apply (hoare_pure (tally d)), ORT_RETURN_IF_ERROR_pure. }
  destruct Hend as [Hd Hsize]. subst d.
  assert (Hsum : wrap64 (gradient_accumulation_step_count ls' + weight_update_steps)
                 = number_of_batches).
  { subst weight_update_steps number_of_batches.
    rewrite Z.add_comm, wrap64_add_l.
    transitivity
      (wrap64 (gradient_accumulation_step_count ls'
               + weight_update_step_count_ (runner ls') - step_ (runner ls')
               + (step_ (runner ls') - weight_update_step_count_ (runner ls))));
      [f_equal; lia |].
    rewrite (wrap64_congr _ _ _ Hd). f_equal. lia. }
  split; [exact Hsum |].
  intros HN HA Hwus Hzero.
  destruct (TrainingLoop_counts fuel ls ls' HN HA Hwus Hzero Hrun)
    as (_ & Hstep & Hupdates).
  subst weight_update_steps number_of_batches. fold N A in Hstep, Hupdates.
  rewrite Hstep, Hzero, Hupdates, Z.sub_0_r in Hsum.
  assert (Hquot : 0 <= N / A <= N).
  { unfold is_size_t in HN. destruct (Z.eq_dec A 0) as [-> | HA0].
    - rewrite Z.div_0_r. lia.
    - split; [apply Z.div_pos; lia |].
      apply Z.div_le_upper_bound; [lia |]. nia. }
  unfold is_size_t, SIZE_MAX in *.
  assert (Hw : wrap64 (wrap64 (weight_update_step_count_ (runner ls) + N / A)
                       - weight_update_step_count_ (runner ls)) = N / A).
  { unfold wrap64. rewrite Zminus_mod_idemp_l.
    replace (weight_update_step_count_ (runner ls) + N / A
             - weight_update_step_count_ (runner ls)) with (N / A) by lia.
    apply Z.mod_small. lia. }
  rewrite Hw in Hsum. rewrite (wrap64_small N) in Hsum
    by (unfold is_size_t, SIZE_MAX; lia).
  unfold wrap64 in Hsum.
  assert (Hrange : 0 <= gradient_accumulation_step_count ls' + N / A < 2 * 2 ^ 64)
    by lia.
  destruct (Z.lt_ge_cases (gradient_accumulation_step_count ls' + N / A) (2 ^ 64))
    as [Hsmall | Hbig].
  - rewrite Z.mod_small in Hsum by lia. lia.
  - exfalso.
    rewrite <- (Z.mod_unique_pos (gradient_accumulation_step_count ls' + N / A)
                  (2 ^ 64) 1
                  (gradient_accumulation_step_count ls' + N / A - 2 ^ 64))
      in Hsum by lia.
    lia.
Qed.

(** ** Run *)

(** What [TrainingLoop] never writes, however it ends. *)
Lemma TrainingLoop_keeps_round_and_params (fuel : nat) (ls : LoopState) :
  round_ (runner (TrainingLoop fuel ls).2) = round_ (runner ls) /\
  params_ (runner (TrainingLoop fuel ls).2) = params_ (runner ls).
Proof.
  apply (accepts_keeps (fun ls0 => log (runner ls0))
           (fun ls0 => round_ (runner ls0) = round_ (runner ls) /\
                       params_ (runner ls0) = params_ (runner ls))
           free_step any_state (TrainingLoop fuel) tt); [| auto].
  apply acc_TrainingLoop
    with (I_r := fun r => round_ r = round_ (runner ls) /\
                          params_ r = params_ (runner ls))
         (free := fun _ _ => True); stable_inv.
Qed.

Lemma Run_with_loader (fuel : nat) (loader : IDataLoader) (rs : RunState) :
  run_training_data_loader rs = Some loader ->
  Run fuel rs
  = (call_TrainingLoop fuel loader ;;;
     modify (fun rs1 =>
               {| run_runner :=
                    set_step_ 0
                      (set_round_ (wrap64 (round_ (run_runner rs1) + 1))
                         (run_runner rs1));
                  run_training_data_loader := run_training_data_loader rs1;
                  run_test_data_loader := run_test_data_loader rs1 |})) rs.
Proof.
  intros Hloader. unfold Run, bind at 1, get. rewrite Hloader. reflexivity.
Qed.

(** X21. [Run] advances [round_] by one (in
    [size_t] arithmetic) exactly when it was given a training loader and
    its training loop returned OK; in every other case, a failed or
    throwing loop included, [round_] is what it was.  The parameters are
    never changed, and without a training loader [Run] returns OK and
    changes nothing of the runner or of the test loader. *)
Theorem Run_counts_completed_rounds (fuel : nat) (rs : RunState) :
  let res := Run fuel rs in
  round_ (run_runner res.2)
  = match run_training_data_loader rs, res.1 with
    | Some _, Ret _ => wrap64 (round_ (run_runner rs) + 1)
    | _, _ => round_ (run_runner rs)
    end /\
  params_ (run_runner res.2) = params_ (run_runner rs) /\
  (run_training_data_loader rs = None -> res = (Ret tt, rs)).
Proof.
  cbv zeta.
  destruct (run_training_data_loader rs) as [loader |] eqn:Hloader.
  - rewrite (Run_with_loader fuel loader rs Hloader).
    unfold bind, call_TrainingLoop, modify.
    set (ls0 := {| runner := run_runner rs;
                   training_data_loader := loader;
                   test_data_loader := run_test_data_loader rs;
                   gradient_accumulation_step_count := 0;
                   epoch := 0 |}).
    destruct (TrainingLoop_keeps_round_and_params fuel ls0) as [Hround Hparams].
    change (runner ls0) with (run_runner rs) in Hround, Hparams.
    destruct (TrainingLoop fuel ls0) as [[[] | | | | |] ls'];
      cbn [fst snd] in Hround, Hparams |- *;
      cbn [propagate fst snd run_runner round_ params_ set_step_ set_round_];
      rewrite ?Hround, ?Hparams;
      (split; [reflexivity |]); (split; [reflexivity | discriminate]).
  - assert (Hnothing : Run fuel rs = (Ret tt, rs))
      by (unfold Run, bind, get; rewrite Hloader; reflexivity).
    rewrite Hnothing. repeat split.
Qed.

(** X22. When [Run], given a training loader,
    returns OK, [step_] is zero again; and if it was zero at the call,
    with [num_train_steps = N] a [size_t] value and
    [gradient_accumulation_steps = A] not negative, the count of weight
    updates has grown by [N / A]: the runner is ready for a next round of
    the same length. *)
Theorem Run_starts_the_next_round (fuel : nat) (loader : IDataLoader)
  (rs rs' : RunState) :
  run_training_data_loader rs = Some loader ->
  Run fuel rs = (Ret tt, rs') ->
  let N := Parameters.num_train_steps (params_ (run_runner rs)) in
  let A := Parameters.gradient_accumulation_steps (params_ (run_runner rs)) in
  step_ (run_runner rs') = 0 /\
  (is_size_t N -> 0 <= A ->
   is_size_t (weight_update_step_count_ (run_runner rs)) ->
   step_ (run_runner rs) = 0 ->
   weight_update_step_count_ (run_runner rs')
   = wrap64 (weight_update_step_count_ (run_runner rs) + N / A) /\
   is_size_t (weight_update_step_count_ (run_runner rs'))).
Proof.
  intros Hloader Hrun N A. unfold Run in Hrun.
  apply bind_Ret_inv in Hrun as (rs0 & s0 & Hget & Hrun).
  injection Hget as <- <-. rewrite Hloader in Hrun.
  apply bind_Ret_inv in Hrun as ([] & rs1 & Hloop & Hrun).
  injection Hrun as <-. cbn [run_runner step_ set_step_].
  split; [reflexivity |].
  intros HN HA Hwus Hzero.
  unfold call_TrainingLoop in Hloop.
  destruct (TrainingLoop fuel _) as [o ls'] eqn:Hls'. cbn in Hloop.
  injection Hloop as -> <-.
  destruct (TrainingLoop_counts fuel
              {| runner := run_runner rs;
                 training_data_loader := loader;
                 test_data_loader := run_test_data_loader rs;
                 gradient_accumulation_step_count := 0;
                 epoch := 0 |} ls' HN HA Hwus Hzero Hls')
    as (_ & _ & Hupdates).
  cbn in Hupdates |- *. rewrite Hupdates.
  split; [reflexivity | apply wrap64_is_size_t].
Qed.

End RunnerFacts.

(** ** The statements on concrete inputs *)

(** The test doubles never fail. *)
Lemma simple_collaborators_never_fail : collaborators_never_fail.
Proof.
  repeat split; reflexivity.
Qed.

Lemma simple_runner_well_configured (N A : Z) :
  0 < A -> well_configured (simple_runner N A).
Proof.
  intros HA. unfold well_configured. cbn.
  split; [lia |]. do 3 (split; [reflexivity |]). split; [exact HA |].
  split; [intros _; eexists; reflexivity |].
  split; [intros _ Hmixed; discriminate Hmixed |].
  split; [intros Hevents; exfalso; apply Hevents; reflexivity |].
  split; [right; lia |].
  split; [intros Heval; discriminate Heval |].
  intros Hscaler. exfalso. apply Hscaler. reflexivity.
Qed.

(** The simple session reports a flag for every name that is fetched. *)
Lemma find_index_lt (l : list string) (name : string) (index : nat) :
  find_index l name = Some index -> (index < List.length l)%nat.
Proof.
  revert index. induction l as [| x l IH]; intros index; cbn; [discriminate |].
  destruct (String.eqb x name).
  - intros [= <-]. lia.
  - destruct (find_index l name) as [i |]; [| discriminate].
    intros [= <-]. specialize (IH i eq_refl). lia.
Qed.

Lemma simple_session_reports_flag (name : string) : session_reports_flag name.
Proof.
  intros step feed_names feeds fetch_names index Hindex.
  exists true, []. cbn.
  destruct (lookup_lt_is_Some_2 fetch_names index (find_index_lt _ _ _ Hindex))
    as [x Hx].
  rewrite list_lookup_fmap, Hx. reflexivity.
Qed.

(** A simple loader of one shard that loads offers this shard for ever. *)
Lemma one_shard_always_loads (d : SimpleDataSet) :
  always_loads (simple_loader [Some d]).
Proof.
  intros k.
  assert (Hstay : after_shards k (simple_loader [Some d]) = simple_loader [Some d]).
  { induction k as [| k IH]; [reflexivity | exact IH]. }
  rewrite Hstay. discriminate.
Qed.

Lemma scaled_evaluating_scenario_well_configured :
  well_configured (runner scaled_evaluating_scenario).
Proof.
  unfold well_configured. cbn.
  split; [lia |]. do 3 (split; [reflexivity |]). split; [lia |].
  split; [intros _; eexists; reflexivity |].
  split; [intros _ _; split; [eexists; reflexivity | intros H; discriminate H] |].
  split; [intros Hevents; exfalso; apply Hevents; reflexivity |].
  split; [right; lia |].
  split; [intros _; split; [lia | right; lia] |].
  intros _. apply simple_session_reports_flag.
Qed.

(** C1 on four steps in mixed precision with evaluation after every
    weight update: the loop returns OK with four steps and two weight
    updates counted. *)
Lemma C1_four_steps_two_updates :
  exists ls',
    TrainingLoop 1 scaled_evaluating_scenario = (Ret tt, ls') /\
    step_ (runner ls') = 4 /\
    weight_update_step_count_ (runner ls') = 2.
Proof.
  assert (HN : is_size_t 4) by (unfold is_size_t, SIZE_MAX; lia).
  assert (Hwus : is_size_t 0) by (unfold is_size_t, SIZE_MAX; lia).
  assert (HA : 0 < 2) by lia.
  destruct (C1_training_loop_step_counts 1 scaled_evaluating_scenario HN HA
              eq_refl Hwus eq_refl)
    as (_ & _ & Hcompletes).
  apply Hcompletes.
  - exact simple_collaborators_never_fail.
  - exact scaled_evaluating_scenario_well_configured.
  - intros test_loader [= <-]. split; [reflexivity |].
    intros _ _. apply one_shard_always_loads.
  - reflexivity.
  - vm_compute. discriminate.
Defined.

(** The simple loss scaler keeps the contract of [SaveState()/LoadState(s)]
    in every state whose two numbers are [size_t] values: whatever scaler
    loads the saved string holds the saved pair afterwards. *)
Lemma FromString_after_a_blank (s : string) :
  FromString (String " "%char s) = FromString s.
Proof. reflexivity. Qed.

Lemma simple_scaler_restores_the_pair (saved current : SimpleLossScaler) :
  is_size_t (loss_scale_ saved) ->
  is_size_t (stable_steps_ saved) ->
  SimpleLossScaler_load current (SimpleLossScaler_save saved)
  = (OK, {| loss_scale_input_name_ := loss_scale_input_name_ current;
            loss_scale_ := loss_scale_ saved;
            stable_steps_ := stable_steps_ saved |}).
Proof.
  intros Hscale Hsteps. unfold SimpleLossScaler_load, SimpleLossScaler_save.
  rewrite (extract_size_t_to_string _ _ Hscale).
  change (read_digits (String " "%char (to_string (stable_steps_ saved))) 0
            (loss_scale_ saved))
    with (O, loss_scale_ saved, String " "%char (to_string (stable_steps_ saved))).
  cbn [fst snd].
  destruct (Z.leb_spec (loss_scale_ saved) SIZE_MAX) as [_ | Hgt];
    [| destruct Hscale; lia].
  rewrite FromString_after_a_blank, (FromString_to_string _ Hsteps).
  reflexivity.
Qed.

Lemma simple_scaler_state_is_restored (saved : SimpleLossScaler) :
  is_size_t (loss_scale_ saved) ->
  is_size_t (stable_steps_ saved) ->
  state_is_restored saved.
Proof.
  intros Hscale Hsteps current. eexists.
  split; [apply (simple_scaler_restores_the_pair saved current Hscale Hsteps) |].
  split; reflexivity.
Qed.

(** C2 on a checkpoint of a runner in mixed precision, loaded by a fresh
    runner: the fresh scaler, at 1.0f with no stable step, comes out with
    the saved scale and the saved seven stable steps, and the loaded
    runner writes the properties that it was given. *)
Lemma C2_checkpoint_loaded_by_fresh_runner :
  exists loaded,
    LoadCheckpointProperties
      (SaveCheckpointProperties checkpointed_runner ∅).2 fresh_scaled_runner
    = Ret loaded /\
    step_ loaded = 4 /\
    round_ loaded = 1 /\
    weight_update_step_count_ loaded = 2 /\
    training_data_set_index_ loaded = 3 /\
    loss_scaler_ loaded
    = Some {| loss_scale_input_name_ := "loss_scale";
              loss_scale_ := 1199570944;
              stable_steps_ := 7 |} /\
    SaveCheckpointProperties loaded ∅
    = SaveCheckpointProperties checkpointed_runner ∅.
Proof.
  assert (Hsize : forall n, 0 <= n < 2 ^ 32 -> is_size_t n)
    by (intros n Hn; unfold is_size_t, SIZE_MAX; lia).
  assert (Hsaved_scaler :
            loss_scaler_ checkpointed_runner
            = Some {| loss_scale_input_name_ := "loss_scale";
                      loss_scale_ := 1199570944;
                      stable_steps_ := 7 |}) by reflexivity.
  assert (Hfresh_scaler :
            loss_scaler_ fresh_scaled_runner
            = Some {| loss_scale_input_name_ := "loss_scale";
                      loss_scale_ := float_1_0;
                      stable_steps_ := 0 |}) by reflexivity.
  assert (Hpresent : loss_scaler_ fresh_scaled_runner <> None ->
                     loss_scaler_ checkpointed_runner <> None)
    by (intros _; rewrite Hsaved_scaler; discriminate).
  assert (Hcontract : forall ls,
             loss_scaler_ checkpointed_runner = Some ls -> state_is_restored ls).
  { intros ls Hls. rewrite Hsaved_scaler in Hls. injection Hls as <-.
    apply simple_scaler_state_is_restored; apply Hsize; cbn; lia. }
  pose proof (C2_checkpoint_properties_round_trip checkpointed_runner
                fresh_scaled_runner ∅
                (Hsize 4 ltac:(lia)) (Hsize 1 ltac:(lia))
                (Hsize 2 ltac:(lia)) (Hsize 3 ltac:(lia)) Hpresent Hcontract)
    as Hround_trip.
  cbv zeta in Hround_trip.
  destruct Hround_trip
    as (_ & loaded & Hload & Hstep & Hround & Hwus & Hindex & Hscaler & Hresave).
  exists loaded. rewrite Hfresh_scaler in Hscaler.
  destruct Hscaler as (ls & restored & Hsaved & _ & Hrestore & Hloaded & _ & _).
  rewrite Hsaved_scaler in Hsaved. injection Hsaved as <-.
  do 5 (split; [assumption |]). split.
  - rewrite Hloaded. f_equal.
    vm_compute in Hrestore. injection Hrestore as <-. reflexivity.
  - apply Hresave. intros _. rewrite Hfresh_scaler. discriminate.
Defined.

(** C3 on the first of two stages, with a loss scaler at 65536.0f and two
    event names: the evaluation feeds hold 1.0f and two sentinels. *)
Lemma C3_evaluation_feeds_of_event_stage :
  PrepareFeedNamesAndFeeds event_stage_runner EvaluateStep
    (simple_loader [Some {| total_batch := 4 |}]) {| total_batch := 4 |} None 2
  = (Ret tt,
     (["input"; "loss_scale"; "forward_waited"; "backward_recorded"],
      [OtherValue 2; FloatTensor [1] [float_1_0];
       Int64Scalar (-1); Int64Scalar (-1)])) /\
  exists data_names data_values lr_names lr_values fed_events,
    ["input"; "loss_scale"; "forward_waited"; "backward_recorded"]
    = data_names ++ (evaluation_loss_scale_feed event_stage_runner).1
      ++ lr_names ++ fed_events /\
    [OtherValue 2; FloatTensor [1] [float_1_0];
     Int64Scalar (-1); Int64Scalar (-1)]
    = data_values ++ (evaluation_loss_scale_feed event_stage_runner).2
      ++ lr_values ++ sentinel_feeds fed_events /\
    fed_events = ["forward_waited"; "backward_recorded"].
Proof.
  split; [reflexivity |].
  destruct (C3_evaluation_feeds (DL := SimpleLoader_I) event_stage_runner
              (simple_loader [Some {| total_batch := 4 |}])
              {| total_batch := 4 |} None 2 (Ret tt)
              ["input"; "loss_scale"; "forward_waited"; "backward_recorded"]
              [OtherValue 2; FloatTensor [1] [float_1_0];
               Int64Scalar (-1); Int64Scalar (-1)])
    as (data_names & data_values & lr_names & lr_values & fed_events
        & Hnames & Hfeeds & _ & _ & Hfed);
    [reflexivity | discriminate |].
  exists data_names, data_values, lr_names, lr_values, fed_events.
  split; [exact Hnames |]. split; [exact Hfeeds |].
  destruct Hfed as [[_ ->] | (msg & Hmsg & _)]; [reflexivity | discriminate Hmsg].
Defined.

(** C5 on the runner of the four-step scenario: only the accumulation
    output is fetched. *)
Lemma C5_accumulation_fetch_of_simple_runner :
  PrepareFetchNamesAndFetches (simple_runner 4 2) GradientAccumulateStep
  = (Ret tt, ["accumulated"]).
Proof.
  destruct (C5_accumulation_fetch_names (simple_runner 4 2)) as (Hrun & _).
  - intros _. eexists. reflexivity.
  - cbn. lia.
  - exact Hrun.
Defined.

(** C5, as stated, fails: with one accumulation step per update and no
    event outputs the list of accumulation fetches is empty, and the
    function returns the allowed fetch name ["predictions"] instead. *)
Lemma C5_counterexample :
  PrepareFetchNamesAndFetches bare_stage_runner GradientAccumulateStep
  = (Ret tt, ["predictions"]) /\
  accumulation_fetch_names bare_stage_runner = [] /\
  (PrepareFetchNamesAndFetches bare_stage_runner GradientAccumulateStep).2
  <> accumulation_fetch_names bare_stage_runner.
Proof. vm_compute. repeat split. discriminate. Qed.

(** C6 on the first of two stages that has an error callback: no call of
    it is logged. *)
Lemma C6_first_stage_never_reports :
  Parameters.error_function (params_ bare_stage_runner) = true /\
  (forall feed_names fetch_names feeds,
     exists es,
       log (RunWithUpdate feed_names fetch_names feeds bare_stage_runner).2
       = log bare_stage_runner ++ es /\
       Forall (fun e => ~ is_error_callback e) es) /\
  (forall data_loader : SimpleLoader,
     exists es,
       log (Evaluate data_loader bare_stage_runner).2
       = log bare_stage_runner ++ es /\
       Forall (fun e => ~ is_error_callback e) es).
Proof.
  split; [reflexivity |].
  destruct (C6_error_callback_needs_loss bare_stage_runner)
    as (Hupdate & Hevaluate & _).
  - right. cbn. lia.
  - split; [exact Hupdate | exact Hevaluate].
Defined.

(** C7 on five parameter sets: five steps with an update every second
    step; ZeRO partitioning without NCCL; four steps with an update every
    second step; four steps with [gradient_accumulation_steps = -2], which
    converts to [2^64 - 2] and does not divide 4; and [2^64 - 3] steps with
    [gradient_accumulation_steps = -3], which converts to [2^64 - 3]. *)
Lemma C7_constructor_on_five_parameter_sets :
  (exists msg, TrainingRunner_ctor (simple_params 5 2) = Thrown msg) /\
  (exists msg, TrainingRunner_ctor zero_stage_params = Thrown msg) /\
  (exists r, TrainingRunner_ctor (simple_params 4 2) = Ret r /\ step_ r = 0) /\
  (exists msg, TrainingRunner_ctor (simple_params 4 (-2)) = Thrown msg) /\
  (exists r, TrainingRunner_ctor (simple_params (2 ^ 64 - 3) (-3)) = Ret r /\
             step_ r = 0).
Proof.
  split; [| split; [| split; [| split]]].
  - destruct (C7_constructor_checks (simple_params 5 2)) as (_ & Hdivides & _).
    apply Hdivides; vm_compute; discriminate.
  - destruct (C7_constructor_checks zero_stage_params) as (_ & _ & Hzero & _).
    apply Hzero; [vm_compute; discriminate | reflexivity].
  - destruct (C7_constructor_checks (simple_params 4 2)) as (_ & _ & _ & Hok).
    destruct Hok as (r & Hr & _ & Hstep & _).
    + split; [reflexivity |]. split; [left |]; reflexivity.
    + vm_compute; discriminate.
    + vm_compute; discriminate.
    + reflexivity.
    + left. reflexivity.
    + exists r. split; assumption.
  - destruct (C7_constructor_checks (simple_params 4 (-2)))
      as (_ & Hdivides & _).
    apply Hdivides; vm_compute; discriminate.
  - destruct (C7_constructor_checks (simple_params (2 ^ 64 - 3) (-3)))
      as (_ & _ & _ & Hok).
    destruct Hok as (r & Hr & _ & Hstep & _).
    + split; [reflexivity |]. split; [left |]; reflexivity.
    + vm_compute; discriminate.
    + vm_compute; discriminate.
    + reflexivity.
    + left. reflexivity.
    + exists r. split; assumption.
Defined.

(** C8 on a dispatch at step 3 of the first of two stages: slot 1 is
    joined, its four buffers are assigned, the thread is launched on it
    and runs the session on the names given. *)
Lemma C8_dispatch_of_step_3_on_two_slots :
  pool_matches_pipeline event_stage_runner /\
  step_ event_stage_runner = 3 /\
  worker_slot event_stage_runner = 1 /\
  log (RunWithoutUpdate ["input"] ["accumulated"] [OtherValue 0] 0
         event_stage_runner).2
  = [ EvJoin 1; EvAssign 1 buf_feeds; EvAssign 1 buf_feed_names;
      EvAssign 1 buf_fetch_names; EvAssign 1 buf_fetches;
      EvLaunch 1 (TrainingRun 3);
      EvSessionRun (TrainingRun 3) true ["input"] ["accumulated"] ] /\
  exists es,
    log (RunWithUpdate ["input"] ["predictions"] [OtherValue 0]
           event_stage_runner).2
    = [ EvJoin 1; EvAssign 1 buf_feed_names; EvAssign 1 buf_feeds;
        EvAssign 1 buf_fetch_names; EvAssign 1 buf_fetches;
        EvLaunch 1 (TrainingRun 3);
        EvSessionRun (TrainingRun 3) false ["input"] ["predictions"] ] ++ es.
Proof.
  assert (Hpool : pool_matches_pipeline event_stage_runner)
    by (split; [cbn; lia | repeat split]).
  destruct (C8_join_before_overwrite (DL := SimpleLoader_I))
    as (_ & _ & _ & Hupdate & Haccumulate).
  split; [exact Hpool |]. split; [reflexivity |]. split; [reflexivity |]. split.
  - destruct (Haccumulate ["input"] ["accumulated"] [OtherValue 0] 0
                event_stage_runner Hpool) as (_ & Hlog).
    exact Hlog.
  - destruct (Hupdate ["input"] ["predictions"] [OtherValue 0]
                event_stage_runner Hpool) as (_ & es & Hlog).
    exists es. exact Hlog.
Defined.


(** C10 on an evaluation by the first of two stages, which owns none of
    the user-declared fetch names: every allowed name is fetched. *)
Lemma C10_evaluation_of_bare_stage :
  PrepareFetchNamesAndFetches bare_stage_runner EvaluateStep
  = (Ret tt, ["predictions"]).
Proof.
  destruct (C10_fetch_fallback bare_stage_runner EvaluateStep [])
    as (Hrun & _); [reflexivity |].
  exact Hrun.
Defined.

(** ** The end-to-end scenario *)

(** C4, as first stated, fails at step 1: the one session run of step 1
    is the weight update, fetching the user-declared ["loss"]; it does
    not fetch the gradient-accumulation signal ["accumulated"], which
    only step 0 fetches. *)
Lemma C4_step_1_fetches_user_outputs :
  opt_graph_outputs_ (runner four_step_scenario) !! GradientAccumulation
  = Some "accumulated" /\
  fetched_at 0 (log (runner (TrainingLoop 1 four_step_scenario).2))
  = [["accumulated"]] /\
  fetched_at 1 (log (runner (TrainingLoop 1 four_step_scenario).2))
  = [["loss"]] /\
  fetched_at 1 (log (runner (TrainingLoop 1 four_step_scenario).2))
  <> [["accumulated"]].
Proof. vm_compute. repeat split. discriminate. Qed.

(** C4, amended. In the run with [num_train_steps = 4],
    [gradient_accumulation_steps = 2], one stage and one shard of four
    batches, the loop returns OK after four session runs: steps 0 and 2
    accumulate, fetching only the gradient-accumulation signal; steps 1
    and 3 update the weights, fetching the user-declared outputs; at the
    end [step_] is 4, [weight_update_step_count_] is 2 and two
    accumulation steps have been counted. *)
Theorem C4_four_step_scenario :
  let ls' := (TrainingLoop 1 four_step_scenario).2 in
  (TrainingLoop 1 four_step_scenario).1 = Ret tt /\
  training_session_runs (log (runner ls'))
  = [ (0, true, ["accumulated"]); (1, false, ["loss"]);
      (2, true, ["accumulated"]); (3, false, ["loss"]) ] /\
  Parameters.fetch_names (params_ (runner four_step_scenario)) = ["loss"] /\
  opt_graph_outputs_ (runner four_step_scenario) !! GradientAccumulation
  = Some "accumulated" /\
  step_ (runner ls') = 4 /\
  weight_update_step_count_ (runner ls') = 2 /\
  gradient_accumulation_step_count ls' = 2.
Proof. cbv zeta. repeat split; vm_compute; reflexivity. Qed.

(** ** The further properties on concrete inputs *)

Lemma run_of_outcome {S A : Type} (res : Outcome A * S) (o : Outcome A) :
  res.1 = o -> res = (o, res.2).
Proof. destruct res as [o' s]. cbn. intros ->. reflexivity. Qed.

Lemma four_step_scenario_returns_OK :
  TrainingLoop 1 four_step_scenario
  = (Ret tt, (TrainingLoop 1 four_step_scenario).2).
Proof. apply run_of_outcome. vm_compute. reflexivity. Qed.

Lemma four_step_run_returns_OK :
  Run 1 four_step_run = (Ret tt, (Run 1 four_step_run).2).
Proof. apply run_of_outcome. vm_compute. reflexivity. Qed.

(** X1 on 1024 and 1025. *)
Lemma FromString_reads_back_1024 :
  FromString (to_string 1024) = Some 1024 /\
  to_string 1024 <> to_string 1025.
Proof.
  assert (Hsize : forall n, 0 <= n < 2000 -> is_size_t n)
    by (intros n Hn; unfold is_size_t, SIZE_MAX; lia).
  destruct (FromString_reads_back_to_string 1024 1025 (Hsize 1024 ltac:(lia)))
    as [Hread Hinj].
  split; [exact Hread |].
  intros Heq. specialize (Hinj (Hsize 1025 ltac:(lia)) Heq). lia.
Defined.

(** X2 on ["x1"] and ["12a"]. *)
Lemma FromString_rejects_x1_and_12a :
  FromString "x1" = None /\ FromString "12a" = None.
Proof.
  destruct FromString_rejects_what_is_not_a_number as (_ & Hfirst & Hlast).
  split.
  - apply Hfirst; [reflexivity | reflexivity | discriminate | discriminate].
  - apply (Hlast 12 "a"%char EmptyString);
      [unfold is_size_t, SIZE_MAX; lia | reflexivity].
Defined.

(** X3 on the largest [size_t] value. *)
Lemma FromString_of_the_largest_size_t :
  is_size_t 18446744073709551615.
Proof.
  apply (FromString_yields_a_size_t "18446744073709551615").
  vm_compute. reflexivity.
Defined.

(** X4 on an empty property
    map. *)
Lemma LoadCheckpointProperties_of_no_properties :
  exists msg, LoadCheckpointProperties ∅ (simple_runner 4 2) = Returned msg.
Proof.
  apply (LoadCheckpointProperties_needs_the_counters ∅ (simple_runner 4 2) k_step).
  - left. reflexivity.
  - left. apply lookup_empty.
Defined.

(** X5 on a checkpoint
    saved in plain precision and loaded by a runner in mixed precision. *)
Lemma LoadCheckpointProperties_of_a_plain_checkpoint :
  exists msg,
    LoadCheckpointProperties
      (SaveCheckpointProperties (simple_runner 4 2) ∅).2 fresh_scaled_runner
    = Returned msg.
Proof.
  destruct (LoadCheckpointProperties_needs_the_scaler_state
              (simple_runner 4 2) fresh_scaled_runner ∅) as [_ Hplain].
  - discriminate.
  - apply Hplain. reflexivity.
Defined.

(** X6 on four steps and on five steps with an
    update every second step, on four steps with
    [gradient_accumulation_steps = -2], and on a negative number of
    pipeline stages. *)
Lemma constructor_on_four_parameter_sets :
  (exists r, TrainingRunner_ctor (simple_params 4 2) = Ret r /\
             WorkerPool.workers (pipeline_worker_pool_ r) = [false]) /\
  (exists msg, TrainingRunner_ctor (simple_params 5 2) = Thrown msg) /\
  (exists msg, TrainingRunner_ctor (simple_params 4 (-2)) = Thrown msg) /\
  (exists msg, TrainingRunner_ctor negative_pipeline_params = Thrown msg).
Proof.
  split; [| split; [| split]].
  - pose proof (constructor_accepts_exactly (simple_params 4 2)) as Hctor.
    cbv zeta in Hctor.
    destruct Hctor as (_ & Haccepts & _); [vm_compute; discriminate |].
    destruct Haccepts as (r & Hr & Hworkers & _).
    + split; [vm_compute; discriminate |].
      split; [| split; [left |]; reflexivity].
      split; [reflexivity |]. split; [left; reflexivity |].
      repeat split.
    + exists r. split; [exact Hr | exact Hworkers].
  - pose proof (constructor_accepts_exactly (simple_params 5 2)) as Hctor.
    cbv zeta in Hctor.
    destruct Hctor as (_ & _ & Hrejects); [vm_compute; discriminate |].
    apply Hrejects. intros (_ & _ & _ & Hdivides). discriminate Hdivides.
  - pose proof (constructor_accepts_exactly (simple_params 4 (-2))) as Hctor.
    cbv zeta in Hctor.
    destruct Hctor as (_ & _ & Hrejects); [vm_compute; discriminate |].
    apply Hrejects. intros (_ & _ & _ & Hdivides). discriminate Hdivides.
  - pose proof (constructor_accepts_exactly negative_pipeline_params) as Hctor.
    cbv zeta in Hctor.
    destruct Hctor as (_ & _ & Hrejects); [vm_compute; discriminate |].
    apply Hrejects. intros (Hpool & _). vm_compute in Hpool.
    apply Hpool. reflexivity.
Defined.

(** X7 on a weight update of the first of two stages. *)
Lemma training_feeds_of_event_stage :
  PrepareFeedNamesAndFeeds event_stage_runner ModelUpdateStep
    (simple_loader [Some {| total_batch := 4 |}]) {| total_batch := 4 |} None 2
  = (Ret tt,
     training_feeds event_stage_runner
       (simple_loader [Some {| total_batch := 4 |}]) {| total_batch := 4 |}
       None 2).
Proof.
  apply (training_step_feeds (DL := SimpleLoader_I)).
  - discriminate.
  - cbn. lia.
  - intros _. split; [cbn; lia |]. split; [cbn; lia |].
    intros [Hstep _]. vm_compute in Hstep. discriminate Hstep.
Defined.

(** X8 on an evaluation of the first of two stages. *)
Lemma feeds_of_event_stage_are_aligned :
  let res := PrepareFeedNamesAndFeeds event_stage_runner EvaluateStep
               (simple_loader [Some {| total_batch := 4 |}])
               {| total_batch := 4 |} None 2 in
  List.length res.2.1 = List.length res.2.2.
Proof.
  cbv zeta.
  apply (feeds_stay_aligned (DL := SimpleLoader_I) event_stage_runner
           EvaluateStep (simple_loader [Some {| total_batch := 4 |}])
           {| total_batch := 4 |} None 2 (Ret tt));
    [reflexivity | discriminate].
Defined.

(** X9 on one stage whose context names two
    events. *)
Lemma stray_event_names_are_an_error :
  exists msg,
    (PrepareFeedNamesAndFeeds stray_event_runner ModelUpdateStep
       (simple_loader [Some {| total_batch := 4 |}]) {| total_batch := 4 |}
       None 2).1
    = Returned msg.
Proof.
  eexists.
  apply (event_name_needs_a_pipeline (DL := SimpleLoader_I)).
  - cbn. lia.
  - discriminate.
  - cbn. lia.
Defined.

(** X10 on a weight update of the first of two
    stages, which owns none of the user-declared fetch names. *)
Lemma update_fetches_of_bare_stage :
  PrepareFetchNamesAndFetches bare_stage_runner ModelUpdateStep
  = (Ret tt, ["predictions"]).
Proof.
  destruct (pipelined_fetches_are_allowed bare_stage_runner ModelUpdateStep)
    as [Hrun _].
  - cbn. lia.
  - discriminate.
  - exact Hrun.
Defined.

(** X11 on a runner that accumulates
    gradients and whose optimizer outputs were not recorded. *)
Lemma accumulation_without_optimizer_outputs :
  exists msg,
    PrepareFetchNamesAndFetches
      (set_opt_graph_outputs_ ∅ (simple_runner 4 2)) GradientAccumulateStep
    = (Returned msg, []).
Proof.
  destruct (missing_optimizer_output_is_an_error
              (set_opt_graph_outputs_ ∅ (simple_runner 4 2)))
    as (_ & _ & Haccumulate).
  eexists. apply Haccumulate; [cbn; lia | apply lookup_empty].
Defined.

(** X12 on one stage in mixed
    precision: an overflow resets the scaler's count of stable steps. *)
Lemma overflow_resets_the_stable_steps :
  exists r',
    update_loss_scaler ["loss"; "all_finite"]
      [OtherValue 0; BoolTensor [false]] mixed_precision_runner
    = (Ret tt, r') /\
    loss_scaler_ r'
    = Some {| loss_scale_input_name_ := "loss_scale";
              loss_scale_ := 1199570944;
              stable_steps_ := 0 |}.
Proof.
  destruct (loss_scaler_follows_the_overflow_flag mixed_precision_runner
              {| loss_scale_input_name_ := "loss_scale";
                 loss_scale_ := 1199570944;
                 stable_steps_ := 5 |}
              "all_finite" [OtherValue 0; BoolTensor [false]])
    as (fetch_names & index & _ & Hnames & Hindex & _ & Hupdate & _).
  - cbn. lia.
  - reflexivity.
  - reflexivity.
  - reflexivity.
  - intros Hadasum. discriminate Hadasum.
  - assert (Hfetch_names : fetch_names = ["loss"; "all_finite"])
      by (rewrite Hnames; reflexivity).
    subst fetch_names.
    assert (Hone : index = 1%nat)
      by (vm_compute in Hindex; injection Hindex as <-; reflexivity).
    subst index.
    eexists. split; [apply (Hupdate false []); reflexivity | reflexivity].
Defined.

(** X14 on one stage with the failing session:
    the update throws; the accumulation returns the next count with
    [step_] at 1, and the process has ended when slot 0 is joined. *)
Lemma failing_session_in_one_stage :
  (RunWithUpdate (SE := FailingSession_I) [] [] [] (simple_runner 4 2)).1
  = Thrown "session failed" /\
  (RunWithoutUpdate (SE := FailingSession_I) [] [] [] 0 (simple_runner 4 2)).1
  = Ret 1 /\
  step_ (RunWithoutUpdate (SE := FailingSession_I) [] [] [] 0
           (simple_runner 4 2)).2 = 1 /\
  (JoinAll (RunWithoutUpdate (SE := FailingSession_I) [] [] [] 0
              (simple_runner 4 2)).2).1
  = Terminated "session failed".
Proof.
  destruct (failing_session_run_is_fatal (SE := FailingSession_I)
              "session failed" (simple_runner 4 2) [] [] [] 0)
    as (Hupdate & Hret & Hstep & _ & _ & Hjoin).
  - intros tag opt feed_names feeds fetch_names. reflexivity.
  - split; [cbn; lia |]. repeat split.
  - split; [exact Hupdate |]. split; [exact Hret |].
    split; [exact Hstep | exact Hjoin].
Defined.

(** X15 on the four-step scenario. *)
Lemma four_step_scenario_leaves_no_thread :
  no_thread_outstanding (runner (TrainingLoop 1 four_step_scenario).2).
Proof.
  destruct (threads_left_outstanding (DL := SimpleLoader_I)
              (SE := SimpleSession_I)) as (_ & _ & Hloop).
  apply (Hloop 1%nat four_step_scenario).
  - repeat constructor.
  - exact four_step_scenario_returns_OK.
Defined.

(** X17 on a loader whose shard
    failed to load. *)
Lemma evaluation_of_a_failed_shard :
  (Evaluate (simple_loader [None]) (simple_runner 4 2)).1 = Undefined.
Proof.
  apply (Evaluate_dereferences_a_missing_shard (DL := SimpleLoader_I)
           (SE := SimpleSession_I)).
  - reflexivity.
  - reflexivity.
  - discriminate.
  - vm_compute. reflexivity.
Defined.



(** X20 on the four-step scenario. *)
Lemma four_step_scenario_counts_two_accumulations :
  let ls' := (TrainingLoop 1 four_step_scenario).2 in
  wrap64 (gradient_accumulation_step_count ls'
          + wrap64 (weight_update_step_count_ (runner ls') - 0))
  = wrap64 (step_ (runner ls') - 0) /\
  gradient_accumulation_step_count ls' = 2.
Proof.
  cbv zeta.
  destruct (every_step_is_counted_once 1 four_step_scenario _
              four_step_scenario_returns_OK) as [Hsum Hcount].
  split; [exact Hsum |].
  apply Hcount.
  - unfold is_size_t, SIZE_MAX. cbn. lia.
  - cbn. lia.
  - unfold is_size_t, SIZE_MAX. cbn. lia.
  - reflexivity.
Defined.

(** X21 without a training loader. *)
Lemma Run_without_training_loader :
  Run 1 {| run_runner := simple_runner 4 2;
           run_training_data_loader := None;
           run_test_data_loader := None |}
  = (Ret tt, {| run_runner := simple_runner 4 2;
                run_training_data_loader := None;
                run_test_data_loader := None |}).
Proof.
  destruct (Run_counts_completed_rounds (DL := SimpleLoader_I)
              (SE := SimpleSession_I) 1
              {| run_runner := simple_runner 4 2;
                 run_training_data_loader := None;
                 run_test_data_loader := None |}) as (_ & _ & Hnothing).
  apply Hnothing. reflexivity.
Defined.

(** X22 on the four-step scenario. *)
Lemma four_step_run_is_ready_for_the_next_round :
  let r' := run_runner (Run 1 four_step_run).2 in
  step_ r' = 0 /\ weight_update_step_count_ r' = 2.
Proof.
  cbv zeta.
  destruct (Run_starts_the_next_round (DL := SimpleLoader_I) 1
              (simple_loader [Some {| total_batch := 4 |}])
              four_step_run _ eq_refl four_step_run_returns_OK)
    as [Hstep Hupdates].
  split; [exact Hstep |].
  destruct Hupdates as [Hcount _].
  - unfold is_size_t, SIZE_MAX. cbn. lia.
  - cbn. lia.
  - unfold is_size_t, SIZE_MAX. cbn. lia.
  - reflexivity.
  - exact Hcount.
Defined.
